(* ===== verification/_CoqProject ===== *)
-Q . S2P
Prelude.v
Bytes.v
RustStd.v
Json.v
Encoder.v
Bridge.v
WireInst.v
Client.v
BridgeSizes.v
BridgeDesc.v
DebugBuild.v
ClientBuffer.v
Crates.v
DriverConfig.v
Schema.v
Cache.v
Kmod.v
KmodLocks.v
Transformer.v
TransformerSpec.v
TransformerProps.v
DriverMain.v
DriverStream.v
DriverInstall.v
DriverLife.v
Logger.v
JournalWatcher.v
JournalRun.v
ScanEvents.v
Updater.v
Detector.v
ScanJobs.v
Clamav.v
RaspOs.v
RaspProcess.v
RaspRuntime.v
RaspServer.v
RaspHub.v
RaspManager.v
RaspThread.v
RaspPlugin.v
RaspMonitor.v
RaspLife.v
RaspEntry.v
RaspStart.v
Honeypot.v
ScanPlugin.v
ScanFull.v
ScanCli.v
