(* ===== verification/Prelude.v ===== *)
(** * Elkeid: a verification development of the Rust plugins

    Elkeid is a host intrusion detection system.  An agent starts plugins, small
    programs that watch the host and report records to it over a pipe.  This
    library models the Rust plugins and their shared library, and proves what
    they send, what they filter, how they recover and where they do not.

    ** The program and the files that model it

    - The plugin library (src/plugins/lib/rust/src).  [Bridge] is bridge.rs: the
      protobuf messages [Record], [Payload] and [Task], merged, sized and written
      against an interface of the protobuf crate ([CodedInputStream],
      [CodedOutputStream], with their laws); [WireInst] is an instance of that
      interface.  [BridgeSizes] adds the cells of the cached sizes and the accessors,
      [BridgeDesc] the schema the generated file carries.  [Client] is lib.rs: [send_record], [send_records], [receive];
      [decode_stream] is the reader at the other end.  [ClientBuffer] is its buffer,
      the flush thread, the drop and the signal thread.  [Logger] is logger.rs:
      lines, rotation, remote records and the cleanup thread.  [DebugBuild] is the debug
      feature: [Client] with a line of JSON per record, and json_encode of the driver.
    - The driver plugin (src/plugins/driver/src).  [DriverConfig] and [Schema] are
      config.rs and transformer/schema.rs.  [Encoder] is the frame encoder of
      transformer.rs, [Transformer] the rest of it: [transform] with each arm of
      its match, over the caches of [Cache] (transformer/cache.rs) and the module
      control of [Kmod] (kmod.rs).  [TransformerSpec] and [TransformerProps] hold
      what is proved of it.  [KmodLocks] is the order in which the threads take
      the locks of a [Kmod].  [DriverInstall] is check_crash, download, install and
      the opening of the module (kmod.rs, utils.rs).  [DriverMain] is main.rs: the
      loops of the record and the task thread; [DriverStream] is the heartbeat
      (kmod.rs) and the interleaving of the threads that share the pipe;
      [DriverLife] is how main starts, joins and ends these threads and removes the
      kernel module.
    - The journal watcher (src/plugins/journal_watcher).  [JournalWatcher] is the
      grammar of sshd.pest as a parser, and the loop of main.rs over the lines;
      [JournalRun] is the choice of the source, the child process and both threads.
    - The scanner (src/plugins/scanner/src).  [ScanEvents] is the reported
      structures and their records, the path filter and the configured lists
      (detector.rs, fulldiskscan.rs, filter.rs, configs.rs); [Updater] is the
      database manager (model/engine/clamav/updater.rs); [Detector] is the
      classification of a scan, the worker and the receiving thread (detector.rs,
      lib.rs).  [ScanJobs] is the periodic scans and the full scan
      (model/functional/cronjob.rs, fulldiskscan.rs), [ScanFull] the threads of the
      full scan and their channel; [Clamav] is the engine over libclamav
      (model/engine/clamav/mod.rs, config.rs); [Honeypot] is the file monitor and the
      honeypots (model/functional/fmonitor.rs, anti_ransom.rs).  [ScanPlugin] is the
      program (bin/scanner_plugin.rs): its start and the threads that share the task
      queue; [ScanCli] is the command line tool (bin/scanner_cli.rs).
    - The rasp plugin (src/rasp).  It finds processes of known runtimes, attaches a
      probe to them and passes messages between the probes and the agent.
      [RaspOs] is the host (a call and its answer, recorded in order) and child
      processes (librasp/src/lib.rs); [RaspProcess] the data of a process
      (librasp/src/process.rs); [RaspRuntime] the filters and the five runtimes
      (librasp/src/runtime.rs, jvm.rs, nodejs.rs, golang.rs, cpython.rs, php.rs,
      settings.rs); [RaspServer] the messages, the child process of server mode and
      a connection (rasp_server/src/proto.rs, utils.rs, process_mode.rs, comm.rs);
      [RaspHub] the socket server (comm.rs: start_bind) with the pairs, tasks and
      connections that share them;
      [RaspManager] the manager of name spaces, servers and configurations
      (librasp/src/manager.rs, comm.rs); [RaspThread] that manager, its channel and
      the socket server in one process (thread mode); [RaspPlugin] messages, filter, reports and
      operations (plugin/src/message.rs, filter.rs, process.rs, utils.rs, report.rs,
      operation.rs); [RaspMonitor] the threads as turns on one state
      (plugin/src/monitor.rs), any order of which is a run; [RaspLife] where these
      threads wait for each other and how they are joined; [RaspEntry] the settings
      and the start of the binaries (plugin/src/config.rs, rasp_server/src/main.rs,
      ns.rs, thread_mode.rs, librasp/src/main.rs); [RaspStart] the lock, the cgroup and
      the logger of the plugin (plugin/src/main.rs), with the lock of the scanner.
    - [Bytes] and [RustStd] are the parts of Rust's standard library the code
      uses; [Crates] are the interfaces of third-party crates and of the
      operating system, with list-based instances of the caches.  [Json] is the
      interface of serde_json, and a printer and parser of JSON that meet its laws.

    ** How code becomes definitions

    A function that can fail gives an [outcome]: a value, an error, or a panic,
    which ends its thread and is kept apart.  Code that changes state is in the
    state monad [SM] over an explicit state (a record with the fields of the Rust
    structure), whose bind keeps the state of an early return.  Bytes are
    [Byte.byte]; integers are [Z] with the width written where it wraps
    ([wrap_u32], [wrap_u64]); panics of index and slice operations are explicit.
    A [HashMap] is a [gmap], and where the code iterates over one the order is a
    parameter.  What the environment answers (clock, files, processes, network)
    is a world that calls advance, or a value given to each call.  Code outside
    src/ is a class without definition whose laws, where a theorem needs them, are
    a second class with an instance: protobuf, LRU and TTL caches, walkdir,
    libclamav, regex, serde_json, and the host of the rasp plugin.

    ** What the theorems show

    - Frames: [protobuf_encode_correct], [encode_varint_correct] and
      [protobuf_encode_decodes] (the driver's encoder writes what the generated
      decoder reads), [send_records_roundtrip], [receive_roundtrip],
      [receive_short]; [generated_code_conforms] (writers and readers follow the embedded
      schema), [sizes_never_stale] (no cached size is written after a change);
      [debug_lines_read] and [json_encode_line] (the lines of a debug build are read
      back as the records sent), [json_encode_panics];
      [buffered_refines] (the buffered writer refines the plain one,
      whatever flushes and closes it).
    - Records: [transform_decodes] (a reported record decodes to the kernel's
      fields under their schema names), [transform_refuses], [transform_panics],
      [driver_pipe_decodes] (the pipe under any interleaving of the driver's threads and
      any input), [record_send_runs], [heartbeat_tells], [driver_stream_decodes],
      [record_send_prefix], [task_receive_terminates].
    - Filters: [exe_filtered_at_quota], [filter_counters_bounded],
      [connect_reported_once], [kmod_exe_filters_tracked], [ttl_pass_expires],
      [kmod_queue_bounds], and the defects [argv_filter_never_fills],
      [connect_key_collision], [ttl_pass_misfiles_argv].
    - Threads: [no_deadlock_without_expiry] and [expiry_deadlock_reachable];
      [module_removed_at_exit] (however the driver ends, it asked exactly once for the
      removal of the module it had to itself) and the defect [silent_kernel_keeps_plugin].
    - Installation and caches: [download_verified], [install_clears_filters],
      [download_missing_sign_panics], [argv_cache_provenance].
    - The scanner as a whole: [answers_in_order] (over every interleaving of its
      threads the agent decodes its pipe, with the answers to its tasks in order,
      each at most once), [scanner_invariant], [starts_alone], and the defect
      [switching_off_exits]; the command line tool: [cli_scans_everything],
      [cli_database], [cli_takes_other_version].
    - Scanner: [engine_verified], [one_task_answers], [recv_queue_ok],
      [load_verified], [catch_spec], and the defects [update_other_name_breaks]
      and [gone_process_reported_empty].
    - Scan jobs: [walk_skips_nothing] (leaving out excluded directories reports what
      a full listing would), [walk_stops_at_error], [full_scan_reports],
      [full_scan_complete], [full_scan_ends] and [full_scan_can_skip],
      [a_day_per_directory]; engine: [handles_counted], [scan_leaks_context];
      honeypots: [honeypots_marked], [passwd_users_spec], [mask_covered] and the
      defects [monitor_reports_itself], [reported_descriptor_leaks],
      [intact_honeypot_reported].
    - Rasp, safety of runs: [traced_well_formed] over every order of turns,
      [manager_invariant] over every sequence of operations, [unshared_refines] (the
      manager refines the set of processes that have a server as long as none share
      a name space), [shared_server_killed] and [auto_attach_lost] (what breaks
      otherwise).
    - Rasp, functions: [async_process_ends], [read_nspid_correct],
      [update_env_spec], [match_process_info_spec], [inspect_safe_and_known],
      [php_attach_panics].
    - Rasp, messages: [configs_delivered], [connection_forwards],
      [server_refuses_configs], [four_bytes_roundtrip], [config_file_never_written];
      the socket server: [messages_routed] over every interleaving of its tasks, and
      the defects [stalled_probe_blocks], [reconnect_closed], [stopped_server_serves];
      manager and server together: [probes_get_their_configs] (a probe receives only
      configurations sent to its process, in order and each once), [configs_arrive]
      (and a run that delivers them exists) and the defect [one_probe_hangs_plugin].
    - Rasp, the life of its programs: [no_deadlock_working] (no reachable state of the
      working plugin blocks a thread for good), [stop_completes] and [stop_can_hang]
      (when a stopped plugin ends), [stuck_operation_never_ends], [server_enters_first], [mode_known],
      [printed_in_order], [tool_attaches_known], [plugin_limited]; [one_scanner] (one copy
      at a time) and the defect [plugins_not_excluded].
    - Logger and journal: [log_loses_nothing], [mill_keeps_newest],
      [failed_rotation_is_final], [journal_stream_decodes], [login_reported],
      [text_log_never_reports], [one_child_at_most], and the defects
      [watcher_outlives_agent] and [short_host_panics].

    ** Fuel

    Recursion is structural wherever the code walks its input.  Fuel is used for
    varints (10 groups of seven bits hold 64 bits), for decimal digits (20 hold
    2^64), for the merge loops of [Bridge] and [decode_stream] (the length of the
    input: each turn reads at least one byte), for the schema (the same, and a
    nesting of two), for [task_receive] (each turn reads
    at least four), for trimming and splitting (the length of the string) and for
    the retries of the module download, whose loop in the code has no bound.  A walk
    has the number of entries left and one more, which its laws make enough; waiting
    for a child process has as many turns as its time limit has polls.  The JSON
    parser has the length of the text and one more, each call but the first having
    read a byte.  The
    round-trip and termination theorems are stated with enough fuel, not under
    the assumption that it suffices.

    ** What is not modelled

    The text format and the casts of the generated messages; the set-up of the loggers and cgroups of the plugins under
    src/plugins; the unused
    [get_pid_live_time] and the bindgen bindings of ClamAV; of rasp the tokio runtime
    and bin.rs, which refers to a server type that is not there; and the parts of the
    system that are not Rust: kernel module, agent and server. *)

From stdpp Require Export base list gmap strings.
From Stdlib Require Export ZArith Lia.
From Stdlib Require Export Strings.Byte.


(** ** Results of Rust code

    A Rust function returns a value, returns [Err], or panics (an index out of
    range, [unwrap] on [None], an arithmetic overflow).  A panic ends the thread
    that runs it, so it is kept apart from [Err], which callers handle. *)

Inductive error : Type :=
  | WriteZero          (** [ErrorKind::WriteZero], "not enough buffer" *)
  | Utf8Error          (** [str::from_utf8] *)
  | ParseIntError      (** [str::parse] *)
  | UnknownDataType (dt : Z)
  | IoError            (** an [std::io::Error] of the environment *)
  | ProtoError         (** a [ProtobufError] of the decoder *)
  | Anyhow (msg : string).

Inductive outcome (A : Type) : Type :=
  | Ret (a : A)
  | Fail (e : error)
  | Panic.
Arguments Ret {A} a.
Arguments Fail {A} e.
Arguments Panic {A}.

#[global] Instance error_eq_dec : EqDecision error.
Proof. solve_decision. Defined.
#[global] Instance outcome_eq_dec {A} `{!EqDecision A} : EqDecision (outcome A).
Proof. solve_decision. Defined.

#[global] Instance outcome_ret : MRet outcome := fun A a => Ret a.
#[global] Instance outcome_bind : MBind outcome := fun A B f m =>
  match m with Ret a => f a | Fail e => Fail e | Panic => Panic end.

(** The code did not panic. *)
Definition safe {A} (o : outcome A) : Prop :=
  match o with Panic => False | _ => True end.

(** ** Stateful code

    [SM S A]: code that reads and writes a state [S]; what it wrote before an
    error stays written. *)

Definition SM (S A : Type) : Type := S -> outcome A * S.

#[global] Instance SM_ret {S} : MRet (SM S) := fun A a s => (Ret a, s).
#[global] Instance SM_bind {S} : MBind (SM S) := fun A B f m s =>
  match m s with
  | (Ret a, s') => f a s'
  | (Fail e, s') => (Fail e, s')
  | (Panic, s') => (Panic, s')
  end.

Section SM_operations.
Context {S : Type}.

Definition sm_fail {A} (e : error) : SM S A := fun s => (Fail e, s).
Definition sm_panic {A} : SM S A := fun s => (Panic, s).
Definition sm_lift {A} (o : outcome A) : SM S A := fun s => (o, s).
Definition sm_gets {A} (f : S -> A) : SM S A := fun s => (Ret (f s), s).
Definition sm_modify (f : S -> S) : SM S unit := fun s => (Ret tt, f s).
(** Run a call that cannot fail. *)
Definition sm_call {A} (f : S -> A * S) : SM S A := fun s => let (a, s') := f s in (Ret a, s').

Lemma sm_bind_ret {A B} (m : SM S A) (k : A -> SM S B) s a s' :
  m s = (Ret a, s') -> (m ≫= k) s = k a s'.
Proof. unfold mbind, SM_bind. by intros ->. Qed.

Lemma sm_bind_inv {A B} (m : SM S A) (k : A -> SM S B) s b s' :
  (m ≫= k) s = (Ret b, s') -> exists a s1, m s = (Ret a, s1) /\ k a s1 = (Ret b, s').
Proof. unfold mbind, SM_bind. destruct (m s) as [[a|e|] s1] eqn:E; [|done..]. eauto. Qed.

Lemma sm_bind_assoc {A B C} (m : SM S A) (k : A -> SM S B) (l : B -> SM S C) s :
  ((m ≫= k) ≫= l) s = (m ≫= (fun a => k a ≫= l)) s.
Proof. unfold mbind, SM_bind. destruct (m s) as [[] ?]; done. Qed.

(** The bind rule: what a sequence of calls preserves and establishes.  [Q] is
    the postcondition on a normal return; [E] the one on an early error. *)
Definition triple {A} (P : S -> Prop) (m : SM S A) (Q : A -> S -> Prop) (E : S -> Prop) : Prop :=
  forall s, P s ->
  match m s with
  | (Ret a, s') => Q a s'
  | (Fail _, s') => E s'
  | (Panic, _) => False
  end.

Lemma triple_bind {A B} P (m : SM S A) Q (k : A -> SM S B) R E :
  triple P m Q E -> (forall a, triple (Q a) (k a) R E) -> triple P (m ≫= k) R E.
Proof.
  intros Hm Hk s HP. specialize (Hm s HP). unfold mbind, SM_bind.
  destruct (m s) as [[a|e|] s']; [|done..]. by apply (Hk a s').
Qed.

Lemma triple_ret {A} (P : S -> Prop) (a : A) E : triple P (mret a) (fun _ => P) E.
Proof. intros s HP. exact HP. Qed.

Lemma triple_weaken {A} (P P' : S -> Prop) (m : SM S A) (Q Q' : A -> S -> Prop) (E E' : S -> Prop) :
  (forall s, P' s -> P s) -> (forall a s, Q a s -> Q' a s) -> (forall s, E s -> E' s) ->
  triple P m Q E -> triple P' m Q' E'.
Proof.
  intros HP HQ HE Hm s Hs. specialize (Hm s (HP s Hs)).
  destruct (m s) as [[a|e|] s']; eauto.
Qed.
End SM_operations.

(** ** Automation *)

Create HintDb elkeid.

(** Case analysis on the [match] or [if] the goal or a hypothesis is stuck on. *)
Ltac case_step :=
  match goal with
  | H : context [match ?x with _ => _ end] |- _ =>
      lazymatch x with context [match _ with _ => _ end] => fail | _ => destruct x eqn:? end
  | |- context [match ?x with _ => _ end] =>
      lazymatch x with context [match _ with _ => _ end] => fail | _ => destruct x eqn:? end
  end.
Ltac cases := repeat (case_step; simplify_eq/=).

(** ** Lists *)

Lemma length_filter_le {A} (P : A -> Prop) `{!forall x, Decision (P x)} (l : list A) :
  length (filter P l) <= length l.
Proof. induction l as [|x l IH]; [done|]. rewrite filter_cons. case_decide; simpl; lia. Qed.

Lemma take_drop_middle_app {A} (l : list A) i n :
  i + n <= length l -> l = take i l ++ take n (drop i l) ++ drop (i + n) l.
Proof.
  intros. rewrite <- (take_drop i l) at 1. f_equal.
  rewrite <- (take_drop n (drop i l)) at 1. f_equal. by rewrite drop_drop.
Qed.

Lemma lookup_total_lt {A} `{!Inhabited A} (l : list A) i :
  i < length l -> l !! i = Some (l !!! i).
Proof. intros Hi. apply list_lookup_lookup_total_lt. done. Qed.
