(* ===== verification/Bytes.v ===== *)
(** * Bytes, and the part of Rust's standard library the plugins use on them

    [u8] is [Byte.byte]; a slice [&[u8]], a [Vec<u8>] and a [String] (its UTF-8
    bytes) are [bytes].  Integers are [Z] with their width written out:
    [to_u8 z] is the cast [z as u8], [wrap_u32 z] is [z as u32].  [utf8_valid]
    is [str::from_utf8(..).is_ok()], [parse_u32] and the like are
    [str::parse::<u32>()]. *)

From S2P Require Import Prelude.

Abbreviation bytes := (list byte).

#[global] Instance byte_eq_decision : EqDecision byte := byte_eq_dec.
#[global] Program Instance byte_countable : Countable byte :=
  inj_countable Byte.to_N Byte.of_N _.
Next Obligation. intros b. apply Byte.of_to_N. Qed.
#[global] Instance byte_inhabited : Inhabited byte := populate x00.

(** A byte-string literal [b"..."]. *)
Definition bs (s : string) : bytes := String.list_byte_of_string s.

(** ** Casts *)

Section casts.
Local Open Scope Z_scope.

Definition u8 (b : byte) : Z := Z.of_N (Byte.to_N b).
Definition to_u8 (z : Z) : byte := default x00 (Byte.of_N (Z.to_N (z mod 256))).
Definition wrap_u32 (z : Z) : Z := z mod 2 ^ 32.
Definition wrap_u64 (z : Z) : Z := z mod 2 ^ 64.

Lemma u8_range b : 0 <= u8 b < 256.
Proof. unfold u8. pose proof (Byte.to_N_bounded b). lia. Qed.

Lemma u8_to_u8 z : u8 (to_u8 z) = z mod 256.
Proof.
  unfold u8, to_u8. pose proof (Z.mod_pos_bound z 256 ltac:(lia)) as Hz.
  destruct (Byte.of_N (Z.to_N (z mod 256))) as [b|] eqn:E; simpl.
  - apply Byte.to_of_N in E. rewrite E, Z2N.id; lia.
  - apply Byte.of_N_None_iff in E. lia.
Qed.

Lemma u8_inj a b : u8 a = u8 b -> a = b.
Proof.
  unfold u8. intros E%N2Z.inj. apply (f_equal Byte.of_N) in E.
  rewrite !Byte.of_to_N in E. congruence.
Qed.

Lemma to_u8_u8 b : to_u8 (u8 b) = b.
Proof. apply u8_inj. rewrite u8_to_u8. pose proof (u8_range b). by apply Z.mod_small. Qed.

(** [u32::to_le_bytes] and [u32::from_le_bytes]. *)
Definition to_le_bytes (n : Z) : bytes :=
  [to_u8 n; to_u8 (Z.shiftr n 8); to_u8 (Z.shiftr n 16); to_u8 (Z.shiftr n 24)].

Definition from_le_bytes (l : bytes) : Z :=
  match l with
  | [a; b; c; d] => u8 a + 2 ^ 8 * u8 b + 2 ^ 16 * u8 c + 2 ^ 24 * u8 d
  | _ => 0
  end.

Lemma from_to_le_bytes n : 0 <= n < 2 ^ 32 -> from_le_bytes (to_le_bytes n) = n.
Proof.
  intros Hn. cbn. rewrite !u8_to_u8, !Z.shiftr_div_pow2 by lia.
  change (2 ^ 8) with 256; change (2 ^ 16) with 65536; change (2 ^ 24) with 16777216.
  pose proof (Z.div_mod n 256); pose proof (Z.div_mod (n / 256) 256).
  pose proof (Z.div_mod (n / 65536) 256); pose proof (Z.div_mod (n / 16777216) 256).
  replace (n / 65536) with (n / 256 / 256) in * by (rewrite Z.div_div by lia; reflexivity).
  replace (n / 16777216) with (n / 256 / 256 / 256) in * by (rewrite !Z.div_div by lia; reflexivity).
  assert (n / 256 / 256 / 256 / 256 = 0) by (rewrite !Z.div_div by lia; apply Z.div_small; lia).
  lia.
Qed.

Lemma length_to_le_bytes n : length (to_le_bytes n) = 4%nat.
Proof. reflexivity. Qed.
End casts.

(** ** Slices *)

(** [&data[from..to]]; the callers keep [from <= to <= data.len()]. *)
Definition slice (data : bytes) (from to : nat) : bytes := take (to - from) (drop from data).

Fixpoint starts_with (s pat : bytes) {struct pat} : bool :=
  match pat, s with
  | [], _ => true
  | p :: pat', c :: s' => bool_decide (c = p) && starts_with s' pat'
  | _ :: _, [] => false
  end.

Definition ends_with (s pat : bytes) : bool := starts_with (reverse s) (reverse pat).

Lemma starts_with_spec s pat : starts_with s pat = true <-> exists t, s = pat ++ t.
Proof.
  revert s. induction pat as [|p pat IH]; intros s; simpl.
  - split; intros _; [by exists s|reflexivity].
  - destruct s as [|c s]; [split; [discriminate|intros [t ?]; discriminate]|].
    rewrite andb_true_iff, bool_decide_eq_true, IH. split.
    + intros [-> [t ->]]. by exists t.
    + intros [t [= -> ->]]. eauto.
Qed.

Lemma ends_with_spec s pat : ends_with s pat = true <-> exists t, s = t ++ pat.
Proof.
  unfold ends_with. rewrite starts_with_spec. split; intros [t Ht].
  - exists (reverse t). by rewrite <- (reverse_involutive s), Ht, reverse_app, reverse_involutive.
  - exists (reverse t). by rewrite Ht, reverse_app.
Qed.

(** [slice::split(|c| *c == sep)] and [str::split(sep)]: the maximal runs
    between separators; an empty input has one, empty, field. *)
Fixpoint split_on (sep : byte) (l : bytes) : list bytes :=
  match l with
  | [] => [[]]
  | c :: l' =>
      let r := split_on sep l' in
      if bool_decide (c = sep) then [] :: r
      else match r with f :: r' => (c :: f) :: r' | [] => [[c]] end
  end.

Lemma split_on_nonempty sep l : split_on sep l <> [].
Proof. induction l as [|c l IH]; simpl; [done|]. case_bool_decide; [done|]. by destruct (split_on sep l). Qed.

Lemma length_split_on sep l :
  length (split_on sep l) = S (length (filter (.= sep) l)).
Proof.
  induction l as [|c l IH]; [done|]. rewrite filter_cons. simpl.
  pose proof (split_on_nonempty sep l).
  case_bool_decide; case_decide; try done; simpl; [lia|]. by destruct (split_on sep l).
Qed.

(** The inverse: fields joined by the separator. *)
Fixpoint join (sep : byte) (fs : list bytes) : bytes :=
  match fs with
  | [] => []
  | [f] => f
  | f :: fs' => f ++ sep :: join sep fs'
  end.

Lemma split_on_app_sep sep f l :
  sep ∉ f -> split_on sep (f ++ sep :: l) = f :: split_on sep l.
Proof.
  induction f as [|c f IH]; simpl; intros Hf.
  - by rewrite bool_decide_true.
  - apply not_elem_of_cons in Hf as [Hc Hf]. rewrite bool_decide_false by done. by rewrite IH.
Qed.

Lemma split_on_app sep q l : split_on sep (q ++ sep :: l) = split_on sep q ++ split_on sep l.
Proof.
  induction q as [|c q IH]; simpl; [by rewrite bool_decide_true|]. rewrite IH.
  case_bool_decide; [done|]. pose proof (split_on_nonempty sep q). by destruct (split_on sep q).
Qed.

Lemma split_on_nosep sep f : sep ∉ f -> split_on sep f = [f].
Proof.
  induction f as [|c f IH]; simpl; intros Hf; [done|].
  apply not_elem_of_cons in Hf as [Hc Hf]. rewrite bool_decide_false by done. by rewrite IH.
Qed.

Lemma split_on_join sep fs :
  fs <> [] -> Forall (fun f => sep ∉ f) fs -> split_on sep (join sep fs) = fs.
Proof.
  intros Hne Hfs. induction Hfs as [|f [|f' fs'] Hf Hfs IH]; [done|by apply split_on_nosep|].
  change (join sep (f :: f' :: fs')) with (f ++ sep :: join sep (f' :: fs')).
  rewrite split_on_app_sep by done. by rewrite IH.
Qed.

Lemma join_cons sep f fs : fs <> [] -> join sep (f :: fs) = f ++ sep :: join sep fs.
Proof. by destruct fs. Qed.

Lemma join_snoc sep fs f : fs <> [] -> join sep (fs ++ [f]) = join sep fs ++ sep :: f.
Proof.
  induction fs as [|g fs IH]; [done|]. intros _. destruct fs as [|h fs]; [done|].
  change (g ++ sep :: join sep ((h :: fs) ++ [f]) = (g ++ sep :: join sep (h :: fs)) ++ sep :: f).
  rewrite IH by done. by rewrite <- app_assoc.
Qed.

Lemma split_on_fields sep l : Forall (fun f => sep ∉ f) (split_on sep l).
Proof.
  induction l as [|c l IH]; simpl; [by constructor; [apply not_elem_of_nil|]|].
  case_bool_decide as Hc; [by constructor; [apply not_elem_of_nil|]|].
  destruct (split_on sep l) as [|f r]; [constructor; [|constructor]|apply Forall_cons in IH as [Hf Hr]; constructor; [|done]].
  all: apply not_elem_of_cons; split; [congruence|]; first [done | apply not_elem_of_nil].
Qed.

Lemma join_split_on sep l : join sep (split_on sep l) = l.
Proof.
  induction l as [|c l IH]; [done|]. simpl. pose proof (split_on_nonempty sep l).
  case_bool_decide as Hc.
  - rewrite join_cons by done. by rewrite IH, Hc.
  - destruct (split_on sep l) as [|f [|f' r]] eqn:E; [done|..]; simpl in *; by rewrite <- IH.
Qed.
