(* ===== verification/RustStd.v ===== *)
(** * More of the standard library: UTF-8, integer and IP-address parsing

    [utf8_valid] follows [core::str::validations], [parse_unsigned] and
    [parse_signed] follow [from_str_radix] at radix 10, [parse_ipv4] and
    [parse_ipv6] follow [core::net::parser]. *)

From S2P Require Import Prelude Bytes.
Local Open Scope Z_scope.

(** ** [str::from_utf8] *)

Definition in_range (lo hi : Z) (b : byte) : bool := (lo <=? u8 b) && (u8 b <=? hi).
Definition is_cont (b : byte) : bool := in_range 128 191 b.

(** The second byte of a three- or four-byte sequence, from the first. *)
Definition second3 (a b : byte) : bool :=
  if u8 a =? 0xE0 then in_range 0xA0 0xBF b
  else if u8 a =? 0xED then in_range 0x80 0x9F b
  else is_cont b.
Definition second4 (a b : byte) : bool :=
  if u8 a =? 0xF0 then in_range 0x90 0xBF b
  else if u8 a =? 0xF4 then in_range 0x80 0x8F b
  else is_cont b.

Fixpoint utf8_valid (s : bytes) : bool :=
  match s with
  | [] => true
  | a :: s1 =>
      if u8 a <? 128 then utf8_valid s1
      else if in_range 0xC2 0xDF a then
        match s1 with b :: s2 => is_cont b && utf8_valid s2 | _ => false end
      else if in_range 0xE0 0xEF a then
        match s1 with b :: c :: s3 => second3 a b && is_cont c && utf8_valid s3 | _ => false end
      else if in_range 0xF0 0xF4 a then
        match s1 with
        | b :: c :: d :: s4 => second4 a b && is_cont c && is_cont d && utf8_valid s4
        | _ => false
        end
      else false
  end.

Definition is_ascii (b : byte) : bool := u8 b <? 128.

Lemma utf8_valid_ascii s : forallb is_ascii s = true -> utf8_valid s = true.
Proof.
  induction s as [|a s IH]; [done|]. simpl. intros [Ha Hs]%andb_true_iff.
  unfold is_ascii in Ha. rewrite Ha. auto.
Qed.

(** [str::from_utf8(s).unwrap_or_default()] *)
Definition from_utf8_or_default (s : bytes) : bytes := if utf8_valid s then s else [].

(** ** [str::parse] for integers *)

Definition is_digit (b : byte) : bool := in_range 48 57 b.

Fixpoint parse_digits (acc : Z) (s : bytes) : option Z :=
  match s with
  | [] => Some acc
  | c :: s' => if is_digit c then parse_digits (10 * acc + (u8 c - 48)) s' else None
  end.

Definition in_bounds (lo hi v : Z) : option Z := if (lo <=? v) && (v <? hi) then Some v else None.

(** The rest of [s] after the first character [c]. *)
Definition strip_char (c : byte) (s : bytes) : option bytes :=
  match s with
  | c' :: s' => if bool_decide (c' = c) then Some s' else None
  | [] => None
  end.

Definition parse_unsigned (bits : Z) (s : bytes) : option Z :=
  let digits := default s (strip_char "+" s) in
  match digits with
  | [] => None
  | _ => v ← parse_digits 0 digits; in_bounds 0 (2 ^ bits) v
  end.

Lemma parse_unsigned_bounds bits s v : parse_unsigned bits s = Some v -> 0 <= v < 2 ^ bits.
Proof.
  unfold parse_unsigned, in_bounds. destruct (default s (strip_char "+" s)); [done|].
  intros (x & _ & Hv)%bind_Some. destruct ((0 <=? x) && (x <? 2 ^ bits)) eqn:E; [|done].
  injection Hv as <-. lia.
Qed.

Definition parse_signed (bits : Z) (s : bytes) : option Z :=
  let '(sign, digits) :=
    match strip_char "-" s with
    | Some s' => (-1, s')
    | None => (1, default s (strip_char "+" s))
    end in
  match digits with
  | [] => None
  | _ => v ← parse_digits 0 digits; in_bounds (- 2 ^ (bits - 1)) (2 ^ (bits - 1)) (sign * v)
  end.

Definition parse_u32 := parse_unsigned 32.
Definition parse_usize := parse_unsigned 64.
Definition parse_i32 := parse_signed 32.

(** ** [to_string] of an unsigned integer

    Fuel 20 is the number of decimal digits of [2 ^ 64 - 1]. *)
Fixpoint dec_digits (fuel : nat) (n : Z) (acc : bytes) : bytes :=
  match fuel with
  | O => acc
  | S fuel' =>
      let acc' := to_u8 (48 + n mod 10) :: acc in
      if n <? 10 then acc' else dec_digits fuel' (n / 10) acc'
  end.
Definition show_u64 (n : Z) : bytes := dec_digits 20 n [].

Lemma u8_digit n : 0 <= n < 10 -> u8 (to_u8 (48 + n)) = 48 + n.
Proof. intros. rewrite u8_to_u8. apply Z.mod_small. lia. Qed.

Lemma is_digit_show n : 0 <= n < 10 -> is_digit (to_u8 (48 + n)) = true.
Proof. intros. unfold is_digit, in_range. rewrite u8_digit by done. lia. Qed.

(** Reading back what [dec_digits] wrote in front of [acc]. *)
Lemma parse_digits_dec fuel n acc v :
  0 <= n < 10 ^ Z.of_nat fuel -> (0 < fuel)%nat ->
  exists k, 0 <= k <= Z.of_nat fuel /\ n < 10 ^ k /\
    parse_digits v (dec_digits fuel n acc) = parse_digits (v * 10 ^ k + n) acc.
Proof.
  revert n acc v. induction fuel as [|fuel IH]; intros n acc v Hn Hf; [lia|].
  assert (Hd : 0 <= n mod 10 < 10) by (apply Z.mod_pos_bound; lia).
  assert (Hstep : forall w, parse_digits w (to_u8 (48 + n mod 10) :: acc)
                       = parse_digits (10 * w + n mod 10) acc).
  { intros w. cbn [parse_digits]. rewrite is_digit_show, u8_digit by done. f_equal. lia. }
  cbn [dec_digits]. destruct (Z.ltb_spec n 10) as [Hlt|Hge].
  - exists 1. rewrite Hstep, Z.mod_small by lia. split_and!; [lia..|]. f_equal. lia.
  - destruct (IH (n / 10) (to_u8 (48 + n mod 10) :: acc) v) as (k & Hk & Hnk & E).
    { rewrite Nat2Z.inj_succ, Z.pow_succ_r in Hn by lia. split; [apply Z.div_pos; lia|].
      apply Z.div_lt_upper_bound; lia. }
    { destruct fuel; [|lia]. cbn in Hn. lia. }
    exists (k + 1). rewrite E, Hstep, Z.pow_add_r by lia. pose proof (Z.div_mod n 10).
    split_and!; [lia..|]. f_equal. lia.
Qed.

Lemma head_dec_digits fuel n acc :
  (0 < fuel)%nat -> exists c r, dec_digits fuel n acc = to_u8 (48 + c mod 10) :: r.
Proof.
  revert n acc. induction fuel as [|[|fuel] IH]; intros n acc Hf; [lia|simpl; case_match; eauto|].
  cbn [dec_digits]. case_match; [eauto|]. apply IH. lia.
Qed.

Lemma dec_digits_digits fuel n acc :
  forallb is_digit acc = true -> forallb is_digit (dec_digits fuel n acc) = true.
Proof.
  revert n acc. induction fuel as [|fuel IH]; intros n acc Ha; [done|]. cbn [dec_digits].
  assert (forallb is_digit (to_u8 (48 + n mod 10) :: acc) = true).
  { cbn [forallb]. rewrite is_digit_show by (apply Z.mod_pos_bound; lia). done. }
  case_match; auto.
Qed.

Lemma show_u64_digits n : forallb is_digit (show_u64 n) = true.
Proof. by apply dec_digits_digits. Qed.

Lemma digits_ascii s : forallb is_digit s = true -> forallb is_ascii s = true.
Proof.
  induction s as [|c s IH]; [done|]. cbn [forallb]. intros [Hc Hs]%andb_true_iff.
  rewrite IH by done. unfold is_digit, in_range, is_ascii in *. lia.
Qed.

Lemma digits_no_separator s : forallb is_digit s = true -> x1e ∉ s.
Proof.
  induction s as [|c s IH]; intros Hd; [apply not_elem_of_nil|].
  cbn [forallb] in Hd. apply andb_true_iff in Hd as [Hc Hs].
  apply not_elem_of_cons. split; [|auto]. intros <-. done.
Qed.

(** [parse] inverts [to_string]: the [/proc/<pid>] paths the caches build name
    the pid they parsed. *)
Lemma parse_show_u64 bits n :
  0 <= n < 2 ^ bits -> bits <= 64 -> parse_unsigned bits (show_u64 n) = Some n.
Proof.
  intros Hn Hb. assert (2 ^ bits <= 2 ^ 64) by (apply Z.pow_le_mono_r; lia).
  destruct (parse_digits_dec 20 n [] 0) as (k & Hk & _ & E); [cbn; lia|lia|].
  destruct (head_dec_digits 20 n []) as (c & r & Hh); [lia|].
  unfold parse_unsigned, show_u64. rewrite Hh in *.
  assert (Hne : to_u8 (48 + c mod 10) <> "+"%byte).
  { intros Ec%(f_equal u8). pose proof (Z.mod_pos_bound c 10 ltac:(lia)).
    rewrite u8_digit in Ec by lia. change (u8 "+"%byte) with 43 in Ec. lia. }
  unfold strip_char. rewrite bool_decide_false by done. cbn [default].
  rewrite E. cbn [parse_digits mbind option_bind].
  unfold in_bounds. replace (0 * 10 ^ k + n) with n by lia.
  rewrite (proj2 (andb_true_iff _ _)); [done|]. lia.
Qed.

(** ** [Ipv4Addr::from_str] and [Ipv6Addr::from_str]

    A reader takes the input and gives its value and the rest of the input;
    [None] restores the input ([read_atomically]). *)

Definition reader (A : Type) : Type := bytes -> option (A * bytes).

(** [char::to_digit] *)
Definition to_digit (radix : Z) (c : byte) : option Z :=
  let d :=
    if in_range 48 57 c then u8 c - 48
    else if in_range 97 122 c then u8 c - 87
    else if in_range 65 90 c then u8 c - 55
    else 36 in
  if d <? radix then Some d else None.

Definition read_given_char (c : byte) : reader unit := fun s => s' ← strip_char c s; Some (tt, s').

Definition read_separator {A} (sep : byte) (index : nat) (inner : reader A) : reader A := fun s =>
  match index with
  | O => inner s
  | S _ => '(_, s') ← read_given_char sep s; inner s'
  end.

(** The digits of a number of at most [max] digits below [bound]. *)
Fixpoint read_digits (radix bound : Z) (max : nat) (acc : Z) (count : nat) (s : bytes) :
    option (Z * nat * bytes) :=
  match s with
  | [] => Some (acc, count, [])
  | c :: s' =>
      match to_digit radix c with
      | None => Some (acc, count, s)
      | Some d =>
          let acc' := acc * radix + d in
          if bound <=? acc' then None
          else if (max <? S count)%nat then None
          else read_digits radix bound max acc' (S count) s'
      end
  end.

Definition read_number (radix bound : Z) (max : nat) (allow_zero_prefix : bool) : reader Z := fun s =>
  let has_leading_zero := match s with c :: _ => bool_decide (c = "0"%byte) | [] => false end in
  '(v, count, s') ← read_digits radix bound max 0 0 s;
  if (count =? 0)%nat then None
  else if negb allow_zero_prefix && has_leading_zero && (1 <? count)%nat then None
  else Some (v, s').

Definition read_octet (i : nat) : reader Z := read_separator "." i (read_number 10 256 3 false).

Definition read_ipv4_addr : reader Z := fun s =>
  '(a, s) ← read_octet 0 s;
  '(b, s) ← read_octet 1 s;
  '(c, s) ← read_octet 2 s;
  '(d, s) ← read_octet 3 s;
  Some (a * 2 ^ 24 + b * 2 ^ 16 + c * 2 ^ 8 + d, s).

(** Reads up to [left] more groups, [i] having been read; the flag says that an
    embedded IPv4 address ended the groups. *)
Fixpoint read_groups (left i : nat) (s : bytes) : list Z * bool * bytes :=
  match left with
  | O => ([], false, s)
  | S left' =>
      let group :=
        match read_separator ":" i (read_number 16 (2 ^ 16) 4 true) s with
        | Some (g, s') => let '(gs, v4, s'') := read_groups left' (S i) s' in (g :: gs, v4, s'')
        | None => ([], false, s)
        end in
      if (0 <? left')%nat then
        match read_separator ":" i read_ipv4_addr s with
        | Some (v4, s') => ([v4 / 2 ^ 16; v4 mod 2 ^ 16], true, s')
        | None => group
        end
      else group
  end.

Definition ipv6_of_groups (gs : list Z) : Z := foldl (fun a g => a * 2 ^ 16 + g) 0 gs.

Definition read_ipv6_addr : reader Z := fun s =>
  let '(head, head_ipv4, s) := read_groups 8 0 s in
  if (length head =? 8)%nat then Some (ipv6_of_groups head, s)
  else if head_ipv4 then None
  else
    '(_, s) ← read_given_char ":" s;
    '(_, s) ← read_given_char ":" s;
    let '(tail, _, s) := read_groups (8 - (length head + 1)) 0 s in
    Some (ipv6_of_groups (head ++ replicate (8 - length head - length tail) 0 ++ tail), s).

(** [parse_with]: the whole input is read. *)
Definition parse_with {A} (r : reader A) (s : bytes) : option A :=
  match r s with Some (a, []) => Some a | _ => None end.

Definition parse_ipv4 (s : bytes) : option Z :=
  if (15 <? length s)%nat then None else parse_with read_ipv4_addr s.
Definition parse_ipv6 (s : bytes) : option Z := parse_with read_ipv6_addr s.

Example parse_ipv4_loopback : parse_ipv4 (bs "127.0.0.1") = Some 0x7f000001.
Proof. reflexivity. Qed.
Example parse_ipv4_octal : parse_ipv4 (bs "127.0.0.01") = None.
Proof. reflexivity. Qed.
Example parse_ipv6_mapped : parse_ipv6 (bs "::ffff:127.0.0.1") = Some 0xffff7f000001.
Proof. reflexivity. Qed.
Example parse_ipv6_link : parse_ipv6 (bs "fe80::1:2") = Some (0xfe80 * 2 ^ 112 + 0x10002).
Proof. reflexivity. Qed.
Example parse_ipv6_full : parse_ipv6 (bs "1:2:3:4:5:6:7:8") = Some 0x00010002000300040005000600070008.
Proof. reflexivity. Qed.
Example parse_ipv6_bad : parse_ipv6 (bs "1::2::3") = None.
Proof. reflexivity. Qed.

(** ** [String::from_utf8_lossy]

    Each maximal part of an ill-formed sequence becomes U+FFFD. *)

Definition replacement : bytes := [xef; xbf; xbd].

Fixpoint from_utf8_lossy (s : bytes) : bytes :=
  match s with
  | [] => []
  | a :: s1 =>
      if u8 a <? 128 then a :: from_utf8_lossy s1
      else if in_range 0xC2 0xDF a then
        match s1 with
        | b :: s2 => if is_cont b then a :: b :: from_utf8_lossy s2 else replacement ++ from_utf8_lossy s1
        | [] => replacement
        end
      else if in_range 0xE0 0xEF a then
        match s1 with
        | b :: s2 =>
            if second3 a b then
              match s2 with
              | c :: s3 =>
                  if is_cont c then a :: b :: c :: from_utf8_lossy s3 else replacement ++ from_utf8_lossy s2
              | [] => replacement
              end
            else replacement ++ from_utf8_lossy s1
        | [] => replacement
        end
      else if in_range 0xF0 0xF4 a then
        match s1 with
        | b :: s2 =>
            if second4 a b then
              match s2 with
              | c :: s3 =>
                  if is_cont c then
                    match s3 with
                    | d :: s4 =>
                        if is_cont d then a :: b :: c :: d :: from_utf8_lossy s4
                        else replacement ++ from_utf8_lossy s3
                    | [] => replacement
                    end
                  else replacement ++ from_utf8_lossy s2
              | [] => replacement
              end
            else replacement ++ from_utf8_lossy s1
        | [] => replacement
        end
      else replacement ++ from_utf8_lossy s1
  end.

Lemma utf8_valid_replacement s : utf8_valid (replacement ++ s) = utf8_valid s.
Proof. reflexivity. Qed.

(** The result is always UTF-8. *)
Lemma from_utf8_lossy_valid s : utf8_valid (from_utf8_lossy s) = true.
Proof.
  assert (H : forall n s, (length s <= n)%nat -> utf8_valid (from_utf8_lossy s) = true).
  { clear s. induction n as [|n IH]; intros [|a s1] Hl; [done|cbn in Hl; lia|done|].
    cbn [length] in Hl. cbn [from_utf8_lossy].
    repeat (match goal with
      | |- context [if ?b then _ else _] => destruct b eqn:?
      | |- context [match ?l with [] => _ | _ => _ end] =>
          is_var l; destruct l; cbn [length] in Hl
      end);
    rewrite ?utf8_valid_replacement; try (apply IH; cbn [length]; lia); try reflexivity;
    cbn [utf8_valid];
    repeat match goal with E : ?b = ?v |- context [if ?b then _ else _] => rewrite E end;
    repeat match goal with E : ?b = true |- context [?b && _] => rewrite E end;
    cbn [andb]; apply IH; cbn [length]; lia. }
  by apply (H (length s)).
Qed.

(** A slash ends every sequence: the parts around it are replaced on their own. *)
Lemma second3_slash a : second3 a "/" = false.
Proof. unfold second3, is_cont, in_range. by repeat case_match. Qed.
Lemma second4_slash a : second4 a "/" = false.
Proof. unfold second4, is_cont, in_range. by repeat case_match. Qed.
Lemma from_utf8_lossy_slash s t :
  from_utf8_lossy (s ++ "/"%byte :: t) = from_utf8_lossy s ++ "/"%byte :: from_utf8_lossy t.
Proof.
  assert (H : forall n s, (length s <= n)%nat ->
    from_utf8_lossy (s ++ "/"%byte :: t) = from_utf8_lossy s ++ "/"%byte :: from_utf8_lossy t).
  { clear s. induction n as [|n IH]; intros [|a s1] Hl; [done|cbn in Hl; lia|done|].
    cbn [length] in Hl. cbn [app from_utf8_lossy].
    destruct (u8 a <? 128); [cbn [app]; f_equal; apply IH; lia|].
    destruct (in_range 0xC2 0xDF a); [|destruct (in_range 0xE0 0xEF a); [|destruct (in_range 0xF0 0xF4 a)]].
    4: { rewrite <- app_assoc. f_equal. apply IH. lia. }
    all: destruct s1 as [|b s2]; cbn [app]; [rewrite ?second3_slash, ?second4_slash; reflexivity|cbn [length] in Hl].
    all: repeat match goal with
      | |- context [is_cont "/"] => change (is_cont "/") with false; cbv iota
      | |- context [if ?b then _ else _] => destruct b
      | |- context [match ?l ++ _ with [] => _ | _ => _ end] => is_var l; destruct l; cbn [app length] in *
      end; try reflexivity.
    all: first [rewrite IH by (cbn [length]; lia); reflexivity
      | match goal with |- context [from_utf8_lossy (?x :: ?l ++ ?r)] => change (x :: l ++ r) with ((x :: l) ++ r) end;
        rewrite IH by (cbn [length]; lia); by rewrite app_assoc]. }
  by apply (H (length s)).
Qed.
Lemma from_utf8_lossy_noslash s : ~ ("/"%byte ∈ s) -> ~ ("/"%byte ∈ from_utf8_lossy s).
Proof.
  assert (H : forall n s, (length s <= n)%nat -> ~ ("/"%byte ∈ s) -> ~ ("/"%byte ∈ from_utf8_lossy s)).
  { clear s. assert (Hr : forall l, ~ ("/"%byte ∈ l) -> ~ ("/"%byte ∈ replacement ++ l)).
    { intros l Hl. rewrite elem_of_app. intros [Hi|Hi]; [|done]. revert Hi. apply (bool_decide_unpack _). reflexivity. }
    induction n as [|n IH]; intros [|a s1] Hl Hs; [done|cbn in Hl; lia|done|].
    cbn [length] in Hl. cbn [from_utf8_lossy]. rewrite not_elem_of_cons in Hs. destruct Hs as [Ha Hs].
    repeat match goal with
      | |- context [if ?b then _ else _] => destruct b
      | |- context [match ?l with [] => _ | _ => _ end] => is_var l; destruct l; cbn [length] in *
      end;
    rewrite ?not_elem_of_cons in *; destruct_and?; repeat split; try done; try apply Hr;
    (apply IH; [cbn [length]; lia|]; rewrite ?not_elem_of_cons; repeat split; done) || apply (bool_decide_unpack _); reflexivity. }
  by apply (H (length s)).
Qed.

(** ** [str::trim] and [str::contains]

    The characters with the property White_Space, in UTF-8. *)

Definition white_space : list bytes :=
  [[x09]; [x0a]; [x0b]; [x0c]; [x0d]; [x20]; [xc2; x85]; [xc2; xa0]; [xe1; x9a; x80];
   [xe2; x80; x80]; [xe2; x80; x81]; [xe2; x80; x82]; [xe2; x80; x83]; [xe2; x80; x84];
   [xe2; x80; x85]; [xe2; x80; x86]; [xe2; x80; x87]; [xe2; x80; x88]; [xe2; x80; x89];
   [xe2; x80; x8a]; [xe2; x80; xa8]; [xe2; x80; xa9]; [xe2; x80; xaf]; [xe2; x81; x9f]; [xe3; x80; x80]].

Fixpoint trim_start_fuel (fuel : nat) (pats : list bytes) (s : bytes) : bytes :=
  match fuel with
  | O => s
  | S fuel' =>
      match find (starts_with s) pats with
      | Some p => trim_start_fuel fuel' pats (drop (length p) s)
      | None => s
      end
  end.
Definition trim_start (s : bytes) : bytes := trim_start_fuel (length s) white_space s.
Definition trim_end (s : bytes) : bytes :=
  reverse (trim_start_fuel (length s) (map (fun p => reverse p) white_space) (reverse s)).
Definition trim (s : bytes) : bytes := trim_end (trim_start s).

(** [trim_start_matches(pat)], [trim_end_matches(pat)] *)
Definition trim_start_matches (pat s : bytes) : bytes := trim_start_fuel (length s) [pat] s.
Definition trim_end_matches (pat s : bytes) : bytes :=
  reverse (trim_start_fuel (length s) [reverse pat] (reverse s)).

Fixpoint contains (s pat : bytes) : bool :=
  starts_with s pat || match s with [] => false | _ :: s' => contains s' pat end.

Lemma contains_spec s pat : contains s pat = true <-> exists a b, s = a ++ pat ++ b.
Proof.
  induction s as [|c s IH]; cbn [contains]; rewrite orb_true_iff, starts_with_spec.
  - split; [intros [[t Ht]|]; [by exists [], t|done]|].
    intros (a & b & E). left. destruct a; [by exists b|done].
  - rewrite IH. split.
    + intros [[t Ht]|(a & b & ->)]; [by exists [], t|by exists (c :: a), b].
    + intros ([|c' a] & b & E); [left; by exists b|right]. injection E as -> ->. by exists a, b.
Qed.

(** [str::lines]: a final empty line is not one, a carriage return at the end of a
    line is not part of it. *)
Definition lines (s : bytes) : list bytes :=
  let ls := split_on x0a s in
  let ls := if decide (last ls = Some []) then take (length ls - 1) ls else ls in
  map (fun l => if decide (last l = Some x0d) then take (length l - 1) l else l) ls.

Example trim_ex : trim (bs "  a b" ++ [xe3; x80; x80; x0a]) = bs "a b".
Proof. reflexivity. Qed.
Example lossy_ex : from_utf8_lossy (bs "a" ++ [xf0; x9f; x41]) = bs "a" ++ replacement ++ bs "A".
Proof. reflexivity. Qed.
