(* ===== verification/Json.v ===== *)
(** * JSON

    The values of [serde_json], its printer and its parser as an interface with the
    one law the other files use, and an instance of it: compact JSON text as
    [serde_json] prints it, with a parser that reads it back.  The parser reads
    integers only; numbers with a fraction or an exponent are refused. *)

From S2P Require Import Prelude Bytes RustStd.

Inductive json : Type :=
  | JNull
  | JBool (b : bool)
  | JNum (n : Z)
  | JStr (s : bytes)
  | JArr (l : list json)
  | JObj (kvs : list (bytes * json)).

Class Json := {
  json_print : json -> bytes;
  json_parse : bytes -> option json;
}.
(** The values [serde_json] reads back as they were: text is UTF-8, integers fit an
    [i64] or a [u64], and nesting stays under the parser's limit of 128. *)
Fixpoint json_ok (depth : nat) (j : json) {struct depth} : bool :=
  match j, depth with
  | JNull, _ | JBool _, _ => true
  | JNum n, _ => (- 2 ^ 63 <=? n)%Z && (n <? 2 ^ 64)%Z
  | JStr s, _ => utf8_valid s
  | JArr l, S depth => forallb (json_ok depth) l
  | JObj kvs, S depth => forallb (fun kv => utf8_valid kv.1 && json_ok depth kv.2) kvs
  | _, 0 => false
  end.
Class JsonLaws `{Json} : Prop := {
  json_roundtrip j : json_ok 127 j = true -> json_parse (json_print j) = Some j;
}.

(** The concrete text. *)
Module JsonText.

(** ** Printing *)

Definition QUOTE : byte := x22.
Definition BACKSLASH : byte := x5c.

Definition hex_digit (n : Z) : byte := to_u8 (if (n <? 10)%Z then 48 + n else 87 + n).

(** The escapes of [format_escaped_str]: quote, backslash and control characters. *)
Definition escape (c : byte) : bytes :=
  if bool_decide (c = QUOTE) then [BACKSLASH; QUOTE]
  else if bool_decide (c = BACKSLASH) then [BACKSLASH; BACKSLASH]
  else if bool_decide (c = x08) then [BACKSLASH; "b"%byte]
  else if bool_decide (c = x09) then [BACKSLASH; "t"%byte]
  else if bool_decide (c = x0a) then [BACKSLASH; "n"%byte]
  else if bool_decide (c = x0c) then [BACKSLASH; "f"%byte]
  else if bool_decide (c = x0d) then [BACKSLASH; "r"%byte]
  else if (u8 c <? 32)%Z then [BACKSLASH; "u"%byte; "0"%byte; "0"%byte; hex_digit (u8 c / 16); hex_digit (u8 c mod 16)]
  else [c].
Definition print_string (s : bytes) : bytes := QUOTE :: concat (map escape s) ++ [QUOTE].
Definition print_number (n : Z) : bytes := if (n <? 0)%Z then "-"%byte :: show_u64 (- n) else show_u64 n.

Fixpoint commas (l : list bytes) : bytes :=
  match l with [] => [] | [a] => a | a :: l => a ++ ","%byte :: commas l end.

Fixpoint print_json (j : json) : bytes :=
  match j with
  | JNull => bs "null"
  | JBool true => bs "true"
  | JBool false => bs "false"
  | JNum n => print_number n
  | JStr s => print_string s
  | JArr l => "["%byte :: commas (map print_json l) ++ ["]"%byte]
  | JObj kvs => "{"%byte :: commas (map (fun kv => print_string kv.1 ++ ":"%byte :: print_json kv.2) kvs) ++ ["}"%byte]
  end.

(** ** Parsing *)

Definition is_space (c : byte) : bool := bool_decide (c = " "%byte) || bool_decide (c = x09) || bool_decide (c = x0a) || bool_decide (c = x0d).
Fixpoint skip_spaces (s : bytes) : bytes := match s with c :: r => if is_space c then skip_spaces r else s | [] => [] end.

Definition hex_value (c : byte) : option Z :=
  let n := u8 c in
  if (48 <=? n)%Z && (n <=? 57)%Z then Some (n - 48)%Z
  else if (97 <=? n)%Z && (n <=? 102)%Z then Some (n - 87)%Z
  else if (65 <=? n)%Z && (n <=? 70)%Z then Some (n - 55)%Z else None.

(** The UTF-8 text of a code point below 0x10000; surrogates are refused. *)
Definition utf8_of (n : Z) : option bytes :=
  if (n <? 0x80)%Z then Some [to_u8 n]
  else if (n <? 0x800)%Z then Some [to_u8 (0xc0 + n / 64); to_u8 (0x80 + n mod 64)]
  else if (0xd800 <=? n)%Z && (n <? 0xe000)%Z then None
  else Some [to_u8 (0xe0 + n / 4096); to_u8 (0x80 + n / 64 mod 64); to_u8 (0x80 + n mod 64)].

Definition simple_escape (c : byte) : option byte :=
  if bool_decide (c = QUOTE) then Some QUOTE
  else if bool_decide (c = BACKSLASH) then Some BACKSLASH
  else if bool_decide (c = "/"%byte) then Some "/"%byte
  else if bool_decide (c = "b"%byte) then Some x08
  else if bool_decide (c = "t"%byte) then Some x09
  else if bool_decide (c = "n"%byte) then Some x0a
  else if bool_decide (c = "f"%byte) then Some x0c
  else if bool_decide (c = "r"%byte) then Some x0d else None.

(** The text of a string after its opening quote; control characters are refused. *)
Fixpoint parse_string (s : bytes) : option (bytes * bytes) :=
  match s with
  | [] => None
  | c :: r =>
      if bool_decide (c = QUOTE) then Some ([], r)
      else if bool_decide (c = BACKSLASH) then
        match r with
        | e :: r =>
            match simple_escape e with
            | Some b => '(t, rest) ← parse_string r; Some (b :: t, rest)
            | None =>
                if bool_decide (e = "u"%byte) then
                  match r with
                  | h1 :: h2 :: h3 :: h4 :: r =>
                      a ← hex_value h1; b ← hex_value h2; c ← hex_value h3; d ← hex_value h4;
                      u ← utf8_of (a * 4096 + b * 256 + c * 16 + d);
                      '(t, rest) ← parse_string r; Some (u ++ t, rest)
                  | _ => None
                  end
                else None
            end
        | [] => None
        end
      else if (u8 c <? 32)%Z then None
      else '(t, rest) ← parse_string r; Some (c :: t, rest)
  end.

Fixpoint take_digits (s : bytes) : bytes * bytes :=
  match s with c :: r => if is_digit c then let '(d, rest) := take_digits r in (c :: d, rest) else ([], s) | [] => ([], []) end.
(** A leading zero is a number of its own. *)
Definition parse_natural (s : bytes) : option (Z * bytes) :=
  let '(d, rest) := take_digits s in
  match d with
  | [] => None
  | c :: (_ :: _) => if bool_decide (c = "0"%byte) then None else n ← parse_digits 0 d; Some (n, rest)
  | _ => n ← parse_digits 0 d; Some (n, rest)
  end.

Definition starts (p s : bytes) : option bytes := if bool_decide (take (length p) s = p) then Some (drop (length p) s) else None.
Definition expect (c : byte) (s : bytes) : option bytes :=
  match skip_spaces s with d :: r => if bool_decide (c = d) then Some r else None | [] => None end.

(** A value; the elements of an array after its bracket or a comma; the members of an
    object likewise. *)
Fixpoint parse_value (fuel : nat) (s : bytes) : option (json * bytes) :=
  match fuel with
  | O => None
  | S fuel =>
      match skip_spaces s with
      | [] => None
      | c :: r =>
          if bool_decide (c = QUOTE) then '(t, rest) ← parse_string r; Some (JStr t, rest)
          else if bool_decide (c = "["%byte) then
            match expect "]" r with
            | Some rest => Some (JArr [], rest)
            | None => '(l, rest) ← parse_elements fuel r; Some (JArr l, rest)
            end
          else if bool_decide (c = "{"%byte) then
            match expect "}" r with
            | Some rest => Some (JObj [], rest)
            | None => '(l, rest) ← parse_members fuel r; Some (JObj l, rest)
            end
          else if bool_decide (c = "-"%byte) then '(n, rest) ← parse_natural r; Some (JNum (- n), rest)
          else if is_digit c then '(n, rest) ← parse_natural (c :: r); Some (JNum n, rest)
          else match starts (bs "null") (c :: r) with
               | Some rest => Some (JNull, rest)
               | None =>
                   match starts (bs "true") (c :: r) with
                   | Some rest => Some (JBool true, rest)
                   | None => rest ← starts (bs "false") (c :: r); Some (JBool false, rest)
                   end
               end
      end
  end
with parse_elements (fuel : nat) (s : bytes) : option (list json * bytes) :=
  match fuel with
  | O => None
  | S fuel =>
      '(j, rest) ← parse_value fuel s;
      match expect "]" rest with
      | Some rest => Some ([j], rest)
      | None => rest ← expect "," rest; '(l, rest) ← parse_elements fuel rest; Some (j :: l, rest)
      end
  end
with parse_members (fuel : nat) (s : bytes) : option (list (bytes * json) * bytes) :=
  match fuel with
  | O => None
  | S fuel =>
      r ← expect QUOTE s; '(k, r) ← parse_string r; r ← expect ":" r;
      '(j, rest) ← parse_value fuel r;
      match expect "}" rest with
      | Some rest => Some ([(k, j)], rest)
      | None => rest ← expect "," rest; '(l, rest) ← parse_members fuel rest; Some ((k, j) :: l, rest)
      end
  end.

(** The whole text; every call but the first has read a byte. *)
Definition parse_json (s : bytes) : option json :=
  '(j, rest) ← parse_value (S (length s)) s;
  match skip_spaces rest with [] => Some j | _ => None end.

Definition json_text : Json := {| json_print := print_json; json_parse := parse_json |}.

(** ** The text is read back *)

Lemma parse_escape c r : parse_string (escape c ++ r) = ('(t, rest) ← parse_string r; Some (c :: t, rest)).
Proof. by destruct c. Qed.

Lemma parse_print_string s rest : parse_string (concat (map escape s) ++ QUOTE :: rest) = Some (s, rest).
Proof.
  induction s as [|c s IH]; [done|]. cbn [map concat]. rewrite <- app_assoc, parse_escape, IH. done.
Qed.

(** What follows a number must not continue it. *)
Definition no_digit (s : bytes) : Prop := match s with c :: _ => is_digit c = false | [] => True end.

Lemma take_digits_app d rest : forallb is_digit d = true -> no_digit rest -> take_digits (d ++ rest) = (d, rest).
Proof.
  intros Hd Hr. induction d as [|c d IH]; cbn in *; [by destruct rest as [|c r]; cbn in *; [|rewrite Hr]|].
  apply andb_true_iff in Hd as [-> Hd]. by rewrite IH.
Qed.

Lemma dec_digits_head fuel n acc :
  (0 < n < 10 ^ Z.of_nat fuel)%Z -> exists c r, dec_digits fuel n acc = c :: r /\ is_digit c = true /\ c <> "0"%byte.
Proof.
  revert n acc. induction fuel as [|fuel IH]; intros n acc Hn; [cbn in Hn; lia|]. cbn [dec_digits].
  destruct (Z.ltb_spec n 10) as [Hlt|Hge].
  - eexists _, _. split; [done|]. rewrite Z.mod_small by lia. split; [apply is_digit_show; lia|].
    intros E. apply (f_equal u8) in E. rewrite u8_digit in E by lia. change (u8 "0") with 48%Z in E. lia.
  - apply IH. rewrite Nat2Z.inj_succ, Z.pow_succ_r in Hn by lia. split; [apply Z.div_str_pos; lia|]. apply Z.div_lt_upper_bound; lia.
Qed.

Lemma parse_show n rest : (0 <= n < 2 ^ 64)%Z -> no_digit rest -> parse_natural (show_u64 n ++ rest) = Some (n, rest).
Proof.
  intros Hn Hr. unfold parse_natural. rewrite take_digits_app by (done || apply show_u64_digits).
  destruct (parse_digits_dec 20 n [] 0) as (k & _ & _ & E); [cbn; lia|lia|]. rewrite Z.add_0_l in E. cbn [parse_digits] in E.
  fold (show_u64 n) in E. destruct (decide (n = 0%Z)) as [->|Hne]; [done|].
  destruct (dec_digits_head 20 n []) as (c & r & Hh & _ & Hc); [cbn; lia|]. fold (show_u64 n) in Hh. rewrite Hh in *.
  rewrite E. destruct r; [done|]. by rewrite bool_decide_false.
Qed.

Lemma show_u64_head n : (0 <= n < 2 ^ 64)%Z -> exists c r, show_u64 n = c :: r /\ is_digit c = true.
Proof.
  intros Hn. destruct (decide (n = 0%Z)) as [->|Hne]; [by eexists _, _|].
  destruct (dec_digits_head 20 n []) as (c & r & Hh & Hd & _); [cbn; lia|]. by exists c, r.
Qed.

Definition number_ok (n : Z) : Prop := (- 2 ^ 63 <= n < 2 ^ 64)%Z.

(** Values of which every number is in range. *)
Fixpoint numbers_ok (j : json) : Prop :=
  match j with
  | JNum n => number_ok n
  | JArr l => Forall id (map numbers_ok l)
  | JObj kvs => Forall id (map (fun kv => numbers_ok kv.2) kvs)
  | _ => True
  end.

Lemma json_ok_numbers d j : json_ok d j = true -> numbers_ok j.
Proof.
  revert j. induction d as [|d IH]; intros [|b|n|s|l|kvs] Hj; cbn in Hj |- *; try done; try (unfold number_ok; lia).
  - apply Forall_map, Forall_forall. intros x Hx. apply IH. rewrite forallb_forall in Hj. apply Hj. by apply list_elem_of_In.
  - apply Forall_map, Forall_forall. intros x Hx. apply IH. rewrite forallb_forall in Hj.
    specialize (Hj x). rewrite andb_true_iff in Hj. apply Hj. by apply list_elem_of_In.
Qed.

(** A value starts with none of the bytes that end a sequence. *)
Definition starts_value (c : byte) : Prop := is_space c = false /\ c <> "]"%byte /\ c <> "}"%byte.

Lemma digit_starts c : is_digit c = true -> starts_value c.
Proof. by destruct c. Qed.

Lemma print_head j : numbers_ok j -> exists c r, print_json j = c :: r /\ starts_value c.
Proof.
  destruct j as [|[]|n|s|l|kvs]; cbn [numbers_ok print_json]; intros Hj; try by (eexists _, _; split; [reflexivity|]).
  unfold number_ok, print_number in *. destruct (Z.ltb_spec n 0); [by eexists _, _; split; [reflexivity|]|].
  destruct (show_u64_head n) as (c & r & -> & Hd); [lia|]. exists c, r. by split; [|apply digit_starts].
Qed.

Lemma skip_value c r : starts_value c -> skip_spaces (c :: r) = c :: r.
Proof. intros [Hs _]. cbn [skip_spaces]. by rewrite Hs. Qed.
Lemma expect_other c d r : starts_value d -> c = "]"%byte \/ c = "}"%byte -> expect c (d :: r) = None.
Proof.
  intros Hd Hc. unfold expect. rewrite skip_value by done. destruct Hd as (_ & H1 & H2).
  rewrite bool_decide_false; [done|]. destruct Hc as [-> | ->]; congruence.
Qed.

Lemma parse_value_digit fuel c r :
  is_digit c = true -> parse_value (S fuel) (c :: r) = ('(n, rest) ← parse_natural (c :: r); Some (JNum n, rest)).
Proof. intros Hd. destruct c; try discriminate Hd; reflexivity. Qed.

Lemma parse_number fuel n rest : number_ok n -> no_digit rest -> parse_value (S fuel) (print_number n ++ rest) = Some (JNum n, rest).
Proof.
  unfold number_ok, print_number. intros Hn Hr. destruct (Z.ltb_spec n 0) as [Hneg|Hpos].
  - cbn [app parse_value skip_spaces]. change (is_space "-") with false. cbn iota.
    change (bool_decide ("-"%byte = QUOTE)) with false. cbn iota. rewrite parse_show by (done || lia). cbn. by rewrite Z.opp_involutive.
  - destruct (show_u64_head n) as (c & r & E & Hd); [lia|]. rewrite E. cbn [app]. rewrite parse_value_digit by done.
    change (c :: r ++ rest) with ((c :: r) ++ rest). rewrite <- E, parse_show by (done || lia). done.
Qed.

Definition member_text (kv : bytes * json) : bytes := print_string kv.1 ++ ":"%byte :: print_json kv.2.

Definition reads (fuel : nat) : Prop :=
  (forall j rest, numbers_ok j -> no_digit rest -> length (print_json j) < fuel -> parse_value fuel (print_json j ++ rest) = Some (j, rest))
  /\ (forall l rest, l <> [] -> Forall numbers_ok l -> S (length (commas (map print_json l))) < fuel ->
        parse_elements fuel (commas (map print_json l) ++ "]"%byte :: rest) = Some (l, rest))
  /\ (forall l rest, l <> [] -> Forall (fun kv => numbers_ok kv.2) l -> S (length (commas (map member_text l))) < fuel ->
        parse_members fuel (commas (map member_text l) ++ "}"%byte :: rest) = Some (l, rest)).

Lemma commas_cons a l : l <> [] -> commas (a :: l) = a ++ ","%byte :: commas l.
Proof. by destruct l. Qed.

Lemma reads_elements fuel l rest :
  reads fuel -> l <> [] -> Forall numbers_ok l -> S (length (commas (map print_json l))) < S fuel ->
  parse_elements (S fuel) (commas (map print_json l) ++ "]"%byte :: rest) = Some (l, rest).
Proof.
  intros (Hv & He & _) Hne Hok Hf. destruct l as [|j l]; [done|]. apply Forall_cons in Hok as [Hj Hl]. cbn [parse_elements map] in *.
  destruct l as [|j' l].
  - cbn [commas map] in *. rewrite Hv by (done || lia). done.
  - rewrite commas_cons in * by done. rewrite length_app in Hf. cbn [length] in Hf. rewrite <- app_assoc. cbn [app].
    rewrite Hv by (done || lia). cbn [mbind option_bind]. change (expect "]" (","%byte :: _)) with (@None bytes). cbn iota.
    change (expect "," (","%byte :: ?r)) with (Some r). cbn [mbind option_bind]. rewrite He by (done || lia). done.
Qed.

(** What follows the first member. *)
Lemma read_member {A} fuel k j tl (K : bytes -> json -> bytes -> option A) :
  reads fuel -> numbers_ok j -> length (print_json j) < fuel -> no_digit tl ->
  (r ← expect QUOTE (member_text (k, j) ++ tl); '(k, r) ← parse_string r; r ← expect ":" r; '(j, rest) ← parse_value fuel r; K k j rest) = K k j tl.
Proof.
  intros (Hv & _) Hj Hl Ht. unfold member_text, print_string. cbn [fst snd app]. rewrite <- !app_assoc. cbn [app].
  change (expect QUOTE (QUOTE :: ?r)) with (Some r). cbn [mbind option_bind]. rewrite parse_print_string. cbn [mbind option_bind].
  change (expect ":" (":"%byte :: ?r)) with (Some r). cbn [mbind option_bind]. by rewrite Hv.
Qed.

Lemma reads_members fuel l rest :
  reads fuel -> l <> [] -> Forall (fun kv => numbers_ok kv.2) l -> S (length (commas (map member_text l))) < S fuel ->
  parse_members (S fuel) (commas (map member_text l) ++ "}"%byte :: rest) = Some (l, rest).
Proof.
  intros Hr Hne Hok Hf. pose proof Hr as (_ & _ & Hm). destruct l as [|[k j] l]; [done|]. apply Forall_cons in Hok as [Hj Hl]. cbn [parse_members map snd] in *.
  destruct l as [|kv l].
  - cbn [commas map] in *. unfold member_text in Hf at 1. cbn [fst snd] in Hf. rewrite length_app in Hf. cbn [length] in Hf. rewrite read_member by (done || lia). done.
  - rewrite commas_cons in * by done. rewrite length_app in Hf. unfold member_text in Hf at 1. cbn [fst snd] in Hf. rewrite length_app in Hf.
    cbn [length] in Hf. rewrite <- app_assoc. cbn [app]. rewrite read_member by (done || lia).
    change (expect "}" (","%byte :: _)) with (@None bytes). cbn iota.
    change (expect "," (","%byte :: ?r)) with (Some r). cbn [mbind option_bind]. rewrite Hm by (done || lia). done.
Qed.

Lemma forall_map_id {A} (P : A -> Prop) l : Forall id (map P l) <-> Forall P l.
Proof. by rewrite Forall_map. Qed.

Lemma reads_value fuel j rest :
  reads fuel -> numbers_ok j -> no_digit rest -> length (print_json j) < S fuel -> parse_value (S fuel) (print_json j ++ rest) = Some (j, rest).
Proof.
  intros Hr Hj Hrest Hf. pose proof Hr as (_ & He & Hm). destruct j as [|[]|n|s|l|kvs].
  1-3: cbn -[bs]; by rewrite ?drop_0.
  - by apply parse_number.
  - cbn [print_json]. unfold print_string. cbn [app parse_value]. change (skip_spaces (QUOTE :: ?r)) with (QUOTE :: r).
    rewrite <- app_assoc. cbn iota. rewrite bool_decide_true by done. cbn [app]. by rewrite parse_print_string.
  - cbn [print_json numbers_ok] in *. rewrite forall_map_id in Hj. cbn [app parse_value length] in *. rewrite length_app in Hf. cbn [length] in Hf.
    change (skip_spaces ("["%byte :: ?r)) with ("["%byte :: r). rewrite <- app_assoc. cbn [app]. cbn iota.
    rewrite bool_decide_false, bool_decide_true by done. destruct l as [|j l]; [done|].
    assert (Hhead : exists c r, commas (map print_json (j :: l)) = c :: r /\ starts_value c).
    { apply Forall_cons in Hj as [Hj _]. destruct (print_head j Hj) as (c & r & E & Hc). exists c. destruct l; cbn [map commas]; rewrite E; cbn [app]; eauto. }
    destruct Hhead as (c & r & E & Hc). rewrite E. cbn [app]. rewrite (expect_other "]") by auto.
    change (c :: r ++ ?x) with ((c :: r) ++ x). rewrite <- E. rewrite He by (done || lia). done.
  - cbn [print_json numbers_ok] in *. rewrite forall_map_id in Hj. cbn [app parse_value length] in *. rewrite length_app in Hf. cbn [length] in Hf.
    change (skip_spaces ("{"%byte :: ?r)) with ("{"%byte :: r). rewrite <- app_assoc. cbn [app]. cbn iota.
    rewrite !bool_decide_false, bool_decide_true by done. destruct kvs as [|kv l]; [done|].
    assert (Hhead : exists r, commas (map member_text (kv :: l)) = QUOTE :: r) by (destruct l; cbn; eauto).
    destruct Hhead as [r E]. change (map _ (kv :: l)) with (map member_text (kv :: l)) in *. rewrite E. cbn [app].
    rewrite (expect_other "}") by (auto || done).
    change (QUOTE :: r ++ ?x) with ((QUOTE :: r) ++ x). rewrite <- E. rewrite Hm by (done || lia). done.
Qed.

Lemma reads_all fuel : reads fuel.
Proof.
  induction fuel as [|fuel IH]; [split_and!; intros; lia|].
  split_and!; [intros; by apply reads_value|intros; by apply reads_elements|intros; by apply reads_members].
Qed.

(** What is printed is read back. *)
Theorem parse_print_json j : numbers_ok j -> parse_json (print_json j) = Some j.
Proof.
  intros Hj. unfold parse_json. destruct (reads_all (S (length (print_json j)))) as (Hv & _).
  specialize (Hv j [] Hj I ltac:(lia)). rewrite app_nil_r in Hv. by rewrite Hv.
Qed.

Lemma json_text_laws : @JsonLaws json_text.
Proof. split. intros j Hj. by eapply parse_print_json, json_ok_numbers. Qed.

(** A text without line breaks: the control characters are escaped. *)
Lemma escape_no_control c : Forall (fun b => 32 <= u8 b)%Z (escape c).
Proof. destruct c; vm_compute; repeat constructor; discriminate. Qed.
End JsonText.
