(* ===== verification/Encoder.v ===== *)
(** * The driver's record encoder ([plugins/driver/src/transformer.rs], 18-105)

    [protobuf_encode] writes a length-prefixed protobuf [Record] into a
    caller-supplied buffer, from the end backwards, after computing the size it
    needs.  The buffer is the state of the code ([SM bytes]); a write outside it
    and a subtraction below zero are panics.  [Frame] states the wire format the
    buffer must hold; [protobuf_encode_frame] proves it is what is written. *)

From S2P Require Import Prelude Bytes RustStd.

(** ** The wire format: varints, entries, records *)

Module Frame.

(** Base-128 varint of a [u64]; ten groups of seven bits are enough. *)
Fixpoint varint_fuel (fuel : nat) (n : Z) : bytes :=
  match fuel with
  | O => []
  | S fuel' =>
      if (n <? 128)%Z then [to_u8 n]
      else to_u8 (128 + n mod 128) :: varint_fuel fuel' (n / 128)
  end.
Definition varint (n : Z) : bytes := varint_fuel 10 n.

Definition len_delimited (s : bytes) : bytes := varint (Z.of_nat (length s)) ++ s.

(** One map entry: key as field 1, value as field 2 of the entry message, the
    entry as field 1 of the payload. *)
Definition entry_body (k v : bytes) : bytes :=
  x0a :: len_delimited k ++ x12 :: len_delimited v.
Definition entry (kv : bytes * bytes) : bytes := x0a :: len_delimited (entry_body kv.1 kv.2).

Definition payload (kvs : list (bytes * bytes)) : bytes := concat (map entry kvs).

Definition record (data_type timestamp : Z) (kvs : list (bytes * bytes)) : bytes :=
  x08 :: varint data_type ++ x10 :: varint timestamp ++ x1a :: len_delimited (payload kvs).

(** The frame: a little-endian 32-bit length, then the record. *)
Definition frame (data_type timestamp : Z) (kvs : list (bytes * bytes)) : bytes :=
  let r := record data_type timestamp kvs in to_le_bytes (wrap_u32 (Z.of_nat (length r))) ++ r.

End Frame.

(** ** The code *)

Definition leading_zeros (n : Z) : Z := if (n =? 0)%Z then 64 else 63 - Z.log2 n.

Definition encoded_varint_len (n : Z) : nat :=
  Z.to_nat ((Z.lxor (leading_zeros (Z.lor n 1)) 63 * 9 + 73) / 64).

(** [a - b] on [usize]. *)
Definition usub (a b : nat) : SM bytes nat :=
  if decide (b <= a) then mret (a - b) else sm_panic.

(** [dst[index..index + src.len()].copy_from_slice(src)]; for one byte, [dst[index] = b]. *)
Definition write_at (index : nat) (src : bytes) : SM bytes unit := fun dst =>
  if decide (index + length src <= length dst)
  then (Ret tt, take index dst ++ src ++ drop (index + length src) dst)
  else (Panic, dst).

(** The loop of [encode_varint] on the slice [dst[base..]]; [i] counts the bytes
    written. A [u64] takes at most ten turns. *)
Fixpoint encode_varint_loop (fuel base i : nat) (n : Z) : SM bytes nat :=
  match fuel with
  | O => sm_panic
  | S fuel' =>
      if (n >=? 0x80)%Z
      then write_at (base + i) [to_u8 (Z.lor 0x80 (n mod 256))] ;;
           encode_varint_loop fuel' base (S i) (Z.shiftr n 7)
      else write_at (base + i) [to_u8 n] ;; mret (S i)
  end.

Definition encode_varint (n : Z) (base : nat) : SM bytes nat := encode_varint_loop 10 base 0 n.

(** The sizing loop: [keys[i]] and [values[i]] for [i in 0..keys.len()]; a missing
    value is an index out of range. *)
Fixpoint map_length (keys values : list bytes) : outcome nat :=
  match keys, values with
  | [], _ => Ret 0
  | _ :: _, [] => Panic
  | k :: keys', v :: values' =>
      let entry_length :=
        1 + length k + encoded_varint_len (Z.of_nat (length k))
        + 1 + length v + encoded_varint_len (Z.of_nat (length v)) in
      rest ← map_length keys' values';
      Ret (1 + entry_length + encoded_varint_len (Z.of_nat entry_length) + rest)
  end.

(** Write [src] in the bytes just below [index]: the step every part is written with. *)
Definition put_below (src : bytes) (index : nat) : SM bytes nat :=
  index ← usub index (length src); write_at index src ;; mret index.

Definition put_varint_below (n : Z) (index : nat) : SM bytes nat :=
  index ← usub index (encoded_varint_len n); encode_varint n index ;; mret index.

Definition encode_entry (k v : bytes) (base_index : nat) : SM bytes nat :=
  index ← put_below v base_index;
  index ← put_varint_below (Z.of_nat (length v)) index;
  index ← put_below [x12] index;
  index ← put_below k index;
  index ← put_varint_below (Z.of_nat (length k)) index;
  index ← put_below [x0a] index;
  let entry_length := base_index - index in
  index ← put_varint_below (Z.of_nat entry_length) index;
  put_below [x0a] index.

Fixpoint encode_entries (keys values : list bytes) (index : nat) : SM bytes nat :=
  match keys, values with
  | [], _ => mret index
  | _ :: _, [] => sm_panic
  | k :: keys', v :: values' => index ← encode_entry k v index; encode_entries keys' values' index
  end.

(** The size of the frame, as the code adds it up. *)
Definition needed_length (timestamp : Z) (keys : list bytes) (map_len : nat) (data_type : Z) : nat :=
  (if (data_type >? 0)%Z then 3 + encoded_varint_len data_type else 0)
  + (if (timestamp >? 0)%Z then 3 + encoded_varint_len timestamp else 0)
  + (if decide (0 < length keys) then 1 + map_len + encoded_varint_len (Z.of_nat map_len) else 0).

Definition write_frame (timestamp : Z) (keys values : list bytes) (map_len needed : nat)
    (data_type : Z) : SM bytes nat :=
  index ← (if decide (0 < length keys)
           then index ← encode_entries keys values needed;
                put_varint_below (Z.of_nat map_len) index
           else mret needed);
  index ← put_below [x1a] index;
  index ← (if decide (timestamp ≠ 0%Z)
           then index ← put_varint_below timestamp index; put_below [x10] index
           else mret index);
  index ← put_varint_below data_type index;
  write_at 4 [x08] ;;
  size ← usub needed 4;
  write_at 0 (to_le_bytes (wrap_u32 (Z.of_nat size))) ;;
  mret needed.

Definition protobuf_encode (timestamp : Z) (keys values : list bytes) (data_type : Z)
    : SM bytes nat :=
  map_len ← sm_lift (if decide (0 < length keys) then map_length keys values else Ret 0);
  let needed := needed_length timestamp keys map_len data_type in
  dst_len ← sm_gets length;
  if decide (dst_len < needed) then sm_fail WriteZero
  else write_frame timestamp keys values map_len needed data_type.

(** ** Varints *)

Section varint.
Local Open Scope Z_scope.
Import Frame.

(** A property of the integers of a small interval, by evaluation. *)
Lemma Z_range_check (f : Z -> bool) (k : Z) :
  forallb f (seqZ 0 k) = true -> forall n, 0 <= n < k -> f n = true.
Proof.
  intros H n Hn. rewrite forallb_forall in H. apply H.
  rewrite <- list_elem_of_In. apply elem_of_seqZ. lia.
Qed.

Lemma lor_128 m : 0 <= m < 256 -> Z.lor 128 m = 128 + m mod 128.
Proof.
  intros Hm. apply Z.eqb_eq.
  by apply (Z_range_check (fun m => Z.lor 128 m =? 128 + m mod 128) 256).
Qed.

Lemma continuation_byte n : to_u8 (Z.lor 0x80 (n mod 256)) = to_u8 (128 + n mod 128).
Proof.
  rewrite lor_128 by (apply Z.mod_pos_bound; lia). do 2 f_equal.
  rewrite (Z.div_mod n 256) at 2 by lia.
  replace (256 * (n / 256) + n mod 256) with (n mod 256 + 2 * (n / 256) * 128) by lia.
  by rewrite Z.mod_add.
Qed.

Lemma encoded_varint_len_log2 n :
  0 <= n < 2 ^ 64 -> Z.of_nat (encoded_varint_len n) = Z.log2 n / 7 + 1.
Proof.
  intros Hn. unfold encoded_varint_len, leading_zeros.
  assert (Z.lor n 1 <> 0) by (intros [_ ?]%Z.lor_eq_0_iff; lia).
  replace (Z.lor n 1 =? 0) with false by lia.
  rewrite Z.log2_lor by lia. change (Z.log2 1) with 0.
  rewrite Z.max_l by apply Z.log2_nonneg.
  assert (0 <= Z.log2 n < 64) as Hl.
  { split; [apply Z.log2_nonneg|]. destruct (Z.eq_dec n 0) as [->|]; [cbn; lia|].
    apply Z.log2_lt_pow2; lia. }
  pose proof (Z_range_check
    (fun l => Z.of_nat (Z.to_nat ((Z.lxor (63 - l) 63 * 9 + 73) / 64)) =? l / 7 + 1) 64
    eq_refl (Z.log2 n) Hl) as Hc. cbv beta in Hc. apply Z.eqb_eq in Hc. exact Hc.
Qed.

Lemma length_varint_fuel fuel n :
  0 <= n < 128 ^ Z.of_nat fuel -> (0 < fuel)%nat ->
  Z.of_nat (length (varint_fuel fuel n)) = Z.log2 n / 7 + 1.
Proof.
  revert n. induction fuel as [|fuel IH]; intros n Hn Hf; [lia|]. cbn [varint_fuel].
  destruct (Z.ltb_spec n 128) as [Hlt|Hge].
  - pose proof (Z_range_check (fun n => 1 =? Z.log2 n / 7 + 1) 128 eq_refl n ltac:(lia)) as Hc.
    cbv beta in Hc. cbn [length]. lia.
  - rewrite Nat2Z.inj_succ, Z.pow_succ_r in Hn by lia.
    cbn [length]. rewrite Nat2Z.inj_succ, IH.
    + replace (n / 128) with (Z.shiftr n 7) by (rewrite Z.shiftr_div_pow2; [done|lia]).
      rewrite Z.log2_shiftr by lia.
      assert (7 <= Z.log2 n) by (apply Z.log2_le_pow2; lia).
      rewrite Z.max_r by lia. replace (Z.log2 n) with (Z.log2 n - 7 + 1 * 7) at 2 by lia.
      rewrite Z.div_add by lia. lia.
    + split; [apply Z.div_pos; lia|]. apply Z.div_lt_upper_bound; lia.
    + destruct fuel; [cbn in Hn; lia|lia].
Qed.

Lemma length_varint n :
  0 <= n < 2 ^ 64 -> length (varint n) = encoded_varint_len n.
Proof.
  intros Hn. apply Nat2Z.inj. rewrite encoded_varint_len_log2 by done.
  apply length_varint_fuel; [|lia].
  assert (2 ^ 64 <= 128 ^ Z.of_nat 10) by (by vm_compute). lia.
Qed.
End varint.

(** ** Writing below an index

    While a frame is being written the buffer is [take i d ++ suf]: the bytes
    below [i] are still those of the original buffer [d], [suf] is what has been
    written so far with the rest of [d] behind it. *)

Section writing.
Import Frame.

Lemma write_at_app d src i suf :
  i + length src <= length d ->
  write_at i src (take (i + length src) d ++ suf) = (Ret tt, take i d ++ src ++ suf).
Proof.
  intros Hi. unfold write_at. rewrite decide_True by (rewrite length_app, length_take; lia).
  f_equal. rewrite take_app_le by (rewrite length_take; lia).
  rewrite take_take, Nat.min_l by lia. do 2 f_equal.
  rewrite drop_app_ge; rewrite length_take_le by lia; [|lia]. by rewrite Nat.sub_diag.
Qed.

Lemma put_below_spec d src i suf :
  length src <= i <= length d ->
  put_below src i (take i d ++ suf)
  = (Ret (i - length src), take (i - length src) d ++ src ++ suf).
Proof.
  intros Hi. unfold put_below, usub. rewrite decide_True by lia.
  cbn. unfold mbind, SM_bind, mret, SM_ret.
  replace (take i d) with (take ((i - length src) + length src) d) by (f_equal; lia).
  rewrite write_at_app by lia. done.
Qed.

(** The varint loop writes forward, from [base + i]. *)
Lemma encode_varint_loop_spec fuel base i n dst :
  (0 <= n < 128 ^ Z.of_nat fuel)%Z -> 0 < fuel ->
  base + i + length (varint_fuel fuel n) <= length dst ->
  encode_varint_loop fuel base i n dst
  = (Ret (i + length (varint_fuel fuel n)),
     take (base + i) dst ++ varint_fuel fuel n
       ++ drop (base + i + length (varint_fuel fuel n)) dst).
Proof.
  revert i n dst. induction fuel as [|fuel IH]; intros i n dst Hn Hf Hlen; [lia|].
  cbn [encode_varint_loop varint_fuel] in *. rewrite Z.geb_leb.
  destruct (Z.ltb_spec n 128) as [Hlt|Hge].
  - rewrite (proj2 (Z.leb_gt _ _)) by lia. cbn [length] in *.
    unfold mbind, SM_bind, mret, SM_ret, write_at. cbn [length].
    rewrite decide_True by lia. f_equal. f_equal. lia.
  - rewrite (proj2 (Z.leb_le _ _)) by lia. rewrite continuation_byte, Z.shiftr_div_pow2 by lia.
    change (2 ^ 7)%Z with 128%Z. cbn [length] in *.
    set (b := to_u8 (128 + n mod 128)) in *.
    rewrite Nat2Z.inj_succ, Z.pow_succ_r in Hn by lia.
    unfold mbind at 1, SM_bind at 1, write_at. cbn [length]. rewrite decide_True by lia.
    rewrite IH; cycle 1.
    + split; [apply Z.div_pos; lia|]. apply Z.div_lt_upper_bound; lia.
    + destruct fuel; [cbn in Hn; lia|lia].
    + rewrite !length_app, length_take, length_drop. cbn [length]. lia.
    + f_equal; [f_equal; lia|].
      rewrite (app_assoc (take (base + i) dst) [b]), take_app_length'
        by (rewrite length_app, length_take_le by lia; cbn [length]; lia).
      rewrite <- app_assoc. cbn [app]. do 3 f_equal.
      rewrite drop_app_ge; rewrite length_app, length_take_le by lia; cbn [length]; [|lia].
      rewrite drop_drop. f_equal. lia.
Qed.

Lemma put_varint_below_spec d n i suf :
  (0 <= n < 2 ^ 64)%Z -> encoded_varint_len n <= i <= length d ->
  put_varint_below n i (take i d ++ suf)
  = (Ret (i - encoded_varint_len n), take (i - encoded_varint_len n) d ++ varint n ++ suf).
Proof.
  intros Hn Hi. unfold put_varint_below, usub. rewrite decide_True by lia.
  unfold mbind, SM_bind, mret, SM_ret, encode_varint.
  assert (2 ^ 64 <= 128 ^ Z.of_nat 10)%Z by (by vm_compute).
  pose proof (length_varint n Hn) as Hl. unfold varint in Hl.
  rewrite encode_varint_loop_spec; [|lia|lia|].
  - f_equal. rewrite Nat.add_0_r, Hl.
    rewrite take_app_le by (rewrite length_take; lia). rewrite take_take, Nat.min_l by lia.
    unfold varint. do 2 f_equal. rewrite drop_app_ge; rewrite length_take_le by lia; [|lia].
    by replace (i - encoded_varint_len n + encoded_varint_len n - i) with 0 by lia.
  - rewrite Hl, length_app, length_take_le by lia. lia.
Qed.
End writing.

(** ** The frame *)

Section frame.
Import Frame.

(** Lengths fit in a [usize]. *)
Definition fits (n : nat) : Prop := (Z.of_nat n < 2 ^ 64)%Z.

Lemma length_len_delimited s :
  fits (length s) ->
  length (len_delimited s) = encoded_varint_len (Z.of_nat (length s)) + length s.
Proof. intros Hs. unfold len_delimited, fits in *. rewrite length_app, length_varint; lia. Qed.

(** The entry length the sizing loop computes. *)
Definition entry_size (k v : bytes) : nat :=
  1 + length k + encoded_varint_len (Z.of_nat (length k))
  + 1 + length v + encoded_varint_len (Z.of_nat (length v)).

Lemma length_entry_body k v :
  fits (length k) -> fits (length v) -> length (entry_body k v) = entry_size k v.
Proof.
  intros. unfold entry_body, entry_size. cbn [length].
  rewrite length_app. cbn [length]. rewrite !length_len_delimited by done. lia.
Qed.

Lemma length_entry k v :
  fits (length (entry_body k v)) ->
  length (entry (k, v)) =
    1 + entry_size k v + encoded_varint_len (Z.of_nat (entry_size k v)).
Proof.
  intros H. unfold entry. cbn [length fst snd]. rewrite length_len_delimited by done.
  assert (fits (length k) /\ fits (length v)) as [Hk Hv].
  { unfold fits, entry_body, len_delimited in *. cbn [length] in H.
    rewrite !length_app in H. cbn [length] in H. rewrite !length_app in H. lia. }
  rewrite length_entry_body by done. lia.
Qed.

(** Run the next call of a sequence with its specification. *)
Ltac put_step :=
  erewrite sm_bind_ret;
  [|first [apply put_below_spec | apply put_varint_below_spec]; cbn [length]; lia].

Lemma encode_entry_spec d k v i suf :
  fits (length d) -> length (entry (k, v)) <= i <= length d ->
  encode_entry k v i (take i d ++ suf)
  = (Ret (i - length (entry (k, v))), take (i - length (entry (k, v))) d ++ entry (k, v) ++ suf).
Proof.
  intros Hd Hi. unfold fits in Hd.
  assert (Hb : fits (length (entry_body k v))).
  { unfold entry, len_delimited, fits in *. cbn [length fst snd] in Hi. rewrite length_app in Hi. lia. }
  assert (fits (length k) /\ fits (length v)) as [Hk Hv].
  { unfold fits, entry_body, len_delimited in *. cbn [length] in Hb.
    rewrite !length_app in Hb. cbn [length] in Hb. rewrite !length_app in Hb. lia. }
  pose proof (length_entry k v Hb) as El. unfold entry_size in El. unfold fits in Hk, Hv.
  unfold encode_entry.
  do 6 put_step. cbn [length].
  match goal with |- context [put_varint_below (Z.of_nat ?n)] =>
    replace n with (entry_size k v) by (unfold entry_size; lia) end.
  unfold fits in Hb. rewrite length_entry_body in Hb by done. unfold entry_size in *.
  put_step.
  rewrite put_below_spec by (cbn [length]; lia). cbn [length]. rewrite El.
  f_equal; [f_equal; lia|]. f_equal; [f_equal; lia|].
  unfold entry, len_delimited at 1. cbn [fst snd app]. rewrite length_entry_body by done.
  unfold entry_size, entry_body, len_delimited. repeat (rewrite <- app_assoc; cbn [app]). done.
Qed.

Lemma payload_cons kv kvs : payload (kv :: kvs) = entry kv ++ payload kvs.
Proof. done. Qed.

Lemma payload_snoc kvs kv : payload (kvs ++ [kv]) = payload kvs ++ entry kv.
Proof. unfold payload. rewrite map_app, concat_app. cbn [map concat]. by rewrite app_nil_r. Qed.

Lemma length_payload_reverse kvs : length (payload (reverse kvs)) = length (payload kvs).
Proof.
  induction kvs as [|kv kvs IH]; [done|].
  rewrite reverse_cons, payload_snoc, payload_cons, !length_app, IH. lia.
Qed.

Lemma encode_entries_spec d keys values i suf :
  fits (length d) -> length keys <= length values ->
  length (payload (zip keys values)) <= i <= length d ->
  encode_entries keys values i (take i d ++ suf)
  = (Ret (i - length (payload (zip keys values))),
     take (i - length (payload (zip keys values))) d
       ++ payload (reverse (zip keys values)) ++ suf).
Proof.
  intros Hd. revert values i suf.
  induction keys as [|k keys IH]; intros [|v values] i suf Hle Hi; cbn [length] in Hle;
    [by rewrite Nat.sub_0_r .. | lia |].
  cbn [encode_entries].
  change (zip (k :: keys) (v :: values)) with ((k, v) :: zip keys values) in *.
  rewrite payload_cons, length_app in *. erewrite sm_bind_ret; [|apply encode_entry_spec; [done|lia]].
  rewrite IH by lia. rewrite reverse_cons, payload_snoc, <- app_assoc.
  do 2 f_equal; [lia|f_equal; lia].
Qed.

(** The sizing loop computes the length of the entries it will write. *)
Lemma map_length_spec keys values :
  length keys <= length values -> fits (length (payload (zip keys values))) ->
  map_length keys values = Ret (length (payload (zip keys values))).
Proof.
  revert values. induction keys as [|k keys IH]; intros [|v values] Hle Hf;
    cbn [length] in Hle; [done..|lia|].
  cbn [map_length]. change (zip (k :: keys) (v :: values)) with ((k, v) :: zip keys values) in *.
  rewrite payload_cons, length_app in *. rewrite IH by (unfold fits in *; lia). cbn [mbind outcome_bind].
  rewrite length_entry; [unfold entry_size; f_equal; lia|].
  unfold entry, len_delimited, fits in *. cbn [length fst snd] in Hf. rewrite length_app in Hf. lia.
Qed.

Lemma map_length_panics keys values :
  length values < length keys -> map_length keys values = Panic.
Proof.
  revert values. induction keys as [|k keys IH]; intros [|v values] Hlt; cbn [length] in Hlt;
    [lia..|done|]. cbn [map_length]. by rewrite IH by lia.
Qed.

Lemma length_record dt ts kvs :
  (0 <= dt < 2 ^ 64)%Z -> (0 <= ts < 2 ^ 64)%Z -> fits (length (payload kvs)) ->
  length (record dt ts kvs) =
    3 + encoded_varint_len dt + encoded_varint_len ts
    + encoded_varint_len (Z.of_nat (length (payload kvs))) + length (payload kvs).
Proof.
  intros Hdt Hts Hp. unfold record. cbn [length]. rewrite !length_app. cbn [length].
  rewrite !length_app. cbn [length]. rewrite length_len_delimited, !length_varint by done. lia.
Qed.

Lemma length_frame dt ts kvs : length (frame dt ts kvs) = 4 + length (record dt ts kvs).
Proof. unfold frame. by rewrite length_app. Qed.

(** The frame written by [write_frame], for a record the transformer can send:
    a positive type, a positive time and at least one field. *)
Lemma write_frame_spec dt ts keys values d :
  let kvs := reverse (zip keys values) in
  (0 < dt < 2 ^ 64)%Z -> (0 < ts < 2 ^ 64)%Z -> 0 < length keys ->
  length keys <= length values -> fits (length d) -> length (frame dt ts kvs) <= length d ->
  write_frame ts keys values (length (payload kvs)) (length (frame dt ts kvs)) dt d
  = (Ret (length (frame dt ts kvs)), frame dt ts kvs ++ drop (length (frame dt ts kvs)) d).
Proof.
  intros kvs Hdt Hts Hk Hle Hd Hlen. unfold fits in Hd.
  assert (Hp : length (payload kvs) <= length (record dt ts kvs)).
  { unfold record, len_delimited. cbn [length]. rewrite !length_app. cbn [length].
    rewrite !length_app. cbn [length]. rewrite !length_app. lia. }
  pose proof (length_frame dt ts kvs) as Ef.
  assert (fits (length (payload kvs))) as Hfp by (unfold fits; lia).
  pose proof (length_record dt ts kvs ltac:(lia) ltac:(lia) Hfp) as Er. unfold fits in Hfp.
  set (n := length (frame dt ts kvs)) in *. clearbody n.
  rewrite <- (take_drop n d) at 1. unfold write_frame. rewrite decide_True by done.
  assert (Epl : length (payload (zip keys values)) = length (payload kvs))
    by (unfold kvs; by rewrite length_payload_reverse).
  rewrite sm_bind_assoc.
  erewrite sm_bind_ret; [|apply encode_entries_spec; [done..|rewrite Epl; lia]]. rewrite Epl.
  fold kvs. do 2 put_step. rewrite decide_True by lia. rewrite sm_bind_assoc. do 3 put_step. cbn [length].
  replace (n - length (payload kvs) - encoded_varint_len (Z.of_nat (length (payload kvs))) - 1
    - encoded_varint_len ts - 1 - encoded_varint_len dt) with (4 + 1) by lia.
  erewrite sm_bind_ret; [|exact (write_at_app d [x08] 4 _ ltac:(cbn [length]; lia))].
  erewrite sm_bind_ret; [|unfold usub; rewrite decide_True by lia; reflexivity].
  erewrite sm_bind_ret; [|exact (write_at_app d (to_le_bytes _) 0 _ ltac:(cbn [length to_le_bytes]; lia))].
  replace (n - 4) with (length (record dt ts kvs)) by lia.
  unfold frame, record, len_delimited. rewrite take_0. cbn [app].
  repeat (rewrite <- app_assoc; cbn [app]). done.
Qed.

Lemma needed_length_frame dt ts keys kvs :
  (0 < dt < 2 ^ 64)%Z -> (0 < ts < 2 ^ 64)%Z -> 0 < length keys ->
  fits (length (payload kvs)) ->
  needed_length ts keys (length (payload kvs)) dt = length (frame dt ts kvs).
Proof.
  intros Hdt Hts Hk Hf. rewrite length_frame, length_record by (done || lia).
  unfold needed_length. rewrite !Z.gtb_ltb, !(proj2 (Z.ltb_lt _ _)) by lia.
  rewrite decide_True by done. lia.
Qed.

Lemma protobuf_encode_ok dt ts keys values d :
  let kvs := reverse (zip keys values) in
  (0 < dt < 2 ^ 64)%Z -> (0 < ts < 2 ^ 64)%Z -> 0 < length keys ->
  length keys <= length values -> fits (length d) -> length (frame dt ts kvs) <= length d ->
  protobuf_encode ts keys values dt d
  = (Ret (length (frame dt ts kvs)), frame dt ts kvs ++ drop (length (frame dt ts kvs)) d).
Proof.
  intros kvs Hdt Hts Hk Hle Hd Hlen. unfold protobuf_encode, fits in *.
  assert (Hp : fits (length (payload kvs))).
  { unfold fits, frame, record, len_delimited in *. rewrite !length_app in Hlen.
    cbn [length] in Hlen. rewrite !length_app in Hlen. cbn [length] in Hlen.
    rewrite !length_app in Hlen. cbn [length] in Hlen. rewrite !length_app in Hlen. lia. }
  assert (Epl : length (payload (zip keys values)) = length (payload kvs))
    by (unfold kvs; by rewrite length_payload_reverse).
  rewrite decide_True by done. rewrite map_length_spec; [|done|by rewrite Epl].
  rewrite Epl. unfold sm_lift, sm_gets, mbind, SM_bind.
  rewrite needed_length_frame by done. rewrite decide_False by lia.
  by apply write_frame_spec.
Qed.

Lemma protobuf_encode_short dt ts keys values d :
  let kvs := reverse (zip keys values) in
  (0 < dt < 2 ^ 64)%Z -> (0 < ts < 2 ^ 64)%Z -> 0 < length keys ->
  length keys <= length values -> fits (length (payload kvs)) ->
  length d < length (frame dt ts kvs) ->
  protobuf_encode ts keys values dt d = (Fail WriteZero, d).
Proof.
  intros kvs Hdt Hts Hk Hle Hp Hlen. unfold protobuf_encode.
  assert (Epl : length (payload (zip keys values)) = length (payload kvs))
    by (unfold kvs; by rewrite length_payload_reverse).
  rewrite decide_True by done. rewrite map_length_spec; [|done|by rewrite Epl].
  rewrite Epl. unfold sm_lift, sm_gets, mbind, SM_bind.
  rewrite needed_length_frame by done. by rewrite decide_True by lia.
Qed.

Lemma protobuf_encode_panics dt ts keys values d :
  length values < length keys -> protobuf_encode ts keys values dt d = (Panic, d).
Proof.
  intros H. unfold protobuf_encode. rewrite decide_True by lia.
  by rewrite map_length_panics by lia.
Qed.
End frame.

(** ** Properties *)

Section properties.
Import Frame.

(** [encoded_varint_len] is exact: for a [u64] it is between 1 and 10 and is
    the least number of seven-bit groups that hold the number. *)
Theorem encoded_varint_len_least n :
  (0 <= n < 2 ^ 64)%Z ->
  1 <= encoded_varint_len n <= 10
  /\ (n < 128 ^ Z.of_nat (encoded_varint_len n))%Z
  /\ (1 < encoded_varint_len n -> (128 ^ (Z.of_nat (encoded_varint_len n) - 1) <= n)%Z).
Proof.
  intros Hn. pose proof (encoded_varint_len_log2 n Hn) as E.
  assert (Hl : (0 <= Z.log2 n < 64)%Z).
  { split; [apply Z.log2_nonneg|]. destruct (Z.eq_dec n 0) as [->|]; [done|]. apply Z.log2_lt_pow2; lia. }
  pose proof (Z.div_mod (Z.log2 n) 7) as Hdm. pose proof (Z.mod_pos_bound (Z.log2 n) 7 ltac:(lia)).
  assert (P : forall k, (0 <= k)%Z -> (128 ^ k = 2 ^ (7 * k))%Z)
    by (intros k Hk; change 128%Z with (2 ^ 7)%Z; by rewrite <- Z.pow_mul_r by lia).
  split; [lia|]. rewrite !P by lia. split.
  - destruct (Z.eq_dec n 0) as [->|]; [by apply Z.pow_pos_nonneg; lia|].
    apply Z.log2_lt_pow2; lia.
  - intros H1. assert (0 < n)%Z.
    { destruct (Z.eq_dec n 0) as [->|]; [vm_compute in H1; lia|lia]. }
    apply Z.log2_le_pow2; lia.
Qed.

Lemma encoded_varint_len_least_witness :
  1 <= encoded_varint_len 300 <= 10
  /\ (300 < 128 ^ Z.of_nat (encoded_varint_len 300))%Z
  /\ (1 < encoded_varint_len 300 -> (128 ^ (Z.of_nat (encoded_varint_len 300) - 1) <= 300)%Z).
Proof. apply (encoded_varint_len_least 300). split; [lia|reflexivity]. Defined.

(** [encode_varint] on [dst[base..]] writes exactly the base-128 varint of the
    number, returns the length [encoded_varint_len] predicts and leaves every
    other byte of the buffer alone. *)
Theorem encode_varint_correct n base dst :
  (0 <= n < 2 ^ 64)%Z -> base + encoded_varint_len n <= length dst ->
  encode_varint n base dst
  = (Ret (encoded_varint_len n),
     take base dst ++ varint n ++ drop (base + encoded_varint_len n) dst).
Proof.
  intros Hn Hb. pose proof (length_varint n Hn) as Hl. unfold varint in *. unfold encode_varint.
  assert (2 ^ 64 <= 128 ^ Z.of_nat 10)%Z by (by vm_compute).
  rewrite encode_varint_loop_spec by lia. rewrite Nat.add_0_r, Hl. done.
Qed.

Lemma encode_varint_correct_witness :
  encode_varint 300 1 (replicate 4 x00) = (Ret 2, [x00; xac; x02; x00]).
Proof. apply (encode_varint_correct 300 1 (replicate 4 x00)); [split; [lia|done]|vm_compute; lia]. Defined.

(** C2: [protobuf_encode] writes the length-prefixed protobuf record of its fields,
    last field first, at the front of the buffer and returns its length when it
    fits; otherwise it reports [WriteZero] and writes nothing.  Bytes behind the
    frame are kept.  It holds for the calls the driver makes: a data type, a time
    and at least one key, and a value for each key. *)
Theorem protobuf_encode_correct dt ts keys values d :
  let f := frame dt ts (reverse (zip keys values)) in
  (0 < dt < 2 ^ 64)%Z -> (0 < ts < 2 ^ 64)%Z -> 0 < length keys ->
  length keys <= length values -> fits (length d) -> fits (length f) ->
  protobuf_encode ts keys values dt d
  = if decide (length f <= length d)
    then (Ret (length f), f ++ drop (length f) d)
    else (Fail WriteZero, d).
Proof.
  intros f Hdt Hts Hk Hle Hd Hf. case_decide.
  - by apply protobuf_encode_ok.
  - apply protobuf_encode_short; try done; [|fold f; lia].
    unfold f, fits, frame, record, len_delimited in *. repeat (rewrite length_app in Hf; cbn [length] in Hf). lia.
Qed.

Lemma protobuf_encode_correct_witness :
  let f := frame 700 5 [(bs "module_name", bs "m")] in
  protobuf_encode 5 [bs "module_name"] [bs "m"] 700 (replicate 30 x00)
  = (Ret (length f), f ++ drop (length f) (replicate 30 x00)).
Proof.
  rewrite (protobuf_encode_correct 700 5 [bs "module_name"] [bs "m"] (replicate 30 x00));
    try (unfold fits; vm_compute; done); vm_compute; lia.
Defined.
End properties.
