(* ===== verification/Bridge.v ===== *)
(** * The protobuf messages of the plugins ([plugins/lib/rust/src/bridge.rs])

    [Record], [Payload] and [Task] with their [merge_from], [compute_size] and
    [write_to_with_cached_sizes].  The generated code calls the [protobuf]
    crate, which is not part of the repository: its readers and writers are the
    operations of [CodedInputStream] and [CodedOutputStream], and what the
    theorems use of them, the documented wire format, are the laws of
    [CodedInputLaws] and [CodedOutputLaws].  [wire_input] and [wire_output] are
    concrete streams that satisfy the laws. *)

From S2P Require Import Prelude Bytes RustStd Encoder.
Import Frame.

(** ** The messages *)

Record Payload := mkPayload {
  fields : gmap bytes bytes;
  pld_unknown_fields : list bytes;
}.

Record Record_ := mkRecord {
  data_type : Z;
  timestamp : Z;
  data : option Payload;
  rec_unknown_fields : list bytes;
}.

Record Task := mkTask {
  task_data_type : Z;
  object_name : bytes;
  task_data : bytes;
  token : bytes;
  task_unknown_fields : list bytes;
}.

Definition Payload_new : Payload := mkPayload ∅ [].
Definition Record_new : Record_ := mkRecord 0 0 None [].
Definition Task_new : Task := mkTask 0 [] [] [] [].

Definition set_data_type (v : Z) (r : Record_) : Record_ :=
  mkRecord v (timestamp r) (data r) (rec_unknown_fields r).
Definition set_timestamp (v : Z) (r : Record_) : Record_ :=
  mkRecord (data_type r) v (data r) (rec_unknown_fields r).
Definition set_data (v : Payload) (r : Record_) : Record_ :=
  mkRecord (data_type r) (timestamp r) (Some v) (rec_unknown_fields r).
Definition set_fields (v : gmap bytes bytes) (p : Payload) : Payload :=
  mkPayload v (pld_unknown_fields p).

(** [rec.mut_data().mut_fields().insert(k, v)]: a missing payload is created. *)
Definition insert_field (k v : bytes) (r : Record_) : Record_ :=
  let p := default Payload_new (data r) in set_data (set_fields (<[k := v]> (fields p)) p) r.

(** ** The [protobuf] crate: readers *)

Definition WireTypeVarint : Z := 0.
Definition WireTypeLengthDelimited : Z := 2.

(** Each reader takes the unread input and returns the value with what is left;
    [None] is a [ProtobufError]. *)
Class CodedInputStream := {
  read_tag_unpack : bytes -> option (Z * Z * bytes);
  read_int32 : bytes -> option (Z * bytes);
  read_int64 : bytes -> option (Z * bytes);
  (** a length-delimited chunk: [push_limit] to its end, and the input after it *)
  read_chunk : bytes -> option (bytes * bytes);
  read_string : bytes -> option (bytes * bytes);
  (** one entry of a [map<string, string>], after its tag *)
  read_map_entry : bytes -> option ((bytes * bytes) * bytes);
  (** [read_unknown_or_skip_group]: the unknown field's bytes *)
  read_unknown : Z -> Z -> bytes -> option (bytes * bytes);
}.

Class CodedInputLaws `{CodedInputStream} : Prop := {
  read_tag_law f w rest :
    (1 <= f < 16)%Z -> (0 <= w < 8)%Z ->
    read_tag_unpack (to_u8 (8 * f + w) :: rest) = Some (f, w, rest);
  read_int32_law n rest :
    (- 2 ^ 31 <= n < 2 ^ 31)%Z -> read_int32 (varint (wrap_u64 n) ++ rest) = Some (n, rest);
  read_int64_law n rest :
    (- 2 ^ 63 <= n < 2 ^ 63)%Z -> read_int64 (varint (wrap_u64 n) ++ rest) = Some (n, rest);
  read_chunk_law s rest :
    (Z.of_nat (length s) < 2 ^ 31)%Z -> read_chunk (len_delimited s ++ rest) = Some (s, rest);
  read_string_law s rest :
    utf8_valid s = true -> (Z.of_nat (length s) < 2 ^ 31)%Z ->
    read_string (len_delimited s ++ rest) = Some (s, rest);
  read_map_entry_law k v rest :
    utf8_valid k = true -> utf8_valid v = true ->
    (Z.of_nat (length (entry_body k v)) < 2 ^ 31)%Z ->
    read_map_entry (len_delimited (entry_body k v) ++ rest) = Some ((k, v), rest);
}.

(** ** [merge_from] *)

Section merge_from.
Context `{CodedInputStream}.

(** [while !is.eof()? { ... }]: every turn reads a tag, so [S (length inp)]
    turns are enough on a stream whose tags take a byte. *)
Fixpoint Payload_merge_loop (fuel : nat) (self : Payload) (inp : bytes) : outcome Payload :=
  match inp, fuel with
  | [], _ => Ret self
  | _, O => Panic
  | _, S fuel' =>
      match read_tag_unpack inp with
      | None => Fail ProtoError
      | Some (field_number, wire_type, inp) =>
          if bool_decide (field_number = 1%Z) then
            if bool_decide (wire_type = WireTypeLengthDelimited) then
              match read_map_entry inp with
              | None => Fail ProtoError
              | Some ((k, v), inp) =>
                  Payload_merge_loop fuel' (set_fields (<[k := v]> (fields self)) self) inp
              end
            else Fail ProtoError
          else
            match read_unknown field_number wire_type inp with
            | None => Fail ProtoError
            | Some (u, inp) =>
                Payload_merge_loop fuel'
                  (mkPayload (fields self) (pld_unknown_fields self ++ [u])) inp
            end
      end
  end.
Definition Payload_merge_from (self : Payload) (inp : bytes) : outcome Payload :=
  Payload_merge_loop (S (length inp)) self inp.

Fixpoint Record_merge_loop (fuel : nat) (self : Record_) (inp : bytes) : outcome Record_ :=
  match inp, fuel with
  | [], _ => Ret self
  | _, O => Panic
  | _, S fuel' =>
      match read_tag_unpack inp with
      | None => Fail ProtoError
      | Some (field_number, wire_type, inp) =>
          if bool_decide (field_number = 1%Z) then
            if bool_decide (wire_type = WireTypeVarint) then
              match read_int32 inp with
              | None => Fail ProtoError
              | Some (tmp, inp) => Record_merge_loop fuel' (set_data_type tmp self) inp
              end
            else Fail ProtoError
          else if bool_decide (field_number = 2%Z) then
            if bool_decide (wire_type = WireTypeVarint) then
              match read_int64 inp with
              | None => Fail ProtoError
              | Some (tmp, inp) => Record_merge_loop fuel' (set_timestamp tmp self) inp
              end
            else Fail ProtoError
          else if bool_decide (field_number = 3%Z) then
            (* read_singular_message_into: set_default, then merge the chunk *)
            if bool_decide (wire_type = WireTypeLengthDelimited) then
              match read_chunk inp with
              | None => Fail ProtoError
              | Some (chunk, inp) =>
                  p ← Payload_merge_from Payload_new chunk;
                  Record_merge_loop fuel' (set_data p self) inp
              end
            else Fail ProtoError
          else
            match read_unknown field_number wire_type inp with
            | None => Fail ProtoError
            | Some (u, inp) =>
                Record_merge_loop fuel'
                  (mkRecord (data_type self) (timestamp self) (data self)
                     (rec_unknown_fields self ++ [u])) inp
            end
      end
  end.
Definition Record_merge_from (self : Record_) (inp : bytes) : outcome Record_ :=
  Record_merge_loop (S (length inp)) self inp.

Definition set_task_field (n : Z) (s : bytes) (t : Task) : Task :=
  if bool_decide (n = 2%Z) then mkTask (task_data_type t) s (task_data t) (token t) (task_unknown_fields t)
  else if bool_decide (n = 3%Z) then mkTask (task_data_type t) (object_name t) s (token t) (task_unknown_fields t)
  else mkTask (task_data_type t) (object_name t) (task_data t) s (task_unknown_fields t).

Fixpoint Task_merge_loop (fuel : nat) (self : Task) (inp : bytes) : outcome Task :=
  match inp, fuel with
  | [], _ => Ret self
  | _, O => Panic
  | _, S fuel' =>
      match read_tag_unpack inp with
      | None => Fail ProtoError
      | Some (field_number, wire_type, inp) =>
          if bool_decide (field_number = 1%Z) then
            if bool_decide (wire_type = WireTypeVarint) then
              match read_int32 inp with
              | None => Fail ProtoError
              | Some (tmp, inp) =>
                  Task_merge_loop fuel'
                    (mkTask tmp (object_name self) (task_data self) (token self)
                       (task_unknown_fields self)) inp
              end
            else Fail ProtoError
          else if bool_decide (2 <= field_number <= 4)%Z then
            (* read_singular_proto3_string_into *)
            if bool_decide (wire_type = WireTypeLengthDelimited) then
              match read_string inp with
              | None => Fail ProtoError
              | Some (s, inp) => Task_merge_loop fuel' (set_task_field field_number s self) inp
              end
            else Fail ProtoError
          else
            match read_unknown field_number wire_type inp with
            | None => Fail ProtoError
            | Some (u, inp) =>
                Task_merge_loop fuel'
                  (mkTask (task_data_type self) (object_name self) (task_data self) (token self)
                     (task_unknown_fields self ++ [u])) inp
            end
      end
  end.
Definition Task_merge_from (self : Task) (inp : bytes) : outcome Task :=
  Task_merge_loop (S (length inp)) self inp.
End merge_from.

(** ** Decoding the driver's records *)

(** The field inserts of [merge_from], in wire order: a later entry replaces an
    earlier one with the same key. *)
Definition insert_all (kvs : list (bytes * bytes)) (m : gmap bytes bytes) : gmap bytes bytes :=
  foldl (fun m kv => <[kv.1 := kv.2]> m) m kvs.

Lemma insert_all_reverse kvs : insert_all (reverse kvs) ∅ = list_to_map kvs.
Proof.
  induction kvs as [|[k v] kvs IH]; [done|].
  rewrite reverse_cons. unfold insert_all in *. rewrite foldl_app, IH. done.
Qed.

(** What the decoder accepts: UTF-8 strings and lengths below [2 ^ 31]. *)
Definition wire_ok (kvs : list (bytes * bytes)) : Prop :=
  Forall (fun kv => utf8_valid kv.1 = true /\ utf8_valid kv.2 = true) kvs
  /\ (Z.of_nat (length (payload kvs)) < 2 ^ 31)%Z.

#[global] Instance wire_ok_dec kvs : Decision (wire_ok kvs).
Proof. unfold wire_ok. apply _. Defined.

Lemma wire_ok_cons kv kvs :
  wire_ok (kv :: kvs) ->
  utf8_valid kv.1 = true /\ utf8_valid kv.2 = true
  /\ (Z.of_nat (length (entry_body kv.1 kv.2)) < 2 ^ 31)%Z /\ wire_ok kvs.
Proof.
  intros [[[Hk Hv] Hf]%Forall_cons Hl]. rewrite payload_cons, length_app in Hl.
  unfold entry in Hl. unfold len_delimited in Hl at 1. cbn [length] in Hl. rewrite length_app in Hl.
  unfold wire_ok. split_and!; auto; lia.
Qed.

Lemma length_payload_ge kvs : length kvs <= length (payload kvs).
Proof.
  induction kvs as [|kv kvs IH]; [done|]. rewrite payload_cons, length_app. cbn [length entry]. lia.
Qed.

(** The one-byte tag of field [f] with wire type [w]. *)
Definition tag (f w : Z) : byte := to_u8 (8 * f + w).

Section decode.
Context `{CodedInputLaws}.

Lemma Payload_merge_entries fuel self kvs :
  wire_ok kvs -> length kvs <= fuel ->
  Payload_merge_loop fuel self (payload kvs)
  = Ret (set_fields (insert_all kvs (fields self)) self).
Proof.
  revert fuel self. induction kvs as [|[k v] kvs IH]; intros fuel self Hok Hf.
  - destruct fuel, self; done.
  - apply wire_ok_cons in Hok as (Hk & Hv & Hl & Hok). destruct fuel as [|fuel]; [cbn in Hf; lia|].
    rewrite payload_cons. unfold entry. cbn [fst snd app Payload_merge_loop].
    change x0a with (to_u8 (8 * 1 + 2)) at 1. rewrite read_tag_law by lia.
    rewrite !bool_decide_true by done. rewrite read_map_entry_law by done.
    rewrite IH by (done || cbn in Hf; lia). done.
Qed.

(** [merge_from] reads all of [inp]: any fuel above its length is enough. *)
Definition Record_merges (self : Record_) (inp : bytes) (r : Record_) : Prop :=
  forall fuel, length inp < fuel -> Record_merge_loop fuel self inp = Ret r.

(** One turn of the loop on each field of a [Record]. *)
Lemma Record_merges_nil self : Record_merges self [] self.
Proof. intros [|fuel] Hf; [cbn in Hf; lia|done]. Qed.

Lemma Record_merges_data_type self n rest r :
  (- 2 ^ 31 <= n < 2 ^ 31)%Z -> Record_merges (set_data_type n self) rest r ->
  Record_merges self (tag 1 0 :: varint (wrap_u64 n) ++ rest) r.
Proof.
  intros Hn Hr [|fuel] Hf; [lia|]. cbn [length] in Hf. rewrite length_app in Hf.
  cbn [Record_merge_loop]. unfold tag. rewrite read_tag_law by lia.
  rewrite !bool_decide_true by done. rewrite read_int32_law by done. apply Hr. lia.
Qed.

Lemma Record_merges_timestamp self n rest r :
  (- 2 ^ 63 <= n < 2 ^ 63)%Z -> Record_merges (set_timestamp n self) rest r ->
  Record_merges self (tag 2 0 :: varint (wrap_u64 n) ++ rest) r.
Proof.
  intros Hn Hr [|fuel] Hf; [lia|]. cbn [length] in Hf. rewrite length_app in Hf.
  cbn [Record_merge_loop]. unfold tag. rewrite read_tag_law by lia.
  rewrite bool_decide_false, !bool_decide_true by done.
  rewrite read_int64_law by done. apply Hr. lia.
Qed.

Lemma Record_merges_data self kvs rest r :
  wire_ok kvs -> Record_merges (set_data (mkPayload (insert_all kvs ∅) []) self) rest r ->
  Record_merges self (tag 3 2 :: len_delimited (payload kvs) ++ rest) r.
Proof.
  intros Hok Hr [|fuel] Hf; [lia|]. cbn [length] in Hf. rewrite length_app in Hf.
  cbn [Record_merge_loop]. unfold tag. rewrite read_tag_law by lia.
  rewrite !(bool_decide_false (_ = 1%Z)), !(bool_decide_false (3 = 2)%Z) by done.
  rewrite !bool_decide_true by done. rewrite read_chunk_law by apply Hok.
  unfold Payload_merge_from.
  rewrite Payload_merge_entries by (done || pose proof (length_payload_ge kvs); lia).
  cbn [mbind outcome_bind]. apply Hr. lia.
Qed.

Lemma Record_merge_record dt ts kvs :
  (0 <= dt < 2 ^ 31)%Z -> (0 <= ts < 2 ^ 63)%Z -> wire_ok kvs ->
  Record_merge_from Record_new (record dt ts kvs)
  = Ret (mkRecord dt ts (Some (mkPayload (insert_all kvs ∅) [])) []).
Proof.
  intros Hdt Hts Hok. unfold Record_merge_from, record.
  replace (varint dt) with (varint (wrap_u64 dt)) by (f_equal; apply Z.mod_small; lia).
  replace (varint ts) with (varint (wrap_u64 ts)) by (f_equal; apply Z.mod_small; lia).
  change x08 with (tag 1 0). change x10 with (tag 2 0). change x1a with (tag 3 2).
  rewrite <- (app_nil_r (len_delimited (payload kvs))).
  enough (Record_merges Record_new (tag 1 0 :: varint (wrap_u64 dt) ++ tag 2 0 ::
    varint (wrap_u64 ts) ++ tag 3 2 :: len_delimited (payload kvs) ++ [])
    (mkRecord dt ts (Some (mkPayload (insert_all kvs ∅) [])) [])) as Hm by (apply Hm; lia).
  apply Record_merges_data_type; [lia|]. apply Record_merges_timestamp; [lia|].
  apply Record_merges_data; [done|]. apply Record_merges_nil.
Qed.

Definition Task_merges (self : Task) (inp : bytes) (t : Task) : Prop :=
  forall fuel, length inp < fuel -> Task_merge_loop fuel self inp = Ret t.

Lemma Task_merges_nil self : Task_merges self [] self.
Proof. intros [|fuel] Hf; [cbn in Hf; lia|done]. Qed.

Lemma Task_merges_data_type self n rest t :
  (- 2 ^ 31 <= n < 2 ^ 31)%Z ->
  Task_merges (mkTask n (object_name self) (task_data self) (token self)
                 (task_unknown_fields self)) rest t ->
  Task_merges self (tag 1 0 :: varint (wrap_u64 n) ++ rest) t.
Proof.
  intros Hn Hr [|fuel] Hf; [lia|]. cbn [length] in Hf. rewrite length_app in Hf.
  cbn [Task_merge_loop]. unfold tag. rewrite read_tag_law by lia.
  rewrite !bool_decide_true by done. rewrite read_int32_law by done. apply Hr. lia.
Qed.

Lemma Task_merges_string self f s rest t :
  (2 <= f <= 4)%Z -> utf8_valid s = true -> (Z.of_nat (length s) < 2 ^ 31)%Z ->
  Task_merges (set_task_field f s self) rest t ->
  Task_merges self (tag f 2 :: len_delimited s ++ rest) t.
Proof.
  intros Hfn Hu Hl Hr [|fuel] Hf; [lia|]. cbn [length] in Hf. rewrite length_app in Hf.
  cbn [Task_merge_loop]. unfold tag. rewrite read_tag_law by lia.
  rewrite bool_decide_false by lia. rewrite !bool_decide_true by done.
  rewrite read_string_law by done. apply Hr. lia.
Qed.
End decode.

(** ** The [protobuf] crate: sizes and writers

    Writers return the bytes they append; [None] never arises on a [Vec] or a
    [BufWriter] in working order, so the writers are total. *)
Class CodedOutputStream := {
  value_size : Z -> Z -> nat;                     (** [rt::value_size(f, v, WireTypeVarint)] *)
  compute_raw_varint32_size : nat -> nat;
  string_size : Z -> bytes -> nat;
  compute_map_size : Z -> list (bytes * bytes) -> nat;
  write_int32 : Z -> Z -> bytes;
  write_int64 : Z -> Z -> bytes;
  write_tag : Z -> Z -> bytes;
  write_raw_varint32 : nat -> bytes;
  write_string : Z -> bytes -> bytes;
  write_map_with_cached_sizes : Z -> list (bytes * bytes) -> bytes;
  (** the iteration order of a [HashMap] *)
  hash_iter : gmap bytes bytes -> list (bytes * bytes);
}.

Class CodedOutputLaws `{CodedOutputStream} : Prop := {
  value_size_law f n : (1 <= f < 16)%Z -> value_size f n = 1 + length (varint (wrap_u64 n));
  varint32_size_law n : compute_raw_varint32_size n = length (varint (Z.of_nat n));
  string_size_law f s : (1 <= f < 16)%Z -> string_size f s = 1 + length (len_delimited s);
  map_size_law kvs : compute_map_size 1 kvs = length (payload kvs);
  write_int32_law f n : (1 <= f < 16)%Z -> write_int32 f n = tag f 0 :: varint (wrap_u64 n);
  write_int64_law f n : (1 <= f < 16)%Z -> write_int64 f n = tag f 0 :: varint (wrap_u64 n);
  write_tag_law f w : (1 <= f < 16)%Z -> (0 <= w < 8)%Z -> write_tag f w = [tag f w];
  write_raw_varint32_law n : write_raw_varint32 n = varint (Z.of_nat n);
  write_string_law f s : (1 <= f < 16)%Z -> write_string f s = tag f 2 :: len_delimited s;
  write_map_law kvs : write_map_with_cached_sizes 1 kvs = payload kvs;
  hash_iter_law m : hash_iter m ≡ₚ map_to_list m;
}.

Section write.
Context `{CodedOutputStream}.

Definition Payload_compute_size (self : Payload) : nat :=
  compute_map_size 1 (hash_iter (fields self)) + length (concat (pld_unknown_fields self)).

Definition Record_compute_size (self : Record_) : nat :=
  (if decide (data_type self ≠ 0%Z) then value_size 1 (data_type self) else 0)
  + (if decide (timestamp self ≠ 0%Z) then value_size 2 (timestamp self) else 0)
  + match data self with
    | Some v => let len := Payload_compute_size v in 1 + compute_raw_varint32_size len + len
    | None => 0
    end
  + length (concat (rec_unknown_fields self)).

Definition Payload_write (self : Payload) : bytes :=
  write_map_with_cached_sizes 1 (hash_iter (fields self)) ++ concat (pld_unknown_fields self).

(** [get_cached_size] is the size [compute_size] stored. *)
Definition Record_write (self : Record_) : bytes :=
  (if decide (data_type self ≠ 0%Z) then write_int32 1 (data_type self) else [])
  ++ (if decide (timestamp self ≠ 0%Z) then write_int64 2 (timestamp self) else [])
  ++ match data self with
     | Some v =>
         write_tag 3 WireTypeLengthDelimited
         ++ write_raw_varint32 (Payload_compute_size v) ++ Payload_write v
     | None => []
     end
  ++ concat (rec_unknown_fields self).

Definition string_field (f : Z) (s : bytes) : bytes :=
  if decide (s ≠ []) then write_string f s else [].

Definition Task_compute_size (self : Task) : nat :=
  let size f s := if decide (s ≠ []) then string_size f s else 0 in
  (if decide (task_data_type self ≠ 0%Z) then value_size 1 (task_data_type self) else 0)
  + size 2%Z (object_name self) + size 3%Z (task_data self) + size 4%Z (token self)
  + length (concat (task_unknown_fields self)).

Definition Task_write (self : Task) : bytes :=
  (if decide (task_data_type self ≠ 0%Z) then write_int32 1 (task_data_type self) else [])
  ++ string_field 2 (object_name self) ++ string_field 3 (task_data self)
  ++ string_field 4 (token self) ++ concat (task_unknown_fields self).
End write.

(** ** Sizes and round trips *)

Section write_laws.
Context `{CodedOutputLaws}.

Lemma Payload_size_write p : length (Payload_write p) = Payload_compute_size p.
Proof.
  unfold Payload_write, Payload_compute_size. rewrite length_app, write_map_law, map_size_law. lia.
Qed.

(** The size announced is the size written. *)
Lemma Record_size_write r : length (Record_write r) = Record_compute_size r.
Proof.
  unfold Record_write, Record_compute_size. rewrite !length_app.
  destruct (data r) as [p|].
  - rewrite !length_app, write_tag_law, write_raw_varint32_law, varint32_size_law,
      Payload_size_write by done.
    repeat case_decide; rewrite ?write_int32_law, ?write_int64_law, ?value_size_law by done;
      cbn [length]; lia.
  - repeat case_decide; rewrite ?write_int32_law, ?write_int64_law, ?value_size_law by done;
      cbn [length]; lia.
Qed.

Lemma Task_size_write t : length (Task_write t) = Task_compute_size t.
Proof.
  unfold Task_write, Task_compute_size, string_field. rewrite !length_app.
  repeat case_decide; rewrite ?write_int32_law, ?write_string_law, ?value_size_law, ?string_size_law by done;
    cbn [length]; lia.
Qed.

Lemma insert_all_hash_iter m : insert_all (hash_iter m) ∅ = m.
Proof.
  rewrite <- (reverse_involutive (hash_iter m)), insert_all_reverse.
  transitivity (list_to_map (map_to_list m) : gmap bytes bytes); [|apply list_to_map_to_list].
  apply list_to_map_proper.
  - rewrite reverse_Permutation, hash_iter_law. apply NoDup_fst_map_to_list.
  - by rewrite reverse_Permutation, hash_iter_law.
Qed.
End write_laws.

(** A message as a program builds it: no unknown fields, 32- and 64-bit
    integers in range, strings that are UTF-8 and shorter than [2 ^ 31]. *)
Definition Record_ok `{CodedOutputStream} (r : Record_) : Prop :=
  (- 2 ^ 31 <= data_type r < 2 ^ 31)%Z /\ (- 2 ^ 63 <= timestamp r < 2 ^ 63)%Z
  /\ rec_unknown_fields r = []
  /\ match data r with
     | Some p => pld_unknown_fields p = [] /\ wire_ok (hash_iter (fields p))
     | None => True
     end.

#[global] Instance Record_ok_dec `{CodedOutputStream} r : Decision (Record_ok r).
Proof. unfold Record_ok. destruct (data r); apply _. Defined.

Definition string_ok (s : bytes) : Prop :=
  utf8_valid s = true /\ (Z.of_nat (length s) < 2 ^ 31)%Z.
Definition Task_ok (t : Task) : Prop :=
  (- 2 ^ 31 <= task_data_type t < 2 ^ 31)%Z
  /\ string_ok (object_name t) /\ string_ok (task_data t) /\ string_ok (token t)
  /\ task_unknown_fields t = [].

Section roundtrip.
Context `{CodedInputLaws, CodedOutputLaws}.

Lemma Record_merges_payload self p :
  pld_unknown_fields p = [] -> wire_ok (hash_iter (fields p)) ->
  Record_merges self
    (write_tag 3 WireTypeLengthDelimited
      ++ write_raw_varint32 (Payload_compute_size p) ++ Payload_write p)
    (set_data p self).
Proof.
  destruct p as [m u]. cbn. intros -> Hok.
  rewrite write_tag_law, write_raw_varint32_law, <- Payload_size_write by done.
  unfold Payload_write. cbn [fields pld_unknown_fields concat].
  rewrite app_nil_r, write_map_law. cbn [app].
  change (Record_merges self (tag 3 2 :: len_delimited (payload (hash_iter m)))
    (set_data (mkPayload m []) self)).
  rewrite <- (app_nil_r (len_delimited _)). apply Record_merges_data; [done|].
  rewrite insert_all_hash_iter. apply Record_merges_nil.
Qed.

Lemma Record_roundtrip r :
  Record_ok r -> Record_merge_from Record_new (Record_write r) = Ret r.
Proof.
  destruct r as [dt ts d u]. unfold Record_ok. cbn [data_type timestamp data rec_unknown_fields]. intros (Hdt & Hts & -> & Hd).
  enough (Record_merges Record_new (Record_write (mkRecord dt ts d [])) (mkRecord dt ts d [])) as Hm
    by (apply Hm; lia).
  unfold Record_write. cbn [data_type timestamp data rec_unknown_fields concat].
  rewrite app_nil_r.
  assert (Hlast : forall self, data self = None -> rec_unknown_fields self = [] ->
    Record_merges self
      match d with
      | Some v => write_tag 3 WireTypeLengthDelimited
          ++ write_raw_varint32 (Payload_compute_size v) ++ Payload_write v
      | None => [] end
      (mkRecord (data_type self) (timestamp self) d [])).
  { intros [dt' ts' d' u']. cbn. intros -> ->. destruct d as [p|].
    - destruct Hd. by apply (Record_merges_payload (mkRecord dt' ts' None [])).
    - apply Record_merges_nil. }
  repeat case_decide; rewrite ?write_int32_law, ?write_int64_law by done;
    subst; cbn [app];
    repeat first [apply Record_merges_data_type; [done|]
                 | apply Record_merges_timestamp; [done|]]; by apply Hlast.
Qed.

Lemma Task_merges_field self f s rest t :
  (2 <= f <= 4)%Z -> string_ok s ->
  Task_merges (if decide (s ≠ []) then set_task_field f s self else self) rest t ->
  Task_merges self (string_field f s ++ rest) t.
Proof.
  intros Hf [Hu Hl] Hr. unfold string_field. case_decide; [|done].
  rewrite write_string_law by lia. by apply Task_merges_string.
Qed.

Lemma Task_roundtrip t :
  Task_ok t -> Task_merge_from Task_new (Task_write t) = Ret t.
Proof.
  destruct t as [dt o da tk u]. unfold Task_ok.
  cbn [task_data_type object_name task_data token task_unknown_fields]. intros (Hdt & Ho & Hda & Htk & ->).
  enough (Task_merges Task_new (Task_write (mkTask dt o da tk [])) (mkTask dt o da tk [])) as Hm
    by (apply Hm; lia).
  unfold Task_write. cbn [task_data_type object_name task_data token task_unknown_fields concat].
  assert (Hstr : Task_merges (mkTask dt [] [] [] [])
    (string_field 2 o ++ string_field 3 da ++ string_field 4 tk ++ []) (mkTask dt o da tk [])).
  { do 3 (apply Task_merges_field; [done..|]).
    assert (Hl : forall self, self = mkTask dt o da tk [] -> Task_merges self [] (mkTask dt o da tk []))
      by (intros ? ->; apply Task_merges_nil).
    apply Hl. repeat case_decide;
      subst; done. }
  case_decide.
  - rewrite write_int32_law by done. cbn [app]. by apply Task_merges_data_type.
  - by subst.
Qed.
End roundtrip.

(** ** Records built field by field *)

(** The fields of a record, inserted in order. *)
Definition insert_fields (kvs : list (string * bytes)) (r : Record_) : Record_ :=
  foldl (fun r kv => insert_field (bs kv.1) kv.2 r) r kvs.

Lemma insert_fields_new kvs dt now :
  kvs <> [] ->
  insert_fields kvs (mkRecord dt now None [])
  = mkRecord dt now (Some (mkPayload (list_to_map (reverse (map (fun kv => (bs kv.1, kv.2)) kvs))) [])) [].
Proof.
  intros Hne. unfold insert_fields.
  assert (H : forall kvs m, foldl (fun r kv => insert_field (bs kv.1) kv.2 r) (mkRecord dt now (Some (mkPayload m [])) []) kvs
    = mkRecord dt now (Some (mkPayload (foldl (fun m kv => <[bs kv.1 := kv.2]> m) m kvs) [])) []).
  { clear. induction kvs as [|kv kvs IH]; intros m; [done|]. cbn [foldl]. by rewrite <- IH. }
  destruct kvs as [|kv kvs]; [done|]. cbn [foldl].
  change (insert_field (bs kv.1) kv.2 (mkRecord dt now None [])) with
    (mkRecord dt now (Some (mkPayload (<[bs kv.1 := kv.2]> ∅) [])) []).
  rewrite H. do 3 f_equal.
  change (foldl (fun m kv => <[bs kv.1:=kv.2]> m) (<[bs kv.1:=kv.2]> ∅) kvs)
    with (foldl (fun (m : gmap bytes bytes) kv => <[bs kv.1:=kv.2]> m) ∅ (kv :: kvs)).
  generalize (kv :: kvs). clear. intros l. rewrite <- insert_all_reverse, reverse_involutive.
  unfold insert_all. generalize (∅ : gmap bytes bytes).
  induction l as [|kv l IH]; intros m; [done|]. cbn. apply IH.
Qed.

Lemma set_timestamp_insert_fields now kvs r :
  set_timestamp now (insert_fields kvs r) = insert_fields kvs (set_timestamp now r).
Proof.
  revert r. unfold insert_fields. induction kvs as [|kv kvs IH]; intros r; [done|]. cbn [foldl].
  rewrite IH. f_equal.
Qed.

Lemma insert_fields_app l k r : insert_fields k (insert_fields l r) = insert_fields (l ++ k) r.
Proof. unfold insert_fields. by rewrite foldl_app. Qed.

