(* ===== verification/WireInst.v ===== *)
(** * A concrete protobuf stream

    A decoder and an encoder of the protobuf wire format that satisfy the laws
    of [Bridge]: the laws can hold together, and the examples of the other files
    evaluate on them. *)

From S2P Require Import Prelude Bytes RustStd Encoder Bridge.
Import Frame.

Section wire_functions.
Local Open Scope Z_scope.

Fixpoint wire_varint_fuel (fuel : nat) (inp : bytes) : option (Z * bytes) :=
  match fuel, inp with
  | S fuel', b :: rest =>
      if u8 b <? 128 then Some (u8 b, rest)
      else '(v, rest') ← wire_varint_fuel fuel' rest; Some (u8 b - 128 + 128 * v, rest')
  | _, _ => None
  end.
Definition wire_varint (inp : bytes) : option (Z * bytes) := wire_varint_fuel 10 inp.

Definition wire_signed (bits n : Z) : Z :=
  let m := n mod 2 ^ bits in if m <? 2 ^ (bits - 1) then m else m - 2 ^ bits.

Definition wire_chunk (inp : bytes) : option (bytes * bytes) :=
  '(n, rest) ← wire_varint inp;
  let k := Z.to_nat n in
  if bool_decide (k <= length rest)%nat then Some (take k rest, drop k rest) else None.

Definition wire_string (inp : bytes) : option (bytes * bytes) :=
  '(s, rest) ← wire_chunk inp; if utf8_valid s then Some (s, rest) else None.

Definition wire_tag (inp : bytes) : option (Z * Z * bytes) :=
  '(n, rest) ← wire_varint inp; Some (n / 8, n mod 8, rest).

(** The fields of a map entry, in any order, with proto3 defaults. *)
Fixpoint wire_entry_fields (fuel : nat) (kv : bytes * bytes) (inp : bytes)
    : option (bytes * bytes) :=
  match inp, fuel with
  | [], _ => Some kv
  | _, O => None
  | _, S fuel' =>
      '(f, w, rest) ← wire_tag inp;
      '(s, rest) ← wire_string rest;
      if bool_decide (f = 1) then wire_entry_fields fuel' (s, kv.2) rest
      else if bool_decide (f = 2) then wire_entry_fields fuel' (kv.1, s) rest
      else None
  end.

Definition wire_entry (inp : bytes) : option ((bytes * bytes) * bytes) :=
  '(c, rest) ← wire_chunk inp;
  kv ← wire_entry_fields (S (length c)) ([], []) c; Some (kv, rest).
End wire_functions.

#[export] Instance wire_input : CodedInputStream := {
  read_tag_unpack := wire_tag;
  read_int32 inp := '(n, rest) ← wire_varint inp; Some (wire_signed 32 n, rest);
  read_int64 inp := '(n, rest) ← wire_varint inp; Some (wire_signed 64 n, rest);
  read_chunk := wire_chunk;
  read_string := wire_string;
  read_map_entry := wire_entry;
  read_unknown f w inp := '(c, rest) ← wire_chunk inp; Some (c, rest);
}.

#[export] Instance wire_output : CodedOutputStream := {
  value_size f n := 1 + length (varint (wrap_u64 n));
  compute_raw_varint32_size n := length (varint (Z.of_nat n));
  string_size f s := 1 + length (len_delimited s);
  compute_map_size f kvs := length (payload kvs);
  write_int32 f n := tag f 0 :: varint (wrap_u64 n);
  write_int64 f n := tag f 0 :: varint (wrap_u64 n);
  write_tag f w := [tag f w];
  write_raw_varint32 n := varint (Z.of_nat n);
  write_string f s := tag f 2 :: len_delimited s;
  write_map_with_cached_sizes f kvs := payload kvs;
  hash_iter m := map_to_list m;
}.

Section laws.
Local Open Scope Z_scope.

Lemma wire_varint_fuel_spec fuel n rest :
  0 <= n < 128 ^ Z.of_nat fuel -> (0 < fuel)%nat ->
  wire_varint_fuel fuel (varint_fuel fuel n ++ rest) = Some (n, rest).
Proof.
  revert n. induction fuel as [|fuel IH]; intros n Hn Hf; [lia|]. cbn [varint_fuel].
  destruct (Z.ltb_spec n 128) as [Hlt|Hge]; cbn [app wire_varint_fuel]; rewrite u8_to_u8.
  - rewrite Z.mod_small, (proj2 (Z.ltb_lt _ _)) by lia. done.
  - pose proof (Z.mod_pos_bound n 128 ltac:(lia)). rewrite Z.mod_small by lia.
    rewrite (proj2 (Z.ltb_ge _ _)) by lia.
    rewrite Nat2Z.inj_succ, Z.pow_succ_r in Hn by lia. rewrite IH; cycle 1.
    + split; [apply Z.div_pos; lia|]. apply Z.div_lt_upper_bound; lia.
    + destruct fuel; [cbn in Hn; lia|lia].
    + cbn. repeat f_equal. pose proof (Z.div_mod n 128). lia.
Qed.

Lemma wire_varint_spec n rest :
  0 <= n < 2 ^ 64 -> wire_varint (varint n ++ rest) = Some (n, rest).
Proof.
  intros Hn. apply wire_varint_fuel_spec; [|lia].
  assert (2 ^ 64 <= 128 ^ Z.of_nat 10) by (by vm_compute). lia.
Qed.

Lemma wire_tag_spec f w rest :
  1 <= f < 16 -> 0 <= w < 8 -> wire_tag (to_u8 (8 * f + w) :: rest) = Some (f, w, rest).
Proof.
  intros Hf Hw. unfold wire_tag, wire_varint. cbn [wire_varint_fuel].
  rewrite u8_to_u8, Z.mod_small, (proj2 (Z.ltb_lt _ _)) by lia.
  cbn [mbind option_bind]. do 2 f_equal. f_equal.
  - rewrite Z.mul_comm, Z.div_add_l, Z.div_small by lia. lia.
  - rewrite Z.add_comm, Z.mul_comm, Z.mod_add, Z.mod_small by lia. lia.
Qed.

Lemma wire_signed_spec bits n :
  1 < bits <= 64 -> - 2 ^ (bits - 1) <= n < 2 ^ (bits - 1) ->
  wire_signed bits (wrap_u64 n) = n.
Proof.
  intros Hb Hn. unfold wire_signed, wrap_u64.
  assert (E : 2 ^ bits = 2 * 2 ^ (bits - 1)) by (rewrite <- Z.pow_succ_r by lia; f_equal; lia).
  assert (Hd : (2 ^ bits | 2 ^ 64)) by (exists (2 ^ (64 - bits)); rewrite <- Z.pow_add_r by lia; f_equal; lia).
  rewrite Z.mod_mod_divide by done. destruct (Z.lt_ge_cases n 0) as [Hneg|Hpos].
  - rewrite <- (Z.mod_add n 1) by lia. rewrite Z.mod_small by lia.
    rewrite (proj2 (Z.ltb_ge _ _)) by lia. lia.
  - rewrite Z.mod_small by lia. by rewrite (proj2 (Z.ltb_lt _ _)) by lia.
Qed.

Lemma wire_chunk_spec s rest :
  Z.of_nat (length s) < 2 ^ 31 -> wire_chunk (len_delimited s ++ rest) = Some (s, rest).
Proof.
  intros Hs. unfold wire_chunk, len_delimited. rewrite <- app_assoc, wire_varint_spec by lia.
  cbn [mbind option_bind]. rewrite Nat2Z.id, bool_decide_true by (rewrite length_app; lia).
  by rewrite take_app_length, drop_app_length.
Qed.

Lemma wire_string_spec s rest :
  utf8_valid s = true -> Z.of_nat (length s) < 2 ^ 31 ->
  wire_string (len_delimited s ++ rest) = Some (s, rest).
Proof. intros Hu Hs. unfold wire_string. rewrite wire_chunk_spec by done. cbn. by rewrite Hu. Qed.

Lemma wire_entry_spec k v rest :
  utf8_valid k = true -> utf8_valid v = true -> Z.of_nat (length (entry_body k v)) < 2 ^ 31 ->
  wire_entry (len_delimited (entry_body k v) ++ rest) = Some ((k, v), rest).
Proof.
  intros Hk Hv Hl. unfold wire_entry. rewrite wire_chunk_spec by done. cbn [mbind option_bind].
  assert (Z.of_nat (length k) < 2 ^ 31 /\ Z.of_nat (length v) < 2 ^ 31) as [Hlk Hlv].
  { unfold entry_body, len_delimited in Hl. cbn [length] in Hl. rewrite !length_app in Hl.
    cbn [length] in Hl. rewrite length_app in Hl. lia. }
  set (n := length (entry_body k v)). assert (2 <= n)%nat as Hn.
  { subst n. unfold entry_body. cbn [length]. rewrite length_app. cbn [length]. lia. }
  clearbody n. destruct n as [|[|n]]; [lia..|].
  unfold entry_body. change x0a with (to_u8 (8 * 1 + 2)). change x12 with (to_u8 (8 * 2 + 2)).
  cbn [wire_entry_fields]. rewrite wire_tag_spec by lia. cbn [mbind option_bind].
  rewrite wire_string_spec by done. cbn [mbind option_bind].
  rewrite bool_decide_true by done. cbn [wire_entry_fields].
  rewrite wire_tag_spec by lia. cbn [mbind option_bind].
  rewrite <- (app_nil_r (len_delimited v)), wire_string_spec by done. cbn [mbind option_bind].
  rewrite bool_decide_false, bool_decide_true by done. by destruct n.
Qed.

#[export] Instance wire_input_laws : CodedInputLaws.
Proof.
  split; intros; cbv [read_tag_unpack read_int32 read_int64 read_chunk read_string
    read_map_entry wire_input].
  - by apply wire_tag_spec.
  - rewrite wire_varint_spec by (apply Z.mod_pos_bound; lia). cbn [mbind option_bind].
    by rewrite wire_signed_spec.
  - rewrite wire_varint_spec by (apply Z.mod_pos_bound; lia). cbn [mbind option_bind].
    by rewrite wire_signed_spec.
  - by apply wire_chunk_spec.
  - by apply wire_string_spec.
  - by apply wire_entry_spec.
Qed.

#[export] Instance wire_output_laws : CodedOutputLaws.
Proof. by split. Qed.
End laws.
