(* ===== verification/Client.v ===== *)
(** * The pipe between a plugin and the agent ([plugins/lib/rust/src/lib.rs])

    [Client] keeps the buffered writer and reader of the two pipes.  The writer
    is the bytes handed to it so far and whether the pipe still accepts them;
    the reader is the input not read yet.  The buffer of the
    writer, the flush and the signal thread are in [ClientBuffer], which refines
    this; every method takes its lock for its whole body, so a method is one step. *)

From S2P Require Import Prelude Bytes RustStd Encoder Bridge WireInst.
Import Frame.

Record Client := mkClient {
  writer : bytes;
  writer_open : bool;
  reader : bytes;
}.

(** [BufWriter::write_all]; on a closed pipe it fails. *)
Definition write_all (buf : bytes) : SM Client unit := fun c =>
  if writer_open c
  then (Ret tt, mkClient (writer c ++ buf) true (reader c))
  else (Fail IoError, c).

(** [read_exact]: short input is an error; how much of it was consumed is then
    unspecified, here all of it. *)
Definition read_exact (n : nat) : SM Client bytes := fun c =>
  if decide (n <= length (reader c))
  then (Ret (take n (reader c)), mkClient (writer c) (writer_open c) (drop n (reader c)))
  else (Fail IoError, mkClient (writer c) (writer_open c) []).

Section client.
Context `{CodedInputStream, CodedOutputStream}.

Definition send_record (rec : Record_) : SM Client unit :=
  write_all (to_le_bytes (wrap_u32 (Z.of_nat (Record_compute_size rec)))) ;;
  write_all (Record_write rec).

Fixpoint send_records (recs : list Record_) : SM Client unit :=
  match recs with
  | [] => mret tt
  | rec :: recs' => send_record rec ;; send_records recs'
  end.

Definition receive : SM Client Task :=
  bs ← read_exact 4;
  let length := from_le_bytes bs in
  buf ← read_exact (Z.to_nat length);
  sm_lift (Task_merge_from Task_new buf).

Definition raw_write_all (buf : bytes) : SM Client unit := write_all buf.
End client.

(** ** The stream as its reader sees it *)

Section stream.
Context `{CodedInputStream, CodedOutputStream}.

Definition framed (body : bytes) : bytes :=
  to_le_bytes (wrap_u32 (Z.of_nat (length body))) ++ body.

(** The agent's loop over a plugin's stream: frame after frame, each decoded. *)
Fixpoint decode_stream (fuel : nat) (s : bytes) : outcome (list Record_) :=
  match s, fuel with
  | [], _ => Ret []
  | _, O => Panic
  | _, S fuel' =>
      let n := Z.to_nat (from_le_bytes (take 4 s)) in
      if decide (4 + n <= length s) then
        r ← Record_merge_from Record_new (take n (drop 4 s));
        rs ← decode_stream fuel' (drop (4 + n) s);
        Ret (r :: rs)
      else Fail IoError
  end.
End stream.

Lemma framed_split body rest :
  (Z.of_nat (length body) < 2 ^ 32)%Z ->
  let s := framed body ++ rest in
  Z.to_nat (from_le_bytes (take 4 s)) = length body
  /\ take (length body) (drop 4 s) = body /\ drop (4 + length body) s = rest
  /\ 4 + length body <= length s.
Proof.
  intros Hb s. unfold s, framed. rewrite <- app_assoc.
  assert (E : wrap_u32 (Z.of_nat (length body)) = Z.of_nat (length body)) by (apply Z.mod_small; lia).
  rewrite E. set (h := to_le_bytes _). assert (Hh : length h = 4) by done.
  rewrite (take_app_length' h) by done.
  assert (from_le_bytes h = Z.of_nat (length body)) as -> by (apply from_to_le_bytes; lia).
  rewrite Nat2Z.id. split_and!; [done|..].
  - rewrite drop_app_length' by done. by rewrite take_app_length.
  - rewrite <- drop_drop, drop_app_length' by done. by rewrite drop_app_length.
  - rewrite !length_app. lia.
Qed.

Section stream_laws.
Context `{CodedInputLaws, CodedOutputLaws}.

Definition sendable (r : Record_) : Prop :=
  Record_ok r /\ (Z.of_nat (length (Record_write r)) < 2 ^ 32)%Z.

#[global] Instance sendable_dec r : Decision (sendable r).
Proof. unfold sendable. apply _. Defined.

Lemma send_records_framed recs c :
  writer_open c = true ->
  send_records recs c
  = (Ret tt, mkClient (writer c ++ concat (map (fun r => framed (Record_write r)) recs)) true (reader c)).
Proof.
  revert c. induction recs as [|r recs IH]; intros [w o rd] Ho; cbn in Ho; subst.
  - cbn. by rewrite app_nil_r.
  - cbn [send_records]. unfold send_record, write_all. rewrite !sm_bind_assoc.
    unfold mbind at 1, SM_bind at 1. cbn. unfold mbind at 1, SM_bind at 1. cbn.
    rewrite IH by done. cbn. unfold framed. rewrite Record_size_write, <- !app_assoc. done.
Qed.

Lemma decode_stream_framed recs fuel :
  Forall sendable recs -> length recs <= fuel ->
  decode_stream fuel (concat (map (fun r => framed (Record_write r)) recs)) = Ret recs.
Proof.
  intros Hok. revert fuel. induction Hok as [|r recs [Hr Hl] Hok IH]; intros fuel Hf;
    [by destruct fuel|].
  destruct fuel as [|fuel]; [cbn in Hf; lia|]. cbn [map concat].
  destruct (framed_split (Record_write r) (concat (map (fun r => framed (Record_write r)) recs)) Hl)
    as (E1 & E2 & E3 & E4).
  remember (framed _ ++ _) as s eqn:Hs. clear Hs. destruct s as [|b s]; [cbn in E4; lia|].
  cbn [decode_stream]. rewrite E1, decide_True, E2, E3 by done.
  rewrite Record_roundtrip by done. cbn [mbind outcome_bind].
  rewrite IH by (cbn in Hf; lia). done.
Qed.
End stream_laws.

(** The driver's encoder and the agent's decoder: what [protobuf_encode] leaves
    at the front of the buffer is one frame of the stream. *)
Section driver_frame.
Context `{CodedInputLaws, CodedOutputLaws}.

Lemma length_varint_pos n : 0 < length (varint n).
Proof. unfold varint, varint_fuel. destruct (_ <? _)%Z; cbn [length]; lia. Qed.

Lemma decode_stream_record dt ts kvs :
  (0 <= dt < 2 ^ 31)%Z -> (0 <= ts < 2 ^ 63)%Z -> wire_ok kvs ->
  (Z.of_nat (length (record dt ts kvs)) < 2 ^ 32)%Z ->
  decode_stream 1 (frame dt ts kvs) = Ret [mkRecord dt ts (Some (mkPayload (insert_all kvs ∅) [])) []].
Proof.
  intros Hdt Hts Hok Hl. change (frame dt ts kvs) with (framed (record dt ts kvs)).
  destruct (framed_split (record dt ts kvs) [] Hl) as (E1 & E2 & E3 & E4).
  rewrite app_nil_r in *. remember (framed _) as s eqn:Hs. clear Hs.
  destruct s as [|b s]; [cbn in E4; lia|].
  cbn [decode_stream]. rewrite E1, decide_True, E2, E3 by done.
  rewrite Record_merge_record by done. done.
Qed.

Lemma protobuf_encode_frame dt ts keys values d :
  (0 < dt < 2 ^ 31)%Z -> (0 < ts < 2 ^ 63)%Z -> 0 < length keys ->
  length keys <= length values -> fits (length d) ->
  wire_ok (reverse (zip keys values)) ->
  length (frame dt ts (reverse (zip keys values))) <= length d ->
  exists n, fst (protobuf_encode ts keys values dt d) = Ret n
    /\ decode_stream 1 (take n (snd (protobuf_encode ts keys values dt d)))
       = Ret [mkRecord dt ts (Some (mkPayload (list_to_map (zip keys values)) [])) []].
Proof.
  intros Hdt Hts Hk Hle Hd Hok Hf.
  rewrite protobuf_encode_ok by (done || lia). cbn [fst snd].
  eexists. split; [done|]. rewrite take_app_length.
  rewrite decode_stream_record, insert_all_reverse; [done|lia..|done|].
  destruct Hok as [_ Hp]. unfold fits in Hd. rewrite length_record by (unfold fits; lia).
  pose proof (encoded_varint_len_log2 dt ltac:(lia)). pose proof (encoded_varint_len_log2 ts ltac:(lia)).
  pose proof (encoded_varint_len_log2 (Z.of_nat (length (payload (reverse (zip keys values))))) ltac:(lia)).
  assert (L : forall n, (0 <= n < 2 ^ 63)%Z -> (Z.log2 n / 7 <= 9)%Z).
  { intros n Hn. apply Z.div_le_upper_bound; [lia|]. destruct (Z.eq_dec n 0) as [->|]; [done|].
    assert (Z.log2 n < 63)%Z by (apply Z.log2_lt_pow2; lia). lia. }
  pose proof (L dt ltac:(lia)). pose proof (L ts ltac:(lia)).
  pose proof (L (Z.of_nat (length (payload (reverse (zip keys values))))) ltac:(lia)). lia.
Qed.
End driver_frame.

Section claims.
Context `{CodedInputLaws, CodedOutputLaws}.

(** C10: what [send_records] puts on an open pipe decodes, frame by frame, to
    exactly the records sent, in the order they were sent; nothing else is
    written and the reader side is untouched. *)
Theorem send_records_roundtrip recs c :
  writer_open c = true -> Forall sendable recs ->
  exists stream,
    send_records recs c = (Ret tt, mkClient (writer c ++ stream) true (reader c))
    /\ decode_stream (length recs) stream = Ret recs.
Proof.
  intros Ho Hok. eexists. split; [by apply send_records_framed|].
  by apply decode_stream_framed.
Qed.

(** [receive] on a pipe that holds a framed [Task] returns the task and
    leaves the rest of the pipe unread, whatever follows it. *)
Theorem receive_roundtrip t rest w o :
  Task_ok t -> (Z.of_nat (length (Task_write t)) < 2 ^ 32)%Z ->
  receive (mkClient w o (framed (Task_write t) ++ rest)) = (Ret t, mkClient w o rest).
Proof.
  intros Hok Hl. destruct (framed_split (Task_write t) rest Hl) as (E1 & E2 & E3 & E4).
  unfold receive. erewrite sm_bind_ret; cycle 1.
  { unfold read_exact. cbn [reader writer writer_open]. rewrite decide_True by lia. done. }
  cbv zeta. rewrite E1. erewrite sm_bind_ret; cycle 1.
  { unfold read_exact. cbn [reader writer writer_open].
    rewrite decide_True by (rewrite length_drop; lia). rewrite E2, drop_drop, E3. done. }
  unfold sm_lift. by rewrite Task_roundtrip.
Qed.

(** A pipe with fewer bytes than its next frame announces makes [receive]
    fail with an I/O error, not return a partial task. *)
Theorem receive_short w o buf :
  length buf < 4 + Z.to_nat (from_le_bytes (take 4 buf)) ->
  fst (receive (mkClient w o buf)) = Fail IoError.
Proof.
  intros Hl. unfold receive, mbind, SM_bind, read_exact. cbn [reader writer writer_open].
  case_decide; [|done]. cbn [reader]. rewrite length_drop, decide_False by lia. done.
Qed.

(** A record the driver encodes is what the agent decodes: the frame
    [protobuf_encode] leaves in the buffer decodes to the same data type and
    time, with each key bound to its value; a key that occurs twice in the schema
    is bound to the value of its first occurrence. *)
Theorem protobuf_encode_decodes dt ts keys values d :
  (0 < dt < 2 ^ 31)%Z -> (0 < ts < 2 ^ 63)%Z -> 0 < length keys ->
  length keys <= length values -> fits (length d) ->
  wire_ok (reverse (zip keys values)) ->
  length (frame dt ts (reverse (zip keys values))) <= length d ->
  exists n, fst (protobuf_encode ts keys values dt d) = Ret n
    /\ decode_stream 1 (take n (snd (protobuf_encode ts keys values dt d)))
       = Ret [mkRecord dt ts (Some (mkPayload (list_to_map (zip keys values)) [])) []].
Proof. apply protobuf_encode_frame. Qed.
End claims.

(** ** The properties on the concrete stream *)

Definition sample_record : Record_ :=
  insert_field (bs "pid") (bs "7") (mkRecord 900 1650000000 None []).
Definition sample_task : Task := mkTask 6053 (bs "scanner") (bs "{}") (bs "tok") [].

Lemma sample_sendable : sendable sample_record.
Proof. apply (bool_decide_unpack _). by vm_compute. Qed.

Lemma send_records_roundtrip_witness :
  exists stream,
    send_records [sample_record; sample_record] (mkClient [] true [])
      = (Ret tt, mkClient ([] ++ stream) true [])
    /\ decode_stream 2 stream = Ret [sample_record; sample_record].
Proof.
  apply (send_records_roundtrip [sample_record; sample_record] (mkClient [] true []));
    [done|do 2 (constructor; [apply sample_sendable|]); constructor].
Defined.

Lemma receive_roundtrip_witness :
  receive (mkClient [] true (framed (Task_write sample_task) ++ bs "rest"))
  = (Ret sample_task, mkClient [] true (bs "rest")).
Proof.
  apply receive_roundtrip; [|by vm_compute].
  split_and!; try (by vm_compute); split; by vm_compute.
Defined.

Lemma receive_short_witness :
  fst (receive (mkClient [] true [x05; x00; x00; x00; x08])) = Fail IoError.
Proof. apply receive_short. vm_compute. lia. Defined.

Lemma protobuf_encode_decodes_witness :
  exists n, fst (protobuf_encode 5 [bs "module_name"] [bs "m"] 700 (replicate 40 x00)) = Ret n
    /\ decode_stream 1 (take n (snd (protobuf_encode 5 [bs "module_name"] [bs "m"] 700 (replicate 40 x00))))
       = Ret [mkRecord 700 5 (Some (mkPayload (list_to_map (zip [bs "module_name"] [bs "m"])) [])) []].
Proof.
  apply (protobuf_encode_decodes 700 5 [bs "module_name"] [bs "m"] (replicate 40 x00));
    [lia|lia|cbn; lia|cbn; lia|by vm_compute| |vm_compute; lia].
  split; [repeat constructor|by vm_compute].
Defined.

