(* ===== verification/BridgeSizes.v ===== *)
(** * Cached sizes and accessors ([plugins/lib/rust/src/bridge.rs])

    The messages as the generated code keeps them, with the cell [cached_size]
    that [compute_size] sets through a shared reference and that
    [write_to_with_cached_sizes] reads: nothing but [compute_size] refreshes it, so
    after an accessor the cell is stale.  [Bridge] has the messages without cells;
    here the cells and every accessor are added, and what [send_record] writes is
    shown to be what [Bridge] and [Client] say, whatever the cells held.  The
    [protobuf] crate compares cells as equal, so the derived [PartialEq] is the
    equality of the messages without them. *)

From S2P Require Import Prelude Bytes RustStd Encoder Bridge WireInst Client.
Import Frame.

(** ** The messages with their cells *)

Record PayloadC := mkPayloadC { pay : Payload; pay_size : Z }.
Record RecordC := mkRecordC {
  rc_data_type : Z; rc_timestamp : Z; rc_data : option PayloadC; rc_unknown : list bytes; rc_size : Z;
}.
Record TaskC := mkTaskC { tsk : Task; tsk_size : Z }.

(** The message without its cells. *)
Definition erase (r : RecordC) : Record_ := mkRecord (rc_data_type r) (rc_timestamp r) (pay <$> rc_data r) (rc_unknown r).

(** The derived [PartialEq]. *)
#[global] Instance PayloadC_equiv : Equiv PayloadC := fun p q => pay p = pay q.
#[global] Instance RecordC_equiv : Equiv RecordC := fun r s => erase r = erase s.
#[global] Instance TaskC_equiv : Equiv TaskC := fun t u => tsk t = tsk u.
#[global] Instance PayloadC_equivalence : Equivalence (≡@{PayloadC}).
Proof. by split; [intros ?|intros ???|intros ?????; etrans]. Qed.
#[global] Instance RecordC_equivalence : Equivalence (≡@{RecordC}).
Proof. by split; [intros ?|intros ???|intros ?????; etrans]. Qed.
#[global] Instance TaskC_equivalence : Equivalence (≡@{TaskC}).
Proof. by split; [intros ?|intros ???|intros ?????; etrans]. Qed.

Definition PayloadC_new : PayloadC := mkPayloadC Payload_new 0.
Definition RecordC_new : RecordC := mkRecordC 0 0 None [] 0.
Definition TaskC_new : TaskC := mkTaskC Task_new 0.

(** ** [compute_size] and [write_to_with_cached_sizes] *)

Section cached.
Context `{CodedOutputStream}.

(** The sums are of type [u32]. *)
Definition PayloadC_compute_size (p : PayloadC) : Z * PayloadC :=
  let my_size := wrap_u32 (Z.of_nat (Payload_compute_size (pay p))) in (my_size, mkPayloadC (pay p) my_size).

Definition RecordC_compute_size (r : RecordC) : Z * RecordC :=
  let a := if decide (rc_data_type r ≠ 0%Z) then value_size 1 (rc_data_type r) else 0 in
  let b := if decide (rc_timestamp r ≠ 0%Z) then value_size 2 (rc_timestamp r) else 0 in
  let '(d, data) :=
    match rc_data r with
    | Some v => let '(len, v) := PayloadC_compute_size v in
                ((1 + Z.of_nat (compute_raw_varint32_size (Z.to_nat len)) + len)%Z, Some v)
    | None => (0%Z, None)
    end in
  let my_size := wrap_u32 (Z.of_nat a + Z.of_nat b + d + Z.of_nat (length (concat (rc_unknown r)))) in
  (my_size, mkRecordC (rc_data_type r) (rc_timestamp r) data (rc_unknown r) my_size).

Definition TaskC_compute_size (t : TaskC) : Z * TaskC :=
  let my_size := wrap_u32 (Z.of_nat (Task_compute_size (tsk t))) in (my_size, mkTaskC (tsk t) my_size).

Definition RecordC_get_cached_size (r : RecordC) : Z := rc_size r.
Definition PayloadC_get_cached_size (p : PayloadC) : Z := pay_size p.

Definition RecordC_write (r : RecordC) : bytes :=
  (if decide (rc_data_type r ≠ 0%Z) then write_int32 1 (rc_data_type r) else [])
  ++ (if decide (rc_timestamp r ≠ 0%Z) then write_int64 2 (rc_timestamp r) else [])
  ++ match rc_data r with
     | Some v => write_tag 3 WireTypeLengthDelimited
                 ++ write_raw_varint32 (Z.to_nat (PayloadC_get_cached_size v)) ++ Payload_write (pay v)
     | None => []
     end
  ++ concat (rc_unknown r).

(** A proto3 message has no required fields, and a [Record] asks its payload. *)
Definition Payload_is_initialized (p : PayloadC) : bool := true.
Definition Record_is_initialized (r : RecordC) : bool := match rc_data r with Some v => Payload_is_initialized v | None => true end.

(** The crate's [write_to_writer]: the sizes are computed, then the message is
    written with them. *)
Definition write_to_writer (r : RecordC) : SM Client RecordC :=
  if Record_is_initialized r then
    let r := (RecordC_compute_size r).2 in write_all (RecordC_write r);; mret r
  else sm_fail ProtoError.

(** [Client::send_record]: the size goes first; the cells of the record change. *)
Definition send_recordC (r : RecordC) : SM Client RecordC :=
  let '(n, r) := RecordC_compute_size r in write_all (to_le_bytes n);; write_to_writer r.
End cached.

(** ** The accessors *)

(** What [set_default] leaves in the cell of the payload it makes or reuses is up to
    the crate: the operations that call it carry it. *)
Inductive PayloadOp :=
  | ClearFields | SetFields (v : gmap bytes bytes) | TakeFields
  | InsertField (k v : bytes)        (** through [mut_fields] *)
  | RemoveField (k : bytes)
  | ClearPayload
  | SizePayload.

Inductive RecordOp :=
  | ClearDataType | SetDataType (v : Z) | ClearTimestamp | SetTimestamp (v : Z)
  | ClearData | SetData (v : PayloadC) | TakeData
  | MutData (cell : Z) (ops : list PayloadOp)
  | ClearRecord
  | SizeRecord.

Definition clear_fields (p : Payload) : Payload := set_fields ∅ p.
Definition take_fields (p : Payload) : gmap bytes bytes * Payload := (fields p, set_fields ∅ p).
Definition Payload_clear (p : Payload) : Payload := mkPayload ∅ [].

(** The accessors of the messages without cells. *)
Definition payload_op (p : Payload) (o : PayloadOp) : Payload :=
  match o with
  | ClearFields => clear_fields p
  | SetFields v => set_fields v p
  | TakeFields => (take_fields p).2
  | InsertField k v => set_fields (<[k := v]> (fields p)) p
  | RemoveField k => set_fields (delete k (fields p)) p
  | ClearPayload => Payload_clear p
  | SizePayload => p
  end.

Definition get_data (r : Record_) : Payload := default Payload_new (data r).
Definition has_data (r : Record_) : bool := bool_decide (is_Some (data r)).
Definition clear_data (r : Record_) : Record_ := mkRecord (data_type r) (timestamp r) None (rec_unknown_fields r).
Definition take_data (r : Record_) : Payload * Record_ := (get_data r, clear_data r).
Definition mut_data (f : Payload -> Payload) (r : Record_) : Record_ := set_data (f (get_data r)) r.
Definition Record_clear (r : Record_) : Record_ := mkRecord 0 0 None [].

Definition record_op (r : Record_) (o : RecordOp) : Record_ :=
  match o with
  | ClearDataType => set_data_type 0 r
  | SetDataType v => set_data_type v r
  | ClearTimestamp => set_timestamp 0 r
  | SetTimestamp v => set_timestamp v r
  | ClearData => clear_data r
  | SetData v => set_data (pay v) r
  | TakeData => (take_data r).2
  | MutData _ ops => mut_data (fun p => foldl payload_op p ops) r
  | ClearRecord => Record_clear r
  | SizeRecord => r
  end.

Section ops.
Context `{CodedOutputStream}.

(** The same on the messages with cells: no accessor touches a cell. *)
Definition payload_opC (p : PayloadC) (o : PayloadOp) : PayloadC :=
  match o with
  | SizePayload => (PayloadC_compute_size p).2
  | o => mkPayloadC (payload_op (pay p) o) (pay_size p)
  end.

Definition with_data (d : option PayloadC) (r : RecordC) : RecordC :=
  mkRecordC (rc_data_type r) (rc_timestamp r) d (rc_unknown r) (rc_size r).

Definition record_opC (r : RecordC) (o : RecordOp) : RecordC :=
  match o with
  | ClearDataType => mkRecordC 0 (rc_timestamp r) (rc_data r) (rc_unknown r) (rc_size r)
  | SetDataType v => mkRecordC v (rc_timestamp r) (rc_data r) (rc_unknown r) (rc_size r)
  | ClearTimestamp => mkRecordC (rc_data_type r) 0 (rc_data r) (rc_unknown r) (rc_size r)
  | SetTimestamp v => mkRecordC (rc_data_type r) v (rc_data r) (rc_unknown r) (rc_size r)
  | ClearData | TakeData => with_data None r
  | SetData v => with_data (Some v) r
  | MutData cell ops => with_data (Some (foldl payload_opC (default (mkPayloadC Payload_new cell) (rc_data r)) ops)) r
  | ClearRecord => mkRecordC 0 0 None [] (rc_size r)
  | SizeRecord => (RecordC_compute_size r).2
  end.
End ops.

(** The string fields of a [Task]. *)
Inductive TaskField := ObjectName | Data | Token.
#[global] Instance TaskField_eq_dec : EqDecision TaskField.
Proof. solve_decision. Defined.
Definition get_field (f : TaskField) (t : Task) : bytes :=
  match f with ObjectName => object_name t | Data => task_data t | Token => token t end.
Definition set_field (f : TaskField) (v : bytes) (t : Task) : Task :=
  match f with
  | ObjectName => mkTask (task_data_type t) v (task_data t) (token t) (task_unknown_fields t)
  | Data => mkTask (task_data_type t) (object_name t) v (token t) (task_unknown_fields t)
  | Token => mkTask (task_data_type t) (object_name t) (task_data t) v (task_unknown_fields t)
  end.
Definition clear_field (f : TaskField) (t : Task) : Task := set_field f [] t.
Definition take_field (f : TaskField) (t : Task) : bytes * Task := (get_field f t, clear_field f t).
Definition set_task_data_type (v : Z) (t : Task) : Task :=
  mkTask v (object_name t) (task_data t) (token t) (task_unknown_fields t).
Definition Task_clear (t : Task) : Task := mkTask 0 [] [] [] [].

(** ** The cells do not show *)

Section cells.
Context `{CodedOutputStream}.

Lemma erase_compute r : (RecordC_compute_size r).2 ≡ r.
Proof. by destruct r as [dt ts [v|] u n]. Qed.

Lemma pay_ops p ops : pay (foldl payload_opC p ops) = foldl payload_op (pay p) ops.
Proof. revert p. induction ops as [|o ops IH]; intros p; [done|]. cbn [foldl]. rewrite IH. by destruct o. Qed.

(** Every accessor does to the message with cells what it does to the one without. *)
Lemma erase_op r o : erase (record_opC r o) = record_op (erase r) o.
Proof.
  destruct o; try done; [|apply erase_compute].
  unfold erase, record_op, mut_data, get_data, record_opC, with_data, set_data. cbn. f_equal. f_equal.
  rewrite pay_ops. by destruct (rc_data r).
Qed.

Lemma erase_ops r ops : erase (foldl record_opC r ops) = foldl record_op (erase r) ops.
Proof. revert r. induction ops as [|o ops IH]; intros r; [done|]. cbn [foldl]. by rewrite IH, erase_op. Qed.

#[global] Instance record_opC_proper : Proper ((≡) ==> (=) ==> (≡)) record_opC.
Proof. intros r s E o _ <-. unfold equiv, RecordC_equiv in *. by rewrite !erase_op, E. Qed.
#[global] Instance compute_proper : Proper ((≡) ==> (≡)) (fun r => (RecordC_compute_size r).2).
Proof. intros r s E. by rewrite !erase_compute. Qed.
End cells.

Section sizes.
Context `{CodedOutputLaws}.

Lemma payload_within r v : data r = Some v -> Payload_compute_size v <= length (Record_write r).
Proof.
  intros E. rewrite Record_size_write. unfold Record_compute_size. rewrite E. lia.
Qed.

(** The payload's cell after [compute_size]. *)
Lemma computed_payload p :
  (Z.of_nat (Payload_compute_size (pay p)) < 2 ^ 32)%Z ->
  PayloadC_compute_size p = (Z.of_nat (Payload_compute_size (pay p)), mkPayloadC (pay p) (Z.of_nat (Payload_compute_size (pay p)))).
Proof. intros Hp. unfold PayloadC_compute_size, wrap_u32. by rewrite Z.mod_small by lia. Qed.

Lemma computed r :
  (Z.of_nat (length (Record_write (erase r))) < 2 ^ 32)%Z ->
  (RecordC_compute_size r).1 = Z.of_nat (Record_compute_size (erase r))
  /\ RecordC_write (RecordC_compute_size r).2 = Record_write (erase r).
Proof.
  intros Hl. pose proof (payload_within (erase r)) as Hin. rewrite Record_size_write in Hl, Hin.
  destruct r as [dt ts [p|] u n]; unfold RecordC_compute_size; cbn [rc_data rc_data_type rc_timestamp rc_unknown].
  - specialize (Hin (pay p) eq_refl). rewrite computed_payload by lia. cbn [fst snd]. split; [|].
    + unfold Record_compute_size, wrap_u32 in *. cbn [erase data data_type timestamp rec_unknown_fields rc_data rc_data_type rc_timestamp rc_unknown fmap option_fmap option_map] in *.
      rewrite Nat2Z.id. rewrite Z.mod_small by lia. lia.
    + unfold RecordC_write, PayloadC_get_cached_size. cbn [rc_data rc_data_type rc_timestamp rc_unknown pay pay_size].
      by rewrite Nat2Z.id.
  - cbn [fst snd]. split; [|done]. unfold Record_compute_size, wrap_u32 in *. cbn in *. rewrite Z.mod_small by lia. lia.
Qed.

(** [send_record] on a message with cells, whatever they hold. *)
Lemma send_recordC_spec r c :
  (Z.of_nat (length (Record_write (erase r))) < 2 ^ 32)%Z ->
  exists r', r' ≡ r /\ send_recordC r c = (r ← send_record (erase r); mret r') c.
Proof.
  intros Hl. destruct (computed r Hl) as [Hn Hw]. set (r1 := (RecordC_compute_size r).2) in *.
  assert (E1 : erase r1 = erase r) by apply erase_compute. destruct (computed r1) as [_ Hw1]; [by rewrite E1|].
  exists (RecordC_compute_size r1).2. split; [by rewrite erase_compute|].
  unfold send_recordC, send_record. destruct (RecordC_compute_size r) as [n r1'] eqn:E. cbn [fst snd] in *. subst r1 n.
  rewrite sm_bind_assoc. unfold write_to_writer. replace (Record_is_initialized r1') with true by (by destruct r1' as [? ? [?|] ? ?]).
  rewrite Hw1, E1. unfold wrap_u32. rewrite Record_size_write in Hl. by rewrite Z.mod_small by lia.
Qed.

(** C31: however a record was built and changed with the generated accessors, sized
    or sent before, [send_record] writes the frame of the fields it has now, with the
    size of that frame first, and leaves a record that is equal to it: a stale
    cached size is never written. *)
Theorem sizes_never_stale r ops c :
  let m := foldl record_op (erase r) ops in
  writer_open c = true -> (Z.of_nat (length (Record_write m)) < 2 ^ 32)%Z ->
  exists r', r' ≡ foldl record_opC r ops
  /\ send_recordC (foldl record_opC r ops) c
     = (Ret r', mkClient (writer c ++ framed (Record_write m)) true (reader c)).
Proof.
  cbn zeta. intros Ho Hl. rewrite <- erase_ops in *. destruct (send_recordC_spec _ c Hl) as (r' & Er & Es).
  exists r'. split; [done|]. rewrite Es. pose proof (send_records_framed [erase (foldl record_opC r ops)] c Ho) as Hs.
  cbn [send_records map concat] in Hs. rewrite app_nil_r in Hs. unfold mbind, SM_bind in *.
  destruct (send_record _ c) as [[[]| |] c']; cbn in *; [|done..]. by injection Hs as ->.
Qed.
End sizes.

(** ** The fields of a task *)

Lemma get_set_field f g v t : get_field f (set_field g v t) = if decide (f = g) then v else get_field f t.
Proof. by destruct f, g. Qed.
Lemma set_set_field f v w t : set_field f v (set_field f w t) = set_field f v t.
Proof. by destruct f. Qed.
Lemma set_field_comm f g v w t : f <> g -> set_field f v (set_field g w t) = set_field g w (set_field f v t).
Proof. by destruct f, g. Qed.

(** A field holds what was last set, whatever was set in the others, and taking it
    leaves it empty. *)
Theorem task_last_set (f : TaskField) (sets : list (TaskField * bytes)) t :
  let t' := foldl (fun t s => set_field s.1 s.2 t) t sets in
  get_field f t' = default (get_field f t) (snd <$> last (filter (fun s => s.1 = f) sets))
  /\ get_field f (take_field f t').2 = [] /\ (take_field f t').1 = get_field f t'.
Proof.
  cbn zeta. split; [|split; [by unfold take_field, clear_field; cbn [snd]; rewrite get_set_field, decide_True|done]].
  induction sets as [|[g v] sets IH] using rev_ind; [done|].
  rewrite foldl_app, filter_app, filter_cons, filter_nil. cbn [foldl fst snd]. rewrite get_set_field.
  case_decide as E1; case_decide as E2; [by rewrite last_snoc|congruence..|by rewrite app_nil_r].
Qed.

(** ** A stale cell

    The cells matter: written without [compute_size], a record whose payload has
    changed since is not what its reader expects. *)

Definition built : RecordC :=
  foldl record_opC RecordC_new [SetDataType 1000; SetTimestamp 7; MutData 0 [InsertField (bs "pid") (bs "42")]].
Definition resized : RecordC := foldl record_opC built [SizeRecord; MutData 0 [InsertField (bs "exe") (bs "/bin/ls")]].

Lemma stale_size_refused :
  Record_merge_from Record_new (RecordC_write resized) <> Ret (erase resized)
  /\ Record_merge_from Record_new (RecordC_write (RecordC_compute_size resized).2) = Ret (erase resized).
Proof. split; [by vm_compute|by vm_compute]. Qed.

Lemma sizes_never_stale_witness :
  exists r', r' ≡ resized
  /\ send_recordC resized (mkClient [] true []) = (Ret r', mkClient ([] ++ framed (Record_write (erase resized))) true []).
Proof.
  destruct (sizes_never_stale built [SizeRecord; MutData 0 [InsertField (bs "exe") (bs "/bin/ls")]] (mkClient [] true [])) as (r' & H1 & H2);
    [reflexivity|by vm_compute|]. exists r'. split; [exact H1|exact H2].
Defined.
