(* ===== verification/BridgeDesc.v ===== *)
(** * The descriptor of the messages ([plugins/lib/rust/src/bridge.rs])

    The generated file carries the schema it was generated from as bytes,
    [file_descriptor_proto_data], and for each message the accessors of its fields by
    name, [descriptor_static].  Here the bytes are decoded, the schema is the one of
    [plugins/lib/bridge.proto], and an encoder that knows nothing but the decoded
    schema, a field's number, label and type, is the reference for the generated
    writers. *)

From S2P Require Import Prelude Bytes RustStd Encoder Bridge WireInst Client BridgeSizes.
Import Frame.

(** ** The bytes *)

Definition file_descriptor_proto_data : bytes :=
  [x0a; x0c] ++ bs "bridge.proto" ++ [x12; x06] ++ bs "bridge" ++ [x22; x70; x0a; x06] ++ bs "Record" ++
  [x12; x1d; x0a; x09] ++ bs "data_type" ++ [x18; x01; x20; x01; x28; x05; x52; x08] ++ bs "dataTypeB" ++
  [x00; x12; x1e; x0a; x09] ++ bs "timestamp" ++ [x18; x02; x20; x01; x28; x03; x52; x09] ++ bs "timestampB" ++
  [x00; x12; x25; x0a; x04] ++ bs "data" ++ [x18; x03; x20; x01; x28; x0b; x32; x0f] ++ bs ".bridge.PayloadR" ++
  [x04] ++ bs "dataB" ++ [x00; x3a; x00; x22; x81; x01; x0a; x07] ++ bs "Payload" ++ [x12; x39; x0a; x06] ++
  bs "fields" ++ [x18; x01; x20; x03; x28; x0b; x32; x1f] ++ bs ".bridge.Payload.fields_MapEntryR" ++ [x06] ++
  bs "fieldsB" ++ [x00; x1a; x39; x0a; x0f] ++ bs "fields_MapEntry" ++ [x12; x0e; x0a; x03] ++ bs "key" ++
  [x18; x01; x28; x09; x52; x03] ++ bs "key" ++ [x12; x12; x0a; x05] ++ bs "value" ++
  [x18; x02; x28; x09; x52; x05] ++ bs "value" ++ [x3a; x02; x38; x01; x3a; x00; x22; x78; x0a; x04] ++ bs "Task" ++
  [x12; x1d; x0a; x09] ++ bs "data_type" ++ [x18; x01; x20; x01; x28; x05; x52; x08] ++ bs "dataTypeB" ++
  [x00; x12; x21; x0a; x0b] ++ bs "object_name" ++ [x18; x02; x20; x01; x28; x09; x52; x0a] ++ bs "objectNameB" ++
  [x00; x12; x14; x0a; x04] ++ bs "data" ++ [x18; x03; x20; x01; x28; x09; x52; x04] ++ bs "dataB" ++
  [x00; x12; x16; x0a; x05] ++ bs "token" ++ [x18; x04; x20; x01; x28; x09; x52; x05] ++ bs "tokenB" ++
  [x00; x3a; x00; x42; x00; x62; x06] ++ bs "proto3".

(** ** [FileDescriptorProto]

    The fields of descriptor.proto that the messages use. *)

Record FieldDescriptorProto := mkFieldProto { fd_name : bytes; fd_number : Z; fd_label : option Z; fd_type : Z; fd_type_name : bytes }.
Record EntryProto := mkEntryProto { en_name : bytes; en_fields : list FieldDescriptorProto; en_map_entry : bool }.
Record DescriptorProto := mkDescProto { md_name : bytes; md_fields : list FieldDescriptorProto; md_entries : list EntryProto }.
Record FileDescriptorProto := mkFileProto { fl_name : bytes; fl_package : bytes; fl_messages : list DescriptorProto; fl_syntax : bytes }.

Definition TYPE_INT64 : Z := 3.
Definition TYPE_INT32 : Z := 5.
Definition TYPE_STRING : Z := 9.
Definition TYPE_MESSAGE : Z := 11.
Definition LABEL_OPTIONAL : Z := 1.
Definition LABEL_REPEATED : Z := 3.

(** A message as its fields in wire order: a number or a chunk. *)
Fixpoint wire_fields (fuel : nat) (inp : bytes) : option (list (Z * (Z + bytes))) :=
  match inp, fuel with
  | [], _ => Some []
  | _, O => None
  | _, S fuel' =>
      '(f, w, inp) ← wire_tag inp;
      if bool_decide (w = 0%Z) then '(n, inp) ← wire_varint inp; fs ← wire_fields fuel' inp; Some ((f, inl n) :: fs)
      else if bool_decide (w = 2%Z) then '(c, inp) ← wire_chunk inp; fs ← wire_fields fuel' inp; Some ((f, inr c) :: fs)
      else None
  end.
Definition wire_message (inp : bytes) : option (list (Z * (Z + bytes))) := wire_fields (S (length inp)) inp.

Definition chunks (f : Z) (fs : list (Z * (Z + bytes))) : list bytes :=
  omap (fun x => match x with (g, inr c) => if bool_decide (g = f) then Some c else None | _ => None end) fs.
Definition numbers (f : Z) (fs : list (Z * (Z + bytes))) : list Z :=
  omap (fun x => match x with (g, inl n) => if bool_decide (g = f) then Some n else None | _ => None end) fs.

Definition parse_field (inp : bytes) : option FieldDescriptorProto :=
  fs ← wire_message inp; name ← last (chunks 1 fs); number ← last (numbers 3 fs); type ← last (numbers 5 fs);
  Some (mkFieldProto name number (last (numbers 4 fs)) type (default [] (last (chunks 6 fs)))).
Definition parse_entry (inp : bytes) : option EntryProto :=
  fs ← wire_message inp; name ← last (chunks 1 fs); fields ← mapM parse_field (chunks 2 fs);
  opts ← wire_message (default [] (last (chunks 7 fs)));
  Some (mkEntryProto name fields (bool_decide (last (numbers 7 opts) = Some 1%Z))).
Definition parse_message (inp : bytes) : option DescriptorProto :=
  fs ← wire_message inp; name ← last (chunks 1 fs); fields ← mapM parse_field (chunks 2 fs);
  entries ← mapM parse_entry (chunks 3 fs); Some (mkDescProto name fields entries).
Definition parse_file (inp : bytes) : option FileDescriptorProto :=
  fs ← wire_message inp; name ← last (chunks 1 fs); package ← last (chunks 2 fs);
  ms ← mapM parse_message (chunks 4 fs); syntax ← last (chunks 12 fs);
  Some (mkFileProto name package ms syntax).

(** [parse_descriptor_proto]: the [unwrap] panics on bytes that do not parse. *)
Definition parse_descriptor_proto : outcome FileDescriptorProto :=
  match parse_file file_descriptor_proto_data with Some f => Ret f | None => Panic end.

(** [bridge.proto] *)
Definition optional (name : string) (number type : Z) (ref : string) : FieldDescriptorProto :=
  mkFieldProto (bs name) number (Some LABEL_OPTIONAL) type (bs ref).
Definition bridge_proto : FileDescriptorProto :=
  mkFileProto (bs "bridge.proto") (bs "bridge")
    [mkDescProto (bs "Record")
       [optional "data_type" 1 TYPE_INT32 ""; optional "timestamp" 2 TYPE_INT64 ""; optional "data" 3 TYPE_MESSAGE ".bridge.Payload"] [];
     mkDescProto (bs "Payload")
       [mkFieldProto (bs "fields") 1 (Some LABEL_REPEATED) TYPE_MESSAGE (bs ".bridge.Payload.fields_MapEntry")]
       [mkEntryProto (bs "fields_MapEntry")
          [mkFieldProto (bs "key") 1 None TYPE_STRING []; mkFieldProto (bs "value") 2 None TYPE_STRING []] true];
     mkDescProto (bs "Task")
       [optional "data_type" 1 TYPE_INT32 ""; optional "object_name" 2 TYPE_STRING ""; optional "data" 3 TYPE_STRING "";
        optional "token" 4 TYPE_STRING ""] []]
    (bs "proto3").

Lemma descriptor_parses : parse_descriptor_proto = Ret bridge_proto.
Proof. by vm_compute. Qed.

(** ** Reflection *)

(** The values the accessors of [descriptor_static] give, by name. *)
Inductive Value :=
  | VInt (n : Z) | VString (s : bytes) | VMap (kvs : list (bytes * bytes)) | VNone | VMessage (fs : list (bytes * Value)).

Section reflect.
Context `{CodedOutputStream}.

Definition Payload_fields (p : Payload) : list (bytes * Value) := [(bs "fields", VMap (hash_iter (fields p)))].
Definition Record_fields (r : Record_) : list (bytes * Value) :=
  [(bs "data_type", VInt (data_type r)); (bs "timestamp", VInt (timestamp r));
   (bs "data", match data r with Some p => VMessage (Payload_fields p) | None => VNone end)].
Definition Task_fields (t : Task) : list (bytes * Value) :=
  [(bs "data_type", VInt (task_data_type t)); (bs "object_name", VString (object_name t));
   (bs "data", VString (task_data t)); (bs "token", VString (token t))].
End reflect.

Definition value_of (name : bytes) (fs : list (bytes * Value)) : option Value :=
  snd <$> List.find (fun x => bool_decide (x.1 = name)) fs.

(** ** The reference encoder *)

Definition with_length (number : Z) (body : bytes) : bytes := tag number 2 :: len_delimited body.

Definition full_name (path : list bytes) : bytes := concat (map (fun n => bs "." ++ n) path).
Definition find_message (f : FileDescriptorProto) (ref : bytes) : option DescriptorProto :=
  List.find (fun m => bool_decide (full_name [fl_package f; md_name m] = ref)) (fl_messages f).
Definition find_entry (f : FileDescriptorProto) (m : DescriptorProto) (ref : bytes) : option EntryProto :=
  List.find (fun e => bool_decide (full_name [fl_package f; md_name m; en_name e] = ref)) (md_entries m).

(** An entry of a map: its two fields, always both. *)
Definition encode_entry (e : EntryProto) (kv : bytes * bytes) : option bytes :=
  match en_fields e with
  | [k; v] =>
      if en_map_entry e && bool_decide (fd_name k = bs "key" /\ fd_name v = bs "value" /\ fd_type k = TYPE_STRING /\ fd_type v = TYPE_STRING)
      then Some (with_length (fd_number k) kv.1 ++ with_length (fd_number v) kv.2) else None
  | _ => None
  end.

(** proto3: a field with its default is left out.  [fuel] is the depth of the
    nesting, two in this file. *)
Fixpoint encode (fuel : nat) (f : FileDescriptorProto) (ref : bytes) (vs : list (bytes * Value)) : option bytes :=
  match fuel with
  | O => None
  | S fuel =>
      m ← find_message f ref;
      bodies ← mapM (fun fd =>
        v ← value_of (fd_name fd) vs;
        match v with
        | VInt n =>
            if bool_decide (fd_type fd = TYPE_INT32 \/ fd_type fd = TYPE_INT64) then
              Some (if decide (n = 0%Z) then [] else tag (fd_number fd) 0 :: varint (wrap_u64 n))
            else None
        | VString s =>
            if bool_decide (fd_type fd = TYPE_STRING) then Some (if decide (s = []) then [] else with_length (fd_number fd) s)
            else None
        | VMap kvs =>
            if bool_decide (fd_label fd = Some LABEL_REPEATED /\ fd_type fd = TYPE_MESSAGE) then
              e ← find_entry f m (fd_type_name fd);
              es ← mapM (encode_entry e) kvs; Some (concat (map (with_length (fd_number fd)) es))
            else None
        | VNone => if bool_decide (fd_label fd = Some LABEL_OPTIONAL /\ fd_type fd = TYPE_MESSAGE) then Some [] else None
        | VMessage vs =>
            if bool_decide (fd_label fd = Some LABEL_OPTIONAL /\ fd_type fd = TYPE_MESSAGE) then
              b ← encode fuel f (fd_type_name fd) vs; Some (with_length (fd_number fd) b)
            else None
        end) (md_fields m);
      Some (concat bodies)
  end.
Definition encode_by (f : FileDescriptorProto) (name : string) (vs : list (bytes * Value)) : option bytes :=
  encode 2 f (full_name [fl_package f; bs name]) vs.

(** ** The generated writers are the reference *)

Section writers.
Context `{CodedOutputLaws}.

Definition entry_proto : EntryProto :=
  mkEntryProto (bs "fields_MapEntry")
    [mkFieldProto (bs "key") 1 None TYPE_STRING []; mkFieldProto (bs "value") 2 None TYPE_STRING []] true.

Lemma encode_entries kvs : mapM (encode_entry entry_proto) kvs = Some (map (fun kv => entry_body kv.1 kv.2) kvs).
Proof. induction kvs as [|[k v] kvs IH]; [done|]. cbn [mapM map]. rewrite IH. done. Qed.

Lemma encoded_map kvs : concat (map (with_length 1) (map (fun kv => entry_body kv.1 kv.2) kvs)) = payload kvs.
Proof. induction kvs as [|kv kvs IH]; [done|]. cbn [map concat]. by rewrite IH, payload_cons. Qed.

Lemma Payload_encoded fuel p :
  pld_unknown_fields p = [] -> encode (S fuel) bridge_proto (bs ".bridge.Payload") (Payload_fields p) = Some (Payload_write p).
Proof.
  intros Hu. unfold Payload_write. rewrite Hu, app_nil_r, write_map_law, <- encoded_map.
  change (encode (S fuel) bridge_proto (bs ".bridge.Payload") (Payload_fields p))
    with (bodies ← (b ← (es ← mapM (encode_entry entry_proto) (hash_iter (fields p)); Some (concat (map (with_length 1) es))); Some [b]);
          Some (concat bodies) : option bytes).
  rewrite encode_entries. cbn. by rewrite app_nil_r.
Qed.

Lemma Record_encoded r :
  rec_unknown_fields r = [] -> (forall p, data r = Some p -> pld_unknown_fields p = []) ->
  encode_by bridge_proto "Record" (Record_fields r) = Some (Record_write r).
Proof.
  destruct r as [dt ts d u]. cbn [rec_unknown_fields data]. intros -> Hp.
  set (D := if decide (dt = 0%Z) then [] else tag 1 0 :: varint (wrap_u64 dt)).
  set (T := if decide (ts = 0%Z) then [] else tag 2 0 :: varint (wrap_u64 ts)).
  assert (E : Record_write (mkRecord dt ts d [])
    = D ++ T ++ match d with Some p => with_length 3 (Payload_write p) | None => [] end ++ []).
  { unfold Record_write. cbn [data_type timestamp data rec_unknown_fields concat].
    rewrite write_int32_law, write_int64_law by done. subst D T.
    destruct d as [p|]; [rewrite write_tag_law, write_raw_varint32_law, <- Payload_size_write by done|]; repeat case_decide; done. }
  rewrite E. clear E. destruct d as [p|]; [|reflexivity].
  change (encode_by _ _ _)
    with (bodies ← (k ← (k' ← (y ← (b ← encode 1 bridge_proto (bs ".bridge.Payload") (Payload_fields p); Some (with_length 3 b));
                               Some [y]); Some (T :: k')); Some (D :: k)); Some (concat bodies)).
  by rewrite Payload_encoded by auto.
Qed.

Lemma Task_encoded t :
  task_unknown_fields t = [] -> encode_by bridge_proto "Task" (Task_fields t) = Some (Task_write t).
Proof.
  destruct t as [dt o d k u]. cbn [task_unknown_fields]. intros ->.
  change (encode_by bridge_proto "Task" (Task_fields (mkTask dt o d k [])))
    with (Some ((if decide (dt = 0%Z) then [] else tag 1 0 :: varint (wrap_u64 dt))
      ++ (if decide (o = []) then [] else with_length 2 o) ++ (if decide (d = []) then [] else with_length 3 d)
      ++ (if decide (k = []) then [] else with_length 4 k) ++ [])).
  unfold Task_write, string_field. cbn [task_data_type object_name task_data token task_unknown_fields concat].
  rewrite write_int32_law, !write_string_law by done. repeat case_decide; try done.
Qed.
End writers.

Section conformance.
Context `{CodedInputLaws, CodedOutputLaws}.

End conformance.

Definition a_record : Record_ := erase resized.
Definition a_task : Task := mkTask 6053 (bs "scanner") (bs "/bin/x") (bs "tok") [].

