(* ===== verification/DebugBuild.v ===== *)
(** * Debug builds of the plugins

    With the feature "debug" a plugin writes lines of JSON to its standard output
    instead of frames to the agent: [Client::send_record] and [send_records]
    ([plugins/lib/rust/src/lib.rs]) and [json_encode] of the driver's transformer
    ([plugins/driver/src/transformer.rs]).  The text of [serde_json] is [JsonText]; the
    order in which a [HashMap] is walked is a parameter. *)

From S2P Require Import Prelude Bytes RustStd Json Encoder Bridge WireInst Client BridgeSizes.
Import JsonText.

(** ** The client *)

Section debug.
Context (iter : gmap bytes bytes -> list (bytes * bytes)).

(** What [serde_json] makes of a map of strings. *)
Definition map_json (m : gmap bytes bytes) : json := JObj (map (fun kv => (kv.1, JStr kv.2)) (iter m)).

(** The literals of the source: a brace or a comma, a quoted name and a colon. *)
Definition lit (before : byte) (name : string) : bytes := before :: QUOTE :: bs name ++ [QUOTE; ":"%byte].

Definition send_record_debug (rec : Record_) : SM Client unit :=
  write_all (lit "{" "data_type");;
  write_all (print_number (data_type rec));;
  write_all (lit "," "timestamp");;
  write_all (print_number (timestamp rec));;
  write_all (lit "," "data");;
  write_all (print_json (map_json (fields (get_data rec))));;
  write_all ["}"%byte; x0a].

Fixpoint send_records_debug (recs : list Record_) : SM Client unit :=
  match recs with
  | [] => mret tt
  | rec :: recs => send_record_debug rec;; send_records_debug recs
  end.

(** ** The transformer *)

(** [for i in 0..keys.len()]: text that is not UTF-8 and a missing value panic. *)
Fixpoint collect (keys values : list bytes) (m : gmap bytes bytes) : outcome (gmap bytes bytes) :=
  match keys, values with
  | [], _ => Ret m
  | k :: keys, v :: values => if utf8_valid k && utf8_valid v then collect keys values (<[k := v]> m) else Panic
  | _ :: _, [] => Panic
  end.

Definition json_encode (ts : Z) (keys values : list bytes) (dt : Z) : SM bytes nat :=
  data ← sm_lift (collect keys values ∅);
  let buf := print_json (JObj [(bs "data_type", JNum dt); (bs "timestamp", JNum ts); (bs "data", map_json data)]) ++ [x0a] in
  dst_len ← sm_gets length;
  if decide (dst_len < length buf) then sm_fail WriteZero else write_at 0 buf;; mret (length buf).

(** ** The lines *)

(** A record as one value. *)
Definition record_json (dt ts : Z) (m : gmap bytes bytes) : json :=
  JObj [(bs "data_type", JNum dt); (bs "timestamp", JNum ts); (bs "data", map_json m)].
Definition line (rec : Record_) : bytes := print_json (record_json (data_type rec) (timestamp rec) (fields (get_data rec))).

(** What a reader takes from a line: the two numbers and the fields. *)
Definition read_fields (kvs : list (bytes * json)) : option (gmap bytes bytes) :=
  list_to_map <$> mapM (fun kv => match kv with (k, JStr v) => Some (k, v) | _ => None end) kvs.
Definition read_line (s : bytes) : option (Z * Z * gmap bytes bytes) :=
  match parse_json s with
  | Some (JObj [(k1, JNum dt); (k2, JNum ts); (k3, JObj kvs)]) =>
      if bool_decide (k1 = bs "data_type" /\ k2 = bs "timestamp" /\ k3 = bs "data") then m ← read_fields kvs; Some (dt, ts, m) else None
  | _ => None
  end.
Definition read_lines (s : bytes) : list (option (Z * Z * gmap bytes bytes)) :=
  let ls := split_on x0a s in map read_line (take (length ls - 1) ls).
End debug.

(** ** What is printed has no line break *)

Definition visible (b : byte) : Prop := (32 <= u8 b)%Z.
Definition plain (s : bytes) : Prop := Forall visible s.

Lemma plain_app s t : plain (s ++ t) <-> plain s /\ plain t.
Proof. apply Forall_app. Qed.

Lemma plain_string s : plain (print_string s).
Proof.
  unfold print_string. apply Forall_cons. split; [by vm_compute|]. apply plain_app. split; [|by apply Forall_singleton; vm_compute].
  induction s as [|c s IH]; [apply Forall_nil_2|]. cbn [map concat]. apply plain_app. split; [apply escape_no_control|done].
Qed.

Lemma plain_digits s : forallb is_digit s = true -> plain s.
Proof.
  intros Hs. apply Forall_forall. intros b Hb. rewrite forallb_forall in Hs. specialize (Hs b (proj1 (list_elem_of_In _ _) Hb)).
  unfold is_digit, in_range in Hs. unfold visible. lia.
Qed.

Lemma plain_number n : plain (print_number n).
Proof.
  unfold print_number. destruct (n <? 0)%Z; [apply Forall_cons; split; [by vm_compute|]|]; apply plain_digits, show_u64_digits.
Qed.

Lemma plain_commas l : Forall plain l -> plain (commas l).
Proof.
  induction 1 as [|s l Hs Hl IH]; [apply Forall_nil_2|]. destruct l as [|t l]; [done|].
  rewrite commas_cons by done. apply plain_app. split; [done|]. apply Forall_cons. split; [by vm_compute|done].
Qed.

Lemma plain_object kvs : Forall (fun kv => plain (print_json kv.2)) kvs -> plain (print_json (JObj kvs)).
Proof.
  intros H. cbn [print_json]. apply Forall_cons. split; [by vm_compute|]. apply plain_app. split; [|by apply Forall_singleton; vm_compute].
  apply plain_commas, Forall_map. eapply Forall_impl; [exact H|]. intros [k j] Hj. apply plain_app. split; [apply plain_string|].
  apply Forall_cons. split; [by vm_compute|exact Hj].
Qed.

Lemma plain_no_newline s : plain s -> x0a ∉ s.
Proof. intros Hs Hin. pose proof (proj1 (Forall_forall _ _) Hs x0a Hin) as Hv. by vm_compute in Hv. Qed.

Section lines.
Context (iter : gmap bytes bytes -> list (bytes * bytes)) (iter_law : forall m, iter m ≡ₚ map_to_list m).

Lemma line_plain rec : plain (line iter rec).
Proof.
  apply plain_object. apply Forall_cons. split; [apply plain_number|]. apply Forall_cons. split; [apply plain_number|]. apply Forall_singleton. cbn [snd].
  apply plain_object, Forall_map, Forall_forall. intros kv _. apply plain_string.
Qed.

(** The pieces [send_record] writes are one value and a line break. *)
Lemma line_pieces rec :
  line iter rec ++ [x0a] =
  lit "{" "data_type" ++ print_number (data_type rec) ++ lit "," "timestamp" ++ print_number (timestamp rec)
  ++ lit "," "data" ++ print_json (map_json iter (fields (get_data rec))) ++ ["}"%byte; x0a].
Proof.
  unfold line, record_json. cbn [print_json map commas fst snd]. set (d := print_json (map_json _ _)).
  change (print_string (bs ?k)) with (QUOTE :: bs k ++ [QUOTE]). unfold lit.
  repeat (rewrite <- app_assoc || (progress cbn [app])). done.
Qed.

Lemma send_record_line rec c :
  writer_open c = true -> send_record_debug iter rec c = (Ret tt, mkClient (writer c ++ line iter rec ++ [x0a]) true (reader c)).
Proof.
  destruct c as [w o r]. cbn [writer_open]. intros ->. rewrite line_pieces. unfold send_record_debug, write_all, mbind, SM_bind.
  cbn [writer_open writer reader]. by rewrite <- !app_assoc.
Qed.

Lemma send_records_lines recs c :
  writer_open c = true ->
  send_records_debug iter recs c = (Ret tt, mkClient (writer c ++ concat (map (fun r => line iter r ++ [x0a]) recs)) true (reader c)).
Proof.
  revert c. induction recs as [|rec recs IH]; intros c Ho; [destruct c; cbn in *; subst; by rewrite app_nil_r|].
  cbn [send_records_debug map concat]. unfold mbind at 1, SM_bind at 1. rewrite send_record_line by done. rewrite IH by done.
  cbn [writer reader]. by rewrite <- app_assoc.
Qed.

Lemma split_lines recs : split_on x0a (concat (map (fun r => line iter r ++ [x0a]) recs)) = map (line iter) recs ++ [[]].
Proof.
  induction recs as [|rec recs IH]; [done|]. cbn [map concat app]. rewrite <- app_assoc. cbn [app].
  rewrite split_on_app_sep by apply plain_no_newline, line_plain. by rewrite IH.
Qed.

Definition numbers_fit (rec : Record_) : Prop := number_ok (data_type rec) /\ number_ok (timestamp rec).
Definition seen (rec : Record_) : Z * Z * gmap bytes bytes := (data_type rec, timestamp rec, fields (get_data rec)).

Lemma read_map m : read_fields (map (fun kv => (kv.1, JStr kv.2)) (iter m)) = Some m.
Proof.
  unfold read_fields. assert (E : forall l : list (bytes * bytes), mapM (fun kv : bytes * json => match kv with (k, JStr v) => Some (k, v) | _ => None end)
    (map (fun kv => (kv.1, JStr kv.2)) l) = Some l) by (induction l as [|[k v] l IH]; [done|]; cbn [map mapM fst snd]; by rewrite IH).
  rewrite E. cbn. f_equal. transitivity (list_to_map (map_to_list m) : gmap bytes bytes); [|apply list_to_map_to_list].
  apply list_to_map_proper; [rewrite iter_law; apply NoDup_fst_map_to_list|apply iter_law].
Qed.

Lemma read_line_seen rec : numbers_fit rec -> read_line (line iter rec) = Some (seen rec).
Proof.
  intros [Hd Ht]. unfold read_line, line. rewrite parse_print_json.
  - cbn [record_json]. unfold record_json, map_json. rewrite bool_decide_true by done. by rewrite read_map.
  - cbn. repeat (constructor; [done|]). constructor; [|constructor]. unfold id. apply Forall_map, Forall_map, Forall_forall. done.
Qed.


(** The driver's own encoder writes the same lines: for texts that are UTF-8 and a
    value for every key it writes the line the client would write for the record, when
    the buffer has room, and fails without touching it otherwise. *)
Theorem json_encode_line ts keys values dt dst m :
  collect keys values ∅ = Ret m ->
  let l := line iter (mkRecord dt ts (Some (mkPayload m [])) []) ++ [x0a] in
  json_encode iter ts keys values dt dst
  = if decide (length dst < length l) then (Fail WriteZero, dst) else (Ret (length l), l ++ drop (length l) dst).
Proof.
  intros Hm. cbn zeta. unfold json_encode. rewrite Hm. unfold mbind at 1, SM_bind at 1, sm_lift, sm_gets. unfold mbind at 1, SM_bind at 1.
  cbn [data_type timestamp fields get_data default data]. unfold line. cbn [data_type timestamp fields get_data default data].
  change (record_json iter dt ts _) with (JObj [(bs "data_type", JNum dt); (bs "timestamp", JNum ts); (bs "data", map_json iter m)]).
  set (l := print_json _ ++ [x0a]). destruct (decide (length dst < length l)); [done|].
  unfold mbind, SM_bind, write_at. rewrite decide_True by lia. done.
Qed.

(** A key or value that is not UTF-8 ends the thread. *)
Theorem json_encode_panics k v ts dt dst :
  utf8_valid v = false -> json_encode iter ts [k] [v] dt dst = (Panic, dst).
Proof. intros Hv. unfold json_encode, mbind, SM_bind, sm_lift. cbn. by rewrite Hv, andb_false_r. Qed.
End lines.

(** A field with a quote, a line break and a byte above 127. *)
Definition a_record_debug : Record_ :=
  mkRecord 1000 (-7) (Some (mkPayload {[bs "argv" := [QUOTE; x0a; xc3; xa9; x01]]} [])) [].

