(* ===== verification/ClientBuffer.v ===== *)
(** * The buffer of the client ([plugins/lib/rust/src/lib.rs])

    [Client] treats what was written as sent.  Here the writer is the [BufWriter] it
    is: bytes wait in a buffer of 512 KiB until a write finds no room, the thread
    that flushes every 200 ms runs, [raw_flush] is called or a clone of the client
    is dropped.  Every method holds the lock of the writer, so that a step is a
    method, a flush, or the closing of the pipes after SIGTERM.  As long as the pipe
    is open the buffered client refines [Client]. *)

From S2P Require Import Prelude Bytes RustStd Encoder Bridge WireInst Client.

(** What has reached the pipe, whether it is open, and what waits. *)
Record Buffered := mkBuffered { pipe : bytes; pipe_open : bool; waiting : bytes }.

Definition capacity : nat := Z.to_nat (512 * 1024).
Lemma capacity_pos : 0 < capacity.
Proof. unfold capacity. lia. Qed.
#[global] Opaque capacity.

(** ** [BufWriter] *)

(** With nothing to write it succeeds on a closed pipe too. *)
Definition flush_buf : SM Buffered unit := fun b =>
  if pipe_open b then (Ret tt, mkBuffered (pipe b ++ waiting b) true [])
  else if bool_decide (waiting b = []) then (Ret tt, b) else (Fail IoError, b).
Definition push_buf (bytes : bytes) : SM Buffered unit := sm_modify (fun b => mkBuffered (pipe b) (pipe_open b) (waiting b ++ bytes)).
Definition inner_write_all (bytes : bytes) : SM Buffered unit := fun b =>
  if pipe_open b then (Ret tt, mkBuffered (pipe b ++ bytes) true (waiting b)) else (Fail IoError, b).

Definition spare (b : Buffered) : nat := capacity - length (waiting b).
Definition buf_write_all (bytes : bytes) : SM Buffered unit :=
  s ← sm_gets spare;
  if decide (length bytes < s) then push_buf bytes
  else
    (if decide (s < length bytes) then flush_buf else mret tt);;
    if decide (capacity <= length bytes) then inner_write_all bytes else push_buf bytes.

(** ** The client over it *)

Section client.
Context `{CodedOutputStream}.

Definition buf_send_record (rec : Record_) : SM Buffered unit :=
  buf_write_all (to_le_bytes (wrap_u32 (Z.of_nat (Record_compute_size rec))));;
  buf_write_all (Record_write rec).
Definition buf_raw_write_all (bytes : bytes) : SM Buffered unit := buf_write_all bytes.
Definition raw_flush : SM Buffered unit := flush_buf.
(** [Drop]: the result of the flush is ignored. *)
Definition Client_drop (b : Buffered) : Buffered := (raw_flush b).2.
(** A turn of the flush thread; a failed one is its last. *)
Definition flush_turn (b : Buffered) : bool * Buffered :=
  match flush_buf b with (Ret _, b) => (true, b) | (_, b) => (false, b) end.
(** The signal thread, three seconds after SIGTERM. *)
Definition close_pipes (b : Buffered) : Buffered := mkBuffered (pipe b) false (waiting b).

Inductive step :=
  | Send (rec : Record_)
  | Raw (bytes : bytes)
  | Flush
  | Tick
  | Dropped
  | Close.

Definition run_step (s : step) (b : Buffered) : Buffered :=
  match s with
  | Send rec => (buf_send_record rec b).2
  | Raw bytes => (buf_raw_write_all bytes b).2
  | Flush => (raw_flush b).2
  | Tick => (flush_turn b).2
  | Dropped => Client_drop b
  | Close => close_pipes b
  end.
Definition run_steps (l : list step) (b : Buffered) : Buffered := foldl (fun b s => run_step s b) b l.

(** The same steps of the client without a buffer. *)
Definition plain_step (s : step) (c : Client) : Client :=
  match s with
  | Send rec => (send_record rec c).2
  | Raw bytes => (raw_write_all bytes c).2
  | Flush | Tick | Dropped => c
  | Close => mkClient (writer c) false (reader c)
  end.
Definition plain_steps (l : list step) (c : Client) : Client := foldl (fun c s => plain_step s c) c l.

(** ** Refinement *)

(** All that was written is in the pipe or waits. *)
Definition refines (b : Buffered) (c : Client) : Prop :=
  writer c = pipe b ++ waiting b /\ pipe_open b = true /\ writer_open c = true /\ length (waiting b) <= capacity.

Lemma flush_refines b c : refines b c -> exists b', flush_buf b = (Ret tt, b') /\ refines b' c /\ waiting b' = [].
Proof.
  intros (Hw & Ho & Hc & Hl). unfold flush_buf. rewrite Ho. eexists. split; [done|]. split; [|done].
  split_and!; cbn; [by rewrite app_nil_r|done..|lia].
Qed.

Lemma write_all_refines bytes b c :
  refines b c -> exists b' c', buf_write_all bytes b = (Ret tt, b') /\ write_all bytes c = (Ret tt, c') /\ refines b' c'.
Proof.
  intros Hr. destruct (Hr) as (Hw & Ho & Hc & Hl). unfold buf_write_all, mbind, SM_bind, sm_gets, write_all. rewrite Hc.
  assert (Hpush : forall b1, refines b1 c -> length (waiting b1) + length bytes <= capacity ->
    exists b' c', push_buf bytes b1 = (Ret tt, b') /\ (Ret tt, mkClient (writer c ++ bytes) true (reader c)) = (Ret tt, c') /\ refines b' c').
  { intros b1 (Hw1 & Ho1 & _ & _) Hl1. eexists _, _. split; [done|]. split; [done|]. split_and!; cbn;
      [by rewrite Hw1, app_assoc|done..|by rewrite length_app]. }
  unfold spare. case_decide as H1; [apply Hpush; [done|lia]|].
  assert (Hf : exists b1, (if decide (capacity - length (waiting b) < length bytes) then flush_buf else mret tt) b = (Ret tt, b1)
    /\ refines b1 c /\ (capacity - length (waiting b) < length bytes -> waiting b1 = []) /\ (length (waiting b1) <= length (waiting b))).
  { case_decide; [|by exists b]. destruct (flush_refines b c Hr) as (b1 & -> & Hr1 & E1). exists b1. rewrite E1. cbn. split_and!; (done || lia). }
  destruct Hf as (b1 & -> & Hr1 & He1 & Hl1). case_decide as H2.
  - destruct Hr1 as (Hw1 & Ho1 & _ & Hl1'). unfold inner_write_all. rewrite Ho1. eexists _, _. split; [done|]. split; [done|].
    assert (E : waiting b1 = []).
    { destruct (decide (capacity - length (waiting b) < length bytes)) as [Hlt|Hge]; [by apply He1|].
      destruct (waiting b1) as [|x t] eqn:E1; [done|]. cbn [length] in Hl1. pose proof capacity_pos. lia. }
    split_and!; cbn; [by rewrite Hw1, E, !app_nil_r|done..|by rewrite E; cbn; lia].
  - apply Hpush; [done|]. destruct (decide (capacity - length (waiting b) < length bytes)) as [Hlt|Hge].
    + rewrite (He1 Hlt). cbn [length]. lia.
    + lia.
Qed.

Lemma step_refines st b c : st <> Close -> refines b c -> refines (run_step st b) (plain_step st c).
Proof.
  intros Hs Hr. assert (Hflush : refines (flush_buf b).2 c) by (destruct (flush_refines b c Hr) as (b' & -> & ? & _); done).
  destruct st as [rec|bytes| | | |]; cbn; try done.
  - unfold buf_send_record, send_record, mbind, SM_bind.
    destruct (write_all_refines (to_le_bytes (wrap_u32 (Z.of_nat (Record_compute_size rec)))) b c Hr) as (b1 & c1 & -> & -> & Hr1).
    by destruct (write_all_refines (Record_write rec) b1 c1 Hr1) as (b2 & c2 & -> & -> & Hr2).
  - unfold buf_raw_write_all, raw_write_all. by destruct (write_all_refines bytes b c Hr) as (b1 & c1 & -> & -> & Hr1).
  - unfold flush_turn. by destruct (flush_refines b c Hr) as (b' & -> & ? & _).
Qed.

(** Nothing reaches a closed pipe. *)
Definition closed_at (p : bytes) (b : Buffered) : Prop := pipe_open b = false /\ pipe b = p.

Lemma flush_closed p b : closed_at p b -> closed_at p (flush_buf b).2.
Proof. intros [Ho Hp]. unfold flush_buf. rewrite Ho. by case_match. Qed.

Lemma write_all_closed p bytes b : closed_at p b -> closed_at p (buf_write_all bytes b).2.
Proof.
  assert (Hrest : forall b, closed_at p b -> closed_at p ((if decide (capacity <= length bytes) then inner_write_all bytes else push_buf bytes) b).2).
  { intros b1 [Ho Hp]. unfold inner_write_all, push_buf, sm_modify. case_decide; [by rewrite Ho|done]. }
  intros Hc. unfold buf_write_all, mbind, SM_bind, sm_gets. destruct (decide (length bytes < spare b)); [by destruct Hc|].
  destruct (decide (spare b < length bytes)); [|by apply Hrest]. pose proof (flush_closed p b Hc) as Hf. destruct (flush_buf b) as [[u|e|] b1]; [|done..]. by apply Hrest.
Qed.

Lemma step_closed p st b : closed_at p b -> closed_at p (run_step st b).
Proof.
  intros Hc. pose proof (flush_closed p b Hc) as Hf.
  destruct st as [rec|bytes| | | |]; cbn; try done.
  - unfold buf_send_record, mbind, SM_bind.
    pose proof (write_all_closed p (to_le_bytes (wrap_u32 (Z.of_nat (Record_compute_size rec)))) b Hc) as H1.
    destruct (buf_write_all _ b) as [[u|e|] b1]; [|done..]. by apply write_all_closed.
  - by apply write_all_closed.
  - unfold flush_turn. by destruct (flush_buf b) as [[]].
  - by destruct Hc.
Qed.

Lemma plain_step_grows st c : exists more, writer (plain_step st c) = writer c ++ more.
Proof.
  assert (Hw : forall bytes c, exists more, writer (write_all bytes c).2 = writer c ++ more).
  { intros bytes c0. unfold write_all. destruct (writer_open c0); [by eexists|exists []; by rewrite app_nil_r]. }
  destruct st as [rec|bytes| | | |]; cbn; try (exists []; by rewrite app_nil_r).
  - unfold send_record, mbind, SM_bind. set (hd := to_le_bytes _). destruct (Hw hd c) as [m1 E1].
    destruct (write_all hd c) as [[u|e|] c1]; [|by exists m1..]. cbn in E1. destruct (Hw (Record_write rec) c1) as [m2 E2].
    exists (m1 ++ m2). by rewrite E2, E1, app_assoc.
  - apply Hw.
Qed.

Lemma steps_closed l p b c :
  closed_at p b -> p `prefix_of` writer c -> pipe (run_steps l b) `prefix_of` writer (plain_steps l c).
Proof.
  revert b c. induction l as [|st l IH]; intros b c Hb Hc; cbn [run_steps plain_steps foldl]; [by destruct Hb as [_ ->]|].
  apply IH; [by apply step_closed|]. destruct (plain_step_grows st c) as [more ->]. by apply prefix_app_r.
Qed.

Lemma steps_prefix l b c : refines b c -> pipe (run_steps l b) `prefix_of` writer (plain_steps l c).
Proof.
  revert b c. induction l as [|st l IH]; intros b c Hr; cbn [run_steps plain_steps foldl].
  - destruct Hr as [-> _]. by eexists.
  - assert (Hst : st = Close \/ st <> Close) by (destruct st; (by left) || by right).
    destruct Hst as [->|Hne]; [|by apply IH, step_refines].
    apply (steps_closed l (pipe b)); [done|]. cbn. destruct Hr as [-> _]. by eexists.
Qed.

Lemma steps_refine l b c : Close ∉ l -> refines b c -> refines (run_steps l b) (plain_steps l c).
Proof.
  revert b c. induction l as [|st l IH]; intros b c Hl Hr; [done|]. apply not_elem_of_cons in Hl as [Hs Hl].
  cbn. apply IH; [done|]. by apply step_refines.
Qed.

Definition flushes (st : step) : Prop := st = Flush \/ st = Tick \/ st = Dropped.
End client.

Section properties.
Context `{CodedInputLaws, CodedOutputLaws}.

Lemma plain_sends recs c :
  writer_open c = true -> plain_steps (map Send recs) c = (send_records recs c).2.
Proof.
  revert c. induction recs as [|r recs IH]; intros c Ho; cbn [map plain_steps foldl send_records]; [done|].
  unfold mbind, SM_bind. change (plain_step (Send r) c) with (send_record r c).2.
  assert (E : exists c1, send_record r c = (Ret tt, c1) /\ writer_open c1 = true).
  { unfold send_record, mbind, SM_bind, write_all. rewrite Ho. by eexists. }
  destruct E as (c1 & -> & Ho1). by apply IH.
Qed.

(** C11: the buffered client refines the plain one.  Whatever records and bytes are
    written and whenever the flush thread, a flush, the drop of a clone or the
    closing of the pipes come in between, the agent has received a prefix of what
    was written; as long as the pipe is open nothing written is lost, and after a
    flush all of it has arrived; in particular records that were sent and flushed
    decode to themselves. *)
Theorem buffered_refines l b c :
  refines b c ->
  pipe (run_steps l b) `prefix_of` writer (plain_steps l c)
  /\ (Close ∉ l -> refines (run_steps l b) (plain_steps l c)
      /\ forall st, flushes st -> pipe (run_steps (l ++ [st]) b) = writer (plain_steps l c))
  /\ forall recs st, l = map Send recs -> Forall sendable recs -> flushes st -> exists stream,
       pipe (run_steps (l ++ [st]) b) = writer c ++ stream /\ decode_stream (length recs) stream = Ret recs.
Proof.
  intros Hr. assert (Hall : Close ∉ l -> refines (run_steps l b) (plain_steps l c)
      /\ forall st, flushes st -> pipe (run_steps (l ++ [st]) b) = writer (plain_steps l c)).
  { intros Hl. pose proof (steps_refine l b c Hl Hr) as Hr'. split; [done|]. intros st Hst.
    unfold run_steps. rewrite foldl_app. cbn [foldl]. fold (run_steps l b).
    destruct (flush_refines _ _ Hr') as (b' & E & (Hw & _) & Hw0).
    assert (Es : run_step st (run_steps l b) = b').
    { destruct Hst as [->|[->| ->]]; cbn; unfold raw_flush, flush_turn, Client_drop, raw_flush; by rewrite E. }
    rewrite Es, Hw, Hw0. by rewrite app_nil_r. }
  split; [by apply steps_prefix|]. split; [done|]. intros recs st -> Hok Hst.
  destruct Hall as [_ Hfl]. { intros (r & [=] & _)%list_elem_of_fmap. }
  rewrite (Hfl st Hst). destruct Hr as (_ & _ & Ho & _). rewrite plain_sends by done.
  rewrite send_records_framed by done. eexists. split; [done|]. by apply decode_stream_framed.
Qed.
End properties.

(** ** A run *)

Definition test_buffered : Buffered := mkBuffered [] true [].
Definition test_plain : Client := mkClient [] true [].

Lemma buffered_refines_witness :
  pipe (run_steps (map Send [sample_record]) test_buffered) `prefix_of` writer (plain_steps (map Send [sample_record]) test_plain)
  /\ exists stream, pipe (run_steps (map Send [sample_record] ++ [Tick]) test_buffered) = writer test_plain ++ stream
    /\ decode_stream 1 stream = Ret [sample_record].
Proof.
  assert (Hr : refines test_buffered test_plain) by (split_and!; cbn; [done..|lia]).
  destruct (buffered_refines (map Send [sample_record]) test_buffered test_plain Hr) as (Hp & _ & Hd).
  split; [exact Hp|]. apply (Hd [sample_record] Tick); [done| |unfold flushes; auto]. constructor; [apply sample_sendable|constructor].
Defined.
