(* ===== verification/Crates.v ===== *)
(** * The crates and the environment the driver plugin calls

    Interfaces of code that is not in the repository: [lru_cache], [ttl_cache],
    [governor], [iprange], [twox_hash], [hex], the C library and the operating
    system.  A class of operations is followed by a class of the laws the
    theorems use, each a documented behaviour of the crate, and by a concrete
    instance that satisfies them. *)

From S2P Require Import Prelude Bytes.

(** ** [lru_cache::LruCache<Vec<u8>, Vec<u8>>] *)

Class LruCache (C : Type) := {
  lru_new : nat -> C;
  lru_capacity : C -> nat;
  lru_get_mut : bytes -> C -> option bytes * C;
  lru_insert : bytes -> bytes -> C -> C;
}.

(** A look-up returns the value last inserted and changes only the eviction
    order; an insert adds its pair and may evict others, but never adds or
    changes another key. *)
Class LruLaws (C : Type) `{LruCache C} : Prop := {
  lru_capacity_new n : lru_capacity (lru_new n) = n;
  lru_capacity_get k c : lru_capacity (lru_get_mut k c).2 = lru_capacity c;
  lru_capacity_insert k v c : lru_capacity (lru_insert k v c) = lru_capacity c;
  lru_get_new n k : (lru_get_mut k (lru_new n)).1 = None;
  lru_get_get k k' c : (lru_get_mut k (lru_get_mut k' c).2).1 = (lru_get_mut k c).1;
  lru_get_insert_eq k v c : 0 < lru_capacity c -> (lru_get_mut k (lru_insert k v c)).1 = Some v;
  lru_get_insert_val k v w c : (lru_get_mut k (lru_insert k v c)).1 = Some w -> w = v;
  lru_get_insert_ne k k' v w c :
    k <> k' -> (lru_get_mut k' (lru_insert k v c)).1 = Some w -> (lru_get_mut k' c).1 = Some w;
}.

(** ** [ttl_cache::TtlCache<Vec<u8>, V>]

    The reading of the clock is an argument. [ttl_set k v] is a write through the
    reference that [get_mut] returned for [k]. *)

Class TtlCache (V C : Type) := {
  ttl_new : nat -> C;
  ttl_capacity : C -> nat;
  ttl_get_mut : Z -> bytes -> C -> option V;
  ttl_contains_key : Z -> bytes -> C -> bool;
  ttl_set : bytes -> V -> C -> C;
  ttl_insert : Z -> bytes -> V -> Z -> C -> C;
}.

Class TtlLaws (V C : Type) `{TtlCache V C} : Prop := {
  ttl_capacity_new n : ttl_capacity (ttl_new n) = n;
  ttl_capacity_set k v c : ttl_capacity (ttl_set k v c) = ttl_capacity c;
  ttl_capacity_insert now k v d c : ttl_capacity (ttl_insert now k v d c) = ttl_capacity c;
  ttl_contains_get now k c : ttl_contains_key now k c = bool_decide (is_Some (ttl_get_mut now k c));
  ttl_get_new n now k : ttl_get_mut now k (ttl_new n) = None;
  ttl_get_set_eq now k v c : ttl_get_mut now k (ttl_set k v c) = (fun _ => v) <$> ttl_get_mut now k c;
  ttl_get_set_ne now k k' v c : k <> k' -> ttl_get_mut now k' (ttl_set k v c) = ttl_get_mut now k' c;
  ttl_get_insert_alive now now' k v d c :
    0 < ttl_capacity c -> (now' < now + d)%Z ->
    ttl_get_mut now' k (ttl_insert now k v d c) = Some v;
  ttl_get_insert_eq now now' k v w d c :
    ttl_get_mut now' k (ttl_insert now k v d c) = Some w -> w = v;
  ttl_get_insert_ne now now' k k' v w d c :
    k <> k' -> ttl_get_mut now' k' (ttl_insert now k v d c) = Some w -> ttl_get_mut now' k' c = Some w;
}.

(** ** The operating system, the C library and the other crates

    Every call may change the world [W]: a file read, a clock reading or a
    rate-limiter check has its own result at its own time. *)

Inductive limiter := NsLimiter | ArgvLimiter.

Inductive io_error_kind := UnexpectedEof | OtherKind.

(** What [File::open] gives for a readable path: the length [metadata] reports,
    or [None] if [metadata] fails, the bytes a read yields and the error it ends
    with, if any. *)
Record open_file := mkFile {
  file_len : option Z;
  file_content : bytes;
  file_error : option io_error_kind;
}.

Class World (W : Type) := {
  limiter_check : limiter -> W -> bool * W;        (** [limiter.check().is_ok()] *)
  fs_read : bytes -> W -> option bytes * W;        (** [std::fs::read] *)
  fs_open : bytes -> W -> option open_file * W;    (** [File::open] *)
  getpwuid : Z -> W -> option bytes * W;           (** [pw_name], if the user exists *)
  instant_now : W -> Z * W;                        (** a reading of the monotonic clock *)
  unix_time : W -> Z * W;                          (** [SystemTime::now()], in seconds *)
}.

Class PureCrates := {
  xxhash64 : Z -> bytes -> Z;                      (** [XxHash64]: [write_u64], [write], [finish] *)
  hex_encode : bytes -> bytes;
  (** [IpRange::contains]: the networks added, as (address, prefix length) *)
  ipv4_range_contains : list (Z * Z) -> Z -> bool;
  ipv6_range_contains : list (Z * Z) -> Z -> bool;
}.

Class PureCratesLaws `{PureCrates} : Prop := {
  xxhash64_range n b : (0 <= xxhash64 n b < 2 ^ 64)%Z;
  length_hex_encode b : length (hex_encode b) = 2 * length b;
  (** an address is in the range iff it shares a network's prefix *)
  ipv4_contains_law nets a :
    ipv4_range_contains nets a =
      existsb (fun '(net, len) => (Z.shiftr a (32 - len) =? Z.shiftr net (32 - len))%Z) nets;
  ipv6_contains_law nets a :
    ipv6_range_contains nets a =
      existsb (fun '(net, len) => (Z.shiftr a (128 - len) =? Z.shiftr net (128 - len))%Z) nets;
}.

(** ** Instances *)

Section assoc.
Context {V : Type}.

Fixpoint assoc (k : bytes) (l : list (bytes * V)) : option V :=
  match l with
  | [] => None
  | (k', v) :: l' => if decide (k' = k) then Some v else assoc k l'
  end.
Definition remove_key (k : bytes) (l : list (bytes * V)) : list (bytes * V) :=
  filter (fun kv => kv.1 <> k) l.

Lemma assoc_remove_ne k k' l : k <> k' -> assoc k' (remove_key k l) = assoc k' l.
Proof.
  intros Hk. induction l as [|[k1 v] l IH]; [done|]. unfold remove_key in *.
  rewrite filter_cons. cbn. repeat case_decide; cbn; try case_decide; congruence.
Qed.

Lemma assoc_take n k v l : assoc k (take n l) = Some v -> assoc k l = Some v.
Proof.
  revert n. induction l as [|[k1 v1] l IH]; intros [|n]; cbn; try done.
  case_decide; [done|apply IH].
Qed.
End assoc.

Module LruList.
(** Most recently used first. *)
Record t := mk { cap : nat; items : list (bytes * bytes) }.

Definition get_mut (k : bytes) (c : t) : option bytes * t :=
  match assoc k (items c) with
  | Some v => (Some v, mk (cap c) ((k, v) :: remove_key k (items c)))
  | None => (None, c)
  end.
Definition insert (k v : bytes) (c : t) : t :=
  mk (cap c) (take (cap c) ((k, v) :: remove_key k (items c))).
End LruList.

#[export] Instance lru_list : LruCache LruList.t := {
  lru_new n := LruList.mk n [];
  lru_capacity := LruList.cap;
  lru_get_mut := LruList.get_mut;
  lru_insert := LruList.insert;
}.

Lemma lru_list_get k c : (LruList.get_mut k c).1 = assoc k (LruList.items c).
Proof. unfold LruList.get_mut. by destruct (assoc _ _). Qed.

#[export] Instance lru_list_laws : LruLaws LruList.t.
Proof.
  split; cbn [lru_new lru_capacity lru_get_mut lru_insert lru_list]; try done.
  - intros k c. unfold LruList.get_mut. by destruct (assoc _ _).
  - intros k k' c. rewrite !lru_list_get. unfold LruList.get_mut.
    destruct (assoc k' _) eqn:E; [|done]. cbn. case_decide; [by subst|].
    by rewrite assoc_remove_ne.
  - intros k v [[|n] l] Hc; [cbn in Hc; lia|]. rewrite lru_list_get. cbn. by rewrite decide_True.
  - intros k v w [[|n] l]; rewrite lru_list_get; cbn; [done|]. rewrite decide_True by done. congruence.
  - intros k k' v w c Hk. rewrite !lru_list_get. cbn [LruList.insert LruList.items].
    intros E%assoc_take. cbn in E. rewrite decide_False in E by done.
    by rewrite assoc_remove_ne in E.
Qed.

Module TtlList.
(** Each value with the time it expires. *)
Record t (V : Type) := mk { cap : nat; items : list (bytes * (V * Z)) }.
Arguments mk {V}.
Arguments cap {V}.
Arguments items {V}.

Definition get {V} (now : Z) (k : bytes) (c : t V) : option V :=
  match assoc k (items c) with
  | Some (v, e) => if (now <=? e)%Z then Some v else None
  | None => None
  end.
Definition set {V} (k : bytes) (v : V) (c : t V) : t V :=
  mk (cap c) (map (fun '(k', (v', e)) => (k', (if decide (k' = k) then v else v', e))) (items c)).
Definition insert {V} (now : Z) (k : bytes) (v : V) (d : Z) (c : t V) : t V :=
  mk (cap c) (take (cap c) ((k, (v, now + d)%Z) :: remove_key k (items c))).
End TtlList.

#[export] Instance ttl_list {V} : TtlCache V (TtlList.t V) := {
  ttl_new n := TtlList.mk n [];
  ttl_capacity := TtlList.cap;
  ttl_get_mut := TtlList.get;
  ttl_contains_key now k c := bool_decide (is_Some (TtlList.get now k c));
  ttl_set := TtlList.set;
  ttl_insert := TtlList.insert;
}.

Lemma ttl_list_assoc_set {V} k k' (v : V) c :
  assoc k' (TtlList.items (TtlList.set k v c))
  = (fun ve => (if decide (k' = k) then v else ve.1, ve.2)) <$> assoc k' (TtlList.items c).
Proof.
  unfold TtlList.set. cbn. induction (TtlList.items c) as [|[k1 [v1 e1]] l IH]; [done|].
  cbn. destruct (decide (k1 = k')) as [->|]; [done|]. by rewrite IH.
Qed.

#[export] Instance ttl_list_laws {V} : TtlLaws V (TtlList.t V).
Proof.
  split; cbn [ttl_new ttl_capacity ttl_get_mut ttl_contains_key ttl_set ttl_insert ttl_list]; try done.
  - intros now k v c. unfold TtlList.get. rewrite ttl_list_assoc_set.
    destruct (assoc k _) as [[w e]|]; cbn; [|done]. rewrite decide_True by done. by destruct (_ <=? _)%Z.
  - intros now k k' v c Hk. unfold TtlList.get. rewrite ttl_list_assoc_set.
    destruct (assoc k' _) as [[w e]|]; cbn; [|done]. by rewrite decide_False.
  - intros now now' k v d [[|n] l] Hc Hn; [cbn in Hc; lia|]. unfold TtlList.get. cbn.
    rewrite decide_True by done. by rewrite (proj2 (Z.leb_le _ _)) by lia.
  - intros now now' k v w d [[|n] l]; unfold TtlList.get; cbn; [done|].
    rewrite decide_True by done. destruct (_ <=? _)%Z; congruence.
  - intros now now' k k' v w d c Hk. unfold TtlList.get. cbn [TtlList.insert TtlList.items].
    destruct (assoc k' (take _ _)) as [[u e]|] eqn:E; [|done].
    apply assoc_take in E. cbn in E. rewrite decide_False, assoc_remove_ne in E by done.
    by rewrite E.
Qed.

(** A world given by fixed answers and a clock that does not move. *)
Record still_world := mkWorld {
  w_limits : bool;
  w_files : gmap bytes bytes;
  w_users : gmap Z bytes;
  w_now : Z;
  w_unix : Z;
}.

#[export] Instance still_world_world : World still_world := {
  limiter_check _ w := (w_limits w, w);
  fs_read p w := (w_files w !! p, w);
  fs_open p w :=
    ((fun c => mkFile (Some (Z.of_nat (length c))) c None) <$> (w_files w !! p), w);
  getpwuid u w := (w_users w !! u, w);
  instant_now w := (w_now w, w);
  unix_time w := (w_unix w, w);
}.

(** A world in which nothing ever changes: no files, no users, one time. *)
#[export] Instance frozen_world : World unit := {
  limiter_check _ w := (true, w);
  fs_read _ w := (None, w);
  fs_open _ w := (None, w);
  getpwuid _ w := (None, w);
  instant_now w := (100%Z, w);
  unix_time w := (1650000000%Z, w);
}.

Section pure.
Local Open Scope Z_scope.
Definition hex_digit (n : Z) : byte := to_u8 (if n <? 10 then 48 + n else 87 + n).
Definition hex_of (b : bytes) : bytes :=
  concat (map (fun c => [hex_digit (u8 c / 16); hex_digit (u8 c mod 16)]) b).

(** A stand-in for the hash: a sum of the bytes. *)
#[export] Instance pure_crates : PureCrates := {
  xxhash64 n b := wrap_u64 (n + foldr (fun c a => u8 c + a) 0 b);
  hex_encode := hex_of;
  ipv4_range_contains nets a :=
    existsb (fun '(net, len) => Z.shiftr a (32 - len) =? Z.shiftr net (32 - len)) nets;
  ipv6_range_contains nets a :=
    existsb (fun '(net, len) => Z.shiftr a (128 - len) =? Z.shiftr net (128 - len)) nets;
}.

#[export] Instance pure_crates_laws : PureCratesLaws.
Proof.
  split; cbn; try done.
  - intros n b. apply Z.mod_pos_bound. lia.
  - intros b. unfold hex_of. induction b as [|c b IH]; cbn [map concat length]; [done|].
    rewrite length_app, IH. cbn. lia.
Qed.
End pure.
