(* ===== verification/DriverConfig.v ===== *)
(** * Constants of the driver plugin

    [plugins/driver/src/config.rs].  A [Duration] is its number of seconds; a
    network of an [IpRange] is an address and a prefix length. *)

From S2P Require Import Prelude Bytes RustStd.
Local Open Scope Z_scope.

Definition REMOVE_EXE_FILTER_FLAG : bytes := bs "F".
Definition ADD_EXE_FILTER_FLAG : bytes := bs "Y".
Definition REMOVE_ALL_EXE_FILTER_FLAG : bytes := bs "w".
Definition REMOVE_ARGV_FILTER_FLAG : bytes := bs "J".
Definition ADD_ARGV_FILTER_FLAG : bytes := bs "m".
Definition REMOVE_ALL_ARGV_FILTER_FLAG : bytes := bs "u".
Definition PADDING_CONTENT : bytes := bs "elkeid".

Definition CONNECT_FILTER_TIME : Z := 60 * 30.
Definition ARGV_FILTER_SIZE : nat := 1024 * 8.
Definition CONNECT_FILTER_SIZE : nat := 1024 * 16.
Definition EXE_FILTER_TIME : Z := 60 * 10.
Definition EXE_FILTER_QUOTA : Z := 9000.
Definition EXE_FILTER_WINDOW : Z := 60.
Definition EXE_FILTER_SIZE : nat := 32 * 1024.
Definition ARGV_FILTER_TIME : Z := 60.
Definition ARGV_FILTER_QUOTA : Z := 1500.
Definition ARGV_FILTER_WINDOW : Z := 60 * 60.
Definition ARGV_DYN_FILTER_SIZE : nat := 512.
Definition ARGV_DYN_FILTER_QUOTA : Z := 6000.
Definition ARGV_DYN_FILTER_WINDOW : Z := 60.

Definition DNS_SUFFIX_WHITELIST : list bytes := [].
Definition EXE_WHITELIST : list bytes := [].
Definition ARGV_WHITELIST : list bytes := [].
Definition PGID_ARGV_WHITELIST : gset bytes := ∅.
Definition PPID_ARGV_WHITELIST : gset bytes := ∅.

(** 127.0.0.1/8 *)
Definition IPV4_FILTER : list (Z * Z) := [(0x7f000001, 8)].
(** fe80::/10, ::ffff:127.0.0.1/104 and ::1/128 *)
Definition IPV6_FILTER : list (Z * Z) := [(0xfe80 * 2 ^ 112, 10); (0xffff7f000001, 104); (1, 128)].

(** The literals of the two filters denote these addresses. *)
Lemma filter_literals :
  map Some (map fst IPV4_FILTER) = map parse_ipv4 [bs "127.0.0.1"]
  /\ map Some (map fst IPV6_FILTER) = map parse_ipv6 [bs "fe80::"; bs "::ffff:127.0.0.1"; bs "::1"].
Proof. split; reflexivity. Qed.
