(* ===== verification/Schema.v ===== *)
(** * Field names of the records, by data type

    [plugins/driver/src/transformer/schema.rs]: one list per [map.insert], and
    the map built by the inserts in their order. *)

From S2P Require Import Prelude Bytes.

Section schema.
Local Open Scope string_scope.

Definition schema_2 : list bytes := map bs ["uid"; "exe"; "pid"; "ppid"; "pgid"; "tgid"; "sid";
  "comm"; "nodename"; "sessionid"; "pns"; "root_pns"; "flags"; "mode"; "file"; "argv";
  "ppid_argv"; "pgid_argv"; "username"; "pod_name"; "exe_hash"; "pid_tree"].
Definition schema_10 : list bytes := map bs ["uid"; "exe"; "pid"; "ppid"; "pgid"; "tgid";
  "sid"; "comm"; "nodename"; "sessionid"; "pns"; "root_pns"; "mprotect_prot"; "owner_pid";
  "owner_file"; "vm_file"; "pid_tree"; "argv"; "ppid_argv"; "pgid_argv"; "username";
  "pod_name"; "exe_hash"].
Definition schema_35 : list bytes := map bs ["uid"; "exe"; "pid"; "ppid"; "pgid"; "tgid";
  "sid"; "comm"; "nodename"; "sessionid"; "pns"; "root_pns"; "sec"; "nsec"; "argv";
  "ppid_argv"; "pgid_argv"; "username"; "pod_name"; "exe_hash"; "pid_tree"].
Definition schema_42 : list bytes := map bs ["uid"; "exe"; "pid"; "ppid"; "pgid"; "tgid";
  "sid"; "comm"; "nodename"; "sessionid"; "pns"; "root_pns"; "sa_family"; "dip"; "dport";
  "sip"; "sport"; "res"; "argv"; "ppid_argv"; "pgid_argv"; "username"; "pod_name"; "exe_hash";
  "pid_tree"].
Definition schema_43 : list bytes := map bs ["uid"; "exe"; "pid"; "ppid"; "pgid"; "tgid";
  "sid"; "comm"; "nodename"; "sessionid"; "pns"; "root_pns"; "sa_family"; "dip"; "dport";
  "sip"; "sport"; "res"; "argv"; "ppid_argv"; "pgid_argv"; "username"; "pod_name"; "exe_hash";
  "pid_tree"].
Definition schema_49 : list bytes := map bs ["uid"; "exe"; "pid"; "ppid"; "pgid"; "tgid";
  "sid"; "comm"; "nodename"; "sessionid"; "pns"; "root_pns"; "sa_family"; "sip"; "sport";
  "res"; "argv"; "ppid_argv"; "pgid_argv"; "username"; "pod_name"; "exe_hash"; "pid_tree"].
Definition schema_59 : list bytes := map bs ["uid"; "exe"; "pid"; "ppid"; "pgid"; "tgid";
  "sid"; "comm"; "nodename"; "sessionid"; "pns"; "root_pns"; "argv"; "run_path"; "stdin";
  "stdout"; "dip"; "dport"; "sip"; "sport"; "sa_family"; "pid_tree"; "tty"; "socket_pid";
  "ssh"; "ld_preload"; "res"; "socket_argv"; "ppid_argv"; "pgid_argv"; "username"; "pod_name";
  "exe_hash"].
Definition schema_60 : list bytes := map bs ["uid"; "exe"; "pid"; "ppid"; "pgid"; "tgid";
  "sid"; "comm"; "nodename"; "sessionid"; "pns"; "root_pns"; "argv"; "ppid_argv"; "pgid_argv";
  "username"; "pod_name"; "exe_hash"; "pid_tree"].
Definition schema_62 : list bytes := map bs ["uid"; "exe"; "pid"; "ppid"; "pgid"; "tgid";
  "sid"; "comm"; "nodename"; "sessionid"; "pns"; "root_pns"; "target_pid"; "sig"; "argv";
  "ppid_argv"; "pgid_argv"; "username"; "pod_name"; "exe_hash"; "pid_tree"; "target_argv"].
Definition schema_82 : list bytes := map bs ["uid"; "exe"; "pid"; "ppid"; "pgid"; "tgid";
  "sid"; "comm"; "nodename"; "sessionid"; "pns"; "root_pns"; "old_name"; "new_name"; "sb_id";
  "argv"; "ppid_argv"; "pgid_argv"; "username"; "pod_name"; "exe_hash"; "pid_tree"].
Definition schema_86 : list bytes := map bs ["uid"; "exe"; "pid"; "ppid"; "pgid"; "tgid";
  "sid"; "comm"; "nodename"; "sessionid"; "pns"; "root_pns"; "old_name"; "new_name"; "sb_id";
  "argv"; "ppid_argv"; "pgid_argv"; "username"; "pod_name"; "exe_hash"; "pid_tree"].
Definition schema_101 : list bytes := map bs ["uid"; "exe"; "pid"; "ppid"; "pgid"; "tgid";
  "sid"; "comm"; "nodename"; "sessionid"; "pns"; "root_pns"; "ptrace_request"; "target_pid";
  "addr"; "data"; "pid_tree"; "argv"; "ppid_argv"; "pgid_argv"; "username"; "pod_name";
  "exe_hash"; "target_argv"].
Definition schema_112 : list bytes := map bs ["uid"; "exe"; "pid"; "ppid"; "pgid"; "tgid";
  "sid"; "comm"; "nodename"; "sessionid"; "pns"; "root_pns"; "argv"; "ppid_argv"; "pgid_argv";
  "username"; "pod_name"; "exe_hash"; "pid_tree"].
Definition schema_157 : list bytes := map bs ["uid"; "exe"; "pid"; "ppid"; "pgid"; "tgid";
  "sid"; "comm"; "nodename"; "sessionid"; "pns"; "root_pns"; "option"; "new_name"; "argv";
  "ppid_argv"; "pgid_argv"; "username"; "pod_name"; "exe_hash"; "pid_tree"].
Definition schema_165 : list bytes := map bs ["uid"; "exe"; "pid"; "ppid"; "pgid"; "tgid";
  "sid"; "comm"; "nodename"; "sessionid"; "pns"; "root_pns"; "pid_tree"; "dev"; "file_path";
  "fstype"; "flags"; "argv"; "ppid_argv"; "pgid_argv"; "username"; "pod_name"; "exe_hash"].
Definition schema_200 : list bytes := map bs ["uid"; "exe"; "pid"; "ppid"; "pgid"; "tgid";
  "sid"; "comm"; "nodename"; "sessionid"; "pns"; "root_pns"; "target_pid"; "sig"; "argv";
  "ppid_argv"; "pgid_argv"; "username"; "pod_name"; "exe_hash"; "pid_tree"].
Definition schema_231 : list bytes := map bs ["uid"; "exe"; "pid"; "ppid"; "pgid"; "tgid";
  "sid"; "comm"; "nodename"; "sessionid"; "pns"; "root_pns"; "argv"; "ppid_argv"; "pgid_argv";
  "username"; "pod_name"; "exe_hash"; "pid_tree"].
Definition schema_356 : list bytes := map bs ["uid"; "exe"; "pid"; "ppid"; "pgid"; "tgid";
  "sid"; "comm"; "nodename"; "sessionid"; "pns"; "root_pns"; "fd_name"; "flags"; "argv";
  "ppid_argv"; "pgid_argv"; "username"; "pod_name"; "exe_hash"; "pid_tree"].
Definition schema_601 : list bytes := map bs ["uid"; "exe"; "pid"; "ppid"; "pgid"; "tgid";
  "sid"; "comm"; "nodename"; "sessionid"; "pns"; "root_pns"; "query"; "sa_family"; "dip";
  "dport"; "sip"; "sport"; "opcode"; "rcode"; "argv"; "ppid_argv"; "pgid_argv"; "username";
  "pod_name"; "exe_hash"; "pid_tree"].
Definition schema_602 : list bytes := map bs ["uid"; "exe"; "pid"; "ppid"; "pgid"; "tgid";
  "sid"; "comm"; "nodename"; "sessionid"; "pns"; "root_pns"; "file_path"; "dip"; "dport";
  "sip"; "sport"; "sa_family"; "socket_pid"; "sb_id"; "argv"; "ppid_argv"; "pgid_argv";
  "username"; "pod_name"; "exe_hash"; "pid_tree"; "socket_argv"].
Definition schema_603 : list bytes := map bs ["uid"; "exe"; "pid"; "ppid"; "pgid"; "tgid";
  "sid"; "comm"; "nodename"; "sessionid"; "pns"; "root_pns"; "ko_file"; "pid_tree"; "run_path";
  "argv"; "ppid_argv"; "pgid_argv"; "username"; "pod_name"; "exe_hash"].
Definition schema_604 : list bytes := map bs ["uid"; "exe"; "pid"; "ppid"; "pgid"; "tgid";
  "sid"; "comm"; "nodename"; "sessionid"; "pns"; "root_pns"; "pid_tree"; "old_uid"; "res";
  "argv"; "ppid_argv"; "pgid_argv"; "username"; "pod_name"; "exe_hash"; "old_username"].
Definition schema_605 : list bytes := map bs ["uid"; "exe"; "pid"; "ppid"; "pgid"; "tgid";
  "sid"; "comm"; "nodename"; "sessionid"; "pns"; "root_pns"; "file"; "argv"; "ppid_argv";
  "pgid_argv"; "username"; "pod_name"; "exe_hash"; "pid_tree"].
Definition schema_606 : list bytes := map bs ["uid"; "exe"; "pid"; "ppid"; "pgid"; "tgid";
  "sid"; "comm"; "nodename"; "sessionid"; "pns"; "root_pns"; "file"; "argv"; "ppid_argv";
  "pgid_argv"; "username"; "pod_name"; "exe_hash"; "pid_tree"].
Definition schema_607 : list bytes := map bs ["exe"; "argv"; "wait"].
Definition schema_608 : list bytes := map bs ["uid"; "exe"; "pid"; "ppid"; "pgid"; "tgid";
  "sid"; "comm"; "nodename"; "sessionid"; "pns"; "root_pns"; "file"; "sb_id"; "argv";
  "ppid_argv"; "pgid_argv"; "username"; "pod_name"; "exe_hash"; "pid_tree"].
Definition schema_609 : list bytes := map bs ["uid"; "exe"; "pid"; "ppid"; "pgid"; "tgid";
  "sid"; "comm"; "nodename"; "sessionid"; "pns"; "root_pns"; "file"; "sb_id"; "argv";
  "ppid_argv"; "pgid_argv"; "username"; "pod_name"; "exe_hash"; "pid_tree"].
Definition schema_610 : list bytes := map bs ["uid"; "exe"; "pid"; "ppid"; "pgid"; "tgid";
  "sid"; "comm"; "nodename"; "sessionid"; "pns"; "root_pns"; "product_info"; "manufacturer";
  "serial"; "action"; "argv"; "ppid_argv"; "pgid_argv"; "username"; "pod_name"; "exe_hash";
  "pid_tree"].
Definition schema_611 : list bytes := map bs ["uid"; "exe"; "pid"; "ppid"; "pgid"; "tgid";
  "sid"; "comm"; "nodename"; "sessionid"; "pns"; "root_pns"; "dpid"; "pid_tree"; "dcred";
  "cred"; "argv"; "ppid_argv"; "pgid_argv"; "username"; "pod_name"; "exe_hash"; "pid_tree";
  "dpid_argv"].
Definition schema_700 : list bytes := map bs ["module_name"].
Definition schema_701 : list bytes := map bs ["module_name"; "syscall_number"].
Definition schema_702 : list bytes := map bs ["module_name"].
Definition schema_703 : list bytes := map bs ["module_name"; "interrupt_number"].

Definition schema_inserts : list (Z * list bytes) :=
  [(2%Z, schema_2); (10%Z, schema_10); (35%Z, schema_35); (42%Z, schema_42); (43%Z, schema_43);
   (49%Z, schema_49); (59%Z, schema_59); (60%Z, schema_60); (62%Z, schema_62);
   (82%Z, schema_82); (86%Z, schema_86); (101%Z, schema_101); (112%Z, schema_112);
   (157%Z, schema_157); (165%Z, schema_165); (200%Z, schema_200); (231%Z, schema_231);
   (356%Z, schema_356); (601%Z, schema_601); (602%Z, schema_602); (603%Z, schema_603);
   (604%Z, schema_604); (605%Z, schema_605); (606%Z, schema_606); (607%Z, schema_607);
   (608%Z, schema_608); (609%Z, schema_609); (610%Z, schema_610); (611%Z, schema_611);
   (700%Z, schema_700); (701%Z, schema_701); (702%Z, schema_702); (703%Z, schema_703)].

Definition SCHEMA : gmap Z (list bytes) :=
  foldl (fun map '(data_type, keys) => <[data_type := keys]> map) ∅ schema_inserts.
End schema.
