(* ===== verification/Cache.v ===== *)
(** * The caches of the transformer ([plugins/driver/src/transformer/cache.rs])

    [NsCache], [ArgvCache], [HashCache] and [UserCache] look a value up in an LRU
    cache and, on a miss, compute it from [/proc], a file or the user database.
    The LRU cache, the rate limiters and the operating system are the
    interfaces of [Crates]; a call takes the cache and the world and gives both
    back. *)

From S2P Require Import Prelude Bytes RustStd Crates.

(** ** The computations on what was read *)

(** [u8::is_ascii_whitespace] *)
Definition is_ascii_whitespace (c : byte) : bool :=
  bool_decide (u8 c ∈ [32; 9; 10; 12; 13]%Z).

(** [v.iter().rposition(..)] *)
Fixpoint rposition (f : byte -> bool) (v : bytes) : option nat :=
  match v with
  | [] => None
  | c :: v' =>
      match rposition f v' with
      | Some i => Some (S i)
      | None => if f c then Some 0 else None
      end
  end.

(** [if *v == b'\0' { *v = b' ' }] for every byte *)
Definition nul_to_space (c : byte) : byte := if bool_decide (c = x00) then x20 else c.

(** The command line as it is kept: at most 256 bytes, NULs as spaces, cut
    behind the last byte that is not white space. *)
Definition trim_cmdline (v : bytes) : bytes :=
  let v := map nul_to_space (take 256 v) in
  let offset := default 0 (rposition (fun x => negb (is_ascii_whitespace x)) v) in
  take (offset + 1) v.

(** The loop over the environment: the first non-empty pod name found. *)
Fixpoint find_pod_name (envs : list bytes) (pod_name : bytes) : bytes :=
  match envs with
  | [] => pod_name
  | env :: envs' =>
      let pod_name :=
        match split_on "=" env with
        | env_name :: env_value :: _ =>
            if bool_decide (env_name = bs "MY_POD_NAME" \/ env_name = bs "POD_NAME")
            then pod_name ++ env_value else pod_name
        | _ => pod_name
        end in
      if decide (length pod_name <> 0) then pod_name else find_pod_name envs' pod_name
  end.

(** [u64::to_be_bytes] *)
Definition to_be_bytes (n : Z) : bytes :=
  map (fun i => to_u8 (Z.shiftr n (8 * i))) [7; 6; 5; 4; 3; 2; 1; 0]%Z.

Definition proc_path (pid : Z) (file : string) : bytes := bs "/proc/" ++ show_u64 pid ++ bs file.

(** ** The caches *)

Section caches.
Context {C W : Type} `{!LruCache C, !World W, !PureCrates}.

Record NsCache := mkNs { ns_lru : C }.
Record ArgvCache := mkArgv { argv_lru : C }.
Record HashCache := mkHash { hash_lru : C; hash_buffer : bytes }.
Record UserCache := mkUser { user_lru : C }.

Definition NsCache_new (cap : nat) : NsCache := mkNs (lru_new cap).
Definition ArgvCache_new (cap : nat) : ArgvCache := mkArgv (lru_new cap).
Definition HashCache_new (cap : nat) : HashCache := mkHash (lru_new cap) [].
Definition UserCache_new (cap : nat) : UserCache := mkUser (lru_new cap).

Definition NsCache_put (key value : bytes) (self : NsCache) : NsCache :=
  mkNs (lru_insert key value (ns_lru self)).
Definition ArgvCache_put (key value : bytes) (self : ArgvCache) : ArgvCache :=
  mkArgv (lru_insert key value (argv_lru self)).
Definition HashCache_put (key value : bytes) (self : HashCache) : HashCache :=
  mkHash (lru_insert key value (hash_lru self)) (hash_buffer self).
Definition UserCache_put (key value : bytes) (self : UserCache) : UserCache :=
  mkUser (lru_insert key value (user_lru self)).

Definition NsCache_get (pns pid : bytes) (self : NsCache) (w : W) : bytes * (NsCache * W) :=
  match parse_usize (from_utf8_or_default pid) with
  | None => (bs "-3", (self, w))
  | Some pid =>
      let (hit, lru) := lru_get_mut pns (ns_lru self) in
      let self := mkNs lru in
      match hit with
      | Some v => (v, (self, w))
      | None =>
          let (allowed, w) := limiter_check NsLimiter w in
          if allowed then
            let (contents, w) := fs_read (proc_path pid "/environ") w in
            match contents with
            | None => (bs "-3", (self, w))
            | Some v =>
                let pod_name := find_pod_name (split_on x00 v) [] in
                if decide (length pod_name = 0) then (pod_name, (self, w))
                else (pod_name, (NsCache_put pns pod_name self, w))
            end
          else (bs "-4", (self, w))
      end
  end.

Definition ArgvCache_get (pid : bytes) (self : ArgvCache) (w : W) : bytes * (ArgvCache * W) :=
  match parse_usize (from_utf8_or_default pid) with
  | None => (bs "-3", (self, w))
  | Some pidnum =>
      let (hit, lru) := lru_get_mut pid (argv_lru self) in
      let self := mkArgv lru in
      match hit with
      | Some v => (v, (self, w))
      | None =>
          let (allowed, w) := limiter_check ArgvLimiter w in
          if allowed then
            let (contents, w) := fs_read (proc_path pidnum "/cmdline") w in
            match contents with
            | None => (bs "-3", (self, w))
            | Some v =>
                let cmdline := trim_cmdline v in
                (cmdline, (ArgvCache_put pid cmdline self, w))
            end
          else (bs "-4", (self, w))
      end
  end.

(** [file.take(32 * 1024).read_to_end(&mut self.buffer)]: the bytes read, and the
    error if one came before the limit was reached. *)
Definition read_limited (limit : nat) (f : open_file) : bytes * option io_error_kind :=
  (take limit (file_content f),
   if decide (length (file_content f) < limit) then file_error f else None).

Definition HashCache_get (exe : bytes) (self : HashCache) (w : W) : bytes * (HashCache * W) :=
  if decide (1024 < length exe) then (bs "-3", (self, w))
  else
    let (hit, lru) := lru_get_mut exe (hash_lru self) in
    let self := mkHash lru (hash_buffer self) in
    match hit with
    | Some v => (v, (self, w))
    | None =>
        if utf8_valid exe then
          let (file, w) := fs_open exe w in
          match file with
          | None => (bs "-3", (self, w))
          | Some file =>
              match file_len file with
              | None => (bs "-3", (self, w))
              | Some len =>
                  let (buffer, err) := read_limited (32 * 1024) file in
                  let self := mkHash lru buffer in
                  match err with
                  | Some OtherKind => (bs "-3", (self, w))
                  | _ =>
                      let hash := hex_encode (to_be_bytes (xxhash64 len buffer)) in
                      (hash, (HashCache_put exe hash self, w))
                  end
              end
          end
        else (bs "-3", (self, w))
    end.

Definition UserCache_get (uid_s : bytes) (self : UserCache) (w : W) : bytes * (UserCache * W) :=
  let (hit, lru) := lru_get_mut uid_s (user_lru self) in
  let self := mkUser lru in
  match hit with
  | Some v => (v, (self, w))
  | None =>
      match parse_u32 (from_utf8_or_default uid_s) with
      | None => (bs "-3", (self, w))
      | Some uid =>
          let (rt, w) := getpwuid uid w in
          match rt with
          | None => (bs "-3", (self, w))
          | Some name => (name, (UserCache_put uid_s name self, w))
          end
      end
  end.
End caches.

Arguments NsCache : clear implicits.
Arguments ArgvCache : clear implicits.
Arguments HashCache : clear implicits.
Arguments UserCache : clear implicits.

(** ** What the caches promise the transformer

    A look-up that consults the cache has a key; a hit gives the cached value
    and does not touch the world; a miss adds at most the value it returns. *)

Definition lru_peek {C} `{!LruCache C} (k : bytes) (c : C) : option bytes := (lru_get_mut k c).1.

Class Memo (W K S : Type) := {
  memo_get : K -> S -> W -> bytes * (S * W);
  memo_peek : bytes -> S -> option bytes;
  memo_key : K -> option bytes;
}.

Class MemoLaws (W K S : Type) `{!Memo W K S} : Prop := {
  memo_bypass k s w : memo_key k = None -> memo_get k s w = (bs "-3", (s, w));
  memo_hit k x s w v :
    memo_key k = Some x -> memo_peek x s = Some v ->
    exists s', memo_get k s w = (v, (s', w)) /\ forall y, memo_peek y s' = memo_peek y s;
  memo_miss k x s w y u :
    memo_key k = Some x -> memo_peek x s = None ->
    memo_peek y (memo_get k s w).2.1 = Some u ->
    memo_peek y s = Some u \/ (y = x /\ u = (memo_get k s w).1);
}.

Section memo.
Context {W K S : Type} `{MemoLaws W K S}.

(** A sequence of look-ups, with what each returned. *)
Fixpoint memo_run (ks : list K) (s : S) (w : W) : list (K * bytes) * (S * W) :=
  match ks with
  | [] => ([], (s, w))
  | k :: ks' =>
      let '(v, (s, w)) := memo_get k s w in
      let '(rs, sw) := memo_run ks' s w in ((k, v) :: rs, sw)
  end.

Lemma memo_get_provenance k s w y u :
  memo_peek y (memo_get k s w).2.1 = Some u ->
  memo_peek y s = Some u \/ (memo_key k = Some y /\ u = (memo_get k s w).1).
Proof.
  destruct (memo_key k) as [x|] eqn:Ek; [|rewrite memo_bypass by done; eauto].
  destruct (memo_peek x s) as [v|] eqn:Ep.
  - destruct (memo_hit k x s w v Ek Ep) as (s' & -> & Hs'). cbn. rewrite Hs'. eauto.
  - intros [Hy|[-> Hy]]%(memo_miss k x); eauto.
Qed.

Lemma memo_run_provenance ks s w y u :
  memo_peek y (memo_run ks s w).2.1 = Some u ->
  memo_peek y s = Some u \/ exists k, (k, u) ∈ (memo_run ks s w).1 /\ memo_key k = Some y.
Proof.
  revert s w. induction ks as [|k ks IH]; intros s w; cbn [memo_run]; [eauto|].
  pose proof (memo_get_provenance k s w y u) as Hget.
  destruct (memo_get k s w) as [v [s' w']]. cbn [fst snd] in Hget. specialize (IH s' w').
  destruct (memo_run ks s' w') as [rs sw]. cbn [fst snd] in *. intros [Hu|(k' & Hk & E)]%IH.
  - destruct (Hget Hu) as [?|[Ek ->]]; [eauto|]. right. exists k. split; [left|done].
  - right. exists k'. split; [by right|done].
Qed.
End memo.

(** ** The four caches keep it *)

Section instances.
Context {C W : Type} `{!LruCache C, !LruLaws C, !World W, !PureCrates}.

Lemma lru_peek_get k k' c : lru_peek k (lru_get_mut k' c).2 = lru_peek k c.
Proof. apply lru_get_get. Qed.

Lemma lru_peek_insert k v c y u :
  lru_peek y (lru_insert k v c) = Some u -> lru_peek y c = Some u \/ (y = k /\ u = v).
Proof.
  unfold lru_peek. intros Hu. destruct (decide (y = k)) as [->|Hne].
  - right. split; [done|]. by eapply lru_get_insert_val.
  - left. eapply lru_get_insert_ne; [|exact Hu]. done.
Qed.

#[export] Instance ns_memo : Memo W (bytes * bytes) (NsCache C) := {
  memo_get k := NsCache_get k.1 k.2;
  memo_peek y s := lru_peek y (ns_lru s);
  memo_key k := (fun _ => k.1) <$> parse_usize (from_utf8_or_default k.2);
}.
#[export] Instance argv_memo : Memo W bytes (ArgvCache C) := {
  memo_get := ArgvCache_get;
  memo_peek y s := lru_peek y (argv_lru s);
  memo_key k := (fun _ => k) <$> parse_usize (from_utf8_or_default k);
}.
#[export] Instance hash_memo : Memo W bytes (HashCache C) := {
  memo_get := HashCache_get;
  memo_peek y s := lru_peek y (hash_lru s);
  memo_key k := if decide (1024 < length k) then None else Some k;
}.
#[export] Instance user_memo : Memo W bytes (UserCache C) := {
  memo_get := UserCache_get;
  memo_peek y s := lru_peek y (user_lru s);
  memo_key k := Some k;
}.

(** Run the look-up of [k] in [c], whose result [Hp] gives; [E] says the cache
    after it has the same contents. *)
Ltac lookup_in k c Hp E :=
  let lru := fresh "lru" in let hit := fresh "hit" in
  pose proof (fun y => lru_peek_get y k c) as E;
  unfold lru_peek in Hp, E |- *; destruct (lru_get_mut k c) as [hit lru];
  cbn [fst snd] in E, Hp; subst hit.

(** Nothing was inserted, or the value returned was. *)
Ltac miss E :=
  repeat (case_match; cbn [fst snd ns_lru argv_lru hash_lru user_lru]);
  intros Hu; first [left; by rewrite <- E
        | apply lru_peek_insert in Hu as [Hu|[-> ->]]; [left; by rewrite <- E|by right]].

#[export] Instance ns_memo_laws : MemoLaws W (bytes * bytes) (NsCache C).
Proof.
  split; cbn [memo_get memo_peek memo_key ns_memo]; unfold NsCache_get, NsCache_put.
  - intros [pns pid] s w Hk. cbn in *. by destruct (parse_usize _).
  - intros [pns pid] x s w v Hk Hp. cbn in *. destruct (parse_usize _); [|done]. injection Hk as ->.
    lookup_in x (ns_lru s) Hp E. eauto.
  - intros [pns pid] x s w y u Hk Hp. cbn in *. destruct (parse_usize _); [|done]. injection Hk as ->.
    lookup_in x (ns_lru s) Hp E. miss E.
Qed.

#[export] Instance argv_memo_laws : MemoLaws W bytes (ArgvCache C).
Proof.
  split; cbn [memo_get memo_peek memo_key argv_memo]; unfold ArgvCache_get, ArgvCache_put.
  - intros pid s w Hk. by destruct (parse_usize _).
  - intros pid x s w v Hk Hp. destruct (parse_usize _); [|done]. injection Hk as ->.
    lookup_in x (argv_lru s) Hp E. eauto.
  - intros pid x s w y u Hk Hp. destruct (parse_usize _); [|done]. injection Hk as ->.
    lookup_in x (argv_lru s) Hp E. miss E.
Qed.

#[export] Instance hash_memo_laws : MemoLaws W bytes (HashCache C).
Proof.
  split; cbn [memo_get memo_peek memo_key hash_memo]; unfold HashCache_get, HashCache_put.
  - intros exe s w Hk. by case_decide.
  - intros exe x s w v Hk Hp. case_decide; [done|]. injection Hk as ->.
    lookup_in x (hash_lru s) Hp E. eauto.
  - intros exe x s w y u Hk Hp. case_decide; [done|]. injection Hk as ->.
    lookup_in x (hash_lru s) Hp E. miss E.
Qed.

#[export] Instance user_memo_laws : MemoLaws W bytes (UserCache C).
Proof.
  split; cbn [memo_get memo_peek memo_key user_memo]; unfold UserCache_get, UserCache_put.
  - done.
  - intros uid x s w v [= ->] Hp. lookup_in x (user_lru s) Hp E. eauto.
  - intros uid x s w y u [= ->] Hp. lookup_in x (user_lru s) Hp E. miss E.
Qed.
End instances.

(** ** The contents of the caches *)

Section contents.
Context {C W : Type} `{!LruCache C, !LruLaws C, !World W, !PureCrates}.

Lemma lru_peek_new n k : lru_peek k (lru_new n : C) = None.
Proof. apply lru_get_new. Qed.

(** The calls the transformer makes on its argv cache. *)
Inductive argv_call := GetArgv (pid : bytes) | PutArgv (pid argv : bytes).

Definition argv_step (op : argv_call) (s : ArgvCache C) (w : W) : ArgvCache C * W :=
  match op with
  | GetArgv pid => (ArgvCache_get pid s w).2
  | PutArgv pid argv => (ArgvCache_put pid argv s, w)
  end.

Fixpoint argv_calls (ops : list argv_call) (s : ArgvCache C) (w : W) : ArgvCache C * W :=
  match ops with
  | [] => (s, w)
  | op :: ops' => let (s, w) := argv_step op s w in argv_calls ops' s w
  end.

(** The command line of process [pid] as a read of [/proc] gives it. *)
Definition proc_cmdline (pid v : bytes) : Prop :=
  exists pidnum w w' contents,
    parse_usize (from_utf8_or_default pid) = Some pidnum
    /\ fs_read (proc_path pidnum "/cmdline") w = (Some contents, w')
    /\ v = trim_cmdline contents.

Lemma ArgvCache_get_contents pid s w y u :
  lru_peek y (argv_lru (ArgvCache_get pid s w).2.1) = Some u ->
  lru_peek y (argv_lru s) = Some u \/ (y = pid /\ proc_cmdline pid u).
Proof.
  unfold ArgvCache_get. destruct (parse_usize _) as [n|] eqn:En; [|by left].
  pose proof (fun y => lru_peek_get y pid (argv_lru s)) as E.
  destruct (lru_get_mut pid (argv_lru s)) as [[v|] lru]; cbn [fst snd] in *.
  { rewrite E. by left. }
  destruct (limiter_check ArgvLimiter w) as [[] w1]; cbn [fst snd argv_lru]; [|rewrite E; by left].
  destruct (fs_read (proc_path n "/cmdline") w1) as [[c|] w2] eqn:Ef; cbn [fst snd argv_lru ArgvCache_put];
    [|rewrite E; by left].
  intros [Hu|[-> ->]]%lru_peek_insert; [rewrite E in Hu; by left|].
  right. split; [done|]. by exists n, w1, w2, c.
Qed.

Lemma argv_calls_contents ops s w y u :
  lru_peek y (argv_lru (argv_calls ops s w).1) = Some u ->
  lru_peek y (argv_lru s) = Some u \/ PutArgv y u ∈ ops \/ (GetArgv y ∈ ops /\ proc_cmdline y u).
Proof.
  revert s w. induction ops as [|op ops IH]; intros s w; cbn [argv_calls]; [by left|].
  destruct (argv_step op s w) as [s' w'] eqn:Es. intros [Hu|[Hu|[Hu Hp]]]%IH.
  - destruct op as [pid|pid argv]; cbn [argv_step] in Es.
    + pose proof (ArgvCache_get_contents pid s w y u) as Hc. rewrite Es in Hc.
      destruct (Hc Hu) as [?|[-> ?]]; [by left|]. do 2 right. split; [left|done].
    + injection Es as <- <-. apply lru_peek_insert in Hu as [?|[-> ->]]; [by left|].
      right. left. left.
  - right. left. by right.
  - do 2 right. split; [by right|done].
Qed.

Definition hash_ok (v : bytes) : Prop := length v = 16.

Lemma HashCache_get_ok exe s w :
  PureCratesLaws -> (forall y u, lru_peek y (hash_lru s) = Some u -> hash_ok u) ->
  let r := HashCache_get exe s w in
  (r.1 = bs "-3" \/ hash_ok r.1) /\ (forall y u, lru_peek y (hash_lru r.2.1) = Some u -> hash_ok u).
Proof.
  intros L Hs r. unfold r, HashCache_get. case_decide; [split; [by left|done]|].
  pose proof (fun y => lru_peek_get y exe (hash_lru s)) as E.
  pose proof (Hs exe) as Hx. unfold lru_peek in Hx at 1.
  destruct (lru_get_mut exe (hash_lru s)) as [[v|] lru]; cbn [fst snd] in *.
  { split; [right; auto|]. intros y u. rewrite E. apply Hs. }
  assert (Hlru : forall y u, lru_peek y lru = Some u -> hash_ok u) by (intros y u; rewrite E; apply Hs).
  destruct (utf8_valid exe); [|split; [by left|done]].
  destruct (fs_open exe w) as [[f|] w1]; [|split; [by left|done]].
  destruct (file_len f) as [len|]; [|split; [by left|done]].
  destruct (read_limited _ f) as [buf err].
  assert (Hh : hash_ok (hex_encode (to_be_bytes (xxhash64 len buf))))
    by (unfold hash_ok; by rewrite length_hex_encode).
  assert (Hput : forall y u, lru_peek y (lru_insert exe (hex_encode (to_be_bytes (xxhash64 len buf))) lru)
    = Some u -> hash_ok u) by (intros y u [?|[_ ->]]%lru_peek_insert; eauto).
  destruct err as [[]|]; cbn [fst snd hash_lru HashCache_put]; split; auto.
Qed.

Lemma hash_run_ok ks s w :
  PureCratesLaws -> (forall y u, lru_peek y (hash_lru s) = Some u -> hash_ok u) ->
  Forall (fun r => r.2 = bs "-3" \/ hash_ok r.2) (memo_run ks s w : list (bytes * bytes) * _).1.
Proof.
  intros L. revert s w. induction ks as [|k ks IH]; intros s w Hs; [constructor|].
  cbn [memo_run memo_get hash_memo].
  destruct (HashCache_get_ok k s w L Hs) as [Hr Hs'].
  destruct (HashCache_get k s w) as [v [s' w']]. cbn [fst snd] in *. specialize (IH s' w' Hs').
  destruct (memo_run ks s' w') as [rs sw]. constructor; auto.
Qed.
End contents.

(** ** Trimming *)

Lemma rposition_spec f v :
  match rposition f v with
  | Some i => exists a c b, v = a ++ c :: b /\ length a = i /\ f c = true /\ forallb (negb ∘ f) b = true
  | None => forallb (negb ∘ f) v = true
  end.
Proof.
  induction v as [|c v IH]; [done|]. cbn [rposition].
  destruct (rposition f v) as [i|].
  - destruct IH as (a & c' & b & -> & <- & Hc & Hb). by exists (c :: a), c', b.
  - destruct (f c) eqn:Ec; [by exists [], c, v|]. cbn. by rewrite Ec.
Qed.

Lemma nul_to_space_ne v : x00 ∉ map nul_to_space v.
Proof.
  intros (c & E & _)%list_elem_of_In%in_map_iff. unfold nul_to_space in E.
  by case_bool_decide.
Qed.

(** ** The pod name *)

(** The value an environment entry gives the pod name. *)
Definition pod_value (env : bytes) : option bytes :=
  match split_on "=" env with
  | env_name :: env_value :: _ =>
      if decide (env_name = bs "MY_POD_NAME" \/ env_name = bs "POD_NAME") then Some env_value else None
  | _ => None
  end.

Lemma find_pod_name_first envs :
  find_pod_name envs [] = default [] (head (filter (fun v => v <> []) (omap pod_value envs))).
Proof.
  induction envs as [|env envs IH]; [done|]. cbn [find_pod_name omap list_omap]. unfold pod_value at 1.
  destruct (split_on "=" env) as [|name [|value rest]]; cbn [length]; [by rewrite decide_False by lia..|].
  destruct (decide (name = bs "MY_POD_NAME" \/ name = bs "POD_NAME")) as [Hn|Hn];
    [rewrite bool_decide_true by done|rewrite bool_decide_false by done].
  - cbn [app]. rewrite (filter_cons _ value).
    destruct value; [rewrite !decide_False by (cbn; lia || auto); done|].
    by rewrite !decide_True by (cbn; lia || done).
  - by rewrite decide_False by (cbn; lia).
Qed.

(** ** Properties *)

Section properties.
Context {C W : Type} `{!LruCache C, !LruLaws C, !World W, !PureCrates}.

(** A hit in any of the four caches returns the cached value, performs no read,
    no user look-up and no rate-limiter check (the world is untouched), and
    keeps every other cached value. *)
Theorem cache_hit_is_free (w : W) pns pid argv_pid exe uid (ns : NsCache C) (ar : ArgvCache C)
    (ha : HashCache C) (us : UserCache C) v1 v2 v3 v4 :
  is_Some (parse_usize (from_utf8_or_default pid)) ->
  is_Some (parse_usize (from_utf8_or_default argv_pid)) -> length exe <= 1024 ->
  lru_peek pns (ns_lru ns) = Some v1 -> lru_peek argv_pid (argv_lru ar) = Some v2 ->
  lru_peek exe (hash_lru ha) = Some v3 -> lru_peek uid (user_lru us) = Some v4 ->
  (exists ns', NsCache_get pns pid ns w = (v1, (ns', w))
     /\ forall y, lru_peek y (ns_lru ns') = lru_peek y (ns_lru ns))
  /\ (exists ar', ArgvCache_get argv_pid ar w = (v2, (ar', w))
     /\ forall y, lru_peek y (argv_lru ar') = lru_peek y (argv_lru ar))
  /\ (exists ha', HashCache_get exe ha w = (v3, (ha', w))
     /\ forall y, lru_peek y (hash_lru ha') = lru_peek y (hash_lru ha))
  /\ (exists us', UserCache_get uid us w = (v4, (us', w))
     /\ forall y, lru_peek y (user_lru us') = lru_peek y (user_lru us)).
Proof.
  intros [n Hn] [m Hm] He H1 H2 H3 H4. split_and!.
  - refine (memo_hit (pns, pid) pns ns w v1 _ H1). cbn [memo_key ns_memo fst snd]. by rewrite Hn.
  - refine (memo_hit argv_pid argv_pid ar w v2 _ H2). cbn [memo_key argv_memo]. by rewrite Hm.
  - refine (memo_hit exe exe ha w v3 _ H3). cbn [memo_key hash_memo]. by rewrite decide_False by lia.
  - by refine (memo_hit uid uid us w v4 _ H4).
Qed.

(** Whatever sequence of [get] and [put] calls the transformer makes, a cached
    command line is one that was put for that pid, or the trimmed contents of a
    successful read of that pid's own [/proc/<pid>/cmdline]: the error marks
    "-3" and "-4" of a failed read or a refused check are never cached. *)
Theorem argv_cache_provenance ops cap (w : W) pid argv :
  lru_peek pid (argv_lru (argv_calls ops (ArgvCache_new cap : ArgvCache C) w).1) = Some argv ->
  PutArgv pid argv ∈ ops \/ (GetArgv pid ∈ ops /\ proc_cmdline (W := W) pid argv).
Proof.
  intros [Hn|Hc]%argv_calls_contents; [|exact Hc]. cbn [argv_lru ArgvCache_new] in Hn.
  by rewrite lru_peek_new in Hn.
Qed.

(** Every executable hash the cache hands out, over any sequence of look-ups,
    is sixteen hexadecimal digits or the mark "-3". *)
Theorem hash_cache_format ks cap (w : W) exe v :
  PureCratesLaws ->
  (exe, v) ∈ (memo_run ks (HashCache_new cap : HashCache C) w : list (bytes * bytes) * _).1 ->
  v = bs "-3" \/ length v = 16.
Proof.
  intros L Hin. assert (Hf : Forall (fun r => r.2 = bs "-3" \/ hash_ok r.2)
    (memo_run ks (HashCache_new cap : HashCache C) w : list (bytes * bytes) * _).1).
  { apply hash_run_ok; [done|]. cbn [hash_lru HashCache_new]. intros y u. by rewrite lru_peek_new. }
  rewrite Forall_forall in Hf. apply (Hf _ Hin).
Qed.

(** The pod name [NsCache] reads from an environment is the value of the first
    entry named [MY_POD_NAME] or [POD_NAME] whose value is not empty, and it is
    cached exactly when there is one. *)
Theorem pod_name_first (ns : NsCache C) (w w1 w2 : W) pns pid pidnum environ :
  0 < lru_capacity (ns_lru ns) ->
  parse_usize (from_utf8_or_default pid) = Some pidnum -> lru_peek pns (ns_lru ns) = None ->
  limiter_check NsLimiter w = (true, w1) ->
  fs_read (proc_path pidnum "/environ") w1 = (Some environ, w2) ->
  let name := head (filter (fun v => v <> []) (omap pod_value (split_on x00 environ))) in
  (NsCache_get pns pid ns w).1 = default [] name
  /\ lru_peek pns (ns_lru (NsCache_get pns pid ns w).2.1) = name.
Proof.
  intros Hc Hp Hm Hl Hr name. unfold NsCache_get. rewrite Hp.
  pose proof (lru_peek_get pns pns (ns_lru ns)) as E.
  pose proof (lru_capacity_get pns (ns_lru ns)) as Ec. rewrite Hm in E. unfold lru_peek in Hm.
  destruct (lru_get_mut pns (ns_lru ns)) as [hit lru]. cbn [fst snd] in *. subst hit.
  rewrite Hl, Hr, find_pod_name_first. fold name.
  destruct name as [v|] eqn:En; cbn [default]; [|by rewrite decide_True].
  assert (v <> []).
  { unfold name in En. destruct (filter _ _) as [|v' l] eqn:Ef; [done|]. injection En as ->.
    assert (Hin : v ∈ v :: l) by left. rewrite <- Ef in Hin. by apply list_elem_of_filter in Hin as [? _]. }
  rewrite decide_False by (by destruct v). split; [done|].
  cbn [fst snd ns_lru NsCache_put]. unfold lru_peek. apply lru_get_insert_eq. lia.
Qed.
End properties.

(** A command line is kept as at most 256 bytes without a NUL: the first 256
    bytes of the file with NULs as spaces, less a run of white space at the end
    (all of it, unless the line is nothing but white space: then its first byte
    stays). *)
Theorem trim_cmdline_spec v :
  let u := map nul_to_space (take 256 v) in
  exists rest, u = trim_cmdline v ++ rest
    /\ forallb is_ascii_whitespace rest = true
    /\ length (trim_cmdline v) <= 256 /\ (x00 ∉ trim_cmdline v)
    /\ ((exists a c, trim_cmdline v = a ++ [c] /\ is_ascii_whitespace c = false)
        \/ (forallb is_ascii_whitespace u = true /\ length (trim_cmdline v) <= 1)).
Proof.
  cbv zeta. set (u := map nul_to_space (take 256 v)).
  assert (Hlen : length u <= 256) by (unfold u; rewrite length_map, length_take; lia).
  assert (Hnul : x00 ∉ u) by apply nul_to_space_ne.
  pose proof (rposition_spec (fun x => negb (is_ascii_whitespace x)) u) as Hr.
  assert (Hneg : forall l, forallb ((negb ∘ (fun x => negb (is_ascii_whitespace x)))) l
    = forallb is_ascii_whitespace l).
  { intros l. induction l as [|c l IH]; [done|]. cbn. by rewrite IH, negb_involutive. }
  assert (E : trim_cmdline v
    = take (default 0 (rposition (fun x => negb (is_ascii_whitespace x)) u) + 1) u) by done.
  clearbody u. rewrite E. destruct (rposition _ u) as [i|]; cbn [default].
  - destruct Hr as (a & c & b & -> & <- & Hc & Hb). rewrite Hneg in Hb.
    rewrite (cons_middle c a b), app_assoc, take_app_length'
      by (rewrite length_app; cbn; lia).
    exists b. rewrite length_app in *. cbn [length] in *.
    split_and!; [done|done|lia| |].
    + intros H. apply Hnul. rewrite cons_middle, app_assoc. apply elem_of_app. by left.
    + left. exists a, c. split; [done|]. by apply negb_true_iff.
  - rewrite Hneg in Hr. exists (drop 1 u). rewrite Nat.add_0_l, take_drop.
    split_and!; [done| |rewrite length_take; lia| |].
    + destruct u; [done|]. cbn in *. by apply andb_true_iff in Hr as [_ Hr].
    + intros H. apply Hnul. rewrite <- (take_drop 1 u). apply elem_of_app. by left.
    + right. split; [done|]. rewrite length_take. lia.
Qed.

(** ** The properties on concrete caches *)

Definition sample_world : still_world :=
  mkWorld true
    (<[bs "/proc/7/environ" := bs "A=b" ++ [x00] ++ bs "POD_NAME=web-0"]>
      {[bs "/proc/7/cmdline" := bs "ls" ++ [x00] ++ bs "-l" ++ [x00]]})
    {[0%Z := bs "root"]} 0 1650000000.

Lemma cache_hit_is_free_witness :
  let c := lru_insert (bs "7") (bs "v") (lru_new 4) : LruList.t in
  exists ar', ArgvCache_get (bs "7") (mkArgv c) sample_world = (bs "v", (ar', sample_world))
     /\ forall y, lru_peek y (argv_lru ar') = lru_peek y c.
Proof.
  intros c.
  destruct (cache_hit_is_free sample_world (bs "7") (bs "7") (bs "7") (bs "7") (bs "7")
    (mkNs c) (mkArgv c) (mkHash c []) (mkUser c) (bs "v") (bs "v") (bs "v") (bs "v"))
    as (_ & H & _); [eauto|eauto|cbn; lia|done..|exact H].
Defined.

Lemma argv_cache_provenance_witness :
  PutArgv (bs "7") (bs "ls -l") ∈ [GetArgv (bs "7")]
  \/ (GetArgv (bs "7") ∈ [GetArgv (bs "7")] /\ proc_cmdline (W := still_world) (bs "7") (bs "ls -l")).
Proof.
  apply (argv_cache_provenance (C := LruList.t) [GetArgv (bs "7")] 4 sample_world (bs "7") (bs "ls -l")).
  by vm_compute.
Defined.

Lemma hash_cache_format_witness :
  bs "000000000000001a" = bs "-3" \/ length (bs "000000000000001a") = 16.
Proof.
  apply (hash_cache_format (C := LruList.t) [bs "/x"] 4
    (mkWorld true {[bs "/x" := [x19]]} ∅ 0 0) (bs "/x") _ pure_crates_laws).
  apply (bool_decide_unpack _). by vm_compute.
Defined.

Lemma pod_name_first_witness :
  (NsCache_get (bs "1") (bs "7") (mkNs (lru_new 4 : LruList.t)) sample_world).1 = bs "web-0".
Proof.
  etransitivity; [apply (pod_name_first (mkNs (lru_new 4 : LruList.t)) sample_world sample_world
    sample_world (bs "1") (bs "7") 7 (bs "A=b" ++ [x00] ++ bs "POD_NAME=web-0")); vm_compute; (lia || done)
    |by vm_compute].
Defined.
