(* ===== verification/Kmod.v ===== *)
(** * The kernel module's filters ([plugins/driver/src/kmod.rs])

    [Kmod] keeps two queues of the executables and command lines the kernel
    module was told to drop, with the time each was added, and the control file.
    The control file is the list of commands written to it ([None] after
    [drop]); a failed write is ignored by the code and is not told apart.  The
    state of a call is the [Kmod] and the world its clock is read from.

    [KernelFilter] says what the commands mean to the kernel module: the names of
    the flags in [config.rs].  The lock order of the threads is in [Locks]. *)

From Stdlib Require Import Sorting.Sorted.
From S2P Require Import Prelude Bytes RustStd Crates DriverConfig.

Record Kmod := mkKmod {
  filtered_exe_entries : list (Z * bytes);
  filtered_argv_entries : list (Z * bytes);
  controler : option (list bytes);
}.

Definition set_exe_entries (q : list (Z * bytes)) (k : Kmod) : Kmod :=
  mkKmod q (filtered_argv_entries k) (controler k).
Definition set_argv_entries (q : list (Z * bytes)) (k : Kmod) : Kmod :=
  mkKmod (filtered_exe_entries k) q (controler k).
Definition set_controler (c : option (list bytes)) (k : Kmod) : Kmod :=
  mkKmod (filtered_exe_entries k) (filtered_argv_entries k) c.

(** What [control] writes: the flag, the contents and a newline. *)
Definition command (flag contents : bytes) : bytes := flag ++ contents ++ [x0a].
Definition control (controler : list bytes) (flag contents : bytes) : list bytes :=
  controler ++ [command flag contents].

Section kmod.
Context {W : Type} `{!World W}.

Abbreviation M := (SM (Kmod * W)).

Definition now : M Z := fun '(k, w) => let (t, w) := instant_now w in (Ret t, (k, w)).
Definition get_kmod : M Kmod := sm_gets fst.
Definition modify_kmod (f : Kmod -> Kmod) : M unit := sm_modify (fun '(k, w) => (f k, w)).

(** [control] on [controler.as_mut().unwrap()] *)
Definition control_unwrap (flag contents : bytes) : M unit :=
  k ← get_kmod;
  match controler k with
  | Some c => modify_kmod (set_controler (Some (control c flag contents)))
  | None => sm_panic
  end.

Definition add_filtered_argv (argv : bytes) : M unit :=
  k ← get_kmod;
  (if decide (128 - length ARGV_WHITELIST <= length (filtered_argv_entries k)) then
     match filtered_argv_entries k with
     | [] => sm_panic
     | (_, front_argv) :: q =>
         modify_kmod (set_argv_entries q) ;; control_unwrap REMOVE_ARGV_FILTER_FLAG front_argv
     end
   else mret tt) ;;
  control_unwrap ADD_ARGV_FILTER_FLAG argv ;;
  t ← now;
  modify_kmod (fun k => set_argv_entries (filtered_argv_entries k ++ [(t, argv)]) k).

Definition add_filtered_argv_fixed (argv : bytes) : M unit :=
  control_unwrap ADD_ARGV_FILTER_FLAG argv.

Definition add_filtered_exe (exe : bytes) : M unit :=
  k ← get_kmod;
  (if decide (128 - length EXE_WHITELIST < length (filtered_exe_entries k)) then
     match filtered_exe_entries k with
     | [] => sm_panic
     | (_, front_exe) :: q =>
         modify_kmod (set_exe_entries q) ;; control_unwrap REMOVE_EXE_FILTER_FLAG front_exe
     end
   else mret tt) ;;
  control_unwrap ADD_EXE_FILTER_FLAG exe ;;
  t ← now;
  modify_kmod (fun k => set_exe_entries (filtered_exe_entries k ++ [(t, exe)]) k).

Definition add_filtered_exe_fixed (exe : bytes) : M unit :=
  control_unwrap ADD_EXE_FILTER_FLAG exe.

(** The loops of one pass of the [ttl_filters] thread; each turn pops an entry. *)
Fixpoint ttl_exe_loop (q : list (Z * bytes)) (c : option (list bytes)) (w : W)
    : list (Z * bytes) * option (list bytes) * W :=
  match q with
  | [] => ([], c, w)
  | (instant, exe) :: q' =>
      let (t, w) := instant_now w in
      if (t - instant <? EXE_FILTER_TIME)%Z then ((instant, exe) :: q', c, w)
      else
        match c with
        | Some c => ttl_exe_loop q' (Some (control c REMOVE_EXE_FILTER_FLAG exe)) w
        | None => (q', None, w)
        end
  end.

(** An entry that is not due is pushed onto the executables' queue [exes]. *)
Fixpoint ttl_argv_loop (exes q : list (Z * bytes)) (c : option (list bytes)) (w : W)
    : list (Z * bytes) * list (Z * bytes) * option (list bytes) * W :=
  match q with
  | [] => (exes, [], c, w)
  | (instant, argv) :: q' =>
      let (t, w) := instant_now w in
      if (t - instant <? ARGV_FILTER_TIME)%Z then ((instant, argv) :: exes, q', c, w)
      else
        match c with
        | Some c => ttl_argv_loop exes q' (Some (control c REMOVE_ARGV_FILTER_FLAG argv)) w
        | None => (exes, q', None, w)
        end
  end.

Definition ttl_filters_pass : M unit := fun '(k, w) =>
  let '(exes, c, w) := ttl_exe_loop (filtered_exe_entries k) (controler k) w in
  let '(exes, argvs, c, w) := ttl_argv_loop exes (filtered_argv_entries k) c w in
  (Ret tt, (mkKmod exes argvs c, w)).

(** [Kmod::new] once the module is installed and the control file open: the
    fixed filters, then the two threads start. *)
Fixpoint add_all (add : bytes -> M unit) (l : list bytes) : M unit :=
  match l with
  | [] => mret tt
  | x :: l' => add x ;; add_all add l'
  end.
Definition new_fixed : M unit :=
  add_all add_filtered_argv_fixed ARGV_WHITELIST ;;
  add_all add_filtered_exe_fixed EXE_WHITELIST.

(** [Drop]: the control file is closed; the removal of the module is an effect
    outside this state. *)
Definition Kmod_drop (k : Kmod) : Kmod := set_controler None k.

(** The steps the threads of the driver take on a [Kmod]. *)
Inductive kmod_call :=
  | AddExe (exe : bytes)
  | AddArgv (argv : bytes)
  | TtlPass.

Definition run_call (c : kmod_call) : M unit :=
  match c with
  | AddExe exe => add_filtered_exe exe
  | AddArgv argv => add_filtered_argv argv
  | TtlPass => ttl_filters_pass
  end.

Fixpoint run_calls (cs : list kmod_call) : M unit :=
  match cs with
  | [] => mret tt
  | c :: cs' => run_call c ;; run_calls cs'
  end.
End kmod.

(** ** What the kernel module filters

    The effect of a command on the kernel's set of filtered executables (or
    command lines): add, remove and remove-all flags, contents up to the
    newline. *)
Module KernelFilter.

Section sets.
Variables add_flag remove_flag clear_flag : bytes.

Definition contents_of (flag cmd : bytes) : option bytes :=
  if starts_with cmd flag then Some (take (length cmd - length flag - 1) (drop (length flag) cmd)) else None.

Definition apply_command (s : gset bytes) (cmd : bytes) : gset bytes :=
  match contents_of add_flag cmd with
  | Some x => {[x]} ∪ s
  | None =>
      match contents_of remove_flag cmd with
      | Some x => s ∖ {[x]}
      | None => if starts_with cmd clear_flag then ∅ else s
      end
  end.

Definition filtered (log : list bytes) : gset bytes := foldl apply_command ∅ log.
End sets.

Definition exes : list bytes -> gset bytes :=
  filtered ADD_EXE_FILTER_FLAG REMOVE_EXE_FILTER_FLAG REMOVE_ALL_EXE_FILTER_FLAG.
Definition argvs : list bytes -> gset bytes :=
  filtered ADD_ARGV_FILTER_FLAG REMOVE_ARGV_FILTER_FLAG REMOVE_ALL_ARGV_FILTER_FLAG.

Lemma contents_of_command flag flag' x :
  length flag = length flag' ->
  contents_of flag (command flag' x) = if decide (flag = flag') then Some x else None.
Proof.
  intros Hl. unfold contents_of, command. destruct (starts_with (flag' ++ x ++ [x0a]) flag) eqn:E.
  - apply starts_with_spec in E as [t Et]. apply app_inj_1 in Et as [-> <-]; [|done].
    rewrite decide_True by done. f_equal. rewrite drop_app_length, !length_app. cbn [length].
    replace (_ - _ - _) with (length x) by lia. by rewrite take_app_length.
  - rewrite decide_False; [done|]. intros ->.
    assert (starts_with (flag' ++ x ++ [x0a]) flag' = true) by (apply starts_with_spec; eauto). congruence.
Qed.

Lemma exes_app log log' : exes (log ++ log') = foldl
  (apply_command ADD_EXE_FILTER_FLAG REMOVE_EXE_FILTER_FLAG REMOVE_ALL_EXE_FILTER_FLAG) (exes log) log'.
Proof. apply foldl_app. Qed.

Lemma exes_add log x : exes (control log ADD_EXE_FILTER_FLAG x) = {[x]} ∪ exes log.
Proof.
  unfold control. rewrite exes_app. cbn [foldl]. unfold apply_command.
  by rewrite contents_of_command, decide_True.
Qed.
Lemma exes_remove log x : exes (control log REMOVE_EXE_FILTER_FLAG x) = exes log ∖ {[x]}.
Proof.
  unfold control. rewrite exes_app. cbn [foldl]. unfold apply_command.
  by rewrite !contents_of_command, decide_False, decide_True.
Qed.
(** Commands on command lines leave the executables alone. *)
Lemma exes_other log flag x :
  flag = ADD_ARGV_FILTER_FLAG \/ flag = REMOVE_ARGV_FILTER_FLAG ->
  exes (control log flag x) = exes log.
Proof.
  intros Hf. unfold control. rewrite exes_app. cbn [foldl]. unfold apply_command.
  rewrite !contents_of_command by (by destruct Hf as [->| ->]).
  rewrite !decide_False by (by destruct Hf as [->| ->]).
  by destruct Hf as [->| ->].
Qed.
(** Commands on executables leave the command lines alone. *)
Lemma argvs_other log flag x :
  flag = ADD_EXE_FILTER_FLAG \/ flag = REMOVE_EXE_FILTER_FLAG ->
  argvs (control log flag x) = argvs log.
Proof.
  intros Hf. unfold control, argvs, filtered. rewrite foldl_app. cbn [foldl]. unfold apply_command at 1.
  rewrite !contents_of_command by (by destruct Hf as [->| ->]).
  rewrite !decide_False by (by destruct Hf as [->| ->]).
  by destruct Hf as [->| ->].
Qed.
End KernelFilter.

(** ** Each call, evaluated *)

Section calls.
Context {W : Type} `{!World W}.

(** An insert into a bounded queue: the oldest entry leaves a full one. *)
Definition bounded_push (full : bool) (e : Z * bytes) (q : list (Z * bytes)) : list (Z * bytes) :=
  (if full then tail q else q) ++ [e].
Definition evict (full : bool) (flag : bytes) (q : list (Z * bytes)) (log : list bytes) : list bytes :=
  match q with
  | (_, x) :: _ => if full then control log flag x else log
  | [] => log
  end.

Lemma add_filtered_exe_eq exe k (w : W) log :
  controler k = Some log ->
  let q := filtered_exe_entries k in
  let full := bool_decide (128 < length q) in
  let (t, w') := instant_now w in
  add_filtered_exe exe (k, w)
  = (Ret tt, (mkKmod (bounded_push full (t, exe) q) (filtered_argv_entries k)
       (Some (control (evict full REMOVE_EXE_FILTER_FLAG q log) ADD_EXE_FILTER_FLAG exe)), w')).
Proof.
  destruct k as [q a c]. cbn. intros ->. destruct (instant_now w) as [t w'] eqn:Et.
  unfold add_filtered_exe, control_unwrap, modify_kmod, get_kmod, sm_gets, sm_modify, now, mbind, SM_bind,
    mret, SM_ret. cbn [fst snd filtered_exe_entries filtered_argv_entries controler].
  change (128 - length EXE_WHITELIST) with 128.
  destruct (decide (128 < length q)) as [Hq|Hq];
    [rewrite bool_decide_true by done|rewrite bool_decide_false by done].
  - destruct q as [|[i x] q]; [cbn in Hq; lia|]. cbn. by rewrite Et.
  - cbn. rewrite Et. cbn. unfold evict. by destruct q as [|[]].
Qed.

(** Filtering an executable leaves the command lines alone. *)
Lemma add_filtered_exe_argvs exe k (w : W) :
  let '(_, (k', _)) := add_filtered_exe exe (k, w) in
  filtered_argv_entries k' = filtered_argv_entries k
  /\ forall log', controler k' = Some log' ->
       exists log, controler k = Some log /\ KernelFilter.argvs log' = KernelFilter.argvs log.
Proof.
  destruct (controler k) as [log|] eqn:Ec.
  - pose proof (add_filtered_exe_eq exe k w log Ec) as E. cbv zeta in E. destruct (instant_now w) as [t w'].
    rewrite E. split; [done|]. cbn [controler]. intros log' [= <-]. exists log. split; [done|].
    rewrite KernelFilter.argvs_other by auto. unfold evict.
    destruct (filtered_exe_entries k) as [|[i x] q]; [done|].
    case_bool_decide; [|done]. by rewrite KernelFilter.argvs_other by auto.
  - destruct k as [q a c]. cbn in Ec. subst c.
    unfold add_filtered_exe, control_unwrap, modify_kmod, get_kmod, sm_gets, sm_modify, now, mbind, SM_bind,
      mret, SM_ret. cbn. case_decide; [destruct q as [|[i x] q]|]; done.
Qed.

Lemma add_filtered_argv_eq argv k (w : W) log :
  controler k = Some log ->
  let q := filtered_argv_entries k in
  let full := bool_decide (128 <= length q) in
  let (t, w') := instant_now w in
  add_filtered_argv argv (k, w)
  = (Ret tt, (mkKmod (filtered_exe_entries k) (bounded_push full (t, argv) q)
       (Some (control (evict full REMOVE_ARGV_FILTER_FLAG q log) ADD_ARGV_FILTER_FLAG argv)), w')).
Proof.
  destruct k as [e q c]. cbn. intros ->. destruct (instant_now w) as [t w'] eqn:Et.
  unfold add_filtered_argv, control_unwrap, modify_kmod, get_kmod, sm_gets, sm_modify, now, mbind, SM_bind,
    mret, SM_ret. cbn [fst snd filtered_exe_entries filtered_argv_entries controler].
  change (128 - length ARGV_WHITELIST) with 128.
  destruct (decide (128 <= length q)) as [Hq|Hq];
    [rewrite bool_decide_true by done|rewrite bool_decide_false by done].
  - destruct q as [|[i x] q]; [cbn in Hq; lia|]. cbn. by rewrite Et.
  - cbn. rewrite Et. cbn. unfold evict. by destruct q as [|[]].
Qed.

(** A pass only shortens the queues, but for the entry the second loop moves. *)
Lemma ttl_exe_loop_suffix q c (w : W) : suffix (ttl_exe_loop q c w).1.1 q.
Proof.
  revert c w. induction q as [|[i x] q IH]; intros c w; cbn [ttl_exe_loop]; [done|].
  destruct (instant_now w) as [t w1]. destruct (_ <? _)%Z; [done|].
  destruct c; apply suffix_cons_r; [apply IH|done].
Qed.

Lemma ttl_argv_loop_shape exes q c (w : W) :
  let '(exes', q', c', _) := ttl_argv_loop exes q c w in
  length q' <= length q /\ (q = [] -> exes' = exes /\ c' = c).
Proof.
  revert c w. induction q as [|[i x] q IH]; intros c w; cbn [ttl_argv_loop]; [done|].
  destruct (instant_now w) as [t w1]. destruct (_ <? _)%Z; [cbn; split; [lia|done]|].
  destruct c as [c|]; [|cbn; split; [lia|done]].
  specialize (IH (Some (control c REMOVE_ARGV_FILTER_FLAG x)) w1).
  destruct (ttl_argv_loop _ _ _ _) as [[[e' q'] c'] w']. cbn [length]. split; [lia|done].
Qed.

(** ** The kernel filters nothing the queue does not hold *)

Definition entry_set (q : list (Z * bytes)) : gset bytes := list_to_set (map snd q).

Definition exe_tracked (k : Kmod) : Prop :=
  match controler k with
  | Some log => KernelFilter.exes log ⊆ entry_set (filtered_exe_entries k)
  | None => False
  end.

Lemma entry_set_cons e q : entry_set (e :: q) = {[e.2]} ∪ entry_set q.
Proof. done. Qed.
Lemma entry_set_snoc q e : entry_set (q ++ [e]) = entry_set q ∪ {[e.2]}.
Proof.
  unfold entry_set. rewrite map_app, list_to_set_app_L. cbn [map list_to_set]. set_solver.
Qed.

Lemma add_filtered_exe_tracked exe k (w : W) :
  exe_tracked k ->
  exists k' w', add_filtered_exe exe (k, w) = (Ret tt, (k', w')) /\ exe_tracked k'.
Proof.
  unfold exe_tracked. destruct (controler k) as [log|] eqn:Ec; [|done]. intros Ht.
  pose proof (add_filtered_exe_eq exe k w log Ec) as E. cbv zeta in E.
  destruct (instant_now w) as [t w']. rewrite E. eexists _, _. split; [done|].
  cbn [controler filtered_exe_entries]. unfold bounded_push. rewrite entry_set_snoc, KernelFilter.exes_add.
  cbn [snd]. unfold evict. destruct (filtered_exe_entries k) as [|[i x] q].
  - case_bool_decide; set_solver.
  - rewrite entry_set_cons in Ht. cbn [snd] in Ht.
    case_bool_decide; [rewrite KernelFilter.exes_remove; cbn [tail]|rewrite entry_set_cons; cbn [snd]];
      set_solver.
Qed.

Lemma add_filtered_argv_tracked argv k (w : W) :
  exe_tracked k ->
  exists k' w', add_filtered_argv argv (k, w) = (Ret tt, (k', w')) /\ exe_tracked k'.
Proof.
  unfold exe_tracked. destruct (controler k) as [log|] eqn:Ec; [|done]. intros Ht.
  pose proof (add_filtered_argv_eq argv k w log Ec) as E. cbv zeta in E.
  destruct (instant_now w) as [t w']. rewrite E. eexists _, _. split; [done|].
  cbn [controler filtered_exe_entries]. rewrite KernelFilter.exes_other by auto.
  unfold evict. destruct (filtered_argv_entries k) as [|[i x] q]; [done|].
  case_bool_decide; [|done]. by rewrite KernelFilter.exes_other by auto.
Qed.

Lemma ttl_exe_loop_tracked q log (w : W) :
  KernelFilter.exes log ⊆ entry_set q ->
  exists q' log' w', ttl_exe_loop q (Some log) w = (q', Some log', w')
    /\ KernelFilter.exes log' ⊆ entry_set q'.
Proof.
  revert log w. induction q as [|[i x] q IH]; intros log w Ht; cbn [ttl_exe_loop].
  { by exists [], log, w. }
  destruct (instant_now w) as [t w1]. destruct (_ <? _)%Z.
  { by exists ((i, x) :: q), log, w1. }
  destruct (IH (control log REMOVE_EXE_FILTER_FLAG x) w1) as (q' & log' & w' & E & Ht').
  { rewrite KernelFilter.exes_remove, entry_set_cons in *. cbn [snd] in *. set_solver. }
  by exists q', log', w'.
Qed.

Lemma ttl_argv_loop_tracked exes q log (w : W) :
  KernelFilter.exes log ⊆ entry_set exes ->
  exists exes' q' log' w', ttl_argv_loop exes q (Some log) w = (exes', q', Some log', w')
    /\ KernelFilter.exes log' ⊆ entry_set exes'.
Proof.
  revert log w. induction q as [|[i x] q IH]; intros log w Ht; cbn [ttl_argv_loop].
  { by exists exes, [], log, w. }
  destruct (instant_now w) as [t w1]. destruct (_ <? _)%Z.
  { exists ((i, x) :: exes), q, log, w1. split; [done|]. rewrite entry_set_cons. set_solver. }
  destruct (IH (control log REMOVE_ARGV_FILTER_FLAG x) w1) as (e' & q' & log' & w' & E & Ht').
  { by rewrite KernelFilter.exes_other by auto. }
  by exists e', q', log', w'.
Qed.

Lemma ttl_filters_pass_tracked k (w : W) :
  exe_tracked k -> exists k' w', ttl_filters_pass (k, w) = (Ret tt, (k', w')) /\ exe_tracked k'.
Proof.
  unfold exe_tracked. destruct (controler k) as [log|] eqn:Ec; [|done]. intros Ht.
  unfold ttl_filters_pass. rewrite Ec.
  destruct (ttl_exe_loop_tracked _ _ w Ht) as (q1 & log1 & w1 & -> & Ht1).
  destruct (ttl_argv_loop_tracked q1 (filtered_argv_entries k) _ w1 Ht1)
    as (e2 & q2 & log2 & w2 & -> & Ht2).
  eexists _, _. split; [done|]. done.
Qed.

Lemma run_call_tracked c k (w : W) :
  exe_tracked k -> exists k' w', run_call c (k, w) = (Ret tt, (k', w')) /\ exe_tracked k'.
Proof.
  intros Ht. destruct c as [exe|argv|]; cbn [run_call].
  - by apply add_filtered_exe_tracked.
  - by apply add_filtered_argv_tracked.
  - by apply ttl_filters_pass_tracked.
Qed.

Lemma run_calls_tracked cs k (w : W) :
  exe_tracked k -> exists k' w', run_calls cs (k, w) = (Ret tt, (k', w')) /\ exe_tracked k'.
Proof.
  revert k w. induction cs as [|c cs IH]; intros k w Ht; cbn [run_calls]; [eauto|].
  destruct (run_call_tracked c k w Ht) as (k1 & w1 & E & Ht1).
  erewrite sm_bind_ret by exact E. by apply IH.
Qed.
End calls.

(** ** Bounds and expiry *)

(** The clock does not run backwards. *)
Class ClockLaws (W : Type) `{!World W} : Prop := {
  instant_monotone w : ((instant_now w).1 <= (instant_now (instant_now w).2).1)%Z;
}.

Section expiry.
Context {W : Type} `{!World W, !ClockLaws W}.

(** Oldest first. *)
Definition by_age (q : list (Z * bytes)) : Prop := StronglySorted (fun a b => (a.1 <= b.1)%Z) q.

Lemma entry_set_in i x q : (i, x) ∈ q -> x ∈ entry_set q.
Proof.
  intros Hin. apply elem_of_list_to_set, list_elem_of_fmap. by exists (i, x).
Qed.

(** After the loop no remaining entry is due, and the kernel's set lost at least
    the executables whose entries are all gone. *)
Lemma ttl_exe_loop_expires q log (w : W) t0 :
  by_age q -> (t0 <= (instant_now w).1)%Z ->
  let '(q', c', _) := ttl_exe_loop q (Some log) w in
  Forall (fun e => (t0 - e.1 < EXE_FILTER_TIME)%Z) q'
  /\ exists done log', q = done ++ q' /\ c' = Some log'
     /\ KernelFilter.exes log' = KernelFilter.exes log ∖ entry_set done.
Proof.
  intros Hs. revert log w. induction Hs as [|[i x] q Hs IH Hall]; intros log w Ht; cbn [ttl_exe_loop].
  { split; [constructor|]. exists [], log. unfold entry_set. cbn. split_and!; [done..|set_solver]. }
  pose proof (instant_monotone w) as Hm. destruct (instant_now w) as [t w1]. cbn [fst snd] in *.
  destruct (Z.ltb_spec (t - i) EXE_FILTER_TIME) as [Hlt|Hge].
  - split.
    + constructor; cbn [fst]; [lia|]. rewrite Forall_forall in *. intros e He.
      specialize (Hall e He). cbn [fst] in Hall. lia.
    + exists [], log. unfold entry_set. cbn. split_and!; [done..|set_solver].
  - specialize (IH (control log REMOVE_EXE_FILTER_FLAG x) w1 ltac:(lia)).
    destruct (ttl_exe_loop q _ w1) as [[q' c'] w']. destruct IH as [Hf (dn & log' & -> & -> & E)].
    split; [done|]. exists ((i, x) :: dn), log'. split_and!; [done..|].
    rewrite E, KernelFilter.exes_remove, entry_set_cons. cbn [snd]. set_solver.
Qed.

Lemma ttl_exe_loop_clock q c (w : W) :
  ((instant_now w).1 <= (instant_now (ttl_exe_loop q c w).2).1)%Z.
Proof.
  revert c w. induction q as [|[i x] q IH]; intros c w; cbn [ttl_exe_loop]; [cbn; lia|].
  pose proof (instant_monotone w) as Hm. destruct (instant_now w) as [t w1]. cbn [fst snd] in *.
  destruct (_ <? _)%Z; [done|]. destruct c as [c|]; [|done].
  specialize (IH (Some (control c REMOVE_EXE_FILTER_FLAG x)) w1). lia.
Qed.

(** The executables are queued by age, no entry is from the future, and no
    command line is filtered. *)
Definition aged (k : Kmod) (w : W) : Prop :=
  by_age (filtered_exe_entries k)
  /\ Forall (fun e => (e.1 <= (instant_now w).1)%Z) (filtered_exe_entries k)
  /\ filtered_argv_entries k = [].

Lemma StronglySorted_snoc {A} (R : A -> A -> Prop) l x :
  StronglySorted R l -> Forall (fun y => R y x) l -> StronglySorted R (l ++ [x]).
Proof.
  induction 1 as [|y l Hs IH Hy]; intros Hx; cbn; [repeat constructor|].
  apply Forall_cons in Hx as [Hyx Hx]. constructor; [by apply IH|].
  apply Forall_app. by repeat constructor.
Qed.

Lemma StronglySorted_suffix {A} (R : A -> A -> Prop) l l' :
  suffix l l' -> StronglySorted R l' -> StronglySorted R l.
Proof. intros [p ->] Hs. induction p; [done|]. apply IHp. by inversion Hs. Qed.

Lemma Forall_suffix {A} (P : A -> Prop) l l' : suffix l l' -> Forall P l' -> Forall P l.
Proof. intros [p ->]. by rewrite Forall_app; intros [_ ?]. Qed.

Lemma suffix_tail {A} (l : list A) : suffix (tail l) l.
Proof. destruct l as [|x l]; [by exists []|]. by exists [x]. Qed.

Lemma add_filtered_exe_aged exe k (w : W) :
  exe_tracked k -> aged k w ->
  exists k' w', add_filtered_exe exe (k, w) = (Ret tt, (k', w')) /\ exe_tracked k' /\ aged k' w'.
Proof.
  intros Ht (Hs & Hf & Ha). destruct (add_filtered_exe_tracked exe k w Ht) as (k' & w' & E & Ht').
  exists k', w'. split; [done|]. split; [done|].
  unfold exe_tracked in Ht. destruct (controler k) as [log|] eqn:Ec; [|done].
  pose proof (add_filtered_exe_eq exe k w log Ec) as E'. cbv zeta in E'. rewrite E in E'.
  pose proof (instant_monotone w) as Hm. destruct (instant_now w) as [t w1]. cbn [fst snd] in *.
  injection E' as -> ->. unfold aged. cbn [filtered_exe_entries filtered_argv_entries].
  assert (Hsub : forall b, suffix ((if b : bool then tail else id) (filtered_exe_entries k)) (filtered_exe_entries k))
    by (intros []; [apply suffix_tail|done]).
  assert (Hp : forall b, by_age (bounded_push b (t, exe) (filtered_exe_entries k))
    /\ Forall (fun e => (e.1 <= (instant_now w1).1)%Z) (bounded_push b (t, exe) (filtered_exe_entries k))).
  { intros b. specialize (Hsub b). unfold bounded_push.
    replace (if b then tail (filtered_exe_entries k) else filtered_exe_entries k)
      with ((if b : bool then tail else id) (filtered_exe_entries k)) by (by destruct b).
    pose proof (Forall_suffix _ _ _ Hsub Hf) as Hf'. split.
    - apply StronglySorted_snoc; [by eapply StronglySorted_suffix|done].
    - apply Forall_app. split; [|by repeat constructor].
      eapply Forall_impl; [exact Hf'|]. cbv beta. lia. }
  destruct (Hp (bool_decide (128 < length (filtered_exe_entries k)))). done.
Qed.

Lemma ttl_filters_pass_aged k (w : W) :
  exe_tracked k -> aged k w ->
  exists k' w' log', ttl_filters_pass (k, w) = (Ret tt, (k', w')) /\ controler k' = Some log'
    /\ exe_tracked k' /\ aged k' w'
    /\ Forall (fun e => ((instant_now w).1 - e.1 < EXE_FILTER_TIME)%Z) (filtered_exe_entries k').
Proof.
  intros Ht (Hs & Hf & Ha). destruct (ttl_filters_pass_tracked k w Ht) as (k' & w' & E & Ht').
  unfold exe_tracked in Ht'. destruct (controler k') as [log'|] eqn:Ec; [|done].
  exists k', w', log'. split; [done|]. split; [done|]. unfold exe_tracked. rewrite Ec. split; [done|].
  unfold exe_tracked in Ht. destruct (controler k) as [log|] eqn:Ek; [|done].
  unfold ttl_filters_pass in E. rewrite Ek, Ha in E.
  pose proof (ttl_exe_loop_expires (filtered_exe_entries k) log w _ Hs (Z.le_refl _)) as Hx.
  pose proof (ttl_exe_loop_clock (filtered_exe_entries k) (Some log) w) as Hc.
  pose proof (ttl_exe_loop_suffix (filtered_exe_entries k) (Some log) w) as Hsuf.
  destruct (ttl_exe_loop _ _ w) as [[q c] w1]. cbn in E, Hc, Hsuf. injection E as <- <-.
  destruct Hx as [Hx _]. unfold aged. cbn [filtered_exe_entries filtered_argv_entries].
  split; [|done]. split_and!; [by eapply StronglySorted_suffix| |done].
  eapply Forall_impl; [by eapply Forall_suffix|]. cbv beta. lia.
Qed.

Lemma run_calls_aged cs k (w : W) :
  (forall a, AddArgv a ∉ cs) -> exe_tracked k -> aged k w ->
  exists k' w', run_calls cs (k, w) = (Ret tt, (k', w')) /\ exe_tracked k' /\ aged k' w'.
Proof.
  revert k w. induction cs as [|c cs IH]; intros k w Hcs Ht Ha; cbn [run_calls]; [eauto|].
  assert (exists k1 w1, run_call c (k, w) = (Ret tt, (k1, w1)) /\ exe_tracked k1 /\ aged k1 w1)
    as (k1 & w1 & E & Ht1 & Ha1).
  { destruct c as [exe|argv|]; cbn [run_call].
    - by apply add_filtered_exe_aged.
    - destruct (Hcs argv). left.
    - destruct (ttl_filters_pass_aged k w Ht Ha) as (k' & w' & _ & ? & _ & ? & ? & _). eauto. }
  erewrite sm_bind_ret by exact E. apply IH; [|done..].
  intros a Hin. apply (Hcs a). by right.
Qed.
End expiry.

(** ** Properties *)

Section properties.
Context {W : Type} `{!World W, !ClockLaws W}.

(** C7: whatever sequence of additions and expiry passes runs, none of them panics
    while the control file is open, and the kernel never filters an executable
    that is not in the queue of entries waiting to expire: no executable is
    filtered for ever. *)
Theorem kmod_exe_filters_tracked cs (w : W) log0 :
  KernelFilter.exes log0 = ∅ ->
  exists k' log' w', run_calls cs (mkKmod [] [] (Some log0), w) = (Ret tt, (k', w'))
    /\ controler k' = Some log'
    /\ KernelFilter.exes log' ⊆ list_to_set (map snd (filtered_exe_entries k')).
Proof.
  intros E0. destruct (run_calls_tracked cs (mkKmod [] [] (Some log0)) w) as (k' & w' & E & Ht).
  { unfold exe_tracked. cbn [controler filtered_exe_entries]. rewrite E0. set_solver. }
  unfold exe_tracked in Ht. destruct (controler k') as [log'|] eqn:Ec; [|done].
  by exists k', log', w'.
Qed.

(** The queue of executables never exceeds 129 entries, as long as no command
    line is filtered (the driver never does); the queue of command lines never
    exceeds 128 entries, whatever is called. *)
Theorem kmod_queue_bounds c k (w : W) log :
  controler k = Some log ->
  let '(r, (k', _)) := run_call c (k, w) in
  r = Ret tt
  /\ (length (filtered_argv_entries k) <= 128 -> length (filtered_argv_entries k') <= 128)
  /\ (filtered_argv_entries k = [] -> (forall a, c <> AddArgv a) ->
      length (filtered_exe_entries k) <= 129 ->
      filtered_argv_entries k' = [] /\ length (filtered_exe_entries k') <= 129).
Proof.
  intros Ec. destruct c as [exe|argv|]; cbn [run_call].
  - pose proof (add_filtered_exe_eq exe k w log Ec) as E. cbv zeta in E.
    destruct (instant_now w) as [t w']. rewrite E. cbn [filtered_argv_entries filtered_exe_entries].
    split_and!; [done..|]. intros Ha _ Hl. split; [done|]. unfold bounded_push.
    rewrite length_app. cbn [length]. case_bool_decide; [|lia].
    destruct (filtered_exe_entries k); cbn [tail length] in *; lia.
  - pose proof (add_filtered_argv_eq argv k w log Ec) as E. cbv zeta in E.
    destruct (instant_now w) as [t w']. rewrite E. cbn [filtered_argv_entries filtered_exe_entries].
    split_and!; [done| |intros _ Hn; by destruct (Hn argv)]. intros Hl. unfold bounded_push.
    rewrite length_app. cbn [length]. case_bool_decide; [|lia].
    destruct (filtered_argv_entries k); cbn [tail length] in *; lia.
  - unfold ttl_filters_pass. pose proof (ttl_exe_loop_suffix (filtered_exe_entries k) (controler k) w) as Hs.
    destruct (ttl_exe_loop _ _ w) as [[e1 c1] w1]. cbn [fst] in Hs.
    pose proof (ttl_argv_loop_shape e1 (filtered_argv_entries k) c1 w1) as Hn.
    destruct (ttl_argv_loop _ _ _ _) as [[[e2 q2] c2] w2]. destruct Hn as [Hl Hn].
    cbn [filtered_argv_entries filtered_exe_entries]. apply suffix_length in Hs.
    split_and!; [done|lia|]. intros Ha _ He. destruct (Hn Ha) as [-> _].
    rewrite Ha in Hl. cbn in Hl. destruct q2; [|cbn in Hl; lia]. split; [done|lia].
Qed.

(** C20: after an expiry pass the kernel filters only executables that were added
    less than ten minutes before the pass began, whatever additions and passes
    came before (no command line being filtered). *)
Theorem ttl_pass_expires cs (w : W) log0 :
  KernelFilter.exes log0 = ∅ -> (forall a, AddArgv a ∉ cs) ->
  exists k w1 k' w2 log',
    run_calls cs (mkKmod [] [] (Some log0), w) = (Ret tt, (k, w1))
    /\ ttl_filters_pass (k, w1) = (Ret tt, (k', w2)) /\ controler k' = Some log'
    /\ forall x, x ∈ KernelFilter.exes log' ->
         exists t, (t, x) ∈ filtered_exe_entries k' /\ ((instant_now w1).1 - t < EXE_FILTER_TIME)%Z.
Proof.
  intros E0 Hcs. destruct (run_calls_aged cs (mkKmod [] [] (Some log0)) w Hcs) as (k & w1 & E & Ht & Ha).
  { unfold exe_tracked. cbn [controler filtered_exe_entries]. rewrite E0. set_solver. }
  { split_and!; constructor. }
  destruct (ttl_filters_pass_aged k w1 Ht Ha) as (k' & w2 & log' & E' & Ec & Ht' & _ & Hx).
  exists k, w1, k', w2, log'. split_and!; [done..|]. intros x Hin.
  unfold exe_tracked in Ht'. rewrite Ec in Ht'. apply Ht' in Hin.
  apply elem_of_list_to_set, list_elem_of_fmap in Hin as ([t y] & -> & Hin).
  exists t. split; [done|]. rewrite Forall_forall in Hx. apply (Hx _ Hin).
Qed.
End properties.

(** ** Command lines lose their expiry *)

(** The expiry pass forgets a command line that is not due: its entry moves to
    the executables' queue, so that the kernel goes on filtering it while no
    entry waits to remove it as a command line; ten minutes later the executable
    of that name is removed instead. *)
Theorem ttl_pass_misfiles_argv :
  let w t := mkWorld true ∅ ∅ t 0 in
  let '(_, (k1, _)) := run_calls [AddArgv (bs "a b"); TtlPass] (mkKmod [] [] (Some []), w 0%Z) in
  let '(_, (k2, _)) := run_calls [TtlPass] (k1, w 700%Z) in
  k1 = mkKmod [(0%Z, bs "a b")] [] (Some [bs "ma b" ++ [x0a]])
  /\ k2 = mkKmod [] [] (Some [bs "ma b" ++ [x0a]; bs "Fa b" ++ [x0a]])
  /\ (forall log, controler k2 = Some log -> KernelFilter.argvs log = {[bs "a b"]}).
Proof.
  cbn. split; [reflexivity|]. split; [reflexivity|]. intros log [= <-].
  apply (bool_decide_unpack _). by vm_compute.
Qed.

(** ** The properties on a concrete world *)

#[export] Instance still_clock : ClockLaws still_world.
Proof. split. done. Qed.

Definition idle_world : still_world := mkWorld true ∅ ∅ 1000 0.

Lemma kmod_exe_filters_tracked_witness :
  exists k' log' w', run_calls [AddExe (bs "/tmp/x"); TtlPass] (mkKmod [] [] (Some []), idle_world)
      = (Ret tt, (k', w'))
    /\ controler k' = Some log'
    /\ KernelFilter.exes log' ⊆ list_to_set (map snd (filtered_exe_entries k')).
Proof. by apply (kmod_exe_filters_tracked [AddExe (bs "/tmp/x"); TtlPass] idle_world []). Defined.

Lemma kmod_queue_bounds_witness :
  let '(r, (k', _)) := run_call (AddExe (bs "/tmp/x")) (mkKmod (replicate 129 (0%Z, bs "/y")) [] (Some []), idle_world) in
  r = Ret tt
  /\ (0 <= 128 -> length (filtered_argv_entries k') <= 128)
  /\ (@nil (Z * bytes) = [] -> (forall a, AddExe (bs "/tmp/x") <> AddArgv a) ->
      129 <= 129 -> filtered_argv_entries k' = [] /\ length (filtered_exe_entries k') <= 129).
Proof.
  apply (kmod_queue_bounds (AddExe (bs "/tmp/x")) (mkKmod (replicate 129 (0%Z, bs "/y")) [] (Some []))
    idle_world [] eq_refl).
Defined.

Lemma ttl_pass_expires_witness :
  exists k w1 k' w2 log',
    run_calls [AddExe (bs "/tmp/x"); TtlPass] (mkKmod [] [] (Some []), idle_world) = (Ret tt, (k, w1))
    /\ ttl_filters_pass (k, w1) = (Ret tt, (k', w2)) /\ controler k' = Some log'
    /\ forall x, x ∈ KernelFilter.exes log' ->
         exists t, (t, x) ∈ filtered_exe_entries k' /\ ((instant_now w1).1 - t < EXE_FILTER_TIME)%Z.
Proof.
  apply (ttl_pass_expires [AddExe (bs "/tmp/x"); TtlPass] idle_world []); [done|].
  intros a Hin. apply list_elem_of_In in Hin. cbn in Hin. naive_solver.
Defined.
