(* ===== verification/KmodLocks.v ===== *)
(** * The locks of the driver's threads ([plugins/driver/src/kmod.rs])

    Three mutexes protect a [Kmod]: the two queues and the control file.  A
    thread is the sequence of its acquisitions and releases; [lock_step] is one
    step of one thread, an acquisition only when the mutex is free.  A guard is
    released when its scope ends: the guards of a function in the reverse of
    their order, the guard of a loop body with each turn. *)

From S2P Require Import Prelude.

Inductive lock := Controler | ExeEntries | ArgvEntries.
#[global] Instance lock_eq_dec : EqDecision lock.
Proof. solve_decision. Defined.

Inductive action := Acquire (l : lock) | Release (l : lock).

(** What is left of each thread's work, with the locks it holds. *)
Record thread := mkThread { held : list lock; todo : list action }.
Definition threads := list thread.

Definition free (l : lock) (ts : threads) : Prop := Forall (fun t => l ∉ held t) ts.

Inductive lock_step : threads -> threads -> Prop :=
  | StepAcquire ts i h l p :
      ts !! i = Some (mkThread h (Acquire l :: p)) -> free l ts ->
      lock_step ts (<[i := mkThread (l :: h) p]> ts)
  | StepRelease ts i h l p :
      ts !! i = Some (mkThread h (Release l :: p)) ->
      lock_step ts (<[i := mkThread (filter (fun l' => l' <> l) h) p]> ts).

Definition start (p : list action) : thread := mkThread [] p.
Definition finished (ts : threads) : Prop := Forall (fun t => todo t = []) ts.

(** ** The threads *)

(** [add_filtered_exe] and [add_filtered_argv], called by the record thread *)
Definition add_filtered_exe_locks : list action :=
  [Acquire Controler; Acquire ExeEntries; Release ExeEntries; Release Controler].
Definition add_filtered_argv_locks : list action :=
  [Acquire Controler; Acquire ArgvEntries; Release ArgvEntries; Release Controler].

(** One pass of [ttl_filters] in which [exes] executables and [argvs] command
    lines have expired. *)
Definition expire_locks (n : nat) : list action :=
  concat (replicate n [Acquire Controler; Release Controler]).
Definition ttl_filters_locks (exes argvs : nat) : list action :=
  [Acquire ExeEntries] ++ expire_locks exes ++ [Acquire ArgvEntries] ++ expire_locks argvs
  ++ [Release ArgvEntries; Release ExeEntries].

(** One beat of [heartbeat] *)
Definition heartbeat_locks : list action :=
  [Acquire ExeEntries; Acquire ArgvEntries; Release ArgvEntries; Release ExeEntries].

(** ** An order on the locks that excludes a deadlock *)

Definition rank (l : lock) : nat :=
  match l with Controler => 0 | ExeEntries => 1 | ArgvEntries => 2 end.

(** A thread that holds [h] and runs [p] only acquires above what it holds, and
    holds nothing at its end. *)
Fixpoint ordered (h : list lock) (p : list action) : bool :=
  match p with
  | [] => bool_decide (h = [])
  | Acquire l :: p' => forallb (fun l' => rank l' <? rank l) h && ordered (l :: h) p'
  | Release l :: p' => ordered (filter (fun l' => l' <> l) h) p'
  end.

Definition all_ordered (ts : threads) : Prop := Forall (fun t => ordered (held t) (todo t) = true) ts.

Lemma ordered_step ts ts' : all_ordered ts -> lock_step ts ts' -> all_ordered ts'.
Proof.
  intros Hts Hs. destruct Hs as [ts i h l p Hi _|ts i h l p Hi]; apply Forall_insert; try done;
    pose proof (Forall_lookup_1 _ _ _ _ Hts Hi) as Ho; cbn in *; [by apply andb_true_iff in Ho as [_ Ho]|done].
Qed.

Definition waits_for (t : thread) (l : lock) : Prop := exists p, todo t = Acquire l :: p.

(** The lock a blocked thread waits for is held by a thread that waits for a
    lock of higher rank. *)
Lemma blocked_above ts t l :
  all_ordered ts -> (forall ts', ~ lock_step ts ts') -> t ∈ ts -> waits_for t l ->
  exists t' l', t' ∈ ts /\ waits_for t' l' /\ rank l < rank l'.
Proof.
  intros Ho Hstuck Hin [p Hp]. assert (Hnf : ~ free l ts).
  { intros Hf. apply list_elem_of_lookup in Hin as [i Hi]. destruct t as [h q]. cbn in Hp. subst q.
    eapply Hstuck, StepAcquire; [exact Hi|done]. }
  apply not_Forall_Exists, Exists_exists in Hnf as (t' & Hin' & Hl); [|apply _].
  apply dec_stable in Hl. pose proof (proj1 (Forall_forall _ _) Ho t' Hin') as Ho'. clear Ho. rename Ho' into Ho.
  destruct t' as [h [|[l'|l'] q]]; cbn in *.
  - apply bool_decide_eq_true in Ho. subst h. by apply elem_of_nil in Hl.
  - exists (mkThread h (Acquire l' :: q)), l'. split; [done|]. split; [by exists q|].
    apply andb_true_iff in Ho as [Ho _]. rewrite forallb_forall in Ho.
    specialize (Ho l (proj1 (list_elem_of_In _ _) Hl)). by apply Nat.ltb_lt in Ho.
  - apply list_elem_of_lookup in Hin' as [i Hi]. exfalso. eapply Hstuck, StepRelease. exact Hi.
Qed.

Lemma ordered_progress ts :
  all_ordered ts -> (forall ts', ~ lock_step ts ts') -> finished ts.
Proof.
  intros Ho Hstuck.
  assert (Hno : forall n t l, t ∈ ts -> waits_for t l -> 3 - rank l <= n -> False).
  { induction n as [|n IH]; intros t l Hin Hw Hn; [destruct l; cbn in Hn; lia|].
    destruct (blocked_above ts t l Ho Hstuck Hin Hw) as (t' & l' & Hin' & Hw' & Hr).
    apply (IH t' l' Hin' Hw'). destruct l, l'; cbn in *; lia. }
  apply Forall_forall. intros [h [|[l|l] p]] Hin; cbn; [done|..]; exfalso.
  - apply (Hno 3 _ l Hin); [by exists p|lia].
  - apply list_elem_of_lookup in Hin as [i Hi]. eapply Hstuck, StepRelease. exact Hi.
Qed.

(** ** Properties *)

(** C37: while no filter expires, the driver's threads cannot deadlock: from any
    number of additions, heartbeats and expiry passes without an expired entry,
    every reachable state in which no thread can step is one where all have
    finished. *)
Theorem no_deadlock_without_expiry ps ts :
  Forall (fun p => p ∈ [add_filtered_exe_locks; add_filtered_argv_locks;
                        ttl_filters_locks 0 0; heartbeat_locks]) ps ->
  rtc lock_step (map start ps) ts -> (forall ts', ~ lock_step ts ts') -> finished ts.
Proof.
  intros Hps Hr Hstuck. apply ordered_progress; [|done]. clear Hstuck.
  assert (H0 : all_ordered (map start ps)).
  { apply Forall_map. eapply Forall_impl; [exact Hps|]. intros p Hp. cbn.
    rewrite !elem_of_cons in Hp. by destruct Hp as [->|[->|[->|[->|?%elem_of_nil]]]]. }
  induction Hr as [|x y z Hs _ IH]; [done|]. apply IH. by eapply ordered_step.
Qed.

Lemma no_deadlock_without_expiry_witness : finished [mkThread [] []].
Proof.
  apply (no_deadlock_without_expiry [heartbeat_locks]).
  - repeat constructor.
  - do 4 (eapply rtc_l; [first [eapply (StepAcquire _ 0); [reflexivity|repeat constructor; cbn; set_solver]
                               |eapply (StepRelease _ 0); reflexivity]|cbn]).
    apply rtc_refl.
  - intros ts' Hs. inversion Hs as [? i ? ? ? Hi|? i ? ? ? Hi]; destruct i; by inversion Hi.
Defined.

(** An expiry pass that has an executable to remove can deadlock with the
    record thread: [ttl_filters] holds the executables' queue and waits for the
    control file, [add_filtered_exe] holds the control file and waits for the
    queue, and neither can step again. *)
Theorem expiry_deadlock_reachable exes argvs rest :
  exists ts, rtc lock_step
      [start (add_filtered_exe_locks ++ rest); start (ttl_filters_locks (S exes) argvs)] ts
    /\ (forall ts', ~ lock_step ts ts') /\ ~ finished ts.
Proof.
  set (p1 := [Release ExeEntries; Release Controler] ++ rest).
  set (p2 := [Release Controler] ++ expire_locks exes ++ [Acquire ArgvEntries] ++ expire_locks argvs
             ++ [Release ArgvEntries; Release ExeEntries]).
  exists [mkThread [Controler] (Acquire ExeEntries :: p1); mkThread [ExeEntries] (Acquire Controler :: p2)].
  split_and!.
  - assert (Hfree : ~ ExeEntries ∈ [Controler]) by (by intros [=]%list_elem_of_singleton).
    eapply rtc_l; [|apply rtc_once].
    + refine (StepAcquire [start (Acquire Controler :: Acquire ExeEntries :: p1);
        start (Acquire ExeEntries :: Acquire Controler :: p2)] 0 [] Controler _ eq_refl _).
      do 2 (constructor; [apply not_elem_of_nil|]); constructor.
    + refine (StepAcquire [mkThread [Controler] (Acquire ExeEntries :: p1);
        start (Acquire ExeEntries :: Acquire Controler :: p2)] 1 [] ExeEntries _ eq_refl _).
      constructor; [done|]. constructor; [apply not_elem_of_nil|constructor].
  - intros ts' Hs. inversion Hs as [? [|[|i]] h l p Hi Hf|? [|[|i]] h l p Hi]; inversion Hi; subst;
      inversion Hf as [|? ? H1 Hf']; subst; inversion Hf' as [|? ? H2]; subst; cbn in *.
    + apply H2. left.
    + apply H1. left.
  - intros [Hf _]%Forall_cons. done.
Qed.
