(* ===== verification/Transformer.v ===== *)
(** * The record transformer ([plugins/driver/src/transformer.rs], 156-1090)

    [transform] splits a raw record of the kernel module into its fields, applies
    the filters of its data type, adds the fields user space knows (command
    lines, user and pod names, executable hash, process tree) and encodes the
    result into the caller's buffer.  Its state is the [Transformer], the [Kmod]
    it is given, the buffer [dst] and the world.  One definition per arm of the
    [match], each with the arm's own indices; a block the arms repeat is one
    definition ([split_fields], [count_exe], [pod_name_of], [pid_tree_of]).

    [values] is the array [[&[]; n]]: its length is fixed by [split_fields]; the
    other indices of an arm are constants below the length, which the compiler
    checks. *)

From S2P Require Import Prelude Bytes RustStd Encoder Crates DriverConfig Schema Cache Kmod.

(** The types of the crates' caches: LRU, TTL without and with a counter. *)
Class Stores (C TU TN W : Type) := {
  stores_lru :: LruCache C;
  stores_unit :: TtlCache unit TU;
  stores_count :: TtlCache Z TN;
  stores_world :: World W;
  stores_pure :: PureCrates;
}.

Section transformer.
Context {C TU TN W : Type} `{!Stores C TU TN W}.

Record Transformer := mkTransformer {
  argv_cache : ArgvCache C;
  hash_cache : HashCache C;
  ns_cache : NsCache C;
  user_cache : UserCache C;
  pid_tree_cache : C;
  connect_filter : TU;
  exe_filter : TN;
  argv_filter : TN;
  argv_dyn_filter : TN;
}.

Definition Transformer_new : Transformer := {|
  argv_cache := ArgvCache_new (1024 * 8);
  hash_cache := HashCache_new (1024 * 4);
  ns_cache := NsCache_new 1024;
  user_cache := UserCache_new 1024;
  pid_tree_cache := lru_new 2048;
  connect_filter := ttl_new CONNECT_FILTER_SIZE;
  exe_filter := ttl_new EXE_FILTER_SIZE;
  argv_filter := ttl_new ARGV_FILTER_SIZE;
  argv_dyn_filter := ttl_new ARGV_DYN_FILTER_SIZE;
|}.

(** ** State *)

Record St := mkSt { self : Transformer; kmod : Kmod; dst : bytes; world : W }.

Definition set_self (t : Transformer) (s : St) : St := mkSt t (kmod s) (dst s) (world s).
Definition set_world (w : W) (s : St) : St := mkSt (self s) (kmod s) (dst s) w.

Abbreviation M := (SM St).

Definition with_argv_cache (c : ArgvCache C) (t : Transformer) : Transformer :=
  mkTransformer c (hash_cache t) (ns_cache t) (user_cache t) (pid_tree_cache t)
    (connect_filter t) (exe_filter t) (argv_filter t) (argv_dyn_filter t).
Definition with_hash_cache (c : HashCache C) (t : Transformer) : Transformer :=
  mkTransformer (argv_cache t) c (ns_cache t) (user_cache t) (pid_tree_cache t)
    (connect_filter t) (exe_filter t) (argv_filter t) (argv_dyn_filter t).
Definition with_ns_cache (c : NsCache C) (t : Transformer) : Transformer :=
  mkTransformer (argv_cache t) (hash_cache t) c (user_cache t) (pid_tree_cache t)
    (connect_filter t) (exe_filter t) (argv_filter t) (argv_dyn_filter t).
Definition with_user_cache (c : UserCache C) (t : Transformer) : Transformer :=
  mkTransformer (argv_cache t) (hash_cache t) (ns_cache t) c (pid_tree_cache t)
    (connect_filter t) (exe_filter t) (argv_filter t) (argv_dyn_filter t).
Definition with_pid_tree_cache (c : C) (t : Transformer) : Transformer :=
  mkTransformer (argv_cache t) (hash_cache t) (ns_cache t) (user_cache t) c
    (connect_filter t) (exe_filter t) (argv_filter t) (argv_dyn_filter t).
Definition with_connect_filter (c : TU) (t : Transformer) : Transformer :=
  mkTransformer (argv_cache t) (hash_cache t) (ns_cache t) (user_cache t) (pid_tree_cache t)
    c (exe_filter t) (argv_filter t) (argv_dyn_filter t).
Definition with_exe_filter (c : TN) (t : Transformer) : Transformer :=
  mkTransformer (argv_cache t) (hash_cache t) (ns_cache t) (user_cache t) (pid_tree_cache t)
    (connect_filter t) c (argv_filter t) (argv_dyn_filter t).
Definition with_argv_filter (c : TN) (t : Transformer) : Transformer :=
  mkTransformer (argv_cache t) (hash_cache t) (ns_cache t) (user_cache t) (pid_tree_cache t)
    (connect_filter t) (exe_filter t) c (argv_dyn_filter t).
Definition with_argv_dyn_filter (c : TN) (t : Transformer) : Transformer :=
  mkTransformer (argv_cache t) (hash_cache t) (ns_cache t) (user_cache t) (pid_tree_cache t)
    (connect_filter t) (exe_filter t) (argv_filter t) c.

(** Calls into the parts. *)
Definition on_kmod {A} (m : SM (Kmod * W) A) : M A := fun s =>
  let '(r, (k, w)) := m (kmod s, world s) in (r, mkSt (self s) k (dst s) w).
Definition on_dst {A} (m : SM bytes A) : M A := fun s =>
  let '(r, d) := m (dst s) in (r, mkSt (self s) (kmod s) d (world s)).
Definition read_clock : M Z := fun s => let (t, w) := instant_now (world s) in (Ret t, set_world w s).
Definition get_self : M Transformer := sm_gets self.
Definition modify_self (f : Transformer -> Transformer) : M unit := sm_modify (fun s => set_self (f (self s)) s).

Definition argv_of (pid : bytes) : M bytes := fun s =>
  let '(v, (c, w)) := ArgvCache_get pid (argv_cache (self s)) (world s) in
  (Ret v, set_world w (set_self (with_argv_cache c (self s)) s)).
Definition put_argv (pid argv : bytes) : M unit :=
  modify_self (fun t => with_argv_cache (ArgvCache_put pid argv (argv_cache t)) t).
Definition hash_of (exe : bytes) : M bytes := fun s =>
  let '(v, (c, w)) := HashCache_get exe (hash_cache (self s)) (world s) in
  (Ret v, set_world w (set_self (with_hash_cache c (self s)) s)).
Definition username_of (uid : bytes) : M bytes := fun s =>
  let '(v, (c, w)) := UserCache_get uid (user_cache (self s)) (world s) in
  (Ret v, set_world w (set_self (with_user_cache c (self s)) s)).
Definition ns_get (pns pid : bytes) : M bytes := fun s =>
  let '(v, (c, w)) := NsCache_get pns pid (ns_cache (self s)) (world s) in
  (Ret v, set_world w (set_self (with_ns_cache c (self s)) s)).

(** ** The blocks the arms share *)

(** [values[i]] *)
Definition at_ (values : list bytes) (i : nat) : bytes := default [] (values !! i).

(** [values[i] = v], [i] a constant *)
Definition set_at (i : nat) (v : bytes) (values : list bytes) : list bytes := <[i := v]> values.

(** [values[index] = v], [index] computed *)
Definition set_value (index : nat) (v : bytes) (values : list bytes) : outcome (list bytes) :=
  if decide (index < length values) then Ret (<[index := v]> values) else Panic.

(** The loop [for i in 0..data.len()]; [rest] is [data[i..]]. *)
Fixpoint split_loop (data rest : bytes) (i index base_index : nat) (values : list bytes)
    : outcome (list bytes) :=
  match rest with
  | [] => set_value index (drop base_index data) values
  | c :: rest' =>
      if bool_decide (c = x1e) then
        values ← set_value index (slice data base_index i) values;
        split_loop data rest' (S i) (S index) (S i) values
      else split_loop data rest' (S i) index base_index values
  end.
Definition split_fields (n : nat) (data : bytes) : M (list bytes) :=
  sm_lift (split_loop data data 0 0 0 (replicate n [])).

(** The executables whose rate is not watched. *)
Definition unwatched_exe (exe : bytes) : bool :=
  starts_with exe (bs "/bin/") || starts_with exe (bs "/sbin/")
  || starts_with exe (bs "/usr/bin/") || starts_with exe (bs "/usr/sbin/")
  || bool_decide (exe = bs "-1") || bool_decide (exe = bs "-2") || bool_decide (exe = bs "").

(** [if let Some(value) = self.exe_filter.get_mut(exe) { .. } else { .. }] *)
Definition bump_exe (exe : bytes) : M unit :=
  t ← get_self; now ← read_clock;
  match ttl_get_mut now exe (exe_filter t) with
  | Some value =>
      value ← (if (value >? EXE_FILTER_QUOTA)%Z then on_kmod (add_filtered_exe exe) ;; mret 1%Z
               else mret value);
      modify_self (fun t => with_exe_filter (ttl_set exe (value + 1)%Z (exe_filter t)) t)
  | None =>
      now ← read_clock;
      modify_self (fun t => with_exe_filter (ttl_insert now exe 1%Z EXE_FILTER_WINDOW (exe_filter t)) t)
  end.
Definition count_exe (exe : bytes) : M unit :=
  if unwatched_exe exe then mret tt else bump_exe exe.

(** The same for a command line (execve only): the counter is looked up in
    [argv_filter]; a new one goes into [exe_filter]. *)
Definition bump_argv (argv : bytes) : M unit :=
  t ← get_self; now ← read_clock;
  match ttl_get_mut now argv (argv_filter t) with
  | Some value =>
      value ← (if (value >? ARGV_FILTER_QUOTA)%Z then on_kmod (add_filtered_argv argv) ;; mret 1%Z
               else mret value);
      modify_self (fun t => with_argv_filter (ttl_set argv (value + 1)%Z (argv_filter t)) t)
  | None =>
      now ← read_clock;
      modify_self (fun t => with_exe_filter (ttl_insert now argv 1%Z ARGV_FILTER_WINDOW (exe_filter t)) t)
  end.

(** [argv_dyn_filter]: whether the record is dropped. *)
Definition argv_over_quota (argv : bytes) : M bool :=
  if bool_decide (argv = bs "-3") then mret false
  else
    t ← get_self; now ← read_clock;
    match ttl_get_mut now argv (argv_dyn_filter t) with
    | Some counter =>
        if (counter >? ARGV_DYN_FILTER_QUOTA)%Z then mret true
        else
          modify_self (fun t =>
            with_argv_dyn_filter (ttl_set argv (counter + 1)%Z (argv_dyn_filter t)) t) ;;
          mret false
    | None =>
        now ← read_clock;
        modify_self (fun t =>
          with_argv_dyn_filter (ttl_insert now argv 0%Z ARGV_DYN_FILTER_WINDOW (argv_dyn_filter t)) t) ;;
        mret false
    end.

(** The destination of a connect is a local address. *)
Definition local_address (sa_family dip : bytes) : bool :=
  if bool_decide (sa_family = bs "10") then
    match (if utf8_valid dip then parse_ipv6 dip else None) with
    | Some ip => ipv6_range_contains IPV6_FILTER ip
    | None => false
    end
  else
    match (if utf8_valid dip then parse_ipv4 dip else None) with
    | Some ip => ipv4_range_contains IPV4_FILTER ip
    | None => false
    end.

(** sid dip dport res *)
Definition connect_key (values : list bytes) : bytes :=
  at_ values 6 ++ at_ values 13 ++ at_ values 14 ++ at_ values 17.

Definition connect_seen (key : bytes) : M bool :=
  t ← get_self; now ← read_clock;
  if ttl_contains_key now key (connect_filter t) then mret true
  else
    now ← read_clock;
    modify_self (fun t => with_connect_filter (ttl_insert now key tt CONNECT_FILTER_TIME (connect_filter t)) t) ;;
    mret false.

Definition connect_filtered (values : list bytes) : M bool :=
  if local_address (at_ values 12) (at_ values 13) then mret true
  else connect_seen (connect_key values).

(** [for i in DNS_SUFFIX_WHITELIST { flag = ..; break; }] *)
Definition dns_whitelisted (query : bytes) : bool :=
  match DNS_SUFFIX_WHITELIST with
  | [] => false
  | i :: _ => ends_with query i
  end.

Definition pod_name_of (values : list bytes) : M bytes :=
  if decide (at_ values 10 <> at_ values 11) then ns_get (at_ values 10) (at_ values 6)
  else mret (bs "-3").

Definition pid_tree_of (tgid : bytes) : M bytes := fun s =>
  let (v, c) := lru_get_mut tgid (pid_tree_cache (self s)) in
  (Ret (default (bs "-3") v), set_self (with_pid_tree_cache c (self s)) s).
Definition put_pid_tree (tgid pid_tree : bytes) : M unit :=
  modify_self (fun t => with_pid_tree_cache (lru_insert tgid pid_tree (pid_tree_cache t)) t).

Definition schema_get (data_type : Z) : M (list bytes) :=
  match SCHEMA !! data_type with Some keys => mret keys | None => sm_panic end.

(** [encode] of a release build *)
Definition encode (timestamp : Z) (keys values : list bytes) (data_type : Z) : M nat :=
  on_dst (protobuf_encode timestamp keys values data_type).

(** ** The arms *)

(** The part of arm 42 behind its filters. *)
Definition report_connect (timestamp : Z) (keys values : list bytes) : M nat :=
  argv ← argv_of (at_ values 5); let values := set_at 18 argv values in
  ppid_argv ← argv_of (at_ values 3); let values := set_at 19 ppid_argv values in
  pgid_argv ← argv_of (at_ values 4); let values := set_at 20 pgid_argv values in
  username ← username_of (at_ values 0); let values := set_at 21 username values in
  pod_name ← pod_name_of values; let values := set_at 22 pod_name values in
  exe_hash ← hash_of (at_ values 1); let values := set_at 23 exe_hash values in
  pid_tree ← pid_tree_of (at_ values 5); let values := set_at 24 pid_tree values in
  encode timestamp keys values 42.

Definition transform_42 (timestamp : Z) (data : bytes) : M nat :=
  keys ← schema_get 42;
  values ← split_fields 25 data;
  count_exe (at_ values 1) ;;
  filtered ← connect_filtered values;
  if (filtered : bool) then mret 0
  else report_connect timestamp keys values.

Definition transform_49 (timestamp : Z) (data : bytes) : M nat :=
  keys ← schema_get 49;
  values ← split_fields 23 data;
  count_exe (at_ values 1) ;;
  argv ← argv_of (at_ values 5); let values := set_at 16 argv values in
  ppid_argv ← argv_of (at_ values 3); let values := set_at 17 ppid_argv values in
  pgid_argv ← argv_of (at_ values 4); let values := set_at 18 pgid_argv values in
  username ← username_of (at_ values 0); let values := set_at 19 username values in
  pod_name ← pod_name_of values; let values := set_at 20 pod_name values in
  exe_hash ← hash_of (at_ values 1); let values := set_at 21 exe_hash values in
  pid_tree ← pid_tree_of (at_ values 5); let values := set_at 22 pid_tree values in
  encode timestamp keys values 49.

Definition transform_59 (timestamp : Z) (data : bytes) : M nat :=
  keys ← schema_get 59;
  values ← split_fields 33 data;
  put_argv (at_ values 5) (at_ values 12) ;;
  put_pid_tree (at_ values 5) (at_ values 21) ;;
  (if unwatched_exe (at_ values 1) then mret tt
     else bump_exe (at_ values 1) ;; bump_argv (at_ values 12)) ;;
  socket_argv ← argv_of (at_ values 23); let values := set_at 27 socket_argv values in
  ppid_argv ← argv_of (at_ values 3); let values := set_at 28 ppid_argv values in
  if decide (ppid_argv ∈ PPID_ARGV_WHITELIST) then mret 0
  else
    pgid_argv ← argv_of (at_ values 4);
    if decide (pgid_argv ∈ PGID_ARGV_WHITELIST) then mret 0
    else
      let values := set_at 29 pgid_argv values in
      username ← username_of (at_ values 0); let values := set_at 30 username values in
      pod_name ← pod_name_of values; let values := set_at 31 pod_name values in
      exe_hash ← hash_of (at_ values 1); let values := set_at 32 exe_hash values in
      encode timestamp keys values 59.

Definition transform_82_86 (data_type timestamp : Z) (data : bytes) : M nat :=
  keys ← schema_get data_type;
  values ← split_fields 22 data;
  count_exe (at_ values 1) ;;
  argv ← argv_of (at_ values 5); let values := set_at 15 argv values in
  ppid_argv ← argv_of (at_ values 3); let values := set_at 16 ppid_argv values in
  pgid_argv ← argv_of (at_ values 4); let values := set_at 17 pgid_argv values in
  username ← username_of (at_ values 0); let values := set_at 18 username values in
  pod_name ← pod_name_of values; let values := set_at 19 pod_name values in
  exe_hash ← hash_of (at_ values 1); let values := set_at 20 exe_hash values in
  pid_tree ← pid_tree_of (at_ values 5); let values := set_at 21 pid_tree values in
  encode timestamp keys values data_type.

Definition transform_101 (timestamp : Z) (data : bytes) : M nat :=
  keys ← schema_get 101;
  values ← split_fields 24 data;
  argv ← argv_of (at_ values 5); let values := set_at 17 argv values in
  ppid_argv ← argv_of (at_ values 3); let values := set_at 18 ppid_argv values in
  pgid_argv ← argv_of (at_ values 4); let values := set_at 19 pgid_argv values in
  username ← username_of (at_ values 0); let values := set_at 20 username values in
  pod_name ← pod_name_of values; let values := set_at 21 pod_name values in
  exe_hash ← hash_of (at_ values 1); let values := set_at 22 exe_hash values in
  target_argv ← argv_of (at_ values 13); let values := set_at 23 target_argv values in
  put_pid_tree (at_ values 5) (at_ values 16) ;;
  encode timestamp keys values 101.

Definition transform_112 (timestamp : Z) (data : bytes) : M nat :=
  keys ← schema_get 112;
  values ← split_fields 19 data;
  count_exe (at_ values 1) ;;
  argv ← argv_of (at_ values 5); let values := set_at 12 argv values in
  ppid_argv ← argv_of (at_ values 3); let values := set_at 13 ppid_argv values in
  pgid_argv ← argv_of (at_ values 4); let values := set_at 14 pgid_argv values in
  username ← username_of (at_ values 0); let values := set_at 15 username values in
  pod_name ← pod_name_of values; let values := set_at 16 pod_name values in
  exe_hash ← hash_of (at_ values 1); let values := set_at 17 exe_hash values in
  pid_tree ← pid_tree_of (at_ values 5); let values := set_at 18 pid_tree values in
  encode timestamp keys values 112.

Definition transform_157 (timestamp : Z) (data : bytes) : M nat :=
  keys ← schema_get 157;
  values ← split_fields 21 data;
  count_exe (at_ values 1) ;;
  argv ← argv_of (at_ values 5);
  over ← argv_over_quota argv;
  if (over : bool) then mret 0
  else
    let values := set_at 14 argv values in
    ppid_argv ← argv_of (at_ values 3); let values := set_at 15 ppid_argv values in
    pgid_argv ← argv_of (at_ values 4); let values := set_at 16 pgid_argv values in
    username ← username_of (at_ values 0); let values := set_at 17 username values in
    pod_name ← pod_name_of values; let values := set_at 18 pod_name values in
    exe_hash ← hash_of (at_ values 1); let values := set_at 19 exe_hash values in
    pid_tree ← pid_tree_of (at_ values 5); let values := set_at 20 pid_tree values in
    encode timestamp keys values 157.

Definition transform_165 (timestamp : Z) (data : bytes) : M nat :=
  keys ← schema_get 165;
  values ← split_fields 23 data;
  count_exe (at_ values 1) ;;
  argv ← argv_of (at_ values 5); let values := set_at 17 argv values in
  ppid_argv ← argv_of (at_ values 3); let values := set_at 18 ppid_argv values in
  pgid_argv ← argv_of (at_ values 4); let values := set_at 19 pgid_argv values in
  username ← username_of (at_ values 0); let values := set_at 20 username values in
  pod_name ← pod_name_of values; let values := set_at 21 pod_name values in
  exe_hash ← hash_of (at_ values 1); let values := set_at 22 exe_hash values in
  put_pid_tree (at_ values 5) (at_ values 12) ;;
  encode timestamp keys values 165.

Definition transform_356 (timestamp : Z) (data : bytes) : M nat :=
  keys ← schema_get 356;
  values ← split_fields 21 data;
  argv ← argv_of (at_ values 5); let values := set_at 14 argv values in
  ppid_argv ← argv_of (at_ values 3); let values := set_at 15 ppid_argv values in
  pgid_argv ← argv_of (at_ values 4); let values := set_at 16 pgid_argv values in
  username ← username_of (at_ values 0); let values := set_at 17 username values in
  pod_name ← pod_name_of values; let values := set_at 18 pod_name values in
  exe_hash ← hash_of (at_ values 1); let values := set_at 19 exe_hash values in
  pid_tree ← pid_tree_of (at_ values 5); let values := set_at 20 pid_tree values in
  encode timestamp keys values 356.

Definition transform_601 (timestamp : Z) (data : bytes) : M nat :=
  keys ← schema_get 601;
  values ← split_fields 27 data;
  if dns_whitelisted (at_ values 12) then mret 0
  else
    count_exe (at_ values 1) ;;
    argv ← argv_of (at_ values 5); let values := set_at 20 argv values in
    ppid_argv ← argv_of (at_ values 3); let values := set_at 21 ppid_argv values in
    pgid_argv ← argv_of (at_ values 4); let values := set_at 22 pgid_argv values in
    username ← username_of (at_ values 0); let values := set_at 23 username values in
    pod_name ← pod_name_of values; let values := set_at 24 pod_name values in
    exe_hash ← hash_of (at_ values 1); let values := set_at 25 exe_hash values in
    pid_tree ← pid_tree_of (at_ values 5); let values := set_at 26 pid_tree values in
    encode timestamp keys values 601.

Definition transform_602 (timestamp : Z) (data : bytes) : M nat :=
  keys ← schema_get 602;
  values ← split_fields 28 data;
  count_exe (at_ values 1) ;;
  argv ← argv_of (at_ values 5);
  over ← argv_over_quota argv;
  if (over : bool) then mret 0
  else
    let values := set_at 20 argv values in
    ppid_argv ← argv_of (at_ values 3); let values := set_at 21 ppid_argv values in
    pgid_argv ← argv_of (at_ values 4); let values := set_at 22 pgid_argv values in
    username ← username_of (at_ values 0); let values := set_at 23 username values in
    pod_name ← pod_name_of values; let values := set_at 24 pod_name values in
    exe_hash ← hash_of (at_ values 1); let values := set_at 25 exe_hash values in
    pid_tree ← pid_tree_of (at_ values 5); let values := set_at 26 pid_tree values in
    socket_argv ← argv_of (at_ values 18); let values := set_at 27 socket_argv values in
    encode timestamp keys values 602.

Definition transform_603 (timestamp : Z) (data : bytes) : M nat :=
  keys ← schema_get 603;
  values ← split_fields 21 data;
  argv ← argv_of (at_ values 5); let values := set_at 15 argv values in
  ppid_argv ← argv_of (at_ values 3); let values := set_at 16 ppid_argv values in
  pgid_argv ← argv_of (at_ values 4); let values := set_at 17 pgid_argv values in
  username ← username_of (at_ values 0); let values := set_at 18 username values in
  pod_name ← pod_name_of values; let values := set_at 19 pod_name values in
  exe_hash ← hash_of (at_ values 1); let values := set_at 20 exe_hash values in
  put_pid_tree (at_ values 5) (at_ values 13) ;;
  encode timestamp keys values 603.

Definition transform_604 (timestamp : Z) (data : bytes) : M nat :=
  keys ← schema_get 604;
  values ← split_fields 22 data;
  argv ← argv_of (at_ values 5); let values := set_at 15 argv values in
  ppid_argv ← argv_of (at_ values 3); let values := set_at 16 ppid_argv values in
  pgid_argv ← argv_of (at_ values 4); let values := set_at 17 pgid_argv values in
  username ← username_of (at_ values 0); let values := set_at 18 username values in
  pod_name ← pod_name_of values; let values := set_at 19 pod_name values in
  exe_hash ← hash_of (at_ values 1); let values := set_at 20 exe_hash values in
  put_pid_tree (at_ values 5) (at_ values 12) ;;
  old_username ← username_of (at_ values 13); let values := set_at 21 old_username values in
  encode timestamp keys values 604.

Definition transform_607 (timestamp : Z) (data : bytes) : M nat :=
  keys ← schema_get 607;
  values ← split_fields 3 data;
  encode timestamp keys values 607.

Definition transform_608_609 (data_type timestamp : Z) (data : bytes) : M nat :=
  keys ← schema_get data_type;
  values ← split_fields 22 data;
  argv ← argv_of (at_ values 5); let values := set_at 14 argv values in
  ppid_argv ← argv_of (at_ values 3); let values := set_at 15 ppid_argv values in
  pgid_argv ← argv_of (at_ values 4); let values := set_at 16 pgid_argv values in
  username ← username_of (at_ values 0); let values := set_at 17 username values in
  pod_name ← pod_name_of values; let values := set_at 18 pod_name values in
  exe_hash ← hash_of (at_ values 1); let values := set_at 19 exe_hash values in
  pid_tree ← pid_tree_of (at_ values 5); let values := set_at 20 pid_tree values in
  encode timestamp keys values data_type.

Definition transform_610 (timestamp : Z) (data : bytes) : M nat :=
  keys ← schema_get 610;
  values ← split_fields 23 data;
  argv ← argv_of (at_ values 5); let values := set_at 16 argv values in
  ppid_argv ← argv_of (at_ values 3); let values := set_at 17 ppid_argv values in
  pgid_argv ← argv_of (at_ values 4); let values := set_at 18 pgid_argv values in
  username ← username_of (at_ values 0); let values := set_at 19 username values in
  pod_name ← pod_name_of values; let values := set_at 20 pod_name values in
  exe_hash ← hash_of (at_ values 1); let values := set_at 21 exe_hash values in
  pid_tree ← pid_tree_of (at_ values 5); let values := set_at 22 pid_tree values in
  encode timestamp keys values 610.

Definition transform_611 (timestamp : Z) (data : bytes) : M nat :=
  keys ← schema_get 611;
  values ← split_fields 24 data;
  argv ← argv_of (at_ values 5); let values := set_at 16 argv values in
  ppid_argv ← argv_of (at_ values 3); let values := set_at 17 ppid_argv values in
  pgid_argv ← argv_of (at_ values 4); let values := set_at 18 pgid_argv values in
  username ← username_of (at_ values 0); let values := set_at 19 username values in
  pod_name ← pod_name_of values; let values := set_at 20 pod_name values in
  exe_hash ← hash_of (at_ values 1); let values := set_at 21 exe_hash values in
  pid_tree ← pid_tree_of (at_ values 5); let values := set_at 22 pid_tree values in
  dpid_argv ← argv_of (at_ values 12); let values := set_at 23 dpid_argv values in
  encode timestamp keys values 611.

Definition transform_700_702 (data_type timestamp : Z) (data : bytes) : M nat :=
  keys ← schema_get data_type;
  values ← split_fields 1 data;
  encode timestamp keys values data_type.

Definition transform_701_703 (data_type timestamp : Z) (data : bytes) : M nat :=
  keys ← schema_get data_type;
  values ← split_fields 2 data;
  encode timestamp keys values data_type.

(** ** [transform] *)

(** The first loop: the index of the first separator, or the length. *)
Fixpoint find_separator (data : bytes) : nat :=
  match data with
  | [] => 0
  | c :: data' => if bool_decide (c = x1e) then 0 else S (find_separator data')
  end.

(** [SystemTime::now().duration_since(UNIX_EPOCH).unwrap().as_secs()] *)
Definition read_unix_time : M Z := fun s =>
  let (t, w) := unix_time (world s) in
  ((if (t <? 0)%Z then Panic else Ret t), set_world w s).

Definition transform_arm (data_type timestamp : Z) (data : bytes) : M nat :=
  let is_ dt := bool_decide (data_type = dt) in
  if is_ 42%Z then transform_42 timestamp data
  else if is_ 49%Z then transform_49 timestamp data
  else if is_ 59%Z then transform_59 timestamp data
  else if is_ 82%Z || is_ 86%Z then transform_82_86 data_type timestamp data
  else if is_ 101%Z then transform_101 timestamp data
  else if is_ 112%Z then transform_112 timestamp data
  else if is_ 157%Z then transform_157 timestamp data
  else if is_ 165%Z then transform_165 timestamp data
  else if is_ 356%Z then transform_356 timestamp data
  else if is_ 601%Z then transform_601 timestamp data
  else if is_ 602%Z then transform_602 timestamp data
  else if is_ 603%Z then transform_603 timestamp data
  else if is_ 604%Z then transform_604 timestamp data
  else if is_ 607%Z then transform_607 timestamp data
  else if is_ 608%Z || is_ 609%Z then transform_608_609 data_type timestamp data
  else if is_ 610%Z then transform_610 timestamp data
  else if is_ 611%Z then transform_611 timestamp data
  else if is_ 700%Z || is_ 702%Z then transform_700_702 data_type timestamp data
  else if is_ 701%Z || is_ 703%Z then transform_701_703 data_type timestamp data
  else sm_fail (UnknownDataType data_type).

Definition transform (data : bytes) : M nat :=
  let index := find_separator data in
  if utf8_valid (take index data) then
    match parse_u32 (take index data) with
    | None => sm_fail ParseIntError
    | Some data_type =>
        timestamp ← read_unix_time;
        if decide (index + 1 <= length data)
        then transform_arm data_type timestamp (drop (index + 1) data)
        else sm_panic
    end
  else sm_fail Utf8Error.
End transformer.

Arguments Transformer : clear implicits.
Arguments St : clear implicits.
