(* ===== verification/TransformerSpec.v ===== *)
(** * What [transform] writes

    [transform_encodes]: on a record of a known type with no more fields than its
    array holds, [transform] either drops the record and leaves the buffer alone
    or does what [protobuf_encode] does on an array of the type's length that
    holds the kernel's fields unchanged.  [preserved] carries an invariant of the
    state through every arm. *)

From S2P Require Import Prelude Bytes RustStd Encoder Crates DriverConfig Schema Cache Kmod Transformer.

(** ** Splitting *)

Fixpoint write_fields (index : nat) (fs values : list bytes) : outcome (list bytes) :=
  match fs with
  | [] => Ret values
  | f :: fs' => values ← set_value index f values; write_fields (S index) fs' values
  end.

Lemma slice_snoc data rest c base i :
  drop i data = c :: rest -> base <= i -> slice data base (S i) = slice data base i ++ [c].
Proof.
  intros Hd Hb. unfold slice. replace (S i - base) with ((i - base) + 1) by lia.
  rewrite <- take_take_drop. f_equal. rewrite drop_drop. replace (base + (i - base)) with i by lia.
  by rewrite Hd.
Qed.

Lemma split_loop_spec data rest i index base values f fs :
  drop i data = rest -> base <= i -> split_on x1e rest = f :: fs ->
  split_loop data rest i index base values
  = write_fields index ((slice data base i ++ f) :: fs) values.
Proof.
  revert i index base values f fs.
  induction rest as [|c rest IH]; intros i index base values f fs Hd Hb Hs; cbn [split_loop].
  - injection Hs as <- <-. cbn [write_fields]. rewrite app_nil_r.
    assert (slice data base i = drop base data) as ->.
    { unfold slice. apply take_ge. rewrite length_drop.
      assert (length (drop i data) = 0) as Hl by (by rewrite Hd). rewrite length_drop in Hl. lia. }
    by destruct (set_value _ _ _).
  - assert (Hd' : drop (S i) data = rest).
    { replace (S i) with (i + 1) by lia. rewrite <- drop_drop, Hd. done. }
    cbn [split_on] in Hs. case_bool_decide as Hc.
    + injection Hs as <- <-. cbn [write_fields]. rewrite app_nil_r.
      destruct (set_value index _ values) as [vs|e|]; [|done..]. cbn [mbind outcome_bind].
      pose proof (split_on_nonempty x1e rest). destruct (split_on x1e rest) as [|f' fs'] eqn:E; [done|].
      rewrite (IH (S i) (S index) (S i) vs f' fs') by (done || lia).
      unfold slice. by rewrite Nat.sub_diag.
    + pose proof (split_on_nonempty x1e rest). destruct (split_on x1e rest) as [|f' fs'] eqn:E; [done|].
      injection Hs as <- <-. rewrite (IH (S i) index base values f' fs') by (done || lia).
      rewrite (slice_snoc data rest c) by done. by rewrite <- app_assoc.
Qed.

Lemma write_fields_spec pre fs n :
  write_fields (length pre) fs (pre ++ replicate n [])
  = if decide (length fs <= n) then Ret (pre ++ fs ++ replicate (n - length fs) []) else Panic.
Proof.
  revert pre n. induction fs as [|f fs IH]; intros pre n; cbn [write_fields length].
  - rewrite decide_True by lia. by rewrite Nat.sub_0_r.
  - unfold set_value. rewrite length_app, length_replicate. destruct n as [|n].
    + rewrite !decide_False by lia. done.
    + rewrite decide_True by lia. cbn [mbind outcome_bind replicate].
      rewrite insert_app_r_alt, Nat.sub_diag by lia. cbn.
      replace (S (length pre)) with (length (pre ++ [f])) by (rewrite length_app; cbn; lia).
      replace (pre ++ f :: replicate n []) with ((pre ++ [f]) ++ replicate n []) by (by rewrite <- app_assoc).
      rewrite IH. repeat case_decide; try lia; [|done]. by rewrite <- app_assoc.
Qed.

(** The fields of a record in an array of [n]. *)
Definition fields_of (n : nat) (data : bytes) : list bytes :=
  let fs := split_on x1e data in fs ++ replicate (n - length fs) [].

Lemma length_fields_of n data :
  length (split_on x1e data) <= n -> length (fields_of n data) = n.
Proof. intros H. unfold fields_of. rewrite length_app, length_replicate. lia. Qed.

Lemma split_loop_fields n data :
  split_loop data data 0 0 0 (replicate n [])
  = if decide (length (split_on x1e data) <= n) then Ret (fields_of n data) else Panic.
Proof.
  pose proof (split_on_nonempty x1e data). destruct (split_on x1e data) as [|f fs] eqn:E; [done|].
  rewrite (split_loop_spec data data 0 0 0 _ f fs) by (done || lia).
  change (slice data 0 0 ++ f) with (take 0 (drop 0 data) ++ f). rewrite take_0. cbn [app].
  etransitivity; [apply (write_fields_spec [] (f :: fs) n)|]. unfold fields_of. by rewrite E.
Qed.

(** ** Calls that return, and what they leave alone *)

Section spec.
Context {C TU TN W : Type} `{!Stores C TU TN W}.
Abbreviation St := (St C TU TN W).

Definition calm {A} (I : St -> Prop) (m : SM St A) : Prop :=
  forall s, I s -> exists a s', m s = (Ret a, s') /\ I s'.
Definition spec {A} (I : St -> Prop) (m : SM St A) (Q : outcome A -> St -> Prop) : Prop :=
  forall s, I s -> Q (m s).1 (m s).2.

Lemma calm_ret {A} I (a : A) : calm I (mret a).
Proof. intros s Hs. by exists a, s. Qed.

Lemma calm_bind {A B} I (m : SM St A) (k : A -> SM St B) :
  calm I m -> (forall a, calm I (k a)) -> calm I (m ≫= k).
Proof.
  intros Hm Hk s Hs. destruct (Hm s Hs) as (a & s' & E & Hs').
  erewrite sm_bind_ret by exact E. by apply Hk.
Qed.

Lemma spec_bind {A B} I (m : SM St A) (k : A -> SM St B) Q :
  calm I m -> (forall a, spec I (k a) Q) -> spec I (m ≫= k) Q.
Proof.
  intros Hm Hk s Hs. destruct (Hm s Hs) as (a & s' & E & Hs').
  rewrite (sm_bind_ret m k s a s' E). by apply Hk.
Qed.

(** The control file is open and the buffer is [d]. *)
Definition open_at (d : bytes) (s : St) : Prop := is_Some (controler (kmod s)) /\ dst s = d.

Section calls.
Variable d : bytes.
Abbreviation calm_open := (calm (open_at d)).

Lemma calm_modify f : calm_open (modify_self f).
Proof. intros s Hs. by eexists _, _. Qed.
Lemma calm_get : calm_open get_self.
Proof. intros s Hs. by eexists _, _. Qed.
Lemma calm_clock : calm_open read_clock.
Proof. intros s Hs. unfold read_clock. destruct (instant_now _). by eexists _, _. Qed.
Lemma calm_argv_of pid : calm_open (argv_of pid).
Proof. intros s Hs. unfold argv_of. destruct (ArgvCache_get _ _ _) as [v [c w]]. by eexists _, _. Qed.
Lemma calm_hash_of exe : calm_open (hash_of exe).
Proof. intros s Hs. unfold hash_of. destruct (HashCache_get _ _ _) as [v [c w]]. by eexists _, _. Qed.
Lemma calm_username_of uid : calm_open (username_of uid).
Proof. intros s Hs. unfold username_of. destruct (UserCache_get _ _ _) as [v [c w]]. by eexists _, _. Qed.
Lemma calm_ns_get pns pid : calm_open (ns_get pns pid).
Proof. intros s Hs. unfold ns_get. destruct (NsCache_get _ _ _ _) as [v [c w]]. by eexists _, _. Qed.
Lemma calm_pid_tree_of tgid : calm_open (pid_tree_of tgid).
Proof. intros s Hs. unfold pid_tree_of. destruct (lru_get_mut _ _) as [v c]. by eexists _, _. Qed.
Lemma calm_add_filtered_exe exe : calm_open (on_kmod (add_filtered_exe exe)).
Proof.
  intros s [[log Hc] Hd]. unfold on_kmod. pose proof (add_filtered_exe_eq exe (kmod s) (world s) log Hc) as E.
  cbv zeta in E. destruct (instant_now _) as [t w]. rewrite E. by eexists _, _.
Qed.
Lemma calm_add_filtered_argv argv : calm_open (on_kmod (add_filtered_argv argv)).
Proof.
  intros s [[log Hc] Hd]. unfold on_kmod. pose proof (add_filtered_argv_eq argv (kmod s) (world s) log Hc) as E.
  cbv zeta in E. destruct (instant_now _) as [t w]. rewrite E. by eexists _, _.
Qed.
End calls.

#[local] Hint Resolve calm_ret calm_modify calm_get calm_clock calm_argv_of calm_hash_of
  calm_username_of calm_ns_get calm_pid_tree_of calm_add_filtered_exe calm_add_filtered_argv : elkeid.

Ltac calm_step :=
  first [solve [auto with elkeid] | apply calm_bind; [|intros ?] | case_match].

Lemma calm_bump_exe d exe : calm (open_at d) (bump_exe exe).
Proof. unfold bump_exe. repeat calm_step. Qed.
Lemma calm_count_exe d exe : calm (open_at d) (count_exe exe).
Proof. unfold count_exe, bump_exe. repeat calm_step. Qed.
Lemma calm_bump_argv d argv : calm (open_at d) (bump_argv argv).
Proof. unfold bump_argv. repeat calm_step. Qed.
Lemma calm_argv_over_quota d argv : calm (open_at d) (argv_over_quota argv).
Proof. unfold argv_over_quota. repeat calm_step. Qed.
Lemma calm_connect_filtered d values : calm (open_at d) (connect_filtered values).
Proof. unfold connect_filtered, connect_seen. repeat calm_step. Qed.
Lemma calm_pod_name_of d values : calm (open_at d) (pod_name_of values).
Proof. unfold pod_name_of. repeat calm_step. Qed.
Lemma calm_put_argv d pid argv : calm (open_at d) (put_argv pid argv).
Proof. apply calm_modify. Qed.
Lemma calm_put_pid_tree d tgid tree : calm (open_at d) (put_pid_tree tgid tree).
Proof. apply calm_modify. Qed.
#[local] Hint Resolve calm_bump_exe calm_count_exe calm_bump_argv calm_argv_over_quota
  calm_connect_filtered calm_pod_name_of calm_put_argv calm_put_pid_tree : elkeid.

(** ** The arms *)

(** The outcome of an arm: the record is dropped, or an array of [n] values whose
    first [k] are the kernel's fields is encoded. *)
Definition encodes (n k : nat) (ts dt : Z) (keys : list bytes) (data d : bytes)
    (r : outcome nat) (s' : St) : Prop :=
  (r = Ret 0 /\ dst s' = d)
  \/ exists values, length values = n /\ take k values = take k (fields_of n data)
       /\ (r, dst s') = protobuf_encode ts keys values dt d.

Lemma spec_schema dt keys d (k : list bytes -> SM St nat) Q :
  SCHEMA !! dt = Some keys -> spec (open_at d) (k keys) Q -> spec (open_at d) (schema_get dt ≫= k) Q.
Proof. intros E Hk s Hs. unfold schema_get. rewrite E. by apply Hk. Qed.

Lemma spec_split n data d (k : list bytes -> SM St nat) Q :
  length (split_on x1e data) <= n -> spec (open_at d) (k (fields_of n data)) Q ->
  spec (open_at d) (split_fields n data ≫= k) Q.
Proof.
  intros Hl Hk s Hs. unfold split_fields, sm_lift. rewrite split_loop_fields, decide_True by done.
  by apply Hk.
Qed.

Lemma spec_drop n k ts dt keys data d :
  spec (open_at d) (mret 0) (encodes n k ts dt keys data d).
Proof. intros s [_ Hd]. by left. Qed.

Lemma spec_encode n k ts dt keys data d values :
  length values = n -> take k values = take k (fields_of n data) ->
  spec (open_at d) (encode ts keys values dt) (encodes n k ts dt keys data d).
Proof.
  intros Hn Hk s [_ Hd]. right. exists values. split_and!; [done..|].
  unfold encode, on_dst. rewrite Hd. by destruct (protobuf_encode _ _ _ _ _) as [r d'].
Qed.

Lemma take_set_at k i v values : k <= i -> take k (set_at i v values) = take k values.
Proof. intros. unfold set_at. by rewrite take_insert_ge. Qed.
Lemma length_set_at i v values : length (set_at i v values) = length values.
Proof. apply length_insert. Qed.

Ltac arm_step :=
  lazymatch goal with
  | |- spec _ (mret 0) _ => apply spec_drop
  | |- spec _ (encode _ _ _ _) _ =>
      apply spec_encode; [rewrite ?length_set_at, length_fields_of by done; done
                         |rewrite ?take_set_at by lia; done]
  | |- spec _ (schema_get _ ≫= _) _ => eapply spec_schema; [eassumption|]
  | |- spec _ (split_fields _ _ ≫= _) _ => apply spec_split; [done|]
  | |- spec _ (if _ then _ else _) _ => case_match
  | |- spec _ (_ ≫= _) _ => apply spec_bind; [repeat calm_step|intros ?; cbv zeta]
  end.
(** The length of the array of each data type and the number of fields the
    kernel sends for it. *)
Definition layouts : list (Z * (nat * nat)) :=
  [(42%Z, (25, 18)); (49%Z, (23, 16)); (59%Z, (33, 27)); (82%Z, (22, 15)); (86%Z, (22, 15));
   (101%Z, (24, 17)); (112%Z, (19, 12)); (157%Z, (21, 14)); (165%Z, (23, 17)); (356%Z, (21, 14));
   (601%Z, (27, 20)); (602%Z, (28, 20)); (603%Z, (21, 15)); (604%Z, (22, 15)); (607%Z, (3, 3));
   (608%Z, (22, 14)); (609%Z, (22, 14)); (610%Z, (23, 16)); (611%Z, (24, 16)); (700%Z, (1, 1));
   (701%Z, (2, 2)); (702%Z, (1, 1)); (703%Z, (2, 2))].
Definition layout (dt : Z) : option (nat * nat) :=
  snd <$> find (fun e => bool_decide (e.1 = dt)) layouts.

Definition arm_ok (dt : Z) (f : Z -> bytes -> SM St nat) : Prop :=
  forall n k ts data keys d,
    layout dt = Some (n, k) -> SCHEMA !! dt = Some keys -> length (split_on x1e data) <= n ->
    spec (open_at d) (f ts data) (encodes n k ts dt keys data d).

Ltac arm := intros n k ts data keys d [= <- <-] Hk Hl; repeat arm_step.

Lemma arm_42 : arm_ok 42 transform_42.
Proof. unfold transform_42, report_connect. arm. Qed.
Lemma arm_49 : arm_ok 49 transform_49.
Proof. unfold transform_49. arm. Qed.
Lemma arm_59 : arm_ok 59 transform_59.
Proof. unfold transform_59. arm. Qed.
Lemma arm_82 : arm_ok 82 (transform_82_86 82).
Proof. unfold transform_82_86. arm. Qed.
Lemma arm_86 : arm_ok 86 (transform_82_86 86).
Proof. unfold transform_82_86. arm. Qed.
Lemma arm_101 : arm_ok 101 transform_101.
Proof. unfold transform_101. arm. Qed.
Lemma arm_112 : arm_ok 112 transform_112.
Proof. unfold transform_112. arm. Qed.
Lemma arm_157 : arm_ok 157 transform_157.
Proof. unfold transform_157. arm. Qed.
Lemma arm_165 : arm_ok 165 transform_165.
Proof. unfold transform_165. arm. Qed.
Lemma arm_356 : arm_ok 356 transform_356.
Proof. unfold transform_356. arm. Qed.
Lemma arm_601 : arm_ok 601 transform_601.
Proof. unfold transform_601. arm. Qed.
Lemma arm_602 : arm_ok 602 transform_602.
Proof. unfold transform_602. arm. Qed.
Lemma arm_603 : arm_ok 603 transform_603.
Proof. unfold transform_603. arm. Qed.
Lemma arm_604 : arm_ok 604 transform_604.
Proof. unfold transform_604. arm. Qed.
Lemma arm_607 : arm_ok 607 transform_607.
Proof. unfold transform_607. arm. Qed.
Lemma arm_608 : arm_ok 608 (transform_608_609 608).
Proof. unfold transform_608_609. arm. Qed.
Lemma arm_609 : arm_ok 609 (transform_608_609 609).
Proof. unfold transform_608_609. arm. Qed.
Lemma arm_610 : arm_ok 610 transform_610.
Proof. unfold transform_610. arm. Qed.
Lemma arm_611 : arm_ok 611 transform_611.
Proof. unfold transform_611. arm. Qed.
Lemma arm_700 : arm_ok 700 (transform_700_702 700).
Proof. unfold transform_700_702. arm. Qed.
Lemma arm_701 : arm_ok 701 (transform_701_703 701).
Proof. unfold transform_701_703. arm. Qed.
Lemma arm_702 : arm_ok 702 (transform_700_702 702).
Proof. unfold transform_700_702. arm. Qed.
Lemma arm_703 : arm_ok 703 (transform_701_703 703).
Proof. unfold transform_701_703. arm. Qed.

(** ** [transform] *)

Lemma layout_elem dt n k : layout dt = Some (n, k) -> In (dt, (n, k)) layouts.
Proof.
  unfold layout. destruct (find _ layouts) as [[dt' nk]|] eqn:E; [|done]. intros [= ->].
  apply find_some in E as [Hin Hd]. apply bool_decide_eq_true in Hd. cbn in Hd. by subst.
Qed.

(** One case per data type of [layouts]. *)
Ltac each_type H :=
  apply layout_elem in H; cbn [In layouts] in H;
  repeat (destruct H as [[= <- <- <-]|H]); [..|by destruct H].

Lemma layout_range dt n k : layout dt = Some (n, k) -> (0 < dt < 2 ^ 31)%Z.
Proof. intros Hlay. each_type Hlay; done. Qed.

Lemma transform_arm_ok dt : arm_ok dt (transform_arm dt).
Proof.
  intros n k ts data keys d Hlay. pose proof Hlay as Hlay'. each_type Hlay'; revert Hlay.
  - apply arm_42.
  - apply arm_49.
  - apply arm_59.
  - apply arm_82.
  - apply arm_86.
  - apply arm_101.
  - apply arm_112.
  - apply arm_157.
  - apply arm_165.
  - apply arm_356.
  - apply arm_601.
  - apply arm_602.
  - apply arm_603.
  - apply arm_604.
  - apply arm_607.
  - apply arm_608.
  - apply arm_609.
  - apply arm_610.
  - apply arm_611.
  - apply arm_700.
  - apply arm_701.
  - apply arm_702.
  - apply arm_703.
Qed.

(** A record of the kernel module: its type, then its fields. *)
Definition raw_record (dt : Z) (fields : list bytes) : bytes :=
  show_u64 dt ++ x1e :: join x1e fields.

Lemma find_separator_app pre rest : x1e ∉ pre -> find_separator (pre ++ x1e :: rest) = length pre.
Proof.
  induction pre as [|c pre IH]; intros Hp; cbn [app find_separator].
  - by rewrite bool_decide_true.
  - apply not_elem_of_cons in Hp as [Hc Hp]. rewrite bool_decide_false by congruence. cbn. by rewrite IH.
Qed.

Lemma find_separator_none data : x1e ∉ data -> find_separator data = length data.
Proof.
  induction data as [|c data IH]; intros Hp; [done|]. cbn [find_separator].
  apply not_elem_of_cons in Hp as [Hc Hp]. rewrite bool_decide_false by congruence. cbn. by rewrite IH.
Qed.

(** Evaluate the prologue of [transform]. *)
Lemma transform_prologue dt rest ts w s :
  (0 <= dt < 2 ^ 32)%Z -> unix_time (world s) = (ts, w) -> (0 <= ts)%Z ->
  transform (show_u64 dt ++ x1e :: rest) s = transform_arm dt ts rest (set_world w s).
Proof.
  intros Hdt Hw Hts. unfold transform.
  assert (Hd : forallb is_digit (show_u64 dt) = true) by apply show_u64_digits.
  rewrite find_separator_app by (by apply digits_no_separator).
  rewrite take_app_length.
  rewrite utf8_valid_ascii by (by apply digits_ascii).
  unfold parse_u32. rewrite parse_show_u64 by lia.
  erewrite sm_bind_ret.
  2:{ unfold read_unix_time. rewrite Hw. by rewrite (proj2 (Z.ltb_ge _ _)) by lia. }
  rewrite decide_True by (rewrite length_app; cbn; lia).
  by rewrite (app_assoc (show_u64 dt) [x1e] rest : show_u64 dt ++ x1e :: rest = _),
    drop_app_length' by (rewrite length_app; cbn; lia).
Qed.

(** What [transform] does with a record of a known type. *)
Lemma transform_encodes dt n k keys fields ts w s :
  layout dt = Some (n, k) -> SCHEMA !! dt = Some keys ->
  fields <> [] -> Forall (fun f => x1e ∉ f) fields -> length fields <= n ->
  is_Some (controler (kmod s)) -> unix_time (world s) = (ts, w) -> (0 <= ts)%Z ->
  encodes n k ts dt keys (join x1e fields) (dst s)
    (transform (raw_record dt fields) s).1 (transform (raw_record dt fields) s).2.
Proof.
  intros Hlay Hk Hne Hf Hl Hc Hw Hts. unfold raw_record.
  assert (0 <= dt < 2 ^ 32)%Z by (apply layout_range in Hlay; lia).
  rewrite (transform_prologue dt _ ts w) by done.
  apply (transform_arm_ok dt n k ts (join x1e fields) keys (dst s)); try done.
  by rewrite split_on_join.
Qed.

(** The arms start alike: the keys, then the split. *)
Lemma split_panics dt n data (f : list bytes -> list bytes -> SM St nat) s :
  n < length (split_on x1e data) ->
  ((keys ← schema_get dt; values ← split_fields n data; f keys values) s).1 = Panic.
Proof.
  intros Hn. unfold schema_get. destruct (SCHEMA !! dt); [|done].
  unfold mbind, SM_bind, split_fields, sm_lift, mret, SM_ret. rewrite split_loop_fields, decide_False by lia. done.
Qed.

Lemma transform_arm_panics dt n k ts data s :
  layout dt = Some (n, k) -> n < length (split_on x1e data) -> (transform_arm dt ts data s).1 = Panic.
Proof.
  intros Hlay. each_type Hlay; intros Hn.
  - exact (split_panics 42 25 data _ s Hn).
  - exact (split_panics 49 23 data _ s Hn).
  - exact (split_panics 59 33 data _ s Hn).
  - exact (split_panics 82 22 data _ s Hn).
  - exact (split_panics 86 22 data _ s Hn).
  - exact (split_panics 101 24 data _ s Hn).
  - exact (split_panics 112 19 data _ s Hn).
  - exact (split_panics 157 21 data _ s Hn).
  - exact (split_panics 165 23 data _ s Hn).
  - exact (split_panics 356 21 data _ s Hn).
  - exact (split_panics 601 27 data _ s Hn).
  - exact (split_panics 602 28 data _ s Hn).
  - exact (split_panics 603 21 data _ s Hn).
  - exact (split_panics 604 22 data _ s Hn).
  - exact (split_panics 607 3 data _ s Hn).
  - exact (split_panics 608 22 data _ s Hn).
  - exact (split_panics 609 22 data _ s Hn).
  - exact (split_panics 610 23 data _ s Hn).
  - exact (split_panics 611 24 data _ s Hn).
  - exact (split_panics 700 1 data _ s Hn).
  - exact (split_panics 701 2 data _ s Hn).
  - exact (split_panics 702 1 data _ s Hn).
  - exact (split_panics 703 2 data _ s Hn).
Qed.

(** ** Invariants of the state *)

Definition keeps {A} (I : St -> Prop) (m : SM St A) : Prop := forall s, I s -> I (m s).2.

(** An invariant that looks at the filters and the module only. *)
Definition framed (I : St -> Prop) : Prop := forall s s',
  connect_filter (self s') = connect_filter (self s) -> exe_filter (self s') = exe_filter (self s) ->
  argv_filter (self s') = argv_filter (self s) -> argv_dyn_filter (self s') = argv_dyn_filter (self s) ->
  kmod s' = kmod s -> I s -> I s'.

(** ... and that the filters keep. *)
Record stable (I : St -> Prop) : Prop := {
  stable_framed : framed I;
  stable_bump_exe exe : keeps I (bump_exe exe);
  stable_bump_argv argv : keeps I (bump_argv argv);
  stable_over_quota argv : keeps I (argv_over_quota argv);
  stable_connect_seen key : keeps I (connect_seen key);
}.

Section framed.
Variable I : St -> Prop.
Hypothesis HF : framed I.

Lemma keeps_ret {A} (a : A) : keeps I (mret a).
Proof. by intros s Hs. Qed.
Lemma keeps_lift {A} (o : outcome A) : keeps I (sm_lift o).
Proof. by intros s Hs. Qed.
Lemma keeps_bind {A B} (m : SM St A) (k : A -> SM St B) :
  keeps I m -> (forall a, keeps I (k a)) -> keeps I (m ≫= k).
Proof.
  intros Hm Hk s Hs. specialize (Hm s Hs). unfold mbind, SM_bind.
  destruct (m s) as [[a|e|] s']; [by apply Hk|done..].
Qed.

(** A call that touches only what the invariant does not look at. *)
Ltac frame_call :=
  intros s Hs; eapply HF; [..|exact Hs];
  unfold argv_of, hash_of, username_of, ns_get, pid_tree_of, put_argv, put_pid_tree, encode, on_dst,
    read_unix_time, modify_self, sm_modify;
  repeat case_match; done.

Lemma keeps_argv_of pid : keeps I (argv_of pid).
Proof. frame_call. Qed.
Lemma keeps_hash_of exe : keeps I (hash_of exe).
Proof. frame_call. Qed.
Lemma keeps_username_of uid : keeps I (username_of uid).
Proof. frame_call. Qed.
Lemma keeps_ns_get pns pid : keeps I (ns_get pns pid).
Proof. frame_call. Qed.
Lemma keeps_pid_tree_of tgid : keeps I (pid_tree_of tgid).
Proof. frame_call. Qed.
Lemma keeps_put_argv pid argv : keeps I (put_argv pid argv).
Proof. frame_call. Qed.
Lemma keeps_put_pid_tree tgid tree : keeps I (put_pid_tree tgid tree).
Proof. frame_call. Qed.
Lemma keeps_encode ts keys values dt : keeps I (encode ts keys values dt).
Proof. frame_call. Qed.
Lemma keeps_unix_time : keeps I read_unix_time.
Proof. frame_call. Qed.
Lemma keeps_schema dt : keeps I (schema_get dt).
Proof. intros s Hs. unfold schema_get. by case_match. Qed.
Lemma keeps_split n data : keeps I (split_fields n data).
Proof. apply keeps_lift. Qed.
Lemma keeps_pod_name_of values : keeps I (pod_name_of values).
Proof. unfold pod_name_of. case_match; [apply keeps_ns_get|apply keeps_ret]. Qed.
Lemma keeps_fail {A} e : keeps I (sm_fail (A := A) e).
Proof. by intros s Hs. Qed.
Lemma keeps_panic {A} : keeps I (sm_panic (A := A)).
Proof. by intros s Hs. Qed.
End framed.

#[local] Hint Resolve keeps_ret keeps_argv_of keeps_hash_of keeps_username_of keeps_pid_tree_of
  keeps_put_argv keeps_put_pid_tree keeps_encode keeps_schema keeps_split keeps_pod_name_of
  keeps_unix_time keeps_fail keeps_panic stable_framed : elkeid.

Ltac keep_step :=
  first [solve [auto with elkeid] | apply keeps_bind; [|intros ?; cbv zeta] | case_match].

Lemma keeps_report_connect I ts keys values : framed I -> keeps I (report_connect ts keys values).
Proof. intros HF. unfold report_connect. repeat keep_step. Qed.

Section keeps.
Variable I : St -> Prop.
Hypothesis HI : stable I.

Lemma keeps_count_exe exe : keeps I (count_exe exe).
Proof. unfold count_exe. case_match; [apply keeps_ret|by apply stable_bump_exe]. Qed.
Lemma keeps_connect_filtered values : keeps I (connect_filtered values).
Proof. unfold connect_filtered. case_match; [apply keeps_ret|by apply stable_connect_seen]. Qed.
Lemma keeps_bump_exe exe : keeps I (bump_exe exe).
Proof. by apply stable_bump_exe. Qed.
Lemma keeps_bump_argv argv : keeps I (bump_argv argv).
Proof. by apply stable_bump_argv. Qed.
Lemma keeps_over_quota argv : keeps I (argv_over_quota argv).
Proof. by apply stable_over_quota. Qed.

#[local] Hint Resolve HI keeps_count_exe keeps_connect_filtered keeps_bump_exe keeps_bump_argv
  keeps_over_quota : elkeid.

Lemma keeps_arm dt ts data : keeps I (transform_arm dt ts data).
Proof.
  unfold transform_arm.
  repeat (match goal with |- keeps I (if _ then _ else _) => case_match end);
    unfold transform_42, report_connect, transform_49, transform_59, transform_82_86, transform_101, transform_112,
      transform_157, transform_165, transform_356, transform_601, transform_602, transform_603,
      transform_604, transform_607, transform_608_609, transform_610, transform_611,
      transform_700_702, transform_701_703;
    repeat keep_step.
Qed.

Lemma transform_keeps data : keeps I (transform data).
Proof.
  unfold transform. repeat (match goal with |- keeps I (if _ then _ else _) => case_match
    | |- keeps I (match _ with _ => _ end) => case_match end); auto with elkeid.
  apply keeps_bind; [auto with elkeid|intros ts]. case_match; [apply keeps_arm|apply keeps_panic].
Qed.

(** Any sequence of records. *)
Fixpoint transforms (datas : list bytes) (s : St) : St :=
  match datas with
  | [] => s
  | data :: datas' => transforms datas' (transform data s).2
  end.

Lemma transforms_keep datas s : I s -> I (transforms datas s).
Proof.
  revert s. induction datas as [|data datas IH]; intros s Hs; [done|].
  apply IH. by apply transform_keeps.
Qed.
End keeps.
End spec.
