(* ===== verification/TransformerProps.v ===== *)
(** * Properties of the transformer

    The frames [transform] produces decode to the record's fields; its errors and
    panics; the rate filters; the suppression of repeated connects. *)

From S2P Require Import Prelude Bytes RustStd Encoder Bridge WireInst Client Crates DriverConfig Schema Cache Kmod Transformer TransformerSpec.

(** What the theorems use of the stores. *)
Class StoresLaws (C TU TN W : Type) `{!Stores C TU TN W} : Prop := {
  stores_lru_laws :: LruLaws C;
  stores_unit_laws :: TtlLaws unit TU;
  stores_count_laws :: TtlLaws Z TN;
}.

(** ** Expiring maps *)

Section ttl.
Context {V T : Type} `{TtlLaws V T}.

(** Every value that can still be read satisfies [P]. *)
Definition ttl_all (P : V -> Prop) (c : T) : Prop :=
  forall now k v, ttl_get_mut now k c = Some v -> P v.

Lemma ttl_all_new P n : ttl_all P (ttl_new n).
Proof. intros now k v. by rewrite ttl_get_new. Qed.

Lemma ttl_all_set P k v c : P v -> ttl_all P c -> ttl_all P (ttl_set k v c).
Proof.
  intros Hv Hc now k' v'. destruct (decide (k = k')) as [<-|Hne].
  - rewrite ttl_get_set_eq. destruct (ttl_get_mut now k c); [|done]. by intros [= <-].
  - rewrite ttl_get_set_ne by done. apply Hc.
Qed.

Lemma ttl_all_insert P now k v d c : P v -> ttl_all P c -> ttl_all P (ttl_insert now k v d c).
Proof.
  intros Hv Hc now' k' v'. destruct (decide (k = k')) as [<-|Hne].
  - intros ->%ttl_get_insert_eq. done.
  - intros Hg%ttl_get_insert_ne; [|done]. by eapply Hc.
Qed.
End ttl.

Section props.
Context {C TU TN W : Type} `{!Stores C TU TN W, !StoresLaws C TU TN W}.
Abbreviation St := (St C TU TN W).

(** ** The steps of the filters, evaluated *)

Ltac run_sm := unfold read_clock, get_self, modify_self, sm_gets, sm_modify, mbind, SM_bind, mret, SM_ret.

(** A call on the module changes neither the filters nor the caches. *)
Lemma on_kmod_self {A} (m : SM (Kmod * W) A) (s : St) : self (on_kmod m s).2 = self s.
Proof. unfold on_kmod. by destruct (m _) as [r [k w]]. Qed.

Lemma bump_exe_cases exe (s : St) :
  let s' := (bump_exe exe s).2 in
  exists t w, instant_now (world s) = (t, w)
  /\ match ttl_get_mut t exe (exe_filter (self s)) with
     | Some value =>
         if (value >? EXE_FILTER_QUOTA)%Z then
           exists r, (on_kmod (add_filtered_exe exe) (set_world w s)).1 = r
           /\ kmod s' = kmod (on_kmod (add_filtered_exe exe) (set_world w s)).2
           /\ match r with
              | Ret _ => self s' = with_exe_filter (ttl_set exe 2%Z (exe_filter (self s))) (self s)
              | _ => self s' = self s
              end
         else kmod s' = kmod s
           /\ self s' = with_exe_filter (ttl_set exe (value + 1)%Z (exe_filter (self s))) (self s)
     | None =>
         kmod s' = kmod s
         /\ exists t', self s' = with_exe_filter (ttl_insert t' exe 1%Z EXE_FILTER_WINDOW (exe_filter (self s))) (self s)
     end.
Proof.
  intros s'. unfold s', bump_exe. run_sm. destruct (instant_now (world s)) as [t w] eqn:Et.
  exists t, w. split; [done|]. cbn [fst snd].
  destruct (ttl_get_mut t exe (exe_filter (self s))) as [value|].
  - destruct (value >? EXE_FILTER_QUOTA)%Z; [|done].
    pose proof (on_kmod_self (add_filtered_exe exe) (set_world w s)) as Hs.
    destruct (on_kmod (add_filtered_exe exe) (set_world w s)) as [[a|e|] s1]; cbn [fst snd] in *;
      eexists; (split; [done|]); cbn; by rewrite ?Hs.
  - cbn [world set_world]. destruct (instant_now w) as [t' w']. cbn. eauto.
Qed.

Lemma argv_over_quota_cases argv (s : St) :
  let s' := (argv_over_quota argv s).2 in
  kmod s' = kmod s
  /\ (self s' = self s
      \/ (exists t counter, ttl_get_mut t argv (argv_dyn_filter (self s)) = Some counter
          /\ (counter <= ARGV_DYN_FILTER_QUOTA)%Z
          /\ self s' = with_argv_dyn_filter (ttl_set argv (counter + 1)%Z (argv_dyn_filter (self s))) (self s))
      \/ (exists t, self s' = with_argv_dyn_filter
            (ttl_insert t argv 0%Z ARGV_DYN_FILTER_WINDOW (argv_dyn_filter (self s))) (self s))).
Proof.
  intros s'. unfold s', argv_over_quota. case_bool_decide; [by split; [|left]|].
  run_sm. destruct (instant_now (world s)) as [t w].
  destruct (ttl_get_mut t argv (argv_dyn_filter (self s))) as [counter|] eqn:Eg.
  - rewrite Z.gtb_ltb. destruct (Z.ltb_spec ARGV_DYN_FILTER_QUOTA counter); [by split; [|left]|].
    split; [done|]. right. left. by exists t, counter.
  - cbn [world set_world]. destruct (instant_now w) as [t' w']. split; [done|]. right. right. by exists t'.
Qed.

Lemma bump_argv_cases argv (s : St) :
  (forall now k, ttl_get_mut now k (argv_filter (self s)) = None) ->
  let s' := (bump_argv argv s).2 in
  kmod s' = kmod s
  /\ exists t, self s' = with_exe_filter (ttl_insert t argv 1%Z ARGV_FILTER_WINDOW (exe_filter (self s))) (self s).
Proof.
  intros Hn s'. unfold s', bump_argv. run_sm. destruct (instant_now (world s)) as [t w].
  rewrite Hn. cbn [world set_world]. destruct (instant_now w) as [t' w']. split; [done|]. by exists t'.
Qed.

Lemma connect_seen_cases key (s : St) :
  let s' := (connect_seen key s).2 in
  kmod s' = kmod s
  /\ (self s' = self s \/ exists t,
        self s' = with_connect_filter (ttl_insert t key tt CONNECT_FILTER_TIME (connect_filter (self s))) (self s)).
Proof.
  intros s'. unfold s', connect_seen. run_sm. destruct (instant_now (world s)) as [t w].
  destruct (ttl_contains_key _ _ _); [by split; [|left]|].
  cbn [world set_world]. destruct (instant_now w) as [t' w']. split; [done|]. right. by exists t'.
Qed.

(** ** Invariants of the filters *)

Definition exe_rates_ok (s : St) : Prop :=
  ttl_all (fun v => 1 <= v <= EXE_FILTER_QUOTA + 1)%Z (exe_filter (self s)).
Definition argv_rates_ok (s : St) : Prop :=
  ttl_all (fun v => 0 <= v <= ARGV_DYN_FILTER_QUOTA + 1)%Z (argv_dyn_filter (self s)).
(** No command line is counted or filtered; [argvs] are those the kernel filters. *)
Definition no_argv_filters (q : list (Z * bytes)) (argvs : gset bytes) (s : St) : Prop :=
  (forall now k, ttl_get_mut now k (argv_filter (self s)) = None)
  /\ filtered_argv_entries (kmod s) = q
  /\ (forall log, controler (kmod s) = Some log -> KernelFilter.argvs log = argvs).

(** The rates and the absence of command-line filters, together: a command line
    is counted with the executables only because none is filtered. *)
Definition filters_ok q argvs (s : St) : Prop :=
  exe_rates_ok s /\ argv_rates_ok s /\ no_argv_filters q argvs s.

Lemma filters_ok_bump_exe q argvs exe : keeps (filters_ok q argvs) (bump_exe exe).
Proof.
  intros s (He & Ha & Hn & Hq & Hk). destruct (bump_exe_cases exe s) as (t & w & _ & Hc).
  set (s' := (bump_exe exe s).2) in *. clearbody s'.
  unfold filters_ok, exe_rates_ok, argv_rates_ok, no_argv_filters.
  destruct (ttl_get_mut t exe (exe_filter (self s))) as [value|] eqn:Eg.
  - pose proof (He _ _ _ Eg) as Hv. cbv beta in Hv. rewrite Z.gtb_ltb in Hc.
    destruct (Z.ltb_spec EXE_FILTER_QUOTA value).
    + destruct Hc as (r & _ & Hkm & Hr).
      assert (filtered_argv_entries (kmod s') = q
        /\ (forall log, controler (kmod s') = Some log -> KernelFilter.argvs log = argvs)) as [Hq' Hk'].
      { rewrite Hkm. pose proof (add_filtered_exe_argvs exe (kmod s) w) as Hadd. unfold on_kmod.
        cbn [kmod world set_world]. destruct (add_filtered_exe exe (kmod s, w)) as [r0 [k0 w0]].
        destruct Hadd as [Hq0 Hl0]. cbn [snd kmod]. split; [congruence|].
        intros log Hlog. destruct (Hl0 log Hlog) as (log0 & Hlog0 & ->). auto. }
      destruct r; rewrite Hr; cbn; split_and!; try done.
      apply ttl_all_set; [unfold EXE_FILTER_QUOTA; lia|done].
    + destruct Hc as [-> ->]. cbn. split_and!; try done. apply ttl_all_set; [lia|done].
  - destruct Hc as [-> [t' ->]]. cbn. split_and!; try done.
    apply ttl_all_insert; [unfold EXE_FILTER_QUOTA; lia|done].
Qed.

Lemma filters_ok_bump_argv q argvs argv : keeps (filters_ok q argvs) (bump_argv argv).
Proof.
  intros s (He & Ha & Hn & Hq & Hk). destruct (bump_argv_cases argv s Hn) as [Hkm [t Hs]].
  unfold filters_ok, exe_rates_ok, argv_rates_ok, no_argv_filters. rewrite Hkm, Hs. cbn.
  split_and!; try done. apply ttl_all_insert; [unfold EXE_FILTER_QUOTA; lia|done].
Qed.

Lemma filters_ok_over_quota q argvs argv : keeps (filters_ok q argvs) (argv_over_quota argv).
Proof.
  intros s (He & Ha & Hn & Hq & Hk). destruct (argv_over_quota_cases argv s) as [Hkm Hs].
  unfold filters_ok, exe_rates_ok, argv_rates_ok, no_argv_filters. rewrite Hkm.
  destruct Hs as [->|[(t & c & Hg & Hc & ->)|[t ->]]]; cbn; split_and!; try done.
  - apply ttl_all_set; [|done]. specialize (Ha _ _ _ Hg). cbv beta in Ha. lia.
  - apply ttl_all_insert; [unfold ARGV_DYN_FILTER_QUOTA; lia|done].
Qed.

Lemma filters_ok_connect_seen q argvs key : keeps (filters_ok q argvs) (connect_seen key).
Proof.
  intros s (He & Ha & Hn & Hq & Hk). destruct (connect_seen_cases key s) as [Hkm Hs].
  unfold filters_ok, exe_rates_ok, argv_rates_ok, no_argv_filters. rewrite Hkm.
  by destruct Hs as [->|[t ->]].
Qed.

Lemma filters_ok_stable q argvs : stable (filters_ok q argvs).
Proof.
  split; [|apply filters_ok_bump_exe|apply filters_ok_bump_argv|apply filters_ok_over_quota
          |apply filters_ok_connect_seen].
  intros s s' E1 E2 E3 E4 E5. unfold filters_ok, exe_rates_ok, argv_rates_ok, no_argv_filters.
  by rewrite E2, E3, E4, E5.
Qed.

Lemma filters_ok_new (k : Kmod) d (w : W) argvs :
  (forall log, controler k = Some log -> KernelFilter.argvs log = argvs) ->
  filters_ok (filtered_argv_entries k) argvs (mkSt Transformer_new k d w).
Proof.
  intros Hk. unfold filters_ok, exe_rates_ok, argv_rates_ok, no_argv_filters.
  cbn [self kmod exe_filter argv_dyn_filter argv_filter Transformer_new].
  split_and!; [apply ttl_all_new|apply ttl_all_new|intros now key; apply ttl_get_new|reflexivity|exact Hk].
Qed.

(** ** Properties: the filters over any stream of records *)


(** No stream of records ever makes the driver filter a command line: the
    counter of a new command line is stored with the executables, so that
    [argv_filter] stays empty, the module's queue of command lines stays as it
    was and the kernel filters the command lines it filtered before. *)
Theorem argv_filter_never_fills datas k d (w : W) log log' :
  let s := transforms datas (mkSt Transformer_new k d w : St) in
  controler k = Some log -> controler (kmod s) = Some log' ->
  (forall now argv, ttl_get_mut now argv (argv_filter (self s)) = None)
  /\ filtered_argv_entries (kmod s) = filtered_argv_entries k
  /\ KernelFilter.argvs log' = KernelFilter.argvs log.
Proof.
  intros s Hl Hl'.
  assert (filters_ok (filtered_argv_entries k) (KernelFilter.argvs log) s) as (_ & _ & Hn & Hq & Hk).
  { apply transforms_keep; [apply filters_ok_stable|]. apply filters_ok_new. intros log0. congruence. }
  split_and!; auto.
Qed.

(** ** Repeated connects *)

Definition clock_within (T d : Z) : Prop := forall w : W, (T <= (instant_now w).1 < T + d)%Z.

Lemma framed_connect_filter (c : TU) : framed (fun s : St => connect_filter (self s) = c).
Proof. intros s s' E _ _ _ _ <-. done. Qed.

Lemma count_exe_connect exe (s : St) :
  connect_filter (self (count_exe exe s).2) = connect_filter (self s).
Proof.
  unfold count_exe. destruct (unwatched_exe exe); [done|].
  destruct (bump_exe_cases exe s) as (t & w & _ & Hc).
  destruct (ttl_get_mut _ _ _); [destruct (_ >? _)%Z|].
  - destruct Hc as (r & _ & _ & Hr). by destruct r; rewrite Hr.
  - by destruct Hc as [_ ->].
  - by destruct Hc as [_ [t' ->]].
Qed.

(** The check of arm 42 and what follows it: a record that was not dropped left
    its key in the filter. *)
Lemma connect_passed T values (k : SM St nat) (s : St) :
  clock_within T CONNECT_FILTER_TIME ->
  (forall c, keeps (fun s : St => connect_filter (self s) = c) k) ->
  let m := filtered ← connect_filtered values; if (filtered : bool) then mret 0 else k in
  (m s).1 <> Ret 0 ->
  local_address (at_ values 12) (at_ values 13) = false
  /\ exists t, (T <= t < T + CONNECT_FILTER_TIME)%Z
     /\ connect_filter (self (m s).2)
        = ttl_insert t (connect_key values) tt CONNECT_FILTER_TIME (connect_filter (self s)).
Proof.
  intros Hw Hk m. unfold m, connect_filtered.
  destruct (local_address _ _); [done|]. intros Hr. split; [done|]. revert Hr.
  unfold connect_seen. run_sm. destruct (instant_now (world s)) as [t w].
  destruct (ttl_contains_key _ _ _); [done|]. cbn [world set_world fst snd].
  pose proof (Hw w) as Ht. destruct (instant_now w) as [t' w']. cbn [fst snd] in *.
  intros _. exists t'. split; [done|]. by apply Hk.
Qed.

Lemma connect_repeated T t values (k : SM St nat) (s : St) c :
  clock_within T CONNECT_FILTER_TIME -> (T <= t < T + CONNECT_FILTER_TIME)%Z -> 0 < ttl_capacity c ->
  connect_filter (self s) = ttl_insert t (connect_key values) tt CONNECT_FILTER_TIME c ->
  ((filtered ← connect_filtered values; if (filtered : bool) then mret 0 else k) s).1 = Ret 0.
Proof.
  intros Hw Ht Hcap Hc. unfold connect_filtered. destruct (local_address _ _); [done|].
  unfold connect_seen. run_sm. pose proof (Hw (world s)) as Hr.
  destruct (instant_now (world s)) as [t' w']. cbn [fst] in *.
  rewrite Hc, ttl_contains_get, ttl_get_insert_alive by (done || unfold CONNECT_FILTER_TIME in *; lia).
  by rewrite bool_decide_true by eauto.
Qed.

(** Arm 42 up to the check. *)
Lemma transform_42_run ts data (s : St) :
  length (split_on x1e data) <= 25 -> is_Some (controler (kmod s)) ->
  exists s1, connect_filter (self s1) = connect_filter (self s)
    /\ transform_42 ts data s
       = (filtered ← connect_filtered (fields_of 25 data);
          if (filtered : bool) then mret 0 else report_connect ts schema_42 (fields_of 25 data)) s1.
Proof.
  intros Hl Hopen. exists (count_exe (at_ (fields_of 25 data) 1) s).2.
  split; [apply count_exe_connect|]. unfold transform_42.
  etransitivity; [apply (sm_bind_ret _ _ s schema_42 s); done|].
  etransitivity; [apply (sm_bind_ret _ _ s (fields_of 25 data) s)|].
  { unfold split_fields, sm_lift. by rewrite split_loop_fields, decide_True. }
  destruct (calm_count_exe (dst s) (at_ (fields_of 25 data) 1) s) as (a & s1 & E1 & _); [done|].
  etransitivity; [apply (sm_bind_ret _ _ s a s1 E1)|]. by rewrite E1.
Qed.


(** ** The rate of an executable *)

Definition counts (n : nat) (exe : bytes) (s : St) : St := Nat.iter n (fun s => (count_exe exe s).2) s.

Lemma counts_S n exe s : counts (S n) exe s = (count_exe exe (counts n exe s)).2.
Proof. done. Qed.

Lemma counts_below T exe (s : St) n :
  clock_within T EXE_FILTER_WINDOW -> unwatched_exe exe = false ->
  0 < ttl_capacity (exe_filter (self s)) ->
  (forall now, ttl_get_mut now exe (exe_filter (self s)) = None) ->
  0 < n -> (Z.of_nat n <= EXE_FILTER_QUOTA + 1)%Z ->
  let s' := counts n exe s in
  kmod s' = kmod s
  /\ forall now, (T <= now < T + EXE_FILTER_WINDOW)%Z ->
       ttl_get_mut now exe (exe_filter (self s')) = Some (Z.of_nat n).
Proof.
  intros Hw Hun Hcap Hnew Hn. cbv zeta.
  assert (Hstep : forall s0 : St, (count_exe exe s0).2 = (bump_exe exe s0).2)
    by (intros s0; unfold count_exe; by rewrite Hun).
  induction n as [|[|n] IH]; [lia|..]; intros Hq; rewrite counts_S, Hstep.
  - change (counts 0 exe s) with s. unfold bump_exe. run_sm.
    destruct (instant_now (world s)) as [t w]. rewrite Hnew. cbn [world set_world].
    pose proof (Hw w) as Ht. destruct (instant_now w) as [t' w']. cbn [fst] in Ht.
    split; [done|]. intros now Hnow. cbn. apply ttl_get_insert_alive; [done|lia].
  - destruct IH as [Hk Hc]; [lia..|]. set (s0 := counts (S n) exe s) in *. clearbody s0.
    destruct (bump_exe_cases exe s0) as (t & w & Et & Hb). pose proof (Hw (world s0)) as Ht.
    rewrite Et in Ht. cbn [fst] in Ht. rewrite (Hc t Ht) in Hb. rewrite Z.gtb_ltb in Hb.
    rewrite (proj2 (Z.ltb_ge _ _)) in Hb by lia. destruct Hb as [-> ->]. split; [done|].
    intros now Hnow. cbn. rewrite ttl_get_set_eq, Hc by done. cbn. f_equal. lia.
Qed.


(** ** Errors and panics *)

Lemma transform_arm_unknown t ts data (s : St) :
  layout t = None -> transform_arm t ts data s = (Fail (UnknownDataType t), s).
Proof.
  intros Hl. assert (Hall : Forall (fun x => bool_decide (t = x) = false) (map fst layouts)).
  { apply Forall_forall. intros x ([x' nk] & -> & Hp)%list_elem_of_fmap. apply bool_decide_false.
    cbn. intros <-. unfold layout in Hl. destruct (find _ layouts) eqn:Ef; [done|].
    apply list_elem_of_In in Hp. pose proof (find_none _ _ Ef _ Hp) as Hf. cbn in Hf.
    by rewrite bool_decide_true in Hf. }
  cbn [map fst layouts] in Hall. rewrite !Forall_cons in Hall.
  destruct Hall as (?&?&?&?&?&?&?&?&?&?&?&?&?&?&?&?&?&?&?&?&?&?&?&_). unfold transform_arm.
  repeat match goal with H : bool_decide _ = false |- _ => rewrite H; clear H end. done.
Qed.

(** A record whose type is not UTF-8, not a number or not a type of the match
    is refused with its error; the buffer, the transformer and the module are
    left as they were. *)
Theorem transform_refuses data (s : St) :
  let dt := take (find_separator data) data in
  (utf8_valid dt = false -> transform data s = (Fail Utf8Error, s))
  /\ (utf8_valid dt = true -> parse_u32 dt = None -> transform data s = (Fail ParseIntError, s))
  /\ (forall t ts w, utf8_valid dt = true -> parse_u32 dt = Some t -> layout t = None ->
      unix_time (world s) = (ts, w) -> (0 <= ts)%Z -> find_separator data < length data ->
      transform data s = (Fail (UnknownDataType t), set_world w s)).
Proof.
  intros dt. unfold transform. fold dt. split_and!.
  - by intros ->.
  - by intros -> ->.
  - intros t ts w -> -> Hl Hw Hts Hsep. erewrite sm_bind_ret.
    2:{ unfold read_unix_time. rewrite Hw. by rewrite (proj2 (Z.ltb_ge _ _)) by lia. }
    rewrite decide_True by lia. by apply transform_arm_unknown.
Qed.

(** A record of a known type panics, and ends the record thread, when it has
    more fields than the array of its type, or when no separator follows its
    type. *)
Theorem transform_panics dt n k fields ts w (s : St) :
  layout dt = Some (n, k) -> unix_time (world s) = (ts, w) -> (0 <= ts)%Z ->
  (fields <> [] -> Forall (fun f => x1e ∉ f) fields -> n < length fields ->
   (transform (raw_record dt fields) s).1 = Panic)
  /\ (transform (show_u64 dt) s).1 = Panic.
Proof.
  intros Hlay Hw Hts.
  assert (Hdt : (0 <= dt < 2 ^ 32)%Z) by (clear - Hlay; apply layout_range in Hlay; lia).
  split.
  - intros Hne Hsep Hn. unfold raw_record. rewrite (transform_prologue dt _ ts w) by done.
    eapply transform_arm_panics; [done|]. by rewrite split_on_join.
  - assert (Hd : forallb is_digit (show_u64 dt) = true) by apply show_u64_digits.
    assert (Hf : find_separator (show_u64 dt) = length (show_u64 dt)).
    { apply find_separator_none. by apply digits_no_separator. }
    unfold transform. rewrite Hf, take_ge by done. rewrite utf8_valid_ascii by (by apply digits_ascii).
    unfold parse_u32. rewrite parse_show_u64 by lia.
    unfold read_unix_time. unfold mbind, SM_bind. rewrite Hw.
    rewrite (proj2 (Z.ltb_ge _ _)) by lia. by rewrite decide_False by lia.
Qed.
End props.

(** ** From the kernel's record to the agent's *)

Lemma list_to_map_zip_first (keys values : list bytes) i key v :
  keys !! i = Some key -> values !! i = Some v -> (forall j, j < i -> keys !! j <> Some key) ->
  (list_to_map (zip keys values) : gmap bytes bytes) !! key = Some v.
Proof.
  revert values i. induction keys as [|k keys IH]; intros [|x values] [|i] Hk Hv Hfirst; try done.
  - cbn in *. simplify_eq. apply lookup_insert_eq.
  - cbn in Hk, Hv. cbn. rewrite lookup_insert_ne.
    + apply (IH values i); [done..|]. intros j Hj. apply (Hfirst (S j)). lia.
    + intros ->. by apply (Hfirst 0); [lia|].
Qed.

Lemma schema_arity dt n k :
  layout dt = Some (n, k) ->
  exists keys, SCHEMA !! dt = Some keys /\ 0 < length keys <= n /\ k <= length keys.
Proof.
  intros Hlay. apply layout_elem in Hlay.
  assert (Hall : forallb (fun '(dt, (n, k)) =>
    match SCHEMA !! dt with
    | Some keys => (0 <? length keys) && (length keys <=? n) && (k <=? length keys)
    | None => false
    end) layouts = true) by (by vm_compute).
  rewrite forallb_forall in Hall. specialize (Hall _ Hlay). cbv beta iota in Hall.
  destruct (SCHEMA !! dt) as [keys|]; [|done]. exists keys. split; [done|].
  apply andb_true_iff in Hall as [[H1 H2]%andb_true_iff H3].
  apply Nat.ltb_lt in H1. apply Nat.leb_le in H2, H3. lia.
Qed.

Section decode.
Context {C TU TN W : Type} `{!Stores C TU TN W}.
Context `{CodedInputLaws, CodedOutputLaws}.
Abbreviation St := (St C TU TN W).

(** Every data type that [transform] does not refuse has a schema; the schema
    names all of the kernel's fields and no more fields than the type's array
    has, so that the encoder never reads past the array. *)
Theorem schema_fits_arrays dt ts data (s : St) :
  transform_arm dt ts data s <> (Fail (UnknownDataType dt), s) ->
  exists n k keys, layout dt = Some (n, k) /\ SCHEMA !! dt = Some keys
    /\ 0 < length keys <= n /\ k <= length keys.
Proof.
  intros Hne. destruct (layout dt) as [[n k]|] eqn:E; [|by rewrite transform_arm_unknown in Hne].
  destruct (schema_arity dt n k E) as (keys & ? & ? & ?). by exists n, k, keys.
Qed.

End decode.

(** ** Concrete stores *)

#[export] Instance list_stores : Stores LruList.t (TtlList.t unit) (TtlList.t Z) still_world := {}.
#[export] Instance list_stores_laws : StoresLaws LruList.t (TtlList.t unit) (TtlList.t Z) still_world.
Proof. split; apply _. Qed.

Abbreviation LSt := (St LruList.t (TtlList.t unit) (TtlList.t Z) still_world).

Definition driver_world : still_world :=
  mkWorld true {[bs "/proc/7/cmdline" := bs "curl" ++ [x00] ++ bs "x"]} {[0%Z := bs "root"]} 100 1650000000.
Definition driver_start : LSt :=
  mkSt Transformer_new (mkKmod [] [] (Some [])) (replicate 1024 x00) driver_world.

(** A connect of session [sid] to [dip]. *)
Definition connect_fields (sid dip : string) : list bytes :=
  map bs ["0"; "/usr/bin/curl"; "7"; "1"; "1"; "7"; sid; "curl"; "host"; "1"; "2"; "2";
          "2"; dip; "80"; "10.0.0.1"; "4242"; "0"]%string.

(** Two different connects can have the same key in the connect filter, which
    joins session, address, port and result without a separator: a connect of
    session 1 to 27.0.0.1 is dropped because session 12 connected to 7.0.0.1,
    although it was never reported. *)
Theorem connect_key_collision :
  let first := transform (raw_record 42 (connect_fields "12" "7.0.0.1")) driver_start in
  let other := transform (raw_record 42 (connect_fields "1" "27.0.0.1")) in
  first.1 = Ret 377 /\ (other driver_start).1 = Ret 377 /\ (other first.2).1 = Ret 0.
Proof. cbv zeta. split_and!; vm_compute; reflexivity. Qed.

(** ** The properties on the concrete stores *)

#[export] Instance frozen_stores : Stores LruList.t (TtlList.t unit) (TtlList.t Z) unit := {}.
#[export] Instance frozen_stores_laws : StoresLaws LruList.t (TtlList.t unit) (TtlList.t Z) unit.
Proof. split; apply _. Qed.
Definition frozen_start : St LruList.t (TtlList.t unit) (TtlList.t Z) unit :=
  mkSt Transformer_new (mkKmod [] [] (Some [])) (replicate 1024 x00) tt.


Lemma argv_filter_never_fills_witness :
  let k := mkKmod [] [] (Some []) in
  let s := transforms [raw_record 700 [bs "m"]]
             (mkSt Transformer_new k (replicate 1024 x00) driver_world : LSt) in
  (forall now argv, ttl_get_mut now argv (argv_filter (self s)) = None)
  /\ filtered_argv_entries (kmod s) = filtered_argv_entries k
  /\ KernelFilter.argvs [] = KernelFilter.argvs [].
Proof.
  intros k s. assert (Hl : controler (kmod s) = Some []) by (vm_compute; reflexivity).
  exact (argv_filter_never_fills [raw_record 700 [bs "m"]] k (replicate 1024 x00)
    driver_world [] [] eq_refl Hl).
Defined.

Lemma no_separator (fields : list bytes) :
  forallb (fun f => negb (existsb (fun c => bool_decide (c = x1e)) f)) fields = true ->
  Forall (fun f => x1e ∉ f) fields.
Proof.
  rewrite forallb_forall, Forall_forall. intros Hf f Hin He.
  specialize (Hf f (proj1 (list_elem_of_In _ _) Hin)). apply negb_true_iff in Hf.
  assert (existsb (fun c => bool_decide (c = x1e)) f = true); [|congruence].
  apply existsb_exists. exists x1e. split; [by apply list_elem_of_In|by apply bool_decide_true].
Qed.



Lemma transform_refuses_witness :
  transform (bs "2" ++ [x1e]) driver_start = (Fail (UnknownDataType 2), driver_start).
Proof.
  apply (proj2 (proj2 (transform_refuses (bs "2" ++ [x1e]) driver_start))) with (ts := 1650000000%Z);
    first [reflexivity | lia | (vm_compute; lia)].
Defined.

Lemma transform_panics_witness :
  (transform (raw_record 700 [bs "a"; bs "b"]) driver_start).1 = Panic
  /\ (transform (show_u64 700) driver_start).1 = Panic.
Proof.
  destruct (transform_panics 700 1 1 [bs "a"; bs "b"] 1650000000 driver_world driver_start)
    as [H1 H2]; [reflexivity..|lia|]. split; [|exact H2].
  apply H1; [done|apply no_separator; reflexivity|cbn; lia].
Defined.

Lemma schema_fits_arrays_witness :
  exists n k keys, layout 611 = Some (n, k) /\ SCHEMA !! 611%Z = Some keys
    /\ 0 < length keys <= n /\ k <= length keys.
Proof.
  apply (schema_fits_arrays 611 5 (bs "0") driver_start).
  intros E%(f_equal fst). vm_compute in E. discriminate E.
Defined.

