(* ===== verification/DriverMain.v ===== *)
(** * The driver plugin's threads ([plugins/driver/src/main.rs])

    [record_send] reads the kernel's records, transforms each and writes the
    result to the agent's pipe; [task_receive] reads tasks until the pipe fails
    and then raises the flag that stops [record_send].  The records are the items
    [BufReader::split(0x17)] yields, [None] for a read error; [stop] gives what
    each load of the flag returns. *)

From S2P Require Import Prelude Bytes RustStd Encoder Bridge WireInst Client Crates DriverConfig Schema Cache Kmod Transformer TransformerSpec TransformerProps.

(** [BufReader::split(sep)] on a stream that ends without an error: the text
    behind the last separator is an item only if it is not empty. *)
Definition split_items (sep : byte) (input : bytes) : list bytes :=
  let fs := split_on sep input in
  if decide (last fs = Some []) then take (length fs - 1) fs else fs.

(** The stream of the kernel module: each record ends with 0x17. *)
Definition terminated (recs : list bytes) : bytes := concat (map (fun r => r ++ [x17]) recs).

Lemma split_items_terminated recs :
  Forall (fun r => x17 ∉ r) recs -> split_items x17 (terminated recs) = recs.
Proof.
  intros Hr. assert (E : split_on x17 (terminated recs) = recs ++ [[]]).
  { induction Hr as [|r recs Hr _ IH]; [done|]. unfold terminated in *. cbn [map concat].
    rewrite <- app_assoc. cbn [app]. rewrite split_on_app_sep by done. by rewrite IH. }
  unfold split_items. rewrite E, last_snoc, decide_True by done.
  rewrite length_app. cbn [length]. replace (_ + 1 - 1) with (length recs) by lia. apply take_app_length.
Qed.

Section main.
Context {C TU TN W : Type} `{!Stores C TU TN W}.
Abbreviation St := (St C TU TN W).
Abbreviation M := (SM (St * Client)).

Definition on_transformer {A} (m : SM St A) : M A := fun '(s, c) => let '(r, s) := m s in (r, (s, c)).
Definition on_client {A} (m : SM Client A) : M A := fun '(s, c) => let '(r, c) := m c in (r, (s, c)).

(** [Result] as a value: a panic still ends the thread. *)
Definition try_ {S A} (m : SM S A) : SM S (A + error) := fun s =>
  match m s with
  | (Ret a, s) => (Ret (inl a), s)
  | (Fail e, s) => (Ret (inr e), s)
  | (Panic, s) => (Panic, s)
  end.

(** The loop of [record_send]; [i] counts the loads of the flag. *)
Fixpoint record_send (items : list (option bytes)) (stop : nat -> bool) (i : nat) : M unit :=
  match items with
  | [] => mret tt
  | rec :: items' =>
      if stop i then mret tt
      else
        match rec with
        | None => mret tt
        | Some rec =>
            written ← on_transformer (try_ (transform rec));
            match written with
            | inr _ => record_send items' stop (S i)
            | inl written =>
                buf ← sm_gets (fun s => take written (dst s.1));
                sent ← on_client (try_ (raw_write_all buf));
                match sent with
                | inr _ => mret tt
                | inl _ => if stop (S i) then mret tt else record_send items' stop (S (S i))
                end
            end
        end
  end.

(** The thread on an input that is read to its end. *)
Definition record_thread (input : bytes) (stop : nat -> bool) : M unit :=
  record_send (map Some (split_items x17 input)) stop 0.

(** [task_receive]: every task is ignored; the first error raises the flag. Each
    turn reads at least four bytes. *)
Fixpoint task_receive `{CodedInputStream} (fuel : nat) (c : Client) : bool * Client :=
  match fuel with
  | O => (false, c)
  | S fuel' =>
      match receive c with
      | (Ret _, c) => task_receive fuel' c
      | (_, c) => (true, c)
      end
  end.

(** ** What the pipe receives *)

(** The bytes each record adds to the pipe. *)
Fixpoint reports (recs : list bytes) (s : St) : list bytes :=
  match recs with
  | [] => []
  | rec :: recs' =>
      let '(r, s) := transform rec s in
      match r with
      | Ret n => take n (dst s) :: reports recs' s
      | Fail _ => [] :: reports recs' s
      | Panic => []
      end
  end.

Lemma record_send_reports recs stop i (s : St) c :
  writer_open c = true -> (forall j, stop j = false) ->
  writer (record_send (map Some recs) stop i (s, c)).2.2 = writer c ++ concat (reports recs s).
Proof.
  revert i s c. induction recs as [|rec recs IH]; intros i s c Ho Hs; cbn [map record_send reports].
  { cbn. by rewrite app_nil_r. }
  rewrite Hs. unfold mbind, SM_bind, on_transformer, try_.
  destruct (transform rec s) as [[n|e|] s']; cbn [concat].
  - unfold sm_gets, on_client, raw_write_all, write_all. rewrite Ho. cbn [fst snd].
    rewrite Hs, IH by done. cbn [writer]. by rewrite <- app_assoc.
  - by rewrite IH.
  - by rewrite app_nil_r.
Qed.

Section decode.
Context `{CodedInputLaws, CodedOutputLaws}.

(** A chunk that is one frame decodes in front of anything. *)
Lemma decode_stream_one a b r fuel :
  decode_stream 1 a = Ret [r] ->
  decode_stream (S fuel) (a ++ b) = (rs ← decode_stream fuel b; Ret (r :: rs)).
Proof.
  destruct a as [|x a]; [done|]. cbn [decode_stream app].
  change (x :: a ++ b) with ((x :: a) ++ b). set (s := x :: a).
  destruct (decide (4 + _ <= length s)) as [Hl|]; [|done].
  assert (4 <= length s) by lia. rewrite (take_app_le s b 4) by lia.
  set (n := Z.to_nat (from_le_bytes (take 4 s))) in *.
  rewrite decide_True by (rewrite length_app; lia).
  rewrite (drop_app_le s b 4) by lia. rewrite take_app_le by (rewrite length_drop; lia).
  destruct (Record_merge_from Record_new (take n (drop 4 s))) as [r0|e|]; [|done..].
  cbn [mbind outcome_bind]. rewrite (drop_app_le s b) by lia.
  destruct (drop (4 + n) s) as [|y t] eqn:Ed; cbn [mbind outcome_bind]; [|done].
  intros [= ->]. cbn [app]. done.
Qed.

Lemma decode_stream_chunks chunks rs :
  Forall2 (fun c r => decode_stream 1 c = Ret [r]) chunks rs ->
  decode_stream (length rs) (concat chunks) = Ret rs.
Proof.
  induction 1 as [|c r chunks rs Hc _ IH]; [done|]. cbn [concat length].
  rewrite (decode_stream_one c _ r) by done. by rewrite IH.
Qed.
End decode.

(** ** Termination of the task loop *)

Lemma read_exact_ret n c b c' :
  read_exact n c = (Ret b, c') -> length (reader c') + n = length (reader c).
Proof.
  unfold read_exact. case_decide; [|done]. intros [= <- <-]. cbn. rewrite length_drop. lia.
Qed.

Lemma receive_consumes `{CodedInputStream} c t c' :
  receive c = (Ret t, c') -> length (reader c') + 4 <= length (reader c).
Proof.
  unfold receive, mbind, SM_bind. destruct (read_exact 4 c) as [[b|e|] c1] eqn:E1; [|done..].
  destruct (read_exact _ c1) as [[b2|e|] c2] eqn:E2; [|done..].
  unfold sm_lift. intros [= _ <-]. apply read_exact_ret in E1, E2. lia.
Qed.

Lemma task_receive_stops `{CodedInputStream} fuel c :
  length (reader c) < fuel -> fst (task_receive fuel c) = true.
Proof.
  revert c. induction fuel as [|fuel IH]; intros c Hf; [lia|]. cbn [task_receive].
  destruct (receive c) as [[t|e|] c'] eqn:E; [|done..]. apply IH. apply receive_consumes in E. lia.
Qed.

(** ** What a stop, an error or a closed pipe leave written *)

Lemma record_send_prefix_lemma recs stop i (s : St) c :
  exists k, writer (record_send (map Some recs) stop i (s, c)).2.2
            = writer c ++ concat (take k (reports recs s)).
Proof.
  revert i s c. induction recs as [|rec recs IH]; intros i s c; cbn [map record_send reports].
  { exists 0. cbn. by rewrite app_nil_r. }
  assert (Hnil : forall l : list bytes, exists k, writer c = writer c ++ concat (take k l))
    by (intros l; exists 0; by rewrite take_0, app_nil_r).
  destruct (stop i); [apply Hnil|]. unfold mbind, SM_bind, on_transformer, try_.
  destruct (transform rec s) as [[n|e|] s']; cbn [concat]; [| |apply Hnil].
  - unfold sm_gets, on_client, raw_write_all, write_all.
    destruct (writer_open c) eqn:Ho; cbn [fst snd]; [|apply Hnil].
    destruct (stop (S i)); [exists 1; cbn; by rewrite app_nil_r|].
    destruct (IH (S (S i)) s' (mkClient (writer c ++ take n (dst s')) true (reader c))) as [k ->].
    exists (S k). cbn. by rewrite <- app_assoc.
  - destruct (IH (S i) s' c) as [k ->]. by exists (S k).
Qed.

Lemma concat_filter_nonempty (l : list bytes) : concat (filter (fun c => c <> []) l) = concat l.
Proof.
  induction l as [|c l IH]; [done|]. rewrite filter_cons. case_decide as Hc; cbn; [by rewrite IH|].
  by subst c.
Qed.

(** ** Properties *)

Section properties.
Context `{CodedInputLaws, CodedOutputLaws}.

(** The driver's loop neither loses, repeats, reorders nor merges reports: on
    an open pipe with no stop, what it adds to the pipe decodes to exactly one
    record per record that [transform] reported, in their order; records that
    are dropped or in error add nothing. *)
Theorem driver_stream_decodes recs rs stop (s : St) c :
  Forall (fun r => x17 ∉ r) recs -> writer_open c = true -> (forall j, stop j = false) ->
  Forall2 (fun chunk r => decode_stream 1 chunk = Ret [r])
    (filter (fun chunk => chunk <> []) (reports recs s)) rs ->
  exists stream,
    writer (record_thread (terminated recs) stop (s, c)).2.2 = writer c ++ stream
    /\ decode_stream (length rs) stream = Ret rs.
Proof.
  intros Hx Ho Hs Hf. exists (concat (reports recs s)). unfold record_thread.
  rewrite split_items_terminated by done. split; [by apply record_send_reports|].
  rewrite <- concat_filter_nonempty. by apply decode_stream_chunks.
Qed.

(** Whenever the stop flag is raised and whenever the pipe closes, what the
    driver has written is a whole number of reports, in order from the first: a
    report is never written in part or out of turn. *)
Theorem record_send_prefix recs stop i (s : St) c :
  exists k, writer (record_send (map Some recs) stop i (s, c)).2.2
            = writer c ++ concat (take k (reports recs s)).
Proof. apply record_send_prefix_lemma. Qed.

(** The task thread ends: on any finite input it reaches an error, raises the
    stop flag and returns, after at most one turn per byte and one more. *)
Theorem task_receive_terminates c fuel :
  length (reader c) < fuel -> fst (task_receive fuel c) = true.
Proof. apply task_receive_stops. Qed.
End properties.
End main.

(** ** The properties on the concrete stores *)

Definition driver_client : Client := mkClient [] true [].

Lemma driver_stream_decodes_witness :
  exists stream,
    writer (record_thread (terminated [raw_record 700 [bs "m"]; bs "junk"; raw_record 700 [bs "n"]])
      (fun _ => false) (driver_start, driver_client)).2.2 = writer driver_client ++ stream
    /\ decode_stream 2 stream
       = Ret [insert_field (bs "module_name") (bs "m") (mkRecord 700 1650000000 None []);
              insert_field (bs "module_name") (bs "n") (mkRecord 700 1650000000 None [])].
Proof.
  apply (driver_stream_decodes [raw_record 700 [bs "m"]; bs "junk"; raw_record 700 [bs "n"]]
    [insert_field (bs "module_name") (bs "m") (mkRecord 700 1650000000 None []);
     insert_field (bs "module_name") (bs "n") (mkRecord 700 1650000000 None [])]); [|done|done|].
  { apply (bool_decide_unpack _). vm_compute. exact I. }
  match goal with |- Forall2 _ ?l _ =>
    let v := eval vm_compute in l in replace l with v by (vm_compute; reflexivity) end.
  do 2 (constructor; [vm_compute; reflexivity|]). constructor.
Defined.

Lemma task_receive_terminates_witness :
  fst (task_receive 8 (mkClient [] true (Client.framed (Task_write (mkTask 1 [] [] [] []))))) = true.
Proof. apply task_receive_terminates. vm_compute. lia. Defined.

Lemma record_send_prefix_witness :
  exists k, writer (record_send (map Some [raw_record 700 [bs "m"]]) (fun j => bool_decide (j = 1)) 0
              (driver_start, driver_client)).2.2
            = writer driver_client ++ concat (take k (reports [raw_record 700 [bs "m"]] driver_start)).
Proof.
  apply (record_send_prefix [raw_record 700 [bs "m"]] (fun j => bool_decide (j = 1)) 0 driver_start driver_client).
Defined.
