(* ===== verification/DriverStream.v ===== *)
(** * The driver's pipe ([plugins/driver/src/kmod.rs] 139-196, main.rs)

    Three threads of the driver share the pipe to the agent and the [Kmod]: the
    record thread, the heartbeat, and the pass that expires filters.  [heartbeat]
    is the record the heartbeat collects; [dstep] lets the threads take steps in any
    order.  A step is what one lock protects: a call of the client, or a use of the
    module's queues.  [transform] is one step, since of what the threads share it
    uses the module's queues only, under their locks. *)

From S2P Require Import Prelude Bytes RustStd Encoder Bridge WireInst Client Crates DriverConfig Schema Cache Kmod Transformer TransformerSpec TransformerProps DriverMain.

Definition as_i64 (n : Z) : Z := (n + 2 ^ 63) mod 2 ^ 64 - 2 ^ 63.

(** ** The heartbeat *)

Section heartbeat.
Context {C TU TN W : Type} `{!Stores C TU TN W}.
Abbreviation St := (St C TU TN W).
Abbreviation M := (SM St).
(** [serde_json::to_string] of a [Vec<(u64, Cow<str>)>], which cannot fail *)
Context (to_string : list (Z * bytes) -> bytes).

(** Each entry with its age in seconds. *)
Fixpoint aged (q : list (Z * bytes)) : M (list (Z * bytes)) :=
  match q with
  | [] => mret []
  | (k, v) :: q => t ← read_clock; r ← aged q; mret ((Z.max 0 (t - k), from_utf8_lossy v) :: r)
  end.

Definition read_to_string (path : bytes) : M (option bytes) := fun s =>
  let (o, w) := fs_read path (world s) in
  (Ret (b ← o; if utf8_valid b then Some b else None), set_world w s).

(** The parameters of the module: what the walk of [PARAMETERS_DIR] yields, paths with
    their file names. *)
Fixpoint add_parameters (dir : list (option (bytes * bytes))) (rec : Record_) : M Record_ :=
  match dir with
  | [] => mret rec
  | None :: dir => add_parameters dir rec
  | Some (path, file_name) :: dir =>
      o ← read_to_string path;
      match o with
      | Some parameter =>
          if utf8_valid file_name then add_parameters dir (insert_field file_name (trim parameter) rec) else sm_panic
      | None => add_parameters dir rec
      end
  end.

Definition heartbeat (dir : list (option (bytes * bytes))) : M Record_ :=
  timestamp ← read_unix_time;
  let rec := set_data_type 900 (set_timestamp (as_i64 timestamp) Record_new) in
  exes ← sm_gets (fun s => filtered_exe_entries (kmod s));
  argvs ← sm_gets (fun s => filtered_argv_entries (kmod s));
  exes ← aged exes;
  let rec := insert_field (bs "filtered_exe_entries") (to_string exes) rec in
  argvs ← aged argvs;
  let rec := insert_field (bs "filtered_argv_entries") (to_string argvs) rec in
  add_parameters dir rec.

(** ** The threads *)

Record Driver := mkDriver {
  d_st : St;
  d_client : Client;
  d_items : list (option bytes);                 (** what the pipe of the module still yields *)
  d_handled : list (bytes * outcome nat);        (** records handled, with the result of [transform] *)
  d_pending : option nat;                        (** bytes of the buffer about to be written *)
  d_running : bool;                              (** the record thread *)
  d_heart : option (option Record_);             (** the heartbeat, unless it ended; what it is about to send *)
}.

Section steps.
Context `{CodedOutputStream}.

Definition after (r : outcome nat) : option nat := match r with Ret n => Some n | _ => None end.
Definition goes_on (r : outcome nat) : bool := match r with Panic => false | _ => true end.

Inductive dstep : Driver -> Driver -> Prop :=
  (** the stop flag is seen, before a record or behind one *)
  | DStop s c items h hb :
      dstep (mkDriver s c items h None true hb) (mkDriver s c items h None false hb)
  | DReadError s c items h hb :
      dstep (mkDriver s c (None :: items) h None true hb) (mkDriver s c (None :: items) h None false hb)
  | DTransform s c rec items h hb r s' :
      transform rec s = (r, s') ->
      dstep (mkDriver s c (Some rec :: items) h None true hb)
            (mkDriver s' c items (h ++ [(rec, r)]) (after r) (goes_on r) hb)
  | DWrite s c items h n hb c' :
      raw_write_all (take n (dst s)) c = (Ret tt, c') ->
      dstep (mkDriver s c items h (Some n) true hb) (mkDriver s c' items h None true hb)
  | DWriteFails s c items h n hb e c' :
      raw_write_all (take n (dst s)) c = (Fail e, c') ->
      dstep (mkDriver s c items h (Some n) true hb) (mkDriver s c' items h (Some n) false hb)
  | DHeartbeat s c items h p run dir r s' :
      heartbeat dir s = (r, s') ->
      dstep (mkDriver s c items h p run (Some None))
            (mkDriver s' c items h p run (match r with Ret rec => Some (Some rec) | _ => None end))
  | DBeat s c items h p run rec r c' :
      send_record rec c = (r, c') ->
      dstep (mkDriver s c items h p run (Some (Some rec)))
            (mkDriver s c' items h p run (match r with Ret _ => Some None | _ => None end))
  | DExpire s c items h p run hb r s' :
      on_kmod ttl_filters_pass s = (r, s') ->
      dstep (mkDriver s c items h p run hb) (mkDriver s' c items h p run hb)
  (** the signal thread closes the pipes *)
  | DClose s c items h p run hb :
      dstep (mkDriver s c items h p run hb) (mkDriver s (mkClient (writer c) false (reader c)) items h p run hb).
End steps.
End heartbeat.
Arguments Driver : clear implicits.

(** ** What the threads leave alone *)

(** Code that writes into a buffer in place. *)
Definition in_place {A} (m : SM bytes A) : Prop := forall d, length (m d).2 = length d.

Lemma in_place_bind {A B} (m : SM bytes A) (k : A -> SM bytes B) :
  in_place m -> (forall a, in_place (k a)) -> in_place (m ≫= k).
Proof.
  intros Hm Hk d. specialize (Hm d). unfold mbind, SM_bind. destruct (m d) as [[a|e|] d']; [|done..].
  cbn in Hm. rewrite <- Hm. apply Hk.
Qed.
Lemma in_place_ret {A} (a : A) : in_place (mret a).
Proof. done. Qed.
Lemma in_place_usub a b : in_place (usub a b).
Proof. intros d. unfold usub. by case_decide. Qed.
Lemma in_place_write_at i src : in_place (write_at i src).
Proof.
  intros d. unfold write_at. case_decide; [|done]. cbn. rewrite !length_app, length_take, length_drop. lia.
Qed.
#[local] Hint Resolve in_place_ret in_place_usub in_place_write_at : elkeid.
Ltac in_place := repeat first [solve [auto with elkeid] | apply in_place_bind; [|intros ?; cbv zeta] | case_match].

Lemma in_place_varint_loop fuel base i n : in_place (encode_varint_loop fuel base i n).
Proof. revert i n. induction fuel as [|fuel IH]; intros i n; cbn [encode_varint_loop]; [done|]. in_place. Qed.
#[local] Hint Resolve in_place_varint_loop : elkeid.
Lemma in_place_entry k v i : in_place (encode_entry k v i).
Proof. unfold encode_entry, put_below, put_varint_below, encode_varint. in_place. Qed.
#[local] Hint Resolve in_place_entry : elkeid.
Lemma in_place_entries keys values i : in_place (encode_entries keys values i).
Proof. revert values i. induction keys as [|k keys IH]; intros [|v values] i; cbn [encode_entries]; in_place; done. Qed.
#[local] Hint Resolve in_place_entries : elkeid.

(** The encoder never resizes the caller's buffer. *)
Lemma in_place_encode ts keys values dt : in_place (protobuf_encode ts keys values dt).
Proof.
  unfold protobuf_encode, write_frame, put_below, put_varint_below, encode_varint. in_place; done.
Qed.

Section stream.
Context {C TU TN W : Type} `{!Stores C TU TN W}.
Abbreviation St := (St C TU TN W).

Definition opened (s : St) : Prop := is_Some (controler (kmod s)).

Lemma opened_stable : stable opened.
Proof.
  assert (Hcalm : forall A (m : SM St A), (forall d, calm (open_at d) m) -> keeps opened m).
  { intros A m Hm s Hs. destruct (Hm (dst s) s) as (a & s' & -> & [Hs' _]); [by split|done]. }
  split; [|intros; apply Hcalm; intros..|].
  - intros s s' _ _ _ _ E. unfold opened. by rewrite E.
  - apply calm_bump_exe.
  - apply calm_bump_argv.
  - apply calm_argv_over_quota.
  - intros key s Hs. unfold opened. by rewrite (proj1 (connect_seen_cases key s)).
Qed.

Context `{CodedInputLaws, CodedOutputLaws}.

(** *** What is written *)

Inductive Sent :=
  | SKernel (dt ts : Z) (keys values : list bytes) (chunk : bytes)
  | SHeart (rec : Record_).
Definition sent_bytes (x : Sent) : bytes :=
  match x with SKernel _ _ _ _ chunk => chunk | SHeart rec => Client.framed (Record_write rec) end.
Definition sent_record (x : Sent) : Record_ :=
  match x with
  | SKernel dt ts keys values _ => mkRecord dt ts (Some (mkPayload (list_to_map (zip keys values)) [])) []
  | SHeart rec => rec
  end.
(** The strings are UTF-8 and the record is shorter than [2 ^ 31]. *)
Definition sent_ok (x : Sent) : Prop :=
  match x with SKernel _ _ keys values _ => wire_ok (reverse (zip keys values)) | SHeart rec => sendable rec end.
Definition from_kernel (x : Sent) : bool := match x with SKernel _ _ _ _ _ => true | SHeart _ => false end.
Definition decodes (x : Sent) : Prop := sent_ok x -> decode_stream 1 (sent_bytes x) = Ret [sent_record x].

(** [x] reports the record [rec]: it has its type, and its first values are the
    record's fields. *)
Definition reports_of (h : bytes * outcome nat) (x : Sent) : Prop :=
  match x with
  | SKernel dt _ keys values _ =>
      let i := find_separator h.1 in
      exists n k, parse_u32 (take i h.1) = Some dt /\ layout dt = Some (n, k) /\ SCHEMA !! dt = Some keys
        /\ length values = n /\ take k values = take k (fields_of n (drop (i + 1) h.1))
  | SHeart _ => False
  end.
(** [transform] reported something. *)
Definition reported (h : bytes * outcome nat) : bool := match h.2 with Ret (S _) => true | _ => false end.

Definition clock_ok : Prop := forall w : W, (0 < (unix_time w).1 < 2 ^ 63)%Z.

(** An encoded array of values is a frame of the stream. *)
Lemma encoded_decodes dt n k keys ts values d m d' :
  layout dt = Some (n, k) -> SCHEMA !! dt = Some keys -> length values = n -> (0 < ts < 2 ^ 63)%Z -> fits (length d) ->
  (Ret m, d') = protobuf_encode ts keys values dt d -> decodes (SKernel dt ts keys values (take m d')).
Proof.
  intros Hlay Hk Hn Hts Hd Henc Hok. cbn in Hok |- *.
  destruct (schema_arity dt n k Hlay) as (keys' & Hk' & Hkl & Hkk). rewrite Hk in Hk'. injection Hk' as <-.
  pose proof (layout_range dt n k Hlay) as Hdt.
  assert (Hfit : length (Frame.frame dt ts (reverse (zip keys values))) <= length d).
  { destruct (le_lt_dec (length (Frame.frame dt ts (reverse (zip keys values)))) (length d)) as [|Hlt]; [done|].
    destruct Hok as [_ Hp]. rewrite protobuf_encode_short in Henc by (done || unfold fits; lia). done. }
  destruct (protobuf_encode_frame dt ts keys values d) as (m' & Hm' & Hdec); try (done || lia).
  rewrite <- Henc in Hm', Hdec. cbn [fst snd] in *. by injection Hm' as ->.
Qed.

(** [transform] on any input. *)
Lemma transform_any rec (s : St) r s' :
  opened s -> clock_ok -> fits (length (dst s)) -> transform rec s = (r, s') -> r <> Panic ->
  opened s' /\ length (dst s') = length (dst s)
  /\ forall m, r = Ret (S m) -> exists dt ts keys values,
       let x := SKernel dt ts keys values (take (S m) (dst s')) in reports_of (rec, r) x /\ decodes x.
Proof.
  intros Ho Hclock Hd E Hr.
  assert (Ho' : opened s') by (pose proof (transform_keeps opened opened_stable rec s Ho) as Hk; by rewrite E in Hk).
  split; [done|]. revert E. unfold transform. set (i := find_separator rec).
  destruct (utf8_valid (take i rec)); [|by intros [= <- <-]].
  destruct (parse_u32 (take i rec)) as [dt|] eqn:Ep; [|by intros [= <- <-]].
  unfold mbind, SM_bind, read_unix_time. pose proof (Hclock (world s)) as Hts.
  destruct (unix_time (world s)) as [ts w] eqn:Ew. cbn [fst] in Hts. rewrite (proj2 (Z.ltb_ge _ _)) by lia.
  case_decide; [|intros [= <- <-]; done]. set (data := drop (i + 1) rec). intros E.
  destruct (layout dt) as [[n k]|] eqn:Hlay; [|rewrite transform_arm_unknown in E by done; by injection E as <- <-].
  destruct (decide (length (split_on x1e data) <= n)) as [Hl|Hl].
  2:{ pose proof (transform_arm_panics dt n k ts data (set_world w s) Hlay ltac:(lia)) as Hp. rewrite E in Hp. by cbn in Hp. }
  destruct (schema_arity dt n k Hlay) as (keys & Hk & _).
  pose proof (transform_arm_ok dt n k ts data keys (dst s) Hlay Hk Hl (set_world w s) ltac:(by split)) as Hs.
  rewrite E in Hs. cbn [fst snd] in Hs. destruct Hs as [[-> ->]|(values & Hvn & Htake & Henc)]; [done|].
  split. { pose proof (in_place_encode ts keys values dt (dst s)) as Hlen. by rewrite <- Henc in Hlen. }
  intros m ->. exists dt, ts, keys, values. split; [by exists n, k|]. by eapply encoded_decodes.
Qed.

(** *** What a step leaves alone *)

Definition same_shared (s s' : St) : Prop := dst s' = dst s /\ kmod s' = kmod s.

Lemma aged_shared q (s : St) : exists r s', aged q s = (Ret r, s') /\ same_shared s s'.
Proof.
  revert s. induction q as [|[k v] q IH]; intros s; cbn [aged]; [by eexists _, _|].
  unfold mbind, SM_bind, read_clock. destruct (instant_now (world s)) as [t w].
  destruct (IH (set_world w s)) as (r & s' & -> & Hs). by eexists _, _.
Qed.

Lemma add_parameters_shared dir rec (s : St) : same_shared s (add_parameters dir rec s).2.
Proof.
  revert rec s. induction dir as [|[[path name]|] dir IH]; intros rec s; cbn [add_parameters]; [done| |apply IH].
  unfold mbind, SM_bind, read_to_string. destruct (fs_read path (world s)) as [o w].
  destruct (o ≫= _) as [p|]; [destruct (utf8_valid name); [|done]|]; apply (IH _ (set_world w s)).
Qed.

Lemma heartbeat_shared to_string dir (s : St) : same_shared s (heartbeat to_string dir s).2.
Proof.
  unfold heartbeat, mbind, SM_bind, read_unix_time. destruct (unix_time (world s)) as [ts w].
  destruct (ts <? 0)%Z; [done|]. unfold sm_gets.
  destruct (aged_shared (filtered_exe_entries (kmod (set_world w s))) (set_world w s)) as (r1 & s1 & -> & H1d & H1k).
  destruct (aged_shared (filtered_argv_entries (kmod (set_world w s))) s1) as (r2 & s2 & -> & H2d & H2k).
  match goal with |- context [add_parameters dir ?rec s2] => destruct (add_parameters_shared dir rec s2) as [Hd Hk] end.
  split; [by rewrite Hd, H2d, H1d|by rewrite Hk, H2k, H1k].
Qed.

Lemma ttl_exe_loop_open q c (w : W) : is_Some c -> is_Some (ttl_exe_loop q c w).1.2.
Proof.
  revert c w. induction q as [|[i e] q IH]; intros c w Hc; cbn [ttl_exe_loop]; [done|].
  destruct (instant_now w) as [t w']. destruct (_ <? _)%Z; [done|]. destruct Hc as [c' ->]. by apply IH.
Qed.
Lemma ttl_argv_loop_open exes q c (w : W) : is_Some c -> is_Some (ttl_argv_loop exes q c w).1.2.
Proof.
  revert exes c w. induction q as [|[i e] q IH]; intros exes c w Hc; cbn [ttl_argv_loop]; [done|].
  destruct (instant_now w) as [t w']. destruct (_ <? _)%Z; [done|]. destruct Hc as [c' ->]. by apply IH.
Qed.

Lemma expire_shared (s : St) r s' :
  on_kmod ttl_filters_pass s = (r, s') -> dst s' = dst s /\ (opened s -> opened s').
Proof.
  unfold on_kmod, ttl_filters_pass, opened.
  pose proof (ttl_exe_loop_open (filtered_exe_entries (kmod s)) (controler (kmod s)) (world s)) as He.
  destruct (ttl_exe_loop _ _ _) as [[exes c] w].
  pose proof (ttl_argv_loop_open exes (filtered_argv_entries (kmod s)) c w) as Ha.
  destruct (ttl_argv_loop _ _ _ _) as [[[exes' argvs] c'] w']. intros [= _ <-]. cbn in *. auto.
Qed.

(** *** The invariant *)

Definition writing (h : bytes * outcome nat) (s : St) (n : nat) : Prop :=
  h.2 = Ret n /\ forall m, n = S m -> exists dt ts keys values,
    let x := SKernel dt ts keys values (take n (dst s)) in reports_of h x /\ decodes x.

Record pipe_inv (items0 : list (option bytes)) (w0 : bytes) (d : Driver C TU TN W) (reps : list Sent)
    (done : list (bytes * outcome nat)) : Prop := {
  pi_items : map (fun h => Some h.1) (d_handled d) ++ d_items d = items0;
  pi_state : d_running d = true -> opened (d_st d) /\ fits (length (dst (d_st d)));
  pi_writer : writer (d_client d) = w0 ++ concat (map sent_bytes reps);
  pi_decodes : Forall decodes reps;
  pi_reports : Forall2 reports_of (filter (fun h => reported h = true) done) (filter (fun x => from_kernel x = true) reps);
  pi_done : d_handled d = done /\ d_pending d = None
            \/ exists h n, d_pending d = Some n /\ d_handled d = done ++ [h] /\ (d_running d = true -> writing h (d_st d) n);
}.

Lemma pipe_inv_write items0 w0 s c items h n hb c' reps done :
  raw_write_all (take n (dst s)) c = (Ret tt, c') ->
  pipe_inv items0 w0 (mkDriver s c items h (Some n) true hb) reps done ->
  exists reps' done', pipe_inv items0 w0 (mkDriver s c' items h None true hb) reps' done'.
Proof.
  unfold raw_write_all, write_all. destruct (writer_open c); [|done]. intros [= <-] [Hi Hs Hw Hd Hr [[_ [=]]|(h0 & n0 & [= <-] & Hh & Hwr)]].
  cbn in *. destruct (Hwr eq_refl) as [En Hx]. destruct n as [|m].
  - exists reps, (done ++ [h0]). split; cbn; try done; [by rewrite take_0, app_nil_r| |by left].
    rewrite filter_app, filter_cons_False, filter_nil, app_nil_r; [done|]. unfold reported. by rewrite En.
  - destruct (Hx m eq_refl) as (dt & ts & keys & values & Hrep & Hdec).
    exists (reps ++ [SKernel dt ts keys values (take (S m) (dst s))]), (done ++ [h0]). split; cbn; try done; [| | |by left].
    + rewrite map_app, concat_app, Hw, <- app_assoc. cbn. by rewrite app_nil_r.
    + apply Forall_app. split; [done|]. by constructor.
    + rewrite !filter_app, (filter_cons_True _ h0) by (unfold reported; by rewrite En).
      rewrite (filter_cons_True _ (SKernel _ _ _ _ _)) by done. rewrite !filter_nil. apply Forall2_app; [done|]. by constructor.
Qed.

Lemma pipe_inv_beat items0 w0 s c items h p run rec r c' reps done :
  send_record rec c = (r, c') ->
  pipe_inv items0 w0 (mkDriver s c items h p run (Some (Some rec))) reps done ->
  exists reps', pipe_inv items0 w0 (mkDriver s c' items h p run (match r with Ret _ => Some None | _ => None end)) reps' done.
Proof.
  intros E [Hi Hs Hw Hd Hr Hdone]. cbn in *. revert E. unfold send_record, mbind, SM_bind, write_all.
  destruct (writer_open c) eqn:Ho; [|intros [= <- <-]; by exists reps].
  cbn [writer_open]. intros [= <- <-]. exists (reps ++ [SHeart rec]). split; cbn; try done.
  - rewrite map_app, concat_app, Hw, <- !app_assoc. cbn. rewrite app_nil_r. unfold Client.framed. by rewrite Record_size_write.
  - apply Forall_app. split; [done|]. constructor; [|done]. intros Hok. cbn in *.
    pose proof (decode_stream_framed [rec] 1 ltac:(by constructor) ltac:(done)) as Hf. cbn [map concat] in Hf. by rewrite app_nil_r in Hf.
  - by rewrite filter_app, (filter_cons_False _ (SHeart rec)), filter_nil, app_nil_r by done.
Qed.

Lemma pipe_inv_transform items0 w0 s c rec items h hb r s' reps done :
  clock_ok -> transform rec s = (r, s') ->
  pipe_inv items0 w0 (mkDriver s c (Some rec :: items) h None true hb) reps done ->
  exists done', pipe_inv items0 w0 (mkDriver s' c items (h ++ [(rec, r)]) (after r) (goes_on r) hb) reps done'.
Proof.
  intros Hclock E [Hi Hs Hw Hd Hr [[Hh _]|(? & ? & [=] & _)]]. cbn in *. destruct (Hs eq_refl) as [Ho Hf].
  assert (Hi' : map (fun h => Some h.1) (h ++ [(rec, r)]) ++ items = items0) by (by rewrite map_app, <- app_assoc).
  assert (Hskip : after r = None -> exists done',
    pipe_inv items0 w0 (mkDriver s' c items (h ++ [(rec, r)]) (after r) (goes_on r) hb) reps done').
  { intros Ea. exists (done ++ [(rec, r)]). split; cbn; try done; [| |left; by rewrite Hh].
    - intros Hg. destruct (transform_any rec s r s') as (Ho' & Hl & _); try done; [by destruct r|]. by rewrite Hl.
    - rewrite filter_app, filter_cons_False, filter_nil, app_nil_r; [done|]. unfold reported. cbn. by destruct r. }
  destruct r as [n|e|]; [|by apply Hskip..].
  destruct (transform_any rec s (Ret n) s') as (Ho' & Hl & Hx); try done.
  exists done. split; cbn; try done; [by rewrite Hl|]. right. exists (rec, Ret n), n. rewrite Hh. split; [done|]. split; [done|].
  intros _. split; [done|]. intros m ->. by apply Hx.
Qed.

(** A step that changes the state of the module and the world only. *)
Lemma pipe_inv_state items0 w0 s c items h p run hb s' hb' reps done :
  dst s' = dst s -> (opened s -> opened s') ->
  pipe_inv items0 w0 (mkDriver s c items h p run hb) reps done -> pipe_inv items0 w0 (mkDriver s' c items h p run hb') reps done.
Proof.
  intros Hd Ho [Hi Hs Hw Hdec Hr Hdone]. split; cbn in *; try done.
  - intros Hrun. destruct (Hs Hrun). rewrite Hd. auto.
  - destruct Hdone as [?|(h0 & n & -> & -> & Hwr)]; [by left|]. right. exists h0, n. split; [done|]. split; [done|].
    unfold writing in *. by rewrite Hd.
Qed.

Lemma pipe_inv_step to_string items0 w0 d d' :
  clock_ok -> dstep to_string d d' ->
  (exists reps done, pipe_inv items0 w0 d reps done) -> exists reps done, pipe_inv items0 w0 d' reps done.
Proof.
  intros Hclock Hstep (reps & done & Hinv).
  destruct Hstep as [s c items h hb|s c items h hb|s c rec items h hb r s' E|s c items h n hb c' E|s c items h n hb e c' E
    |s c items h p run dir r s' E|s c items h p run rec r c' E|s c items h p run hb r s' E|s c items h p run hb].
  - exists reps, done. destruct Hinv as [? ? ? ? ? Hdone]. split; cbn in *; try done. left. by destruct Hdone as [[-> _]|(? & ? & [=] & _)].
  - exists reps, done. destruct Hinv as [? ? ? ? ? Hdone]. split; cbn in *; try done. left. by destruct Hdone as [[-> _]|(? & ? & [=] & _)].
  - exists reps. by eapply pipe_inv_transform.
  - by eapply pipe_inv_write.
  - exists reps, done. revert E. unfold raw_write_all, write_all. destruct (writer_open c); [done|]. intros [= <- <-].
    destruct Hinv as [Hi Hs Hw Hd Hr [[_ [=]]|(h0 & n0 & ? & ? & ?)]]. split; cbn in *; try done. right. by exists h0, n0.
  - exists reps, done. destruct (heartbeat_shared to_string dir s) as [Hd Hk]. rewrite E in Hd, Hk. cbn in Hd, Hk.
    eapply pipe_inv_state; [exact Hd| |exact Hinv]. unfold opened. by rewrite Hk.
  - destruct (pipe_inv_beat _ _ _ _ _ _ _ _ _ _ _ _ _ E Hinv) as [reps' Hinv']. eauto.
  - exists reps, done. destruct (expire_shared s r s' E) as [Hd Ho]. by eapply pipe_inv_state.
  - exists reps, done. by destruct Hinv; split.
Qed.

Lemma decode_sent reps :
  Forall decodes reps -> Forall sent_ok reps -> decode_stream (length reps) (concat (map sent_bytes reps)) = Ret (map sent_record reps).
Proof.
  intros Hd Hok. rewrite <- (length_map sent_record). apply decode_stream_chunks. induction reps as [|x reps IH]; [constructor|].
  apply Forall_cons in Hd as [Hx Hd]. apply Forall_cons in Hok as [Hxo Hok]. cbn [map]. constructor; [by apply Hx|by apply IH].
Qed.

End stream.

(** ** The loop of the record thread is one of the runs *)

Theorem record_send_runs {C TU TN W} `{!Stores C TU TN W} `{CodedOutputStream} to_string items stop i (s : St C TU TN W) c h hb :
  exists d, rtc (dstep to_string) (mkDriver s c items h None true hb) d
    /\ (record_send items stop i (s, c)).2 = (d_st d, d_client d).
Proof.
  revert i s c h. induction items as [|[rec|] items IH]; intros i s c h; cbn [record_send].
  - eexists. split; [apply rtc_refl|done].
  - destruct (stop i); [eexists; split; [apply rtc_refl|done]|].
    unfold mbind, SM_bind, on_transformer, try_. destruct (transform rec s) as [r s'] eqn:E. destruct r as [n|e|].
    + unfold sm_gets, on_client. cbn [fst snd].
      destruct (raw_write_all (take n (dst s')) c) as [[[]|e|] c'] eqn:Ew.
      * destruct (stop (S i)).
        -- eexists. split; [eapply rtc_l; [by apply DTransform|]; eapply rtc_l; [by apply DWrite|apply rtc_refl]|done].
        -- destruct (IH (S (S i)) s' c' (h ++ [(rec, Ret n)])) as (d & Hd & ->). exists d. split; [|done].
           eapply rtc_l; [by apply DTransform|]. eapply rtc_l; [by apply DWrite|done].
      * eexists. split; [eapply rtc_l; [by apply DTransform|]; eapply rtc_l; [by eapply DWriteFails|apply rtc_refl]|done].
      * revert Ew. unfold raw_write_all, write_all. by case_match.
    + destruct (IH (S i) s' c (h ++ [(rec, Fail e)])) as (d & Hd & ->). exists d. split; [|done]. eapply rtc_l; [by apply DTransform|done].
    + eexists. split; [eapply rtc_l; [by apply DTransform|apply rtc_refl]|done].
  - destruct (stop i); (eexists; split; [apply rtc_refl|done]).
Qed.

(** ** What the heartbeat tells *)

Section tells.
Context {C TU TN W : Type} `{!Stores C TU TN W}.
Abbreviation St := (St C TU TN W).

Lemma aged_names q (s : St) r s' : aged q s = (Ret r, s') -> map snd r = map (fun e => from_utf8_lossy e.2) q.
Proof.
  revert s r s'. induction q as [|[k v] q IH]; intros s r s'; cbn [aged]; [by intros [= <- _]|].
  intros (t & s1 & _ & E)%sm_bind_inv. apply sm_bind_inv in E as (r' & s2 & Er & [= <- _]). cbn. by rewrite (IH _ _ _ Er).
Qed.

Definition field (name : bytes) (rec : Record_) : option bytes := p ← data rec; fields p !! name.

Lemma field_insert name name' v rec : field name (insert_field name' v rec) = if decide (name' = name) then Some v else field name rec.
Proof.
  unfold field, insert_field, set_data, set_fields. cbn [data fields mbind option_bind]. case_decide as E.
  - subst. by rewrite lookup_insert_eq.
  - rewrite lookup_insert_ne by done. destruct (data rec); cbn; [done|apply lookup_empty].
Qed.

Lemma add_parameters_keeps dir rec (s : St) rec' s' :
  add_parameters dir rec s = (Ret rec', s') ->
  data_type rec' = data_type rec /\ timestamp rec' = timestamp rec
  /\ forall name, (forall path, Some (path, name) ∉ dir) -> field name rec' = field name rec.
Proof.
  revert rec s. induction dir as [|[[path n]|] dir IH]; intros rec s; cbn [add_parameters]; [by intros [= <- _]| |].
  - intros (o & s1 & _ & E)%sm_bind_inv.
    assert (Hcase : exists rec1, add_parameters dir rec1 s1 = (Ret rec', s') /\ data_type rec1 = data_type rec
      /\ timestamp rec1 = timestamp rec /\ forall name, name <> n -> field name rec1 = field name rec).
    { destruct o as [p|]; [destruct (utf8_valid n); [|done]|by exists rec].
      eexists. split; [exact E|]. split; [done|]. split; [done|]. intros name Hn. by rewrite field_insert, decide_False. }
    destruct Hcase as (rec1 & E1 & Ht1 & Hs1 & Hf1). destruct (IH _ _ E1) as (-> & -> & Hf). split; [done|]. split; [done|].
    intros name Hname. rewrite Hf by (intros q; specialize (Hname q); rewrite not_elem_of_cons in Hname; by destruct Hname).
    apply Hf1. intros ->. destruct (Hname path). apply list_elem_of_here.
  - intros E. destruct (IH _ _ E) as (-> & -> & Hf). split; [done|]. split; [done|]. intros name Hname. apply Hf.
    intros q Hq. apply (Hname q). by right.
Qed.

(** A heartbeat lists every executable and every command line in the module's queues,
    oldest first, unless the module has a parameter of the same name, and carries
    the type 900 and the time it began. *)
Theorem heartbeat_tells to_string dir (s : St) rec s' ts w :
  heartbeat to_string dir s = (Ret rec, s') -> unix_time (world s) = (ts, w) -> (ts < 2 ^ 63)%Z ->
  data_type rec = 900%Z /\ timestamp rec = ts
  /\ forall name q, name = bs "filtered_exe_entries" /\ q = filtered_exe_entries (kmod s)
                    \/ name = bs "filtered_argv_entries" /\ q = filtered_argv_entries (kmod s) ->
     (forall path, Some (path, name) ∉ dir) ->
     exists es, field name rec = Some (to_string es) /\ map snd es = map (fun e => from_utf8_lossy e.2) q.
Proof.
  unfold heartbeat, read_unix_time. intros (t & s1 & Et & E)%sm_bind_inv Ew Hts. rewrite Ew in Et.
  destruct (Z.ltb_spec ts 0); [done|]. injection Et as <- <-.
  apply sm_bind_inv in E as (q1 & s2 & [= <- <-] & E). apply sm_bind_inv in E as (q2 & s3 & [= <- <-] & E).
  apply sm_bind_inv in E as (es1 & s4 & E1 & E). apply sm_bind_inv in E as (es2 & s5 & E2 & E).
  apply add_parameters_keeps in E as (-> & -> & Hf). split; [done|]. split.
  - cbn. unfold as_i64. rewrite Z.mod_small by lia. lia.
  - intros name q [[-> ->]|[-> ->]] Hname; rewrite Hf, !field_insert by done.
    + rewrite decide_False, decide_True by done. eexists. split; [done|]. by apply aged_names in E1.
    + rewrite decide_True by done. eexists. split; [done|]. by apply aged_names in E2.
Qed.
End tells.

(** ** A run *)

Definition test_ages (l : list (Z * bytes)) : bytes := concat (map snd l).
Definition test_raw : bytes := raw_record 700 [bs "m"].
Definition run_start : Driver LruList.t (TtlList.t unit) (TtlList.t Z) unit :=
  mkDriver frozen_start driver_client [Some test_raw; None] [] None true (Some None).
Definition run_client : Client := snd (raw_write_all (take 33 (dst (snd (transform test_raw frozen_start)))) driver_client).
Definition run_state := snd (transform test_raw frozen_start).
Definition run_heart : Record_ := insert_field (bs "filtered_argv_entries") [] (insert_field (bs "filtered_exe_entries") [] (mkRecord 900 1650000000 None [])).
(** A record, a heartbeat, and the end of the module's pipe. *)
Definition run_end : Driver LruList.t (TtlList.t unit) (TtlList.t Z) unit :=
  mkDriver (snd (heartbeat test_ages [] run_state)) (snd (send_record run_heart run_client)) [None] [(test_raw, Ret 33)] None true (Some None).

Lemma run_eq {A B} (p : A * B) a : fst p = a -> p = (a, snd p).
Proof. destruct p. by intros <-. Qed.

