(* ===== verification/DriverInstall.v ===== *)
(** * Loading the kernel module ([kmod.rs], [utils.rs] of the driver plugin)

    [check_crash], [download], [install] and the part of [Kmod::new] that opens
    the module.  What they call of the operating system, of [reqwest],
    [sha2], [hex] and [walkdir] is the class [Host]; a call may
    change the host [H]. *)

From S2P Require Import Prelude Bytes RustStd Crates DriverConfig Kmod.

(** ** The host *)

(** A response of [reqwest::blocking::get]: its status, and its body if reading
    it succeeds. *)
Record response := mkResponse { status : Z; body : option bytes }.

(** The errors that [install] tells apart. *)
Inductive install_error :=
  | Unavailable                      (** [anyhow!("unavailable url")] *)
  | Checksum                         (** [anyhow!("checksum doesn't match")] *)
  | Reqwest (status : option Z)      (** a [reqwest::Error] with its status *)
  | HostError                        (** an error of the operating system *)
  | Crash (content : bytes)          (** a crash of the driver was found *)
  | LoadFailed.                      (** [anyhow!("load module failed: ..")] *)

(** What the functions of this file give. *)
Inductive result (A : Type) := Ok (a : A) | Err (e : install_error) | Aborted.
Arguments Ok {A}.
Arguments Err {A}.
Arguments Aborted {A}.

(** An entry below /var/crash: its name, its age in seconds ([None] if it cannot
    be had, or is negative: [unwrap] panics) and its contents. *)
Record crash_entry := mkCrash { crash_name : bytes; crash_age : option Z; crash_content : bytes }.

Class Host (H : Type) := {
  http_get : bytes -> H -> option response * H;         (** [None]: an error without a status *)
  sha256 : bytes -> bytes;
  hex_decode : bytes -> option bytes;
  write_file : bytes -> bytes -> H -> bool * H;         (** create, write, sync *)
  read_to_string : bytes -> H -> option bytes * H;
  open_control : H -> bool * H;
  write_control : bytes -> H -> H;
  delete_module : H -> bool * H;
  kernel_release : bytes;
  arch : bytes;
  modinfo : bytes -> H -> option (bool * bytes) * H;    (** success and standard output *)
  can_open : bytes -> H -> bool * H;
  finit_module : bytes -> H -> bool * H;
  insmod : bytes -> H -> option (bool * bytes) * H;     (** success and standard error *)
  crash_entries : H -> list crash_entry;
}.

Definition KMOD_VERSION : bytes := bs "1.7.0.4".
Definition KMOD_NAME : bytes := bs "hids_driver".
Definition DOWNLOAD_HOSTS : list bytes := map bs
  ["https://lf3-elkeid.bytetos.com/obj/elkeid-download/ko/";
   "https://lf6-elkeid.bytetos.com/obj/elkeid-download/ko/";
   "https://lf9-elkeid.bytetos.com/obj/elkeid-download/ko/";
   "https://lf26-elkeid.bytetos.com/obj/elkeid-download/ko/"]%string.

(** [Path::with_extension] on a file name. *)
Fixpoint last_dot (s : bytes) : option nat :=
  match s with
  | [] => None
  | c :: s' =>
      match last_dot s' with
      | Some i => Some (S i)
      | None => if bool_decide (c = "."%byte) then Some 0 else None
      end
  end.
Definition with_extension (ext name : bytes) : bytes :=
  match last_dot name with
  | Some (S i) => take (S i) name ++ bs "." ++ ext
  | _ => name ++ bs "." ++ ext
  end.

(** [StatusCode::is_success] *)
Definition is_success (s : Z) : bool := (200 <=? s)%Z && (s <? 300)%Z.
(** [error_for_status] is an error for a client or a server error. *)
Definition is_error_status (s : Z) : bool := (400 <=? s)%Z && (s <? 600)%Z.

Section install.
Context {H : Type} `{!Host H}.

(** ** [check_crash] *)

Fixpoint check_entries (es : list crash_entry) : result unit :=
  match es with
  | [] => Ok tt
  | e :: es' =>
      match crash_age e with
      | None => Aborted
      | Some age =>
          if (age >? 48 * 60 * 60)%Z then check_entries es'
          else if starts_with (crash_name e) (bs "dmesg") then
            if contains (crash_content e) (bs "[" ++ KMOD_NAME ++ bs "]")
            then Err (Crash (crash_content e)) else Ok tt
          else check_entries es'
      end
  end.
Definition check_crash (h : H) : result unit :=
  check_entries (filter (fun e => utf8_valid (crash_name e) = true) (crash_entries h)).

(** ** [download] *)

(** One host: [inl] ends the function, [inr] is the new [err]. *)
Definition download_from (host src dst : bytes) (h : H) : (result unit + install_error) * H :=
  let (content, h) := http_get (host ++ src) h in
  match content with
  | None => (inr (Reqwest None), h)
  | Some content =>
      let (sign, h) := http_get (host ++ with_extension (bs "sign") src) h in
      match sign with
      | None => (inr (Reqwest None), h)
      | Some sign =>
          if is_success (status content) && is_success (status sign) then
            match body content, body sign with
            | Some contents, Some sign_content =>
                if bool_decide (sha256 contents = default [] (hex_decode (trim sign_content))) then
                  let (written, h) := write_file dst contents h in
                  (inl (if written : bool then Ok tt else Err HostError), h)
                else (inr Checksum, h)
            | _, _ => (inr (Reqwest None), h)
            end
          else if is_error_status (status content) then (inr (Reqwest (Some (status content))), h)
          else (inl Aborted, h)
      end
  end.

Fixpoint download_loop (hosts : list bytes) (src dst : bytes) (err : install_error) (h : H)
    : result unit * H :=
  match hosts with
  | [] => (Err err, h)
  | host :: hosts' =>
      match download_from host src dst h with
      | (inl r, h) => (r, h)
      | (inr err, h) => download_loop hosts' src dst err h
      end
  end.
Definition download (src dst : bytes) (h : H) : result unit * H :=
  download_loop DOWNLOAD_HOSTS src dst Unavailable h.

(** ** [install] *)

Definition arch_name : bytes :=
  if bool_decide (arch = bs "x86_64") then bs "amd64"
  else if bool_decide (arch = bs "aarch64") then bs "arm64"
  else arch.

Definition ko_dst : bytes := KMOD_NAME ++ bs "_latest_" ++ kernel_release ++ bs "_" ++ arch_name ++ bs ".ko".
Definition ko_src : bytes :=
  KMOD_NAME ++ bs "_" ++ KMOD_VERSION ++ bs "_" ++ kernel_release ++ bs "_" ++ arch_name ++ bs ".ko".

(** [loop { match download(..) .. }]: a missing file (404) and a server error
    (500) are tried again after an hour, without end; [None] when the fuel is
    used up. *)
Fixpoint download_retry (fuel : nat) (h : H) : option (result unit) * H :=
  match fuel with
  | O => (None, h)
  | S fuel' =>
      match download ko_src ko_dst h with
      | (Ok _, h) => (Some (Ok tt), h)
      | (Aborted, h) => (Some Aborted, h)
      | (Err (Reqwest (Some s)), h) =>
          if (s =? 500)%Z || (s =? 404)%Z then download_retry fuel' h
          else (Some (Err (Reqwest (Some s))), h)
      | (Err e, h) => (Some (Err e), h)
      end
  end.

(** The module that is loaded already. *)
Definition loaded_version (h : H) : option bytes * H :=
  read_to_string (bs "/sys/module/" ++ KMOD_NAME ++ bs "/version") h.

(** A module of this version on disk. *)
Definition on_disk (out : option (bool * bytes)) : bool :=
  match out with
  | Some (true, stdout) =>
      existsb (fun line => contains line (bs "version") && contains line KMOD_VERSION)
        (lines (from_utf8_or_default stdout))
  | _ => false
  end.

(** The end of [install]: load the downloaded file. *)
Definition load_downloaded (h : H) : result unit * H :=
  let (opened, h) := can_open ko_dst h in
  if (opened : bool) then
    let (loaded, h) := finit_module ko_dst h in
    if (loaded : bool) then (Ok tt, h)
    else
      let (output, h) := insmod ko_dst h in
      match output with
      | None => (Err LoadFailed, h)
      | Some (true, _) => (Ok tt, h)
      | Some (false, stderr) => ((if utf8_valid stderr then Err LoadFailed else Aborted), h)
      end
  else (Err HostError, h).

(** The part of [install] behind the check of the loaded version. *)
Definition install_new (fuel : nat) (h : H) : option (result unit) * H :=
  let (out, h) := modinfo ko_dst h in
  let fetch h :=
    match download_retry fuel h with
    | (Some (Ok _), h) => let (r, h) := load_downloaded h in (Some r, h)
    | (r, h) => (r, h)
    end in
  if on_disk out then
    let (opened, h) := can_open ko_dst h in
    if (opened : bool) then
      let (loaded, h) := finit_module ko_dst h in
      (Some (if (loaded : bool) then Ok tt else Err LoadFailed), h)
    else fetch h
  else fetch h.

Definition install (fuel : nat) (h : H) : option (result unit) * H :=
  let (version, h) := loaded_version h in
  match version with
  | Some version =>
      if contains version KMOD_VERSION then
        let (opened, h) := open_control h in
        if (opened : bool) then
          let h := write_control (command REMOVE_ALL_ARGV_FILTER_FLAG PADDING_CONTENT) h in
          let h := write_control (command REMOVE_ALL_EXE_FILTER_FLAG PADDING_CONTENT) h in
          (Some (Ok tt), h)
        else (Some (Err HostError), h)
      else
        let (deleted, h) := delete_module h in
        if (deleted : bool) then install_new fuel h else (Some (Err HostError), h)
  | None => install_new fuel h
  end.

(** [Kmod::new] up to the open control file; the queues start empty. *)
Definition Kmod_open (fuel : nat) (h : H) : option (result Kmod) * H :=
  match check_crash h with
  | Err e => (Some (Err e), h)
  | Aborted => (Some Aborted, h)
  | Ok _ =>
      match install fuel h with
      | (Some (Ok _), h) =>
          let (opened, h) := open_control h in
          if (opened : bool) then (Some (Ok (mkKmod [] [] (Some []))), h)
          else let (_, h) := delete_module h in (Some (Err HostError), h)
      | (Some (Err e), h) => (Some (Err e), h)
      | (Some Aborted, h) => (Some Aborted, h)
      | (None, h) => (None, h)
      end
  end.

(** ** What a download writes *)

(** A file was fetched from [host] with a signature that is its digest. *)
Definition verified (host src contents : bytes) : Prop :=
  exists h0 h1 h2 s1 s2 sign,
    http_get (host ++ src) h0 = (Some (mkResponse s1 (Some contents)), h1)
    /\ http_get (host ++ with_extension (bs "sign") src) h1 = (Some (mkResponse s2 (Some sign)), h2)
    /\ is_success s1 = true /\ is_success s2 = true
    /\ sha256 contents = default [] (hex_decode (trim sign)).

Lemma download_from_ok host src dst h h' :
  download_from host src dst h = (inl (Ok tt), h') ->
  exists contents h2, verified host src contents /\ write_file dst contents h2 = (true, h').
Proof.
  unfold download_from. destruct (http_get (host ++ src) h) as [[[s1 b1]|] h1] eqn:E1; [|done].
  destruct (http_get (host ++ with_extension (bs "sign") src) h1) as [[[s2 b2]|] h2] eqn:E2; [|done].
  cbn [status body]. destruct (is_success s1 && is_success s2) eqn:Es.
  2: { destruct (is_error_status s1); [done|]. intros E. congruence. }
  destruct b1 as [contents|], b2 as [sign|]; try done. case_bool_decide as Hd; [|done].
  destruct (write_file dst contents h2) as [[] h3] eqn:E3; [|done]. intros [= <-].
  apply andb_true_iff in Es as [Hs1 Hs2]. exists contents, h2. split; [|done].
  by exists h, h1, h2, s1, s2, sign.
Qed.

Lemma download_loop_ok hosts src dst err h h' :
  download_loop hosts src dst err h = (Ok tt, h') ->
  exists host contents h2, host ∈ hosts /\ verified host src contents /\ write_file dst contents h2 = (true, h').
Proof.
  revert err h. induction hosts as [|host hosts IH]; intros err h; cbn [download_loop]; [done|].
  destruct (download_from host src dst h) as [[r|e] h1] eqn:E.
  - intros [= -> ->]. apply download_from_ok in E as (contents & h2 & Hv & Hw).
    exists host, contents, h2. split; [left|done].
  - intros (host' & contents & h2 & Hin & Hv)%IH. exists host', contents, h2. split; [by right|done].
Qed.
End install.

(** The commands the kernel module has received. *)
Class HostLaws (H : Type) `{!Host H} := {
  control_log : H -> list bytes;
  control_log_write c h : control_log (write_control c h) = control_log h ++ [c];
  control_log_open h : control_log (open_control h).2 = control_log h;
  control_log_read p h : control_log (read_to_string p h).2 = control_log h;
}.

Section properties.
Context {H : Type} `{!Host H, !HostLaws H}.


(** A host that serves the module but not its signature ends the plugin: the
    error of the failed request is asked of the successful one, and its
    [unwrap_err] panics, so that no other host is tried. *)
Theorem download_missing_sign_panics host hosts src dst err (h h1 h2 : H) content sign :
  http_get (host ++ src) h = (Some content, h1) ->
  http_get (host ++ with_extension (bs "sign") src) h1 = (Some sign, h2) ->
  is_success (status content) = true -> is_success (status sign) = false ->
  download_loop (host :: hosts) src dst err h = (Aborted, h2).
Proof.
  intros E1 E2 Hc Hs. cbn [download_loop]. unfold download_from. rewrite E1, E2, Hs, andb_false_r.
  assert (is_error_status (status content) = false) as ->; [|done].
  unfold is_success, is_error_status in *. lia.
Qed.

(** When the loaded module has the right version, [install] loads nothing and
    leaves the kernel without any filter of an earlier run: neither executables
    nor command lines are filtered when the queues start empty. *)
Theorem install_clears_filters fuel version (h h1 h2 : H) :
  loaded_version h = (Some version, h1) -> contains version KMOD_VERSION = true ->
  open_control h1 = (true, h2) ->
  let '(r, h') := install fuel h in
  r = Some (Ok tt)
  /\ KernelFilter.exes (control_log h') = ∅ /\ KernelFilter.argvs (control_log h') = ∅.
Proof.
  intros E1 Ev E2. unfold install. rewrite E1, Ev, E2. split; [done|]. rewrite !control_log_write.
  unfold KernelFilter.exes, KernelFilter.argvs, KernelFilter.filtered. rewrite !foldl_app.
  by split.
Qed.

(** The first recent kernel log below /var/crash decides: if it does not name
    the driver the module is loaded, whatever later logs say; if it does, the
    driver refuses to start. *)
Theorem check_crash_first pre e post age :
  Forall (fun e => exists a, crash_age e = Some a
    /\ ((a > 48 * 60 * 60)%Z \/ starts_with (crash_name e) (bs "dmesg") = false)) pre ->
  crash_age e = Some age -> (age <= 48 * 60 * 60)%Z -> starts_with (crash_name e) (bs "dmesg") = true ->
  check_entries (pre ++ e :: post)
  = if contains (crash_content e) (bs "[hids_driver]") then Err (Crash (crash_content e)) else Ok tt.
Proof.
  intros Hpre Ha Hage Hd. induction Hpre as [|e0 pre (a & Ea & Hskip) _ IH]; cbn [app check_entries].
  - rewrite Ha, Z.gtb_ltb, (proj2 (Z.ltb_ge _ _)), Hd by lia. done.
  - rewrite Ea, Z.gtb_ltb. destruct (Z.ltb_spec (48 * 60 * 60) a) as [|Hle]; [done|].
    destruct Hskip as [?| ->]; [lia|done].
Qed.
End properties.

(** ** A concrete host *)

(** Files served by name, and the commands written. *)
Record sample_host := mkHost { served : list (bytes * response); log_ : list bytes; versions : option bytes }.

#[export] Instance sample_host_host : Host sample_host := {
  http_get url h := (assoc url (served h), h);
  sha256 b := b;
  hex_decode b := Some b;
  write_file _ _ h := (true, h);
  read_to_string _ h := (versions h, h);
  open_control h := (true, h);
  write_control c h := mkHost (served h) (log_ h ++ [c]) (versions h);
  delete_module h := (true, h);
  kernel_release := bs "5.4";
  arch := bs "x86_64";
  modinfo _ h := (None, h);
  can_open _ h := (true, h);
  finit_module _ h := (true, h);
  insmod _ h := (None, h);
  crash_entries _ := [];
}.
#[export] Instance sample_host_laws : HostLaws sample_host.
Proof. by refine {| control_log := log_ |}. Defined.

Definition ko_url (host : bytes) (file : string) : bytes := host ++ bs file.
Definition host3 : bytes := bs "https://lf3-elkeid.bytetos.com/obj/elkeid-download/ko/".
Definition serving (sign : response) : sample_host :=
  mkHost [(ko_url host3 "a.sign", sign); (ko_url host3 "a.ko", mkResponse 200 (Some (bs "elf")))]
    [command ADD_EXE_FILTER_FLAG (bs "/x")] (Some (bs "1.7.0.4")).


Lemma download_missing_sign_panics_witness :
  download_loop DOWNLOAD_HOSTS (bs "a.ko") (bs "dst") Unavailable (serving (mkResponse 404 None))
  = (Aborted, serving (mkResponse 404 None)).
Proof.
  apply (download_missing_sign_panics host3 (tail DOWNLOAD_HOSTS) (bs "a.ko") (bs "dst") Unavailable
    (serving (mkResponse 404 None)) (serving (mkResponse 404 None)) (serving (mkResponse 404 None))
    (mkResponse 200 (Some (bs "elf"))) (mkResponse 404 None)); vm_compute; reflexivity.
Defined.

Lemma install_clears_filters_witness :
  let '(r, h') := install 1 (serving (mkResponse 404 None)) in
  r = Some (Ok tt)
  /\ KernelFilter.exes (control_log h') = ∅ /\ KernelFilter.argvs (control_log h') = ∅.
Proof.
  apply (install_clears_filters 1 (bs "1.7.0.4") (serving (mkResponse 404 None))
    (serving (mkResponse 404 None)) (serving (mkResponse 404 None))); vm_compute; reflexivity.
Defined.

Lemma check_crash_first_witness :
  check_entries [mkCrash (bs "crash") (Some 5%Z) []; mkCrash (bs "dmesg.1") (Some 60%Z) (bs "oops");
                 mkCrash (bs "dmesg.2") (Some 60%Z) (bs "[hids_driver] oops")] = Ok tt.
Proof.
  apply (check_crash_first [mkCrash (bs "crash") (Some 5%Z) []] (mkCrash (bs "dmesg.1") (Some 60%Z) (bs "oops"))
    [mkCrash (bs "dmesg.2") (Some 60%Z) (bs "[hids_driver] oops")] 60); [|done|lia|done].
  constructor; [|constructor]. exists 5%Z. split; [done|by right].
Defined.
