(* ===== verification/DriverLife.v ===== *)
(** * The life of the driver plugin ([plugins/driver/src/main.rs], kmod.rs)

    When the kernel module is loaded, who owns it, and how the plugin ends: [main] makes
    a [Kmod], gives it to the thread [record_send] and joins that thread; the thread
    [task_receive] raises a flag once the agent's pipe fails, and [record_send] looks at
    the flag when it has read a record.  The [Kmod] goes with its thread, however the
    thread ends, and [Drop for Kmod] removes the module.  What a record becomes and what
    is written is in [Transformer] and [DriverStream]; here a record is read, handled and
    written or not. *)

From S2P Require Import Prelude.

(** ** State *)

(** The calls that remove the module, with whether it is gone after them; [rmmod] is
    only started, not waited for. *)
Inductive Removal := DeleteModule (ok : bool) | Rmmod (ok : bool).
Definition removes (r : Removal) : bool := match r with DeleteModule ok => ok | Rmmod ok => ok end.

(** [main]: before [Kmod::new], with the [Kmod], joining, returned. *)
Inductive MainAt := MNew | MHasKmod | MJoin | MEnd.
(** [record_send]: not there, opening the pipe of the kernel, waiting for a record, with
    one, about to write its report, about to look at the flag, ended. *)
Inductive RecordAt := RNone | ROpen | RRead | RGot | RWrite | RFlag | REnd.

Record Life := mkLife {
  main_at : MainAt;
  record_at : RecordAt;
  task_running : bool;
  flag : bool;               (** [control_s] and [control_l] *)
  loaded : bool;             (** the module is in the kernel *)
  owned : bool;              (** there is a [Kmod] *)
  removals : list Removal;
  pipe_open : bool;          (** the agent's two pipes *)
  waiting : nat;             (** records the kernel has for the plugin *)
}.
Definition Life_new (loaded : bool) : Life := mkLife MNew RNone false false loaded false [] true 0.

Definition at_main (m : MainAt) (l : Life) : Life :=
  mkLife m (record_at l) (task_running l) (flag l) (loaded l) (owned l) (removals l) (pipe_open l) (waiting l).
Definition at_record (r : RecordAt) (l : Life) : Life :=
  mkLife (main_at l) r (task_running l) (flag l) (loaded l) (owned l) (removals l) (pipe_open l) (waiting l).

(** ** Making and dropping a [Kmod] *)

(** [Drop for Kmod]: [delete_module], and [rmmod] when it fails; [del] and [rm] are their
    answers. *)
Definition Kmod_drop (del rm : bool) (l : Life) : Life :=
  let rs := if del then [DeleteModule true] else [DeleteModule false; Rmmod rm] in
  mkLife (main_at l) (record_at l) (task_running l) (flag l) (loaded l && negb (existsb removes rs)) false (removals l ++ rs)
    (pipe_open l) (waiting l).

(** [Kmod::new]: a crash or a failed installation ends it, with an older module loaded
    or not; a control file that does not open deletes the module again. *)
Inductive NewResult := NewFails (still : bool) | NewNoControl (del : bool) | NewOk.
Definition Kmod_new (r : NewResult) (l : Life) : Life :=
  match r with
  | NewFails still =>
      mkLife MEnd (record_at l) (task_running l) (flag l) still false (removals l) (pipe_open l) (waiting l)
  | NewNoControl del =>
      mkLife MEnd (record_at l) (task_running l) (flag l) (negb del) false (removals l ++ [DeleteModule del]) (pipe_open l) (waiting l)
  | NewOk => mkLife MHasKmod (record_at l) (task_running l) (flag l) true true (removals l) (pipe_open l) (waiting l)
  end.

(** ** The threads *)

(** [main] after [Kmod::new]: the task thread (a failure to start it is ignored) and
    [record_send], whose failure panics and drops the closure with the [Kmod]. *)
Definition main_spawns (task record del rm : bool) (l : Life) : option Life :=
  match main_at l with
  | MHasKmod =>
      let l := mkLife MJoin ROpen task (flag l) (loaded l) (owned l) (removals l) (pipe_open l) (waiting l) in
      Some (if record then l else at_main MEnd (at_record REnd (Kmod_drop del rm l)))
  | _ => None
  end.
Definition main_joins (l : Life) : option Life :=
  match main_at l, record_at l with MJoin, REnd => Some (at_main MEnd l) | _, _ => None end.

(** The thread ends, by its return or by a panic: the closure goes and with it the
    [Kmod]. *)
Definition record_ends (del rm : bool) (l : Life) : Life := at_record REnd (Kmod_drop del rm l).

(** What the thread meets: the pipe opens or not; the next item is a record, a read
    error or the end of the stream; the record is transformed, refused, or makes the
    transformer panic. *)
Inductive Item := AnItem | ReadError | EndOfStream.
Inductive Transformed := Report | Refused | Panicked.
Definition record_turn (opens : bool) (item : Item) (t : Transformed) (del rm : bool) (l : Life) : option Life :=
  match record_at l with
  | ROpen => Some (if opens then at_record RRead l else record_ends del rm l)
  | RRead =>
      match item with
      | AnItem =>
          match waiting l with
          | S n => Some (mkLife (main_at l) RGot (task_running l) (flag l) (loaded l) (owned l) (removals l) (pipe_open l) n)
          | O => None
          end
      | ReadError => Some (record_ends del rm l)
      | EndOfStream => Some (record_ends del rm l)
      end
  | RGot =>
      if flag l then Some (record_ends del rm l)
      else match t with
           | Report => Some (at_record RWrite l)
           | Refused => Some (at_record RRead l)
           | Panicked => Some (record_ends del rm l)
           end
  | RWrite => Some (if pipe_open l then at_record RFlag l else record_ends del rm l)
  | RFlag => Some (if flag l then record_ends del rm l else at_record RRead l)
  | RNone | REnd => None
  end.

(** [task_receive]: the first error raises the flag and ends the thread. *)
Definition task_turn (l : Life) : option Life :=
  if task_running l && negb (pipe_open l)
  then Some (mkLife (main_at l) (record_at l) false true (loaded l) (owned l) (removals l) (pipe_open l) (waiting l))
  else None.

(** The kernel has another record; the agent goes away, or the signal thread closes the
    pipes. *)
Definition kernel_turn (l : Life) : Life :=
  mkLife (main_at l) (record_at l) (task_running l) (flag l) (loaded l) (owned l) (removals l) (pipe_open l) (S (waiting l)).
Definition pipe_turn (l : Life) : Life :=
  mkLife (main_at l) (record_at l) (task_running l) (flag l) (loaded l) (owned l) (removals l) false (waiting l).

(** A step; once [main] has returned the process is gone. *)
Inductive lstep (l : Life) : Life -> Prop :=
  | LNew r : main_at l = MNew -> lstep l (Kmod_new r l)
  | LSpawn task record del rm l' : main_at l <> MEnd -> main_spawns task record del rm l = Some l' -> lstep l l'
  | LJoin l' : main_at l <> MEnd -> main_joins l = Some l' -> lstep l l'
  | LRecord opens item t del rm l' : main_at l <> MEnd -> record_turn opens item t del rm l = Some l' -> lstep l l'
  | LTask l' : main_at l <> MEnd -> task_turn l = Some l' -> lstep l l'
  | LKernel : main_at l <> MEnd -> lstep l (kernel_turn l)
  | LPipe : main_at l <> MEnd -> lstep l (pipe_turn l).

(** ** The module goes with the plugin *)

(** One removal of the module: a call that works, or [rmmod] after one that does not. *)
Definition removed_once (rs : list Removal) : Prop := rs = [DeleteModule true] \/ exists rm, rs = [DeleteModule false; Rmmod rm].

Record life_ok (l : Life) : Prop := {
  lo_new : main_at l = MNew -> record_at l = RNone /\ owned l = false /\ removals l = [];
  lo_has : main_at l = MHasKmod -> record_at l = RNone /\ owned l = true /\ removals l = [] /\ loaded l = true;
  lo_join : main_at l = MJoin -> record_at l <> RNone;
  lo_running : record_at l <> RNone -> record_at l <> REnd -> main_at l = MJoin /\ owned l = true /\ removals l = [] /\ loaded l = true;
  lo_ended : record_at l = REnd -> owned l = false /\ removed_once (removals l) /\ loaded l = negb (existsb removes (removals l));
  lo_end : main_at l = MEnd -> owned l = false /\ (record_at l = RNone \/ record_at l = REnd);
  lo_flag : flag l = true -> pipe_open l = false;
}.

Lemma life_ok_new b : life_ok (Life_new b).
Proof. by split. Qed.

Lemma removed_drop (del rm : bool) : removed_once (if del then [DeleteModule true] else [DeleteModule false; Rmmod rm]).
Proof. destruct del; [by left|right; by exists rm]. Qed.

Lemma record_ends_ok (del rm : bool) l :
  life_ok l -> record_at l <> RNone -> record_at l <> REnd -> life_ok (record_ends del rm l).
Proof.
  intros [_ _ _ Hr _ _ Hf] H1 H2. destruct (Hr H1 H2) as (Hm & Ho & Hrs & Hl). unfold record_ends, Kmod_drop, at_record. split; cbn; rewrite ?Hm, ?Hrs, ?Hl; try done.
  split; [done|]. split; [apply removed_drop|done].
Qed.

Lemma record_turn_ok opens item t del rm l l' : life_ok l -> record_turn opens item t del rm l = Some l' -> life_ok l'.
Proof.
  intros Hok E. assert (Hgo : forall r, r <> RNone -> r <> REnd -> record_at l <> RNone -> record_at l <> REnd -> life_ok (at_record r l)).
  { intros r H1 H2 H3 H4. destruct Hok as [_ _ _ Hr _ _ Hf]. destruct (Hr H3 H4) as (Hm & Ho & Hrs & Hl). split; cbn; rewrite ?Hm; done. }
  unfold record_turn in E. destruct (record_at l) eqn:Ea; try done.
  - destruct opens; injection E as <-; [by apply Hgo; rewrite ?Ea|apply record_ends_ok; by rewrite ?Ea].
  - destruct item; [|injection E as <-; apply record_ends_ok; by rewrite ?Ea..].
    destruct (waiting l) as [|n]; [done|]. injection E as <-. destruct (Hgo RGot) as [? ? ? ? ? ? ?]; [by rewrite ?Ea..|]. by split.
  - destruct (flag l); [injection E as <-; apply record_ends_ok; by rewrite ?Ea|].
    destruct t; injection E as <-; [by apply Hgo; rewrite ?Ea..|apply record_ends_ok; by rewrite ?Ea].
  - destruct (pipe_open l); injection E as <-; [by apply Hgo; rewrite ?Ea|apply record_ends_ok; by rewrite ?Ea].
  - destruct (flag l); injection E as <-; [apply record_ends_ok; by rewrite ?Ea|by apply Hgo; rewrite ?Ea].
Qed.

Lemma main_spawns_ok task record del rm l l' : life_ok l -> main_spawns task record del rm l = Some l' -> life_ok l'.
Proof.
  intros [_ Hh _ _ _ _ Hf] E. unfold main_spawns in E. destruct (main_at l) eqn:Em; try done. destruct (Hh eq_refl) as (Hr & Ho & Hrs & Hl).
  injection E as <-. destruct record; split; cbn; rewrite ?Hrs, ?Hl; try done; [|auto].
  split; [done|]. split; [apply removed_drop|done].
Qed.

Lemma lstep_ok l l' : life_ok l -> lstep l l' -> life_ok l'.
Proof.
  intros Hok Hs. destruct Hs as [r Hm|? ? ? ? ? _ E|? _ E|? ? ? ? ? ? _ E|? _ E|_|_].
  - destruct Hok as [Hn _ _ _ _ _ Hf]. destruct (Hn Hm) as (Hr & Ho & Hrs). destruct r; split; cbn; rewrite ?Hr, ?Hrs; auto; done.
  - by eapply main_spawns_ok.
  - unfold main_joins in E. destruct (main_at l) eqn:Em; try done. destruct (record_at l) eqn:Er; try done. injection E as <-.
    destruct Hok as [_ _ _ _ He _ Hf]. destruct (He Er) as (Ho & Hrm & Hl). split; cbn; rewrite ?Er; try done. auto.
  - by eapply record_turn_ok.
  - unfold task_turn in E. destruct (_ && _) eqn:Eb; [|done]. injection E as <-. apply andb_true_iff in Eb as [_ Eb]. destruct Hok. split; cbn; try done.
    intros _. by apply negb_true_iff.
  - destruct Hok. by split.
  - destruct Hok. split; cbn; try done.
Qed.

Lemma life_runs_ok b l : rtc lstep (Life_new b) l -> life_ok l.
Proof. remember (Life_new b) as l0 eqn:E. intros Hr. assert (H0 : life_ok l0) by (subst; apply life_ok_new). clear E. induction Hr; eauto using lstep_ok. Qed.


(** ** An agent that goes away *)

(** [record_send] waits for a record, and the kernel has none. *)
Definition silent (l : Life) : Prop := main_at l = MJoin /\ record_at l = RRead /\ waiting l = 0.

(** The steps of the plugin and of the agent; the kernel stays silent. *)
Inductive qstep (l : Life) : Life -> Prop :=
  | QSpawn task record del rm l' : main_spawns task record del rm l = Some l' -> qstep l l'
  | QJoin l' : main_joins l = Some l' -> qstep l l'
  | QRecord opens t del rm l' : record_turn opens AnItem t del rm l = Some l' -> qstep l l'
  | QTask l' : task_turn l = Some l' -> qstep l l'
  | QPipe : qstep l (pipe_turn l).

Lemma silent_step l l' : silent l -> qstep l l' -> silent l' /\ loaded l' = loaded l.
Proof.
  intros (Hm & Hr & Hw) Hs. destruct Hs as [? ? ? ? ? E|? E|? ? ? ? ? E|? E|].
  - unfold main_spawns in E. by rewrite Hm in E.
  - unfold main_joins in E. by rewrite Hm, Hr in E.
  - unfold record_turn in E. by rewrite Hr, Hw in E.
  - unfold task_turn in E. destruct (_ && _); [|done]. by injection E as <-.
  - done.
Qed.

(** The flag alone does not end the plugin: while the kernel has no record for it, the
    plugin goes on waiting, module loaded, whatever becomes of the agent; and once the
    flag is up, one more record ends it. *)
Theorem silent_kernel_keeps_plugin l :
  silent l ->
  (forall l', rtc qstep l l' -> silent l' /\ loaded l' = loaded l)
  /\ (flag l = true -> exists l', rtc lstep (kernel_turn l) l' /\ main_at l' = MEnd).
Proof.
  intros Hl. split.
  - intros l' Hs. induction Hs as [l|l1 l2 l3 H12 _ IH]; [done|]. destruct (silent_step _ _ Hl H12) as [H2 E2].
    destruct (IH H2) as [H3 E3]. split; [done|congruence].
  - destruct Hl as (Hm & Hr & Hw). intros Hf. destruct l as [m r t f ld ow rs po w]. cbn in *. subst. eexists. split.
    + eapply rtc_l; [by apply (LRecord _ true AnItem Report true true)|]. eapply rtc_l; [by eapply (LRecord _ true AnItem Report true true)|].
      eapply rtc_l; [by eapply LJoin|]. apply rtc_refl.
    + done.
Qed.

(** ** A run *)

(** The plugin starts, reports a record, the agent goes, and the next record ends it. *)
Definition after_agent : Life := mkLife MEnd REnd false true false false [DeleteModule true] false 0.
Lemma agent_leaves : rtc lstep (Life_new false) after_agent.
Proof.
  eapply rtc_l; [by apply (LNew _ NewOk)|]. eapply rtc_l; [by apply (LSpawn _ true true true true)|].
  eapply rtc_l; [by apply (LRecord _ true AnItem Report true true)|]. eapply rtc_l; [by apply LKernel|].
  eapply rtc_l; [by apply (LRecord _ true AnItem Report true true)|]. eapply rtc_l; [by apply (LRecord _ true AnItem Report true true)|].
  eapply rtc_l; [by apply (LRecord _ true AnItem Report true true)|]. eapply rtc_l; [by apply (LRecord _ true AnItem Report true true)|].
  eapply rtc_l; [by apply LPipe|]. eapply rtc_l; [by apply LTask|]. eapply rtc_l; [by apply LKernel|].
  eapply rtc_l; [by apply (LRecord _ true AnItem Report true true)|]. eapply rtc_l; [by apply (LRecord _ true AnItem Report true true)|].
  eapply rtc_l; [by apply LJoin|]. apply rtc_refl.
Qed.


Lemma silent_kernel_keeps_plugin_witness :
  exists l', rtc lstep (kernel_turn (mkLife MJoin RRead false true true true [] false 0)) l' /\ main_at l' = MEnd.
Proof. refine (proj2 (silent_kernel_keeps_plugin _ _) _); [by split_and!|reflexivity]. Defined.
