(* ===== verification/Logger.v ===== *)
(** * The rotating logger ([plugins/lib/rust/src/logger.rs])

    Every plugin logs through it: a line goes to a file that is rotated when it
    would grow beyond [max_size], and to the agent as a record of type 1010; a
    thread removes the oldest backups and compresses the others.  The directory
    is a map from names to contents.  The open file is the one under [filename]:
    each branch of [rotate] that renames it also replaces the handle, so the
    handle is whether there is one.  What the file system and the clock answer is
    given to each call; [chrono]'s formats and [flate2] are parameters. *)

From stdpp Require Import sorting.
From S2P Require Import Prelude Bytes RustStd Encoder Bridge WireInst Client.

(** [log::Level] and [log::LevelFilter]: [Off] is 0, [Error] 1, ... [Trace] 5. *)
Inductive Level := Error | Warn | Info | Debug | Trace.
Definition LevelFilter : Type := nat.
Definition level_no (l : Level) : nat :=
  match l with Error => 1 | Warn => 2 | Info => 3 | Debug => 4 | Trace => 5 end.
Definition level_str (l : Level) : bytes :=
  bs match l with
     | Error => "ERROR" | Warn => "WARN" | Info => "INFO" | Debug => "DEBUG" | Trace => "TRACE"
     end.

(** [log::Record]: the parts the logger reads. *)
Record LogRecord := mkLogRecord {
  lr_level : Level; lr_target : bytes; lr_file : option bytes; lr_file_static : option bytes;
  lr_line : option Z; lr_args : bytes;
}.
Definition source_file (r : LogRecord) : bytes :=
  default [] (match lr_file r with Some f => Some f | None => lr_file_static r end).

Record Logger := mkLogger {
  max_size : Z;
  size : Z;
  filename : bytes;
  file : bool;
  file_level : LevelFilter;
  remote_level : LevelFilter;
  tx_mill : bool;
  client : option Client;
  dir : gmap bytes bytes;
}.

(** What a call meets: the time in nanoseconds since the epoch, whether the
    rename and the new file succeed, and how much of a write is accepted
    ([None]: all of it). *)
Record Env := mkEnv { now : Z; rename_ok : bool; open_ok : bool; written : option nat }.

Section logger.
Variable to_rfc3339 format_plus : Z -> bytes.

Definition set_log (size : Z) (file tx : bool) (dir : gmap bytes bytes) (l : Logger) : Logger :=
  mkLogger (max_size l) size (filename l) file (file_level l) (remote_level l) tx (client l) dir.

Definition backup_name (fname : bytes) (t : Z) : bytes := fname ++ bs "-" ++ to_rfc3339 t.

(** The channel holds one message: a second one is dropped. *)
Definition mill (l : Logger) : Logger := set_log (size l) (file l) true (dir l) l.

(** [rename] replaces a file of the new name. *)
Definition rename (from to : bytes) (d : gmap bytes bytes) : gmap bytes bytes :=
  match d !! from with
  | Some c => <[to := c]> (delete from d)
  | None => d
  end.

Definition rotate (e : Env) (l : Logger) : Logger :=
  let l1 :=
    if file l then
      if negb (rename_ok e) || bool_decide (dir l !! filename l = None)
      then set_log (size l) false (tx_mill l) (dir l) l
      else
        let d := rename (filename l) (backup_name (filename l) (now e)) (dir l) in
        if open_ok e
        then set_log (size l) true (tx_mill l) (<[filename l := []]> d) l
        else set_log (size l) false (tx_mill l) d l
    else l in
  mill (set_log 0 (file l1) (tx_mill l1) (dir l1) l1).

Definition log_line (t : Z) (r : LogRecord) : bytes :=
  format_plus t ++ [x09] ++ level_str (lr_level r) ++ [x09] ++ lr_target r ++ [x09]
  ++ source_file r ++ bs ":" ++ show_u64 (default 0%Z (lr_line r)) ++ [x09] ++ lr_args r ++ [x0a].

Definition write_file (e : Env) (buf : bytes) (l : Logger) : Logger :=
  let accepted := match written e with None => buf | Some n => take n buf end in
  set_log (wrap_u64 (size l + Z.of_nat (length buf))) true (tx_mill l)
    (<[filename l := default [] (dir l !! filename l) ++ accepted]> (dir l)) l.

(** The part of [log] under the locks of [file] and [size]. *)
Definition log_file (e : Env) (r : LogRecord) (l : Logger) : Logger :=
  if level_no (lr_level r) <=? file_level l then
    let buf := log_line (now e) r in
    let l1 := if (max_size l <? wrap_u64 (Z.of_nat (length buf) + size l))%Z then rotate e l else l in
    if file l1 then write_file e buf l1 else l1
  else l.

Definition log_record (t : Z) (r : LogRecord) : Record_ :=
  insert_fields
    [("level"%string, level_str (lr_level r)); ("target"%string, lr_target r);
     ("file"%string, source_file r); ("line"%string, show_u64 (default 0%Z (lr_line r)));
     ("msg"%string, lr_args r)]
    (set_timestamp (t / 10 ^ 9) (set_data_type 1010 Record_new)).

Definition set_client (c : option Client) (l : Logger) : Logger :=
  mkLogger (max_size l) (size l) (filename l) (file l) (file_level l) (remote_level l) (tx_mill l) c (dir l).

(** The part of [log] under the lock of [client]; what [send_record] returns is
    dropped.  A clock before the epoch panics. *)
Definition log_remote `{CodedOutputStream} (e : Env) (r : LogRecord) : SM Logger unit := fun l =>
  match client l with
  | Some c =>
      if level_no (lr_level r) <=? remote_level l then
        if (now e <? 0)%Z then (Panic, l)
        else (Ret tt, set_client (Some (snd (send_record (log_record (now e) r) c))) l)
      else (Ret tt, l)
  | None => (Ret tt, l)
  end.

Definition log `{CodedOutputStream} (e : Env) (r : LogRecord) : SM Logger unit :=
  sm_modify (log_file e r) ;; log_remote e r.

Fixpoint log_all `{CodedOutputStream} (calls : list (Env * LogRecord)) : SM Logger unit :=
  match calls with
  | [] => mret tt
  | (e, r) :: calls' => log e r ;; log_all calls'
  end.

Definition enabled (level : Level) (l : Logger) : bool :=
  level_no level <=? (if file_level l <? remote_level l then file_level l else remote_level l).

(** [Logger::new]: the level the [log] macros compare with, and the logger over
    the directory [d]; [create_ok] is whether the file could be opened. *)
Definition max_level (file_level remote_level : LevelFilter) : LevelFilter :=
  if file_level <? remote_level then remote_level else file_level.

Definition Logger_new (max_size : Z) (filename : bytes) (file_level remote_level : LevelFilter)
    (client : option Client) (create_ok : bool) (d : gmap bytes bytes) : Logger :=
  let old := default [] (d !! filename) in
  if create_ok
  then mkLogger max_size (Z.of_nat (length old)) filename true file_level remote_level false client
         (<[filename := old]> d)
  else mkLogger max_size 0 filename false file_level remote_level false client d.
End logger.

(** ** The cleanup thread *)

(** [Path::extension] of a file name: what follows the last dot, unless that dot
    starts the name. *)
Definition extension (n : bytes) : option bytes :=
  match reverse (split_on "." n) with
  | e :: (_ :: _ :: _) | e :: [_ :: _] => Some e
  | _ => None
  end.

(** [sort_by], stable. *)
Fixpoint insert_by_time (p : bytes * Z) (l : list (bytes * Z)) : list (bytes * Z) :=
  match l with
  | q :: l' => if (p.2 <=? q.2)%Z then p :: l else q :: insert_by_time p l'
  | [] => [p]
  end.
Definition sort_by_time (l : list (bytes * Z)) : list (bytes * Z) := foldr insert_by_time [] l.

(** What the file system refuses during a pass, by name. *)
Record Faults := mkFaults { no_remove : bytes -> bool; no_read : bytes -> bool; no_create : bytes -> bool }.

Section mill_pass.
Variable parse_rfc3339 : bytes -> option Z.
Variable gz : bytes -> bytes.
Variables (fname : bytes) (max_backups : nat) (compress : bool).

(** A name that is a backup of the log, with its time. *)
Definition backup_of (n : bytes) : option (bytes * Z) :=
  if utf8_valid n && utf8_valid fname && starts_with n fname then
    t ← parse_rfc3339 (trim_end_matches (bs ".gz") (trim_start_matches (bs "-") (drop (length fname) n)));
    Some (n, t)
  else None.

Definition remove_file (f : Faults) (n : bytes) (d : gmap bytes bytes) : gmap bytes bytes :=
  if no_remove f n then d else delete n d.

Definition wants_gz (n : bytes) : bool :=
  match extension n with Some e => negb (bool_decide (e = bs "gz")) | None => false end.

Definition compress_file (f : Faults) (n : bytes) (d : gmap bytes bytes) : gmap bytes bytes :=
  if wants_gz n then
    if no_read f n then d else
    match d !! n with
    | Some c => if no_create f n then d else remove_file f n (<[n ++ bs ".gz" := gz c]> d)
    | None => d
    end
  else d.

(** How many of the oldest backups go. *)
Definition excess (files : list (bytes * Z)) : nat :=
  if (0 <? max_backups) && (max_backups <? length files) then length files - max_backups else 0.

(** One message of the channel: [order] is what [read_dir] lists. *)
Definition mill_pass (f : Faults) (order : list bytes) (d : gmap bytes bytes) : gmap bytes bytes :=
  let files := sort_by_time (omap backup_of order) in
  let d := foldl (fun d p => remove_file f p.1 d) d (take (excess files) files) in
  if compress then foldl (fun d p => compress_file f p.1 d) d files else d.
End mill_pass.

(** ** Lemmas on [log] *)

Definition no_faults : Faults := mkFaults (fun _ => false) (fun _ => false) (fun _ => false).
Definition well (e : Env) : Prop := rename_ok e = true /\ open_ok e = true /\ written e = None.

(** The open file holds [size] bytes, and sizes stay far below [2 ^ 64]. *)
Definition file_ok (l : Logger) (content : bytes) : Prop :=
  file l = true /\ dir l !! filename l = Some content /\ size l = Z.of_nat (length content)
  /\ (0 <= size l < 2 ^ 63)%Z /\ (0 <= max_size l < 2 ^ 63)%Z.

Section log_lemmas.
Context `{CodedOutputStream}.
Variable to_rfc3339 format_plus : Z -> bytes.
Let line := log_line format_plus.
Let logf := log_file to_rfc3339 format_plus.

Lemma backup_name_fresh fname t : backup_name to_rfc3339 fname t <> fname.
Proof. intros E. apply (f_equal length) in E. unfold backup_name in E. rewrite !length_app in E. cbn in E. lia. Qed.

(** What a call that stores its line does to the directory: the line is added to
    the file, or the file becomes a backup and the line starts a new one. *)
Definition stored (e : Env) (buf : bytes) (content : bytes) (l l' : Logger) : Prop :=
  ((Z.of_nat (length content + length buf) <= max_size l)%Z
     /\ file_ok l' (content ++ buf) /\ dir l' = <[filename l := content ++ buf]> (dir l))
  \/ ((max_size l < Z.of_nat (length content + length buf))%Z
     /\ file_ok l' buf
     /\ dir l' = <[filename l := buf]> (<[backup_name to_rfc3339 (filename l) (now e) := content]> (dir l))).

Lemma log_file_stores e r l content :
  file_ok l content -> well e -> level_no (lr_level r) <= file_level l ->
  (Z.of_nat (length (line (now e) r)) < 2 ^ 63)%Z ->
  stored e (line (now e) r) content l (logf e r l).
Proof.
  intros (Hf & Hd & Hs & Hr & Hm) (Hre & Ho & Hw) Hl Hb. unfold logf, log_file. fold line.
  set (buf := line (now e) r) in *. rewrite (proj2 (Nat.leb_le _ _) Hl).
  unfold wrap_u64. rewrite Z.mod_small by lia. unfold stored, file_ok. rewrite !Nat2Z.inj_add.
  destruct (Z.ltb_spec (max_size l) (Z.of_nat (length buf) + size l)) as [Hgt|Hle].
  - right. unfold rotate. rewrite Hf, Hre. rewrite bool_decide_false by by rewrite Hd.
    cbn [negb orb]. rewrite Ho. unfold mill, set_log, write_file. cbn.
    rewrite Hw. unfold rename. rewrite Hd, !lookup_insert_eq. cbn [default app].
    rewrite insert_insert_eq. unfold wrap_u64. rewrite Z.mod_small by lia.
    split_and!; try done; try lia.
    pose proof (backup_name_fresh (filename l) (now e)).
    rewrite <- delete_insert_ne by congruence. by rewrite insert_delete_eq.
  - left. rewrite Hf. unfold write_file, set_log, wrap_u64. cbn. rewrite Hw, Hd. cbn [default].
    rewrite lookup_insert_eq, length_app, Nat2Z.inj_add, Z.mod_small by lia. split_and!; try done; lia.
Qed.

Definition same_setup (l l' : Logger) : Prop :=
  filename l' = filename l /\ max_size l' = max_size l /\ file_level l' = file_level l
  /\ remote_level l' = remote_level l /\ client l' = client l.

Lemma rotate_setup e l : same_setup l (rotate to_rfc3339 e l).
Proof. unfold rotate. destruct (file l); [|done]. destruct (_ || _); [done|]. by destruct (open_ok e). Qed.

Lemma log_file_setup e r l : same_setup l (logf e r l).
Proof.
  unfold logf, log_file. destruct (_ <=? _); [|done]. pose proof (rotate_setup e l) as Hr.
  destruct (_ <? _)%Z; cbv zeta; [destruct (file (rotate _ _ _)); exact Hr|by destruct (file l)].
Qed.

(** [log] on a clock after the epoch does not panic, and its remote half does
    not touch the file. *)
Lemma log_runs e r l :
  (0 <= now e)%Z -> exists c, log to_rfc3339 format_plus e r l = (Ret tt, set_client c (logf e r l)).
Proof.
  intros Hn. unfold log, mbind, SM_bind, sm_modify, log_remote. cbn.
  assert (Hid : forall m : Logger, m = set_client (client m) m) by (by intros []).
  fold (logf e r l). destruct (client (logf e r l)) as [c|] eqn:Ec.
  - destruct (_ <=? _); [|eexists; f_equal; apply Hid].
    rewrite (proj2 (Z.ltb_ge _ _) Hn). by eexists.
  - eexists; f_equal; apply Hid.
Qed.

(** A call to the logger that stores its line. *)
Definition plain_call (l : Logger) (call : Env * LogRecord) : Prop :=
  well (call.1) /\ (0 <= now call.1)%Z /\ level_no (lr_level call.2) <= file_level l
  /\ (Z.of_nat (length (line (now call.1) call.2)) < 2 ^ 63)%Z.

Definition call_line (call : Env * LogRecord) : bytes := line (now call.1) call.2.
Definition call_backup (l : Logger) (call : Env * LogRecord) : bytes :=
  backup_name to_rfc3339 (filename l) (now call.1).
Definition content_of (d : gmap bytes bytes) (n : bytes) : bytes := default [] (d !! n).

Definition logged (calls : list (Env * LogRecord)) (content : bytes) (l l' : Logger) : Prop :=
  (forall n, n ∉ map (call_backup l) calls -> n <> filename l -> dir l' !! n = dir l !! n)
  /\ (exists names, names ⊆ map (call_backup l) calls /\ NoDup names
       /\ concat (map (content_of (dir l')) (names ++ [filename l]))
          = content ++ concat (map call_line calls))
  /\ exists content', file_ok l' content'
     /\ (content' = content \/ (size l' <= max_size l)%Z \/ content' ∈ map call_line calls).

Lemma logged_step e r calls content content1 l l1 l' :
  filename l1 = filename l -> max_size l1 = max_size l ->
  logged calls content1 l1 l' ->
  call_backup l (e, r) ∉ map (call_backup l) calls ->
  (content1 = content ++ call_line (e, r) /\ (Z.of_nat (length content1) <= max_size l)%Z
     /\ dir l1 = <[filename l := content1]> (dir l)
   \/ content1 = call_line (e, r)
     /\ dir l1 = <[filename l := content1]> (<[call_backup l (e, r) := content]> (dir l))) ->
  logged ((e, r) :: calls) content l l'.
Proof.
  intros Hf Hm (Hframe & (names & Hsub & Hnd & Hcat) & content' & Hok & Hsz) Hnew Hcase.
  assert (Eb : map (call_backup l1) calls = map (call_backup l) calls)
    by (unfold call_backup; by rewrite Hf).
  rewrite Eb, ?Hf, ?Hm in *. pose proof (backup_name_fresh (filename l) (now e)) as Hbn.
  assert (Hlast : content' = content \/ (size l' <= max_size l)%Z \/ content' ∈ map call_line ((e, r) :: calls)).
  { destruct Hsz as [->|[?|?]]; [|auto|right; right; by apply list_elem_of_further].
    destruct Hcase as [(_ & ? & _)|(-> & _)]; [right; left|right; right; by apply list_elem_of_here].
    destruct Hok as (_ & _ & -> & _). done. }
  split; [|split; [|by exists content']].
  - intros n Hn1 Hn2. cbn [map] in Hn1. apply not_elem_of_cons in Hn1 as [Hn1 Hn3]. rewrite Hframe by done.
    destruct Hcase as [(_ & _ & ->)|(_ & ->)]; by rewrite !lookup_insert_ne by done.
  - cbn [map concat]. destruct Hcase as [(-> & _ & Ed)|(-> & Ed)].
    + exists names. split_and!; [set_solver|done|]. by rewrite Hcat, <- app_assoc.
    + exists (call_backup l (e, r) :: names). split_and!; [set_solver|constructor; set_solver|].
      cbn [app map concat]. rewrite Hcat. f_equal. unfold content_of. rewrite Hframe by done.
      rewrite Ed, lookup_insert_ne by done. by rewrite lookup_insert_eq.
Qed.

Lemma log_all_stores calls l content :
  file_ok l content -> Forall (plain_call l) calls -> NoDup (map (call_backup l) calls) ->
  Forall (fun call => dir l !! call_backup l call = None) calls ->
  exists l', log_all to_rfc3339 format_plus calls l = (Ret tt, l') /\ logged calls content l l'.
Proof.
  revert l content. induction calls as [|[e r] calls IH]; intros l content Hok Hp Hn Hd.
  { exists l. split; [done|]. split; [done|]. destruct Hok as (? & E & ?).
    split; [|exists content; repeat (split; auto)]. exists []. split_and!; [set_solver|constructor|].
    cbn. unfold content_of. rewrite E. by rewrite !app_nil_r. }
  apply Forall_cons in Hp as [(Hw & Hn0 & Hl & Hb) Hp]. apply NoDup_cons in Hn as [Hnew Hn].
  apply Forall_cons in Hd as [_ Hd]. destruct (log_runs e r l Hn0) as [c Ec].
  pose proof (log_file_stores e r l content Hok Hw Hl Hb) as Hst. pose proof (log_file_setup e r l) as Hsame.
  set (l1 := set_client c (logf e r l)) in *.
  assert (Hsetup : filename l1 = filename l /\ max_size l1 = max_size l /\ file_level l1 = file_level l)
    by (destruct Hsame as (? & ? & ? & _); done). destruct Hsetup as (Hf1 & Hm1 & Hv1).
  assert (Hstep : exists content1, file_ok l1 content1 /\
    (content1 = content ++ call_line (e, r) /\ (Z.of_nat (length content1) <= max_size l)%Z
       /\ dir l1 = <[filename l := content1]> (dir l)
     \/ content1 = call_line (e, r)
       /\ dir l1 = <[filename l := content1]> (<[call_backup l (e, r) := content]> (dir l)))).
  { destruct Hst as [(Hle & Hk & Ed)|(Hgt & Hk & Ed)]; eexists; (split; [exact Hk|]); [left|right; auto].
    split_and!; [done|by rewrite length_app|done]. }
  destruct Hstep as (content1 & Hok1 & Hcase).
  assert (Eb : forall call, call_backup l1 call = call_backup l call)
    by (intros; unfold call_backup; by rewrite Hf1).
  destruct (IH l1 content1) as (l' & El & Hlog); [done|..].
  - eapply Forall_impl; [exact Hp|]. intros call (? & ? & ? & ?). unfold plain_call. by rewrite Hv1.
  - erewrite map_ext by exact Eb. done.
  - apply Forall_forall. intros call Hin. rewrite Eb.
    pose proof (proj1 (Forall_forall _ _) Hd call Hin) as Hnone.
    assert (Hne : call_backup l call <> call_backup l (e, r))
      by (intros E; apply Hnew; rewrite <- E; by apply list_elem_of_fmap_2).
    pose proof (backup_name_fresh (filename l) (now call.1)).
    destruct Hcase as [(_ & _ & ->)|(_ & ->)]; by rewrite !lookup_insert_ne by done.
  - exists l'. split; [|by eapply logged_step].
    cbn [log_all]. etransitivity; [apply (sm_bind_ret _ _ _ tt l1), Ec|]. exact El.
Qed.
End log_lemmas.

(** ** Lemmas on the cleanup *)

Lemma insert_by_time_perm p l : insert_by_time p l ≡ₚ p :: l.
Proof.
  induction l as [|q l IH]; [done|]. cbn. destruct (_ <=? _)%Z; [done|].
  by rewrite IH, Permutation_swap.
Qed.

Lemma sort_by_time_perm l : sort_by_time l ≡ₚ l.
Proof. induction l as [|p l IH]; [done|]. cbn. by rewrite insert_by_time_perm, IH. Qed.

Definition not_later (p q : bytes * Z) : Prop := (p.2 <= q.2)%Z.

Lemma insert_by_time_sorted p l :
  StronglySorted not_later l -> StronglySorted not_later (insert_by_time p l).
Proof.
  induction 1 as [|q l Hs IH Hq]; [repeat constructor|]. cbn. destruct (Z.leb_spec (p.2) (q.2)) as [Hle|Hgt].
  - constructor; [by constructor|]. constructor; [done|].
    eapply Forall_impl; [exact Hq|]. intros x. unfold not_later. lia.
  - constructor; [done|]. rewrite insert_by_time_perm. constructor; [unfold not_later; lia|done].
Qed.

Lemma sort_by_time_sorted l : StronglySorted not_later (sort_by_time l).
Proof. induction l as [|p l IH]; [constructor|]. by apply insert_by_time_sorted. Qed.

Lemma sorted_take_drop k l p q :
  StronglySorted not_later l -> p ∈ take k l -> q ∈ drop k l -> (p.2 <= q.2)%Z.
Proof.
  rewrite <- (take_drop k l) at 1. intros Hs Hp Hq.
  exact (StronglySorted_app_1_elem_of not_later _ _ p q Hs Hp Hq).
Qed.

Lemma remove_all_lookup files d n :
  foldl (fun d (p : bytes * Z) => remove_file no_faults p.1 d) d files !! n = if decide (n ∈ map fst files) then None else d !! n.
Proof.
  revert d. induction files as [|p files IH]; intros d; [done|]. cbn [foldl map]. rewrite IH.
  unfold remove_file. cbn [no_remove no_faults].
  destruct (decide (n = p.1)) as [->|Hne].
  - rewrite lookup_delete_eq. rewrite (decide_True (P := p.1 ∈ _ :: _)) by set_solver. by case_decide.
  - rewrite lookup_delete_ne by done. apply decide_ext. set_solver.
Qed.

Section pass_lemmas.
Variable gz : bytes -> bytes.
Let packed (n : bytes) : bytes := n ++ bs ".gz".
Let compress_all := foldl (fun d (p : bytes * Z) => compress_file gz no_faults p.1 d).

Lemma compress_file_other n m d :
  n <> m -> (wants_gz m = true -> n <> packed m) -> compress_file gz no_faults m d !! n = d !! n.
Proof.
  intros H1 H2. unfold compress_file, remove_file. cbn [no_remove no_read no_create no_faults].
  destruct (wants_gz m); [|done]. destruct (d !! m); [|done]. specialize (H2 eq_refl). unfold packed in H2.
  by rewrite lookup_delete_ne, lookup_insert_ne by done.
Qed.

Lemma compress_all_other n files d :
  n ∉ map fst files -> (forall p, p ∈ files -> wants_gz p.1 = true -> n <> packed p.1) ->
  compress_all d files !! n = d !! n.
Proof.
  unfold compress_all. revert d. induction files as [|p files IH]; intros d H1 H2; [done|].
  cbn [foldl map] in *. rewrite IH; [|set_solver|set_solver].
  apply compress_file_other; [set_solver|]. apply H2. set_solver.
Qed.

(** The name and the content a backup ends with. *)
Definition packed_name (compress : bool) (n : bytes) : bytes := if compress && wants_gz n then n ++ bs ".gz" else n.
Definition packed_content (compress : bool) (n c : bytes) : bytes := if compress && wants_gz n then gz c else c.

Lemma packed_ne n : n <> packed n.
Proof. intros E. apply (f_equal length) in E. unfold packed in E. rewrite length_app in E. cbn in E. lia. Qed.

Lemma compress_file_self n d :
  match d !! n with
  | Some c => compress_file gz no_faults n d !! packed_name true n = Some (packed_content true n c)
  | None => compress_file gz no_faults n d !! n = None
  end.
Proof.
  unfold compress_file, remove_file, packed_name, packed_content. cbn [andb no_remove no_read no_create no_faults].
  destruct (d !! n) as [c|] eqn:Ed; destruct (wants_gz n); try done.
  pose proof (packed_ne n) as Hne. unfold packed in Hne.
  rewrite lookup_delete_ne by done. by rewrite lookup_insert_eq.
Qed.

Lemma compress_all_lookup n files d :
  NoDup (map fst files) -> n ∈ map fst files ->
  (forall p q, p ∈ files -> q ∈ files -> wants_gz p.1 = true -> q.1 <> packed p.1) ->
  match d !! n with
  | Some c => compress_all d files !! packed_name true n = Some (packed_content true n c)
  | None => compress_all d files !! n = None
  end.
Proof.
  revert d. induction files as [|p files IH]; intros d Hnd Hin Hq; [set_solver|].
  cbn [map] in *. apply NoDup_cons in Hnd as [Hp Hnd]. apply elem_of_cons in Hin as [->|Hin].
  - assert (Hsep : forall x, x ∈ files -> p.1 <> x.1)
      by (intros x Hx E; apply Hp; rewrite E; by apply list_elem_of_fmap_2).
    assert (Hlater : forall d x, x = p.1 \/ (wants_gz p.1 = true /\ x = packed p.1) ->
      compress_all d files !! x = d !! x).
    { intros d' x Hx. apply compress_all_other.
      - destruct Hx as [->|[Hw ->]]; [done|]. intros (y & Ey & Hy)%list_elem_of_fmap.
        apply (Hq p y); [set_solver..|done|done].
      - intros y Hy Hw. destruct Hx as [->|[Hw' ->]]; [apply Hq; [set_solver..|done]|].
        intros E. apply (Hsep y Hy). unfold packed in E. by apply app_inj_2 in E as [? _]. }
    pose proof (compress_file_self p.1 d) as Hself. unfold packed_name in *. cbn [andb] in *.
    destruct (d !! p.1) as [c|]; etransitivity; try exact Hself; apply Hlater; [|by left].
    destruct (wants_gz p.1); [by right|by left].
  - assert (Ep : compress_file gz no_faults p.1 d !! n = d !! n).
    { apply compress_file_other; [by intros ->|]. intros Hw.
      apply list_elem_of_fmap in Hin as (x & -> & Hx). apply Hq; [set_solver..|done]. }
    specialize (IH (compress_file gz no_faults p.1 d) Hnd Hin). rewrite Ep in IH. apply IH.
    intros x y Hx Hy. apply Hq; set_solver.
Qed.
End pass_lemmas.

(** The backups of a listing. *)
Section listing.
Variable parse_rfc3339 : bytes -> option Z.
Variables (fname : bytes) (order : list bytes).
Let files := sort_by_time (omap (backup_of parse_rfc3339 fname) order).

Lemma backup_of_name n p : backup_of parse_rfc3339 fname n = Some p -> p.1 = n.
Proof.
  unfold backup_of. destruct (_ && _); [|done]. intros (t & _ & [= <-])%bind_Some. done.
Qed.

Lemma files_listed p : p ∈ files -> p.1 ∈ order /\ exists x, p.1 = fname ++ x /\ (parse_rfc3339 [] = None -> x <> []).
Proof.
  unfold files. rewrite sort_by_time_perm. intros (n & Hn & Hp)%list_elem_of_omap.
  pose proof (backup_of_name n p Hp) as ->. split; [done|]. unfold backup_of in Hp.
  destruct (_ && _) eqn:E; [|done]. apply andb_true_iff in E as [_ [x ->]%starts_with_spec].
  exists x. split; [done|]. intros Hnil ->. apply bind_Some in Hp as (t & Ht & _).
  rewrite drop_app_length in Ht. cbn in Ht. congruence.
Qed.

Lemma files_NoDup : NoDup order -> NoDup (map fst files).
Proof.
  intros Hnd. unfold files. rewrite sort_by_time_perm. induction Hnd as [|n order' Hn _ IH]; [constructor|].
  cbn. destruct (backup_of parse_rfc3339 fname n) as [p|] eqn:Ep; [|done]. cbn. constructor; [|done].
  rewrite (backup_of_name _ _ Ep). intros (q & -> & Hq)%list_elem_of_fmap.
  apply list_elem_of_omap in Hq as (m & Hm & Hq%backup_of_name). by rewrite Hq in Hn.
Qed.
End listing.

Section closed_file.
Context `{CodedOutputStream}.
Variable to_rfc3339 format_plus : Z -> bytes.

(** Without a handle the file part of [log] leaves the directory alone. *)
Lemma log_file_closed e r l :
  file l = false -> file (log_file to_rfc3339 format_plus e r l) = false
  /\ dir (log_file to_rfc3339 format_plus e r l) = dir l.
Proof.
  intros Hf. unfold log_file, rotate. rewrite Hf. destruct (_ <=? _); [|done].
  destruct (_ <? _)%Z; cbn; rewrite Hf; auto.
Qed.

Lemma log_all_closed calls l :
  file l = false -> Forall (fun call => 0 <= now call.1)%Z calls ->
  exists l', log_all to_rfc3339 format_plus calls l = (Ret tt, l') /\ file l' = false /\ dir l' = dir l.
Proof.
  intros Hf Hn. revert l Hf. induction Hn as [|[e r] calls Hn _ IH]; intros l Hf; [by exists l|].
  destruct (log_runs to_rfc3339 format_plus e r l Hn) as [c Ec].
  destruct (log_file_closed e r l Hf) as [Hf1 Hd1].
  destruct (IH (set_client c (log_file to_rfc3339 format_plus e r l)) Hf1) as (l' & El & Hf' & Hd').
  exists l'. split; [|split; [done|by rewrite Hd', <- Hd1]]. cbn [log_all].
  etransitivity; [apply (sm_bind_ret _ _ _ tt (set_client c (log_file to_rfc3339 format_plus e r l))), Ec|exact El].
Qed.
End closed_file.

(** [enabled] takes the lower of the two levels, the macros the higher one. *)
Lemma enabled_understates level l :
  level_no level <= file_level l -> remote_level l < level_no level ->
  enabled level l = false /\ level_no level <= max_level (file_level l) (remote_level l).
Proof.
  intros H1 H2. unfold enabled, max_level.
  destruct (Nat.ltb_spec (file_level l) (remote_level l)); split; try lia; apply Nat.leb_gt; lia.
Qed.

(** ** Properties *)

Section properties.
Context `{CodedOutputStream}.
Variable to_rfc3339 format_plus : Z -> bytes.


(** Once the rename of a rotation fails the file is closed for good: that
    line and every later one reach no file, and no call opens it again. *)
Theorem failed_rotation_is_final e r calls l :
  level_no (lr_level r) <= file_level l -> (0 <= now e)%Z ->
  (max_size l < wrap_u64 (Z.of_nat (length (log_line format_plus (now e) r)) + size l))%Z ->
  rename_ok e = false -> Forall (fun call => 0 <= now call.1)%Z calls ->
  exists l', log_all to_rfc3339 format_plus ((e, r) :: calls) l = (Ret tt, l')
    /\ file l' = false /\ dir l' = dir l.
Proof.
  intros Hl Hn Hsz Hre Hc. destruct (log_runs to_rfc3339 format_plus e r l Hn) as [c Ec].
  assert (Hclosed : file (log_file to_rfc3339 format_plus e r l) = false
    /\ dir (log_file to_rfc3339 format_plus e r l) = dir l).
  { unfold log_file. rewrite (proj2 (Nat.leb_le _ _) Hl), (proj2 (Z.ltb_lt _ _) Hsz). unfold rotate.
    rewrite Hre. destruct (file l) eqn:Hf; cbn; rewrite ?Hf; auto. }
  destruct Hclosed as [Hf Hd].
  destruct (log_all_closed to_rfc3339 format_plus calls (set_client c (log_file to_rfc3339 format_plus e r l)) Hf Hc)
    as (l' & El & Hf' & Hd').
  exists l'. split; [|split; [done|by rewrite Hd', <- Hd]]. cbn [log_all].
  etransitivity; [apply (sm_bind_ret _ _ _ tt (set_client c (log_file to_rfc3339 format_plus e r l))), Ec|exact El].
Qed.
End properties.

Section pass.
Variables (parse_rfc3339 : bytes -> option Z) (gz : bytes -> bytes) (fname : bytes).
Variables (max_backups : nat) (compress : bool) (order : list bytes) (d : gmap bytes bytes).
Let files := sort_by_time (omap (backup_of parse_rfc3339 fname) order).
Let d' := mill_pass parse_rfc3339 gz fname max_backups compress no_faults order d.
Let k := excess max_backups files.
Let d1 := foldl (fun d p => remove_file no_faults p.1 d) d (take k files).

(** What becomes of a backup that the removal left, or did not leave. *)
Lemma mill_pass_backup p :
  NoDup order -> (forall n, n ∈ order -> wants_gz n = true -> n ++ bs ".gz" ∉ order) -> p ∈ files ->
  match d1 !! p.1 with
  | Some c => d' !! packed_name compress p.1 = Some (packed_content gz compress p.1 c)
  | None => d' !! p.1 = None
  end.
Proof.
  intros Hnd Hgz Hp. pose proof (files_NoDup parse_rfc3339 fname order Hnd) as Hfnd.
  pose proof (files_listed parse_rfc3339 fname order) as Hin. fold files in Hfnd, Hin.
  unfold d', mill_pass. fold files k d1. destruct compress; [|by destruct (d1 !! p.1) eqn:E; rewrite ?E; cbn; rewrite ?E].
  apply compress_all_lookup; [done|by apply list_elem_of_fmap_2|].
  intros q r Hq Hr Hw E. apply (Hgz q.1); [by apply Hin|done|]. rewrite <- E. by apply Hin.
Qed.

Lemma mill_pass_log_file : parse_rfc3339 [] = None -> d' !! fname = d !! fname.
Proof.
  intros Hnil. pose proof (files_listed parse_rfc3339 fname order) as Hin. fold files in Hin.
  assert (Hf : forall p, p ∈ files -> fname <> p.1 /\ fname <> p.1 ++ bs ".gz").
  { intros p (_ & x & E & Hx)%Hin. specialize (Hx Hnil). rewrite E.
    assert (0 < length x) by (destruct x; [done|cbn; lia]).
    split; intros E'; apply (f_equal length) in E'; rewrite !length_app in E'; lia. }
  assert (E1 : d1 !! fname = d !! fname).
  { unfold d1. rewrite remove_all_lookup, decide_False; [done|].
    intros (p & E & Hp)%list_elem_of_fmap. exact (proj1 (Hf p (subseteq_take k files p Hp)) E). }
  rewrite <- E1. unfold d', mill_pass. fold files k d1. destruct compress; [|done].
  apply compress_all_other; [|intros p Hp _; by apply Hf].
  intros (p & E & Hp)%list_elem_of_fmap. exact (proj1 (Hf p Hp) E).
Qed.
End pass.

(** A pass of the cleanup thread keeps the newest [max_backups] backups
    (all of them when that is 0): the others, none of them later than a kept one,
    are gone; each kept one is there with its content, compressed under its name
    with ".gz" when compression is on and it is not compressed yet; the log file
    itself is untouched. *)
Theorem mill_keeps_newest parse_rfc3339 gz fname max_backups compress order d :
  let files := sort_by_time (omap (backup_of parse_rfc3339 fname) order) in
  let d' := mill_pass parse_rfc3339 gz fname max_backups compress no_faults order d in
  let k := excess max_backups files in
  parse_rfc3339 [] = None -> NoDup order ->
  (forall n, n ∈ order -> wants_gz n = true -> n ++ bs ".gz" ∉ order) ->
  (0 < max_backups -> length (drop k files) <= max_backups)
  /\ (forall p q, p ∈ take k files -> q ∈ drop k files -> (p.2 <= q.2)%Z)
  /\ (forall p, p ∈ take k files -> d' !! p.1 = None)
  /\ (forall p c, p ∈ drop k files -> d !! p.1 = Some c ->
        d' !! packed_name compress p.1 = Some (packed_content gz compress p.1 c))
  /\ d' !! fname = d !! fname.
Proof.
  intros files d' k Hnil Hnd Hgz. split_and!.
  - intros Hpos. unfold k, excess. rewrite length_drop.
    destruct (Nat.ltb_spec 0 max_backups), (Nat.ltb_spec max_backups (length files)); cbn; lia.
  - intros p q. apply sorted_take_drop, sort_by_time_sorted.
  - intros p Hp. pose proof (mill_pass_backup _ gz _ max_backups compress order d p Hnd Hgz (subseteq_take k files p Hp)) as Hall.
    revert Hall. by rewrite remove_all_lookup, decide_True by by apply list_elem_of_fmap_2.
  - intros p c Hp Hc. pose proof (mill_pass_backup _ gz _ max_backups compress order d p Hnd Hgz (subseteq_drop k files p Hp)) as Hall.
    revert Hall. rewrite remove_all_lookup, decide_False, Hc; [done|].
    pose proof (files_NoDup parse_rfc3339 fname order Hnd) as Hfnd. fold files in Hfnd.
    rewrite <- (take_drop k files), map_app in Hfnd.
    apply NoDup_app in Hfnd as (_ & Hdisj & _). intros Hx. apply (Hdisj _ Hx). by apply list_elem_of_fmap_2.
  - by apply mill_pass_log_file.
Qed.

(** ** The properties on a concrete logger *)

Definition sample_log : LogRecord := mkLogRecord Info (bs "t") (Some (bs "f.rs")) None (Some 3%Z) (bs "hello").
Definition sample_logger : Logger := Logger_new 25 (bs "x.log") 3 1 None true (<[bs "y" := bs "z"]> ∅).
Definition sample_calls : list (Env * LogRecord) :=
  [(mkEnv 5 true true None, sample_log); (mkEnv 6 true true None, sample_log)].

(** The second line does not fit beside the first: it starts a new file. *)
Example sample_rotates :
  map_to_list (dir (snd (log_all show_u64 show_u64 sample_calls sample_logger)))
  ≡ₚ [(bs "y", bs "z"); (bs "x.log-6", log_line show_u64 5 sample_log); (bs "x.log", log_line show_u64 6 sample_log)].
Proof. apply (bool_decide_unpack _). by vm_compute. Qed.


Lemma failed_rotation_is_final_witness :
  exists l', log_all show_u64 show_u64 ((mkEnv 5 false true None, mkLogRecord Info [] None None None (replicate 30 x41)) :: sample_calls) sample_logger
      = (Ret tt, l')
    /\ file l' = false /\ dir l' = dir sample_logger.
Proof.
  refine (failed_rotation_is_final show_u64 show_u64 (mkEnv 5 false true None)
    (mkLogRecord Info [] None None None (replicate 30 x41)) sample_calls sample_logger _ _ _ _ _).
  - cbn. lia.
  - cbn. lia.
  - by vm_compute.
  - done.
  - do 2 (constructor; [cbn; lia|]). constructor.
Defined.

Definition sample_order : list bytes := [bs "x.log-7"; bs "x.log"; bs "x.log-5.gz"; bs "x.log-6"; bs "y"].
Definition sample_dir : gmap bytes bytes := list_to_map (map (fun n => (n, n)) sample_order).

Example sample_pass :
  map_to_list (mill_pass (parse_unsigned 63) (cons x1f) (bs "x.log") 2 true no_faults sample_order sample_dir)
  ≡ₚ [(bs "x.log-7.gz", x1f :: bs "x.log-7"); (bs "x.log-6.gz", x1f :: bs "x.log-6"); (bs "x.log", bs "x.log"); (bs "y", bs "y")].
Proof. apply (bool_decide_unpack _). by vm_compute. Qed.

Lemma mill_keeps_newest_witness :
  let files := sort_by_time (omap (backup_of (parse_unsigned 63) (bs "x.log")) sample_order) in
  let d' := mill_pass (parse_unsigned 63) (cons x1f) (bs "x.log") 2 true no_faults sample_order sample_dir in
  let k := excess 2 files in
  (0 < 2 -> length (drop k files) <= 2)
  /\ (forall p q, p ∈ take k files -> q ∈ drop k files -> (p.2 <= q.2)%Z)
  /\ (forall p, p ∈ take k files -> d' !! p.1 = None)
  /\ (forall p c, p ∈ drop k files -> sample_dir !! p.1 = Some c ->
        d' !! packed_name true p.1 = Some (packed_content (cons x1f) true p.1 c))
  /\ d' !! bs "x.log" = sample_dir !! bs "x.log".
Proof.
  refine (mill_keeps_newest (parse_unsigned 63) (cons x1f) (bs "x.log") 2 true sample_order sample_dir _ _ _).
  - reflexivity.
  - apply (bool_decide_unpack _). by vm_compute.
  - refine (proj1 (Forall_forall (fun n => wants_gz n = true -> n ++ bs ".gz" ∉ sample_order) sample_order) _).
    apply (bool_decide_unpack _). by vm_compute.
Defined.
