(* ===== verification/JournalWatcher.v ===== *)
(** * The journal watcher ([plugins/journal_watcher/src/main.rs], [sshd.pest])

    Each line of the sshd journal (JSON) or of the authentication log (text) is
    turned into an entry, its message parsed with the grammar of [sshd.pest], and
    a login or a certificate event sent to the agent.  The grammar is a parsing
    expression grammar: a repetition takes as much as it can and is not undone.
    [serde_json] and the clock are parameters. *)

From S2P Require Import Prelude Bytes RustStd Encoder Bridge WireInst Client.

(** ** The grammar *)

Definition is_alphanumeric (c : byte) : bool :=
  in_range 48 57 c || in_range 65 90 c || in_range 97 122 c.

(** [char] *)
Definition is_char (c : byte) : bool :=
  is_alphanumeric c || bool_decide (c ∈ [ "-"%byte; "_"%byte; "."%byte; "@"%byte ]).

Fixpoint lit (pat s : bytes) : option bytes :=
  match pat, s with
  | [], _ => Some s
  | p :: pat', c :: s' => if bool_decide (c = p) then lit pat' s' else None
  | _ :: _, [] => None
  end.

(** [char*] *)
Fixpoint chars (s : bytes) : bytes * bytes :=
  match s with
  | c :: s' => if is_char c then let (a, r) := chars s' in (c :: a, r) else ([], s)
  | [] => ([], [])
  end.
(** [char+] *)
Definition chars1 (s : bytes) : option (bytes * bytes) :=
  match chars s with ([], _) => None | r => Some r end.

Definition ws (s : bytes) : option bytes := lit (bs " ") s.
Definition optional (pat s : bytes) : bytes * bytes :=
  match lit pat s with Some r => (pat, r) | None => ([], s) end.

Definition authenticated (s : bytes) : option (bytes * bytes) :=
  match lit (bs "Accepted") s with
  | Some r => Some (bs "Accepted", r)
  | None => r ← lit (bs "Failed") s; Some (bs "Failed", r)
  end.

(** The pairs of a [login], in order. *)
Record login := mkLogin {
  l_authenticated : bytes; l_method : bytes; l_valid : bytes; l_user : bytes;
  l_sip : bytes; l_sport : bytes; l_extra : bytes;
}.

Definition parse_login (s : bytes) : option login :=
  '(a, s) ← authenticated s; s ← ws s;
  '(m, s) ← chars1 s; s ← ws s; s ← lit (bs "for") s; s ← ws s;
  let '(v, s) := optional (bs "invalid user ") s in
  let '(u, s) := chars s in
  s ← ws s; s ← lit (bs "from") s; s ← ws s;
  '(ip, s) ← chars1 s; s ← ws s; s ← lit (bs "port") s; s ← ws s;
  '(p, s) ← chars1 s; s ← ws s; s ← lit (bs "ssh2") s;
  let '(_, s) := optional (bs ":") s in
  let '(_, s) := optional (bs " ") s in
  Some (mkLogin a m v u ip p s).

(** The pairs of a [certify]. *)
Definition parse_certify (s : bytes) : option (bytes * bytes) :=
  s ← lit (bs "Authorized to") s; s ← ws s;
  let '(u, s) := chars s in
  s ← lit (bs ", krb5 principal") s; s ← ws s;
  '(p, s) ← chars1 s; s ← ws s; s ← lit (bs "(krb5_kuserok)") s;
  Some (u, p).

Inductive event := Login (l : login) | Certify (user principal : bytes).
Definition parse_event (s : bytes) : option event :=
  match parse_login s with
  | Some l => Some (Login l)
  | None => '(u, p) ← parse_certify s; Some (Certify u p)
  end.

(** ** Entries *)

Record Entry := mkEntry { message : bytes; pid : bytes }.
Inductive LogFormat := Json | Log.

(** [splitn(n, |c| c.is_whitespace())]; [cur] is the piece being read. *)
Fixpoint splitn_ws (fuel n : nat) (cur s : bytes) : list bytes :=
  match fuel, n with
  | S fuel', S (S _ as n') =>
      match find (starts_with s) white_space, s with
      | Some w, _ => cur :: splitn_ws fuel' n' [] (drop (length w) s)
      | None, c :: s' => splitn_ws fuel' n (cur ++ [c]) s'
      | None, [] => [cur]
      end
  | _, _ => [cur ++ s]
  end.
Definition splitn_whitespace (n : nat) (s : bytes) : list bytes := splitn_ws (S (length s)) n [] s.

(** [&s[5..]]: not behind the end, and not inside a character. *)
Definition slice_from (n : nat) (s : bytes) : outcome bytes :=
  if decide (n <= length s) then
    match drop n s with
    | c :: _ => if is_cont c then Panic else Ret (drop n s)
    | [] => Ret []
    end
  else Panic.

Definition nth_field (fields : list bytes) (i : nat) : bytes := default [] (fields !! i).

Section watcher.
Variable from_json : bytes -> option Entry.

(** [None] is [continue]. *)
Definition entry_of (format : LogFormat) (line : bytes) : outcome (option Entry) :=
  match format with
  | Json => Ret (from_json line)
  | Log =>
      let fields := splitn_whitespace 7 line in
      if decide (length fields <> 7) then Ret None
      else if starts_with (nth_field fields 5) (bs "sshd[") then
        rest ← slice_from 5 (nth_field fields 4);
        Ret (Some (mkEntry (nth_field fields 5) (trim_end_matches (bs "]") rest)))
      else Ret None
  end.

Definition login_record (l : login) : Record_ :=
  insert_fields
    [("status"%string, if bool_decide (l_authenticated l = bs "Accepted") then bs "true" else bs "false");
     ("types"%string, l_method l);
     ("invalid"%string, if bool_decide (l_valid l = bs "invalid user") then bs "true" else bs "false");
     ("user"%string, l_user l); ("sip"%string, l_sip l); ("sport"%string, l_sport l);
     ("extra"%string, l_extra l)]
    (set_data_type 4000 Record_new).

Definition certify_record (user principal : bytes) : Record_ :=
  insert_fields [("authorized"%string, user); ("principal"%string, principal)] (set_data_type 4001 Record_new).

Definition event_record (e : event) : Record_ :=
  match e with
  | Login l => login_record l
  | Certify u p => certify_record u p
  end.

(** What one line sends: nothing, or a record stamped with the time. *)
Definition line_record (format : LogFormat) (now : Z) (line : bytes) : outcome (option Record_) :=
  entry ← entry_of format line;
  match entry with
  | None => Ret None
  | Some entry =>
      match parse_event (message entry) with
      | None => Ret None
      | Some e =>
          Ret (Some (insert_fields [("pid"%string, pid entry); ("rawlog"%string, message entry)]
                 (set_timestamp now (event_record e))))
      end
  end.

(** The loop over the lines ([None]: a read error, [break]); it ends with the
    first record that cannot be sent. *)
Fixpoint watch_lines `{CodedOutputStream} (format : LogFormat) (lines : list (option bytes * Z))
    : SM Client unit :=
  match lines with
  | [] => mret tt
  | (None, _) :: _ => mret tt
  | (Some line, now) :: lines' =>
      rec ← sm_lift (line_record format now line);
      match rec with
      | None => watch_lines format lines'
      | Some rec => send_record rec ;; watch_lines format lines'
      end
  end.
End watcher.

(** ** Parsing what sshd prints *)

Lemma lit_app pat s : lit pat (pat ++ s) = Some s.
Proof. induction pat as [|p pat IH]; cbn; [done|]. by rewrite bool_decide_true. Qed.

Lemma lit_starts pat s r : lit pat s = Some r -> starts_with s pat = true.
Proof.
  revert s. induction pat as [|p pat IH]; intros [|c s]; cbn; try done.
  case_bool_decide; [|done]. intros Hr. by rewrite (IH s Hr).
Qed.

(** A word ends at a space. *)
Lemma chars_space u s : forallb is_char u = true -> chars (u ++ bs " " ++ s) = (u, bs " " ++ s).
Proof.
  intros Hu. induction u as [|x u IH]; [reflexivity|]. cbn [app chars].
  cbn [forallb] in Hu. apply andb_true_iff in Hu as [-> Hu]. by rewrite IH.
Qed.

Lemma chars1_space u s :
  u <> [] -> forallb is_char u = true -> chars1 (u ++ bs " " ++ s) = Some (u, bs " " ++ s).
Proof. intros Hne Hu. unfold chars1. rewrite chars_space by done. by destruct u. Qed.

Lemma ws_space s : ws (bs " " ++ s) = Some s.
Proof. apply lit_app. Qed.

(** A message sshd logs for a login. *)
Definition login_message (accepted invalid : bool) (method user sip sport : bytes) : bytes :=
  (if accepted then bs "Accepted" else bs "Failed") ++ bs " " ++ method ++ bs " " ++ bs "for" ++ bs " "
  ++ (if invalid then bs "invalid user " else []) ++ user ++ bs " " ++ bs "from" ++ bs " " ++ sip
  ++ bs " " ++ bs "port" ++ bs " " ++ sport ++ bs " " ++ bs "ssh2".

Definition word (s : bytes) : Prop := s <> [] /\ forallb is_char s = true.

Lemma authenticated_ok (a : bool) s :
  authenticated ((if a then bs "Accepted" else bs "Failed") ++ s)
  = Some (if a then bs "Accepted" else bs "Failed", s).
Proof. destruct a; reflexivity. Qed.

Lemma lit_None pat s : starts_with s pat = false -> lit pat s = None.
Proof. intros Hs. destruct (lit pat s) eqn:E; [|done]. by rewrite (lit_starts _ _ _ E) in Hs. Qed.

(** A user name is not taken for the mark of an invalid user: it has no space. *)
Lemma starts_with_invalid user s :
  forallb is_char user = true -> starts_with (user ++ bs " " ++ bs "from" ++ s) (bs "invalid user ") = false.
Proof.
  intros Hu. apply not_true_is_false. intros [t E]%starts_with_spec.
  do 7 (destruct user as [|? user]; [cbn in E; congruence|]).
  destruct user as [|x user]; [cbn in E; congruence|].
  assert (Hx : x = x20) by (cbn in E; congruence). subst x. cbn [forallb] in Hu.
  repeat (apply andb_true_iff in Hu as [? Hu]). done.
Qed.

Lemma optional_invalid (v : bool) user s :
  forallb is_char user = true ->
  optional (bs "invalid user ") ((if v then bs "invalid user " else []) ++ user ++ bs " " ++ bs "from" ++ s)
  = (if v then bs "invalid user " else [], user ++ bs " " ++ bs "from" ++ s).
Proof.
  intros Hu. unfold optional. destruct v; [by rewrite lit_app|]. cbn [app].
  by rewrite lit_None by (by apply starts_with_invalid).
Qed.

Lemma parse_login_message a v method user sip sport :
  word method -> forallb is_char user = true -> word sip -> word sport ->
  parse_login (login_message a v method user sip sport)
  = Some (mkLogin (if a then bs "Accepted" else bs "Failed") method
            (if v then bs "invalid user " else []) user sip sport []).
Proof.
  intros [Hm1 Hm2] Hu [Hi1 Hi2] [Hp1 Hp2]. unfold parse_login, login_message.
  rewrite authenticated_ok. cbn [mbind option_bind].
  rewrite ws_space. cbn [mbind option_bind]. rewrite chars1_space by done. cbn [mbind option_bind].
  rewrite ws_space. cbn [mbind option_bind]. rewrite lit_app. cbn [mbind option_bind].
  rewrite ws_space. cbn [mbind option_bind]. rewrite optional_invalid, chars_space by done.
  rewrite ws_space. cbn [mbind option_bind]. rewrite lit_app. cbn [mbind option_bind].
  rewrite ws_space. cbn [mbind option_bind]. rewrite chars1_space by done. cbn [mbind option_bind].
  rewrite ws_space. cbn [mbind option_bind]. rewrite lit_app. cbn [mbind option_bind].
  rewrite ws_space. cbn [mbind option_bind]. rewrite chars1_space by done. cbn [mbind option_bind].
  rewrite ws_space. done.
Qed.

Lemma parse_login_invalid s l :
  parse_login s = Some l -> l_valid l = [] \/ l_valid l = bs "invalid user ".
Proof.
  unfold parse_login. intros H.
  apply bind_Some in H as ([a s1] & _ & H). apply bind_Some in H as (s2 & _ & H).
  apply bind_Some in H as ([m s3] & _ & H). apply bind_Some in H as (s4 & _ & H).
  apply bind_Some in H as (s5 & _ & H). apply bind_Some in H as (s6 & _ & H).
  destruct (optional (bs "invalid user ") s6) as [v s7] eqn:Ev. destruct (chars s7) as [u s8].
  apply bind_Some in H as (s9 & _ & H). apply bind_Some in H as (s10 & _ & H).
  apply bind_Some in H as (s11 & _ & H). apply bind_Some in H as ([ip s12] & _ & H).
  apply bind_Some in H as (s13 & _ & H). apply bind_Some in H as (s14 & _ & H).
  apply bind_Some in H as (s15 & _ & H). apply bind_Some in H as ([p s16] & _ & H).
  apply bind_Some in H as (s17 & _ & H). apply bind_Some in H as (s18 & _ & H).
  destruct (optional (bs ":") s18) as [c s19]. destruct (optional (bs " ") s19) as [d s20].
  injection H as <-. cbn [l_valid]. unfold optional in Ev.
  destruct (lit _ s6); injection Ev as <- _; auto.
Qed.

(** ** Lines and records *)

Lemma entry_of_log_message from_json line e :
  entry_of from_json Log line = Ret (Some e) -> starts_with (message e) (bs "sshd[") = true.
Proof.
  cbn [entry_of]. case_decide; [done|]. destruct (starts_with _ (bs "sshd[")) eqn:Es; [|done].
  destruct (slice_from 5 _) as [r|err|]; [|done..]. cbn [mbind outcome_bind]. intros [= <-]. exact Es.
Qed.

(** No event of the grammar starts like the tag of a log line. *)
Lemma parse_event_tag s : starts_with s (bs "sshd[") = true -> parse_event s = None.
Proof. intros [t ->]%starts_with_spec. reflexivity. Qed.

(** The records a list of lines gives, in order. *)
Definition line_records from_json (lines : list (bytes * Z)) : list Record_ :=
  omap (fun '(line, now) =>
    match line_record from_json Json now line with Ret r => r | _ => None end) lines.

Lemma line_record_json from_json now line : exists r, line_record from_json Json now line = Ret r.
Proof.
  unfold line_record, entry_of. cbn [mbind outcome_bind].
  destruct (from_json line) as [e|]; [|by eexists]. destruct (parse_event (message e)); by eexists.
Qed.

Section stream.
Context `{CodedInputLaws, CodedOutputLaws}.

Lemma watch_lines_sent from_json lines c :
  writer_open c = true ->
  watch_lines from_json Json (map (fun '(l, now) => (Some l, now)) lines) c
  = send_records (line_records from_json lines) c.
Proof.
  revert c. induction lines as [|[line now] lines IH]; intros [w o rd] Ho; cbn in Ho; subst; [done|].
  destruct (line_record_json from_json now line) as [rec Er].
  replace (line_records from_json ((line, now) :: lines))
    with (match rec with Some r => r :: line_records from_json lines | None => line_records from_json lines end)
    by (unfold line_records; cbn -[line_record]; by rewrite Er).
  cbn [map watch_lines].
  etransitivity; [apply (sm_bind_ret _ _ _ rec (mkClient w true rd)); by unfold sm_lift; rewrite Er|].
  destruct rec as [rec|]; [|by apply IH]. cbn [send_records]. unfold send_record, write_all.
  rewrite !sm_bind_assoc. unfold mbind at 1 3, SM_bind at 1 3. cbn.
  by apply IH.
Qed.
End stream.

(** ** Properties *)

(** A login message of sshd in the journal is reported with its status,
    method, user, address and port, the pid and the message itself; the field
    [invalid] is "false" even when the message names an invalid user, because the
    grammar's text "invalid user " ends with a space. *)
Theorem login_reported from_json now line a v method user sip sport p :
  word method -> forallb is_char user = true -> word sip -> word sport ->
  let msg := login_message a v method user sip sport in
  from_json line = Some (mkEntry msg p) ->
  line_record from_json Json now line
  = Ret (Some (mkRecord 4000 now (Some (mkPayload (list_to_map
      [(bs "rawlog", msg); (bs "pid", p); (bs "extra", []); (bs "sport", sport); (bs "sip", sip);
       (bs "user", user); (bs "invalid", bs "false"); (bs "types", method);
       (bs "status", if a then bs "true" else bs "false")]) [])) [])).
Proof.
  intros Hm Hu Hi Hp msg Hj. unfold line_record, entry_of. rewrite Hj. cbn [mbind outcome_bind message pid].
  unfold parse_event, msg at 1. rewrite parse_login_message by done. fold msg.
  do 2 f_equal. unfold event_record, login_record. cbn [l_authenticated l_method l_valid l_user l_sip l_sport l_extra].
  rewrite set_timestamp_insert_fields, insert_fields_app.
  unfold set_timestamp, set_data_type, Record_new. cbn [data_type data rec_unknown_fields].
  rewrite insert_fields_new by done. do 3 f_equal.
  destruct a, v; reflexivity.
Qed.

(** With a text log as its source the watcher never reports anything: the
    message it parses is the field that must start with the tag "sshd[", which no
    event of the grammar does. *)
Theorem text_log_never_reports from_json now line r :
  line_record from_json Log now line <> Ret (Some r).
Proof.
  unfold line_record. destruct (entry_of from_json Log line) as [[e|]|err|] eqn:E; cbn [mbind outcome_bind]; try done.
  apply entry_of_log_message in E. by rewrite parse_event_tag.
Qed.

Section properties.
Context `{CodedInputLaws, CodedOutputLaws}.

(** What the watcher writes while it reads the journal decodes to the records
    of its lines, in order; lines that are no entry or no event add nothing. *)
Theorem journal_stream_decodes from_json lines c :
  writer_open c = true -> Forall sendable (line_records from_json lines) ->
  exists stream,
    watch_lines from_json Json (map (fun '(l, now) => (Some l, now)) lines) c
      = (Ret tt, mkClient (writer c ++ stream) true (reader c))
    /\ decode_stream (length (line_records from_json lines)) stream
       = Ret (line_records from_json lines).
Proof.
  intros Ho Hs. rewrite watch_lines_sent by done. eexists. split; [by apply send_records_framed|].
  by apply decode_stream_framed.
Qed.
End properties.

(** ** The properties on a concrete journal *)

(** The line is the message; the process is 77. *)
Definition sample_json (line : bytes) : option Entry :=
  if starts_with line (bs "{") then None else Some (mkEntry line (bs "77")).

Lemma login_reported_witness :
  exists m, line_record sample_json Json 5
    (login_message false true (bs "password") (bs "bob") (bs "10.0.0.1") (bs "22"))
  = Ret (Some (mkRecord 4000 5 (Some (mkPayload m [])) []))
  /\ m !! bs "invalid" = Some (bs "false").
Proof.
  eexists. split.
  - apply (login_reported sample_json 5
      (login_message false true (bs "password") (bs "bob") (bs "10.0.0.1") (bs "22"))
      false true (bs "password") (bs "bob") (bs "10.0.0.1") (bs "22") (bs "77")); (done || reflexivity).
  - vm_compute. reflexivity.
Defined.

Definition sample_lines : list (bytes * Z) :=
  [(bs "{", 4%Z);
   (login_message true false (bs "publickey") (bs "root") (bs "10.0.0.1") (bs "22"), 5%Z);
   (bs "Server listening", 6%Z)].

Lemma sample_lines_sendable : Forall sendable (line_records sample_json sample_lines).
Proof.
  apply (bool_decide_unpack _). by vm_compute.
Qed.

Lemma journal_stream_decodes_witness :
  exists stream,
    watch_lines sample_json Json (map (fun '(l, now) => (Some l, now)) sample_lines) (mkClient [] true [])
      = (Ret tt, mkClient ([] ++ stream) true [])
    /\ decode_stream (length (line_records sample_json sample_lines)) stream
       = Ret (line_records sample_json sample_lines).
Proof.
  refine (journal_stream_decodes sample_json sample_lines (mkClient [] true []) _ _).
  - reflexivity.
  - apply sample_lines_sendable.
Defined.
