(* ===== verification/JournalRun.v ===== *)
(** * The threads of the journal watcher ([plugins/journal_watcher/src/main.rs])

    The record thread chooses a source of log lines, starts a child process that
    prints them, reports what they tell ([JournalWatcher]) and starts over when the
    lines end.  The task thread only waits for the agent to go away, and then kills
    the child.  They share [journalctl], the slot of the child; a step is what its
    lock protects, or the handling of a line.  Killing a child ends it: [kill] fails
    only for one that has ended. *)

From S2P Require Import Prelude Bytes RustStd Encoder Bridge WireInst Client JournalWatcher.

(** ** The source of lines *)

(** [dir.join(exe_name)] for a name without a slash *)
Definition join_name (dir name : bytes) : bytes :=
  match last dir with
  | None => name
  | Some c => if bool_decide (c = x2f) then dir ++ name else dir ++ [x2f] ++ name
  end.

(** [path] is the variable PATH; [env::split_paths] splits it at its colons. *)
Definition find_command (path : option bytes) (is_file : bytes -> bool) (exe_name : bytes) : option bytes :=
  paths ← path; head (filter (fun p => is_file p = true) (map (fun dir => join_name dir exe_name) (split_on x3a paths))).

Definition source (path : option bytes) (is_file metadata_ok : bytes -> bool) : option (bytes * list bytes * LogFormat) :=
  match find_command path is_file (bs "journalctl") with
  | Some _ => Some (bs "journalctl", [bs "-f"; bs "_COMM=sshd"; bs "-o"; bs "json"], Json)
  | None =>
      if metadata_ok (bs "/var/log/auth.log") then Some (bs "tail", [bs "-F"; bs "/var/log/auth.log"], Log)
      else if metadata_ok (bs "/var/log/secure") then Some (bs "tail", [bs "-F"; bs "/var/log/secure"], Log)
      else None
  end.

(** ** The threads *)

(** Where the record thread is; children are numbered as they are started. *)
Inductive Phase :=
  | Choosing
  | Spawned (child : nat) (format : LogFormat)
  | Reading (child : nat) (format : LogFormat)
  | Sleeping
  | Returned
  | Panicked (format : LogFormat).

Record Watch := mkWatch {
  journalctl : option nat;
  children : gset nat;        (** running *)
  started : nat;              (** how many were ever started *)
  receiving : bool;           (** the task thread *)
  phase : Phase;
  client : Client;
}.

Section steps.
Context (from_json : bytes -> option Entry) `{CodedOutputStream}.

(** [if let Some(journalctl) = slot.as_mut() { journalctl.kill() }] *)
Definition kill (slot : option nat) (cs : gset nat) : gset nat := match slot with Some c => cs ∖ {[c]} | None => cs end.

Inductive wstep : Watch -> Watch -> Prop :=
  (** no source, or the child does not start *)
  | WNoSource j cs n t c :
      wstep (mkWatch j cs n t Choosing c) (mkWatch j cs n t Returned c)
  | WSpawn j cs n t c path is_file metadata_ok cmd args format :
      source path is_file metadata_ok = Some (cmd, args, format) ->
      wstep (mkWatch j cs n t Choosing c) (mkWatch j ({[n]} ∪ cs) (S n) t (Spawned n format) c)
  (** the slot is filled; what was in it is dropped, which does not kill it *)
  | WStore j cs n t k format c :
      wstep (mkWatch j cs n t (Spawned k format) c) (mkWatch (Some k) cs n t (Reading k format) c)
  | WLine j cs n t k format c line now c' :
      watch_lines from_json format [(Some line, now)] c = (Ret tt, c') ->
      wstep (mkWatch j cs n t (Reading k format) c) (mkWatch j cs n t (Reading k format) c')
  | WSendFails j cs n t k format c line now e c' :
      watch_lines from_json format [(Some line, now)] c = (Fail e, c') ->
      wstep (mkWatch j cs n t (Reading k format) c) (mkWatch None (kill j cs) n t Returned c')
  | WLinePanics j cs n t k format c line now c' :
      watch_lines from_json format [(Some line, now)] c = (Panic, c') ->
      wstep (mkWatch j cs n t (Reading k format) c) (mkWatch j cs n t (Panicked format) c')
  (** the lines end, or one cannot be read *)
  | WEnd j cs n t k format c :
      wstep (mkWatch (Some j) cs n t (Reading k format) c) (mkWatch (Some j) (kill (Some j) cs) n t Sleeping c)
  | WEndNone cs n t k format c :
      wstep (mkWatch None cs n t (Reading k format) c) (mkWatch None cs n t Returned c)
  | WWake j cs n t c :
      wstep (mkWatch j cs n t Sleeping c) (mkWatch j cs n t Choosing c)
  (** the agent is gone *)
  | WGone j cs n p c :
      wstep (mkWatch j cs n true p c) (mkWatch None (kill j cs) n false p c)
  (** a child ends by itself *)
  | WExit j cs n t p c k :
      wstep (mkWatch j cs n t p c) (mkWatch j (cs ∖ {[k]}) n t p c)
  (** the signal thread closes the pipes *)
  | WClose j cs n t p c :
      wstep (mkWatch j cs n t p c) (mkWatch j cs n t p (mkClient (writer c) false (reader c))).

Definition Watch_start (c : Client) : Watch := mkWatch None ∅ 0 true Choosing c.

(** ** The children *)

(** Every number used is below [started]; besides the child being started or read
    nothing runs, and once it is in the slot it runs only until the slot is emptied. *)
Definition watch_ok (w : Watch) : Prop :=
  (forall k, journalctl w = Some k -> k < started w)
  /\ match phase w with
     | Choosing | Sleeping | Returned => children w = ∅
     | Spawned k _ => children w ⊆ {[k]} /\ k < started w /\ journalctl w <> Some k
     | Reading k _ => children w ⊆ {[k]} /\ k < started w /\ (journalctl w = Some k \/ journalctl w = None /\ children w = ∅)
     | Panicked f => f = Log /\ exists k, children w ⊆ {[k]}
     end.

Lemma watch_line_json line now c r c' :
  watch_lines from_json Json [(Some line, now)] c = (r, c') -> r <> Panic.
Proof.
  cbn [watch_lines]. destruct (line_record_json from_json now line) as [rec E].
  unfold mbind, SM_bind, sm_lift. rewrite E. destruct rec as [rec|]; [|by intros [= <- _]].
  unfold send_record, mbind, SM_bind, write_all. repeat case_match; simplify_eq; intros [= <- _]; done.
Qed.

Lemma wstep_ok w w' : wstep w w' -> watch_ok w -> watch_ok w'.
Proof.
  intros Hs [Hj Hp]. destruct Hs; unfold watch_ok in *; cbn in *.
  - split; [done|set_solver].
  - split; [intros k Hk; specialize (Hj k Hk); lia|]. split; [set_solver|]. split; [lia|]. intros Hk. specialize (Hj _ Hk). lia.
  - destruct Hp as (Hc & Hk & _). split; [by intros k0 [= <-]|]. auto.
  - auto.
  - split; [done|]. destruct Hp as (Hc & _ & [->|[-> ->]]); cbn; set_solver.
  - split; [done|]. destruct format; [by eapply watch_line_json in H0|]. split; [done|]. exists k. by destruct Hp.
  - split; [done|]. destruct Hp as (Hc & _ & [[= ->]|[[=] _]]). set_solver.
  - split; [done|]. by destruct Hp as (_ & _ & [[=]|[_ ->]]).
  - auto.
  - split; [done|]. destruct p; cbn; subst; destruct j; set_solver.
  - split; [done|]. destruct p; try set_solver.
  - auto.
Qed.

Lemma runs_ok c w : rtc wstep (Watch_start c) w -> watch_ok w.
Proof.
  intros Hr. assert (H0 : watch_ok (Watch_start c)) by done. revert H0.
  induction Hr as [w|w1 w2 w3 Hs _ IH]; intros Hok; [done|]. apply IH. by eapply wstep_ok.
Qed.

Lemma subset_singleton_size (X : gset nat) k : X ⊆ {[k]} -> size X <= 1.
Proof. intros Hx. apply subseteq_size in Hx. by rewrite size_singleton in Hx. Qed.

(** C39: in every state the two threads can reach, at most one child runs; once the
    record thread has returned none does, whichever thread killed it; and the
    record thread panics, which leaves the child running, only on a line of a text
    log. *)
Theorem one_child_at_most c w :
  rtc wstep (Watch_start c) w ->
  size (children w) <= 1
  /\ (phase w = Returned -> children w = ∅)
  /\ (forall f, phase w = Panicked f -> f = Log).
Proof.
  intros [_ Hp]%runs_ok. split; [|split; [by intros E; rewrite E in Hp|by intros f E; rewrite E in Hp; destruct Hp]].
  destruct (phase w) as [|k f|k f| | |f]; first [by rewrite Hp, size_empty; lia|idtac].
  - destruct Hp as [Hp _]. by eapply subset_singleton_size.
  - destruct Hp as [Hp _]. by eapply subset_singleton_size.
  - destruct Hp as [_ [k Hp]]. by eapply subset_singleton_size.
Qed.

(** The agent can go away while no child is in the slot, before the first is started
    or while the record thread sleeps: the child started afterwards is read although
    nothing is left to stop it. *)
Theorem watcher_outlives_agent c :
  exists w, rtc wstep (Watch_start c) w /\ receiving w = false /\ exists k, phase w = Reading k Json /\ k ∈ children w.
Proof.
  eexists. split; [|split; [|exists 0; split]].
  - eapply rtc_l; [apply WGone|].
    eapply rtc_l; [eapply WSpawn with (path := Some (bs "/bin")) (is_file := fun _ => true) (metadata_ok := fun _ => false); reflexivity|].
    eapply rtc_l; [apply WStore|]. apply rtc_refl.
  - done.
  - done.
  - set_solver.
Qed.

(** On the first nine days of a month sshd's lines have two spaces behind the month,
    and the host's name is cut where the tag is expected: a name shorter than five
    bytes panics. *)
Theorem short_host_panics c :
  fst (watch_lines from_json Log [(Some (bs "Oct  1 12:00:00 host sshd[1]: Accepted password for a from 10.0.0.1 port 22 ssh2"), 0%Z)] c) = Panic.
Proof. by vm_compute. Qed.
End steps.

(** ** A run *)

Definition watch_lost : Watch := mkWatch None ∅ 1 false Returned (mkClient [] true []).

Lemma one_child_at_most_witness :
  size (children watch_lost) <= 1 /\ (phase watch_lost = Returned -> children watch_lost = ∅)
  /\ (forall f, phase watch_lost = Panicked f -> f = Log).
Proof.
  refine (one_child_at_most sample_json (mkClient [] true []) watch_lost _).
  eapply rtc_l; [eapply WSpawn with (path := Some (bs "/bin")) (is_file := fun _ => true) (metadata_ok := fun _ => false); reflexivity|].
  eapply rtc_l; [apply WStore|]. eapply rtc_l; [apply WGone|]. eapply rtc_l; [apply WEndNone|]. apply rtc_refl.
Defined.
