(* ===== verification/ScanEvents.v ===== *)
(** * Events of the scanner ([detector.rs], [fulldiskscan.rs], [filter.rs], [configs.rs])

    The structures the scanner reports, each with its two conversions to a record
    (the trait [ToAgentRecord], here a class with the law that a token only adds
    its field), what they read of a process, and the path filter of the scan jobs.
    [serde_json::to_string] on the matched data is a parameter, as are the clock
    and the contents of /proc. *)

From S2P Require Import Prelude Bytes RustStd Encoder Bridge.

(** ** The trait *)

(** [now] is [Clock::now_since_epoch().as_secs()]. *)
Class ToAgentRecord (E : Type) := {
  to_record : Z -> E -> Record_;
  to_record_token : Z -> E -> bytes -> Record_;
}.

(** What a client may rely on: a token is one more field, and with it the record
    says otherwise what it says without. *)
Class ToAgentLaws (E : Type) `{!ToAgentRecord E} := {
  token_adds_field now e t : to_record_token now e t = insert_field (bs "token") t (to_record now e);
  record_type : E -> Z;
  record_stamped now e :
    data_type (to_record now e) = record_type e /\ timestamp (to_record now e) = now
    /\ exists p, data (to_record now e) = Some p;
}.

(** A record of a type with the fields inserted in order. *)
Definition event_record (data_type now : Z) (fields : list (string * bytes)) : Record_ :=
  insert_fields fields (set_timestamp now (set_data_type data_type Record_new)).

(** [if let Some(mdata) = &self.matched_data { .. }] *)
Definition hit_data (to_json : list bytes -> bytes) (matched_data : option (list bytes)) : list (string * bytes) :=
  match matched_data with
  | Some mdata => [("hit_data"%string, to_json mdata)]
  | None => []
  end.

(** [to_string] of a signed integer. *)
Definition show_i32 (n : Z) : bytes := if (n <? 0)%Z then bs "-" ++ show_u64 (- n) else show_u64 n.

Module DetectFileEvent.
Record t := mk {
  types : bytes; class : bytes; name : bytes; exe : bytes; exe_size : bytes; exe_hash : bytes;
  md5_hash : bytes; create_at : bytes; modify_at : bytes; matched_data : option (list bytes);
}.
Definition fields (self : t) : list (string * bytes) :=
  [("types", types self); ("class", class self); ("name", name self); ("exe", exe self);
   ("exe_size", exe_size self); ("exe_hash", exe_hash self); ("md5_hash", md5_hash self);
   ("create_at", create_at self); ("modify_at", modify_at self)]%string.
End DetectFileEvent.

(** What [procfs] and [read_link] say of a process: the parts of its status and
    stat, its pid name space and its command line, each unless it cannot be read. *)
Record ProcStatus := mkProcStatus { ps_name : bytes; ps_ppid : Z; ps_ruid : Z; ps_tgid : Z }.
Record Process := mkProcess {
  status : option ProcStatus;
  ns_link : option bytes;
  stat : option (Z * Z);
  cmdline : option (list bytes);
}.

(** [ps.join(" ")] *)
Definition join_space (l : list bytes) : bytes := match l with [] => [] | _ => join " " l end.

Definition pns_of (link : option bytes) : bytes :=
  match link with
  | Some l => if utf8_valid l then trim_end_matches (bs "]") (trim_start_matches (bs "pid:[") l) else bs "-3"
  | None => bs "-3"
  end.

Module DetectProcEvent.
Record t := mk {
  types : bytes; class : bytes; name : bytes; pid : bytes; exe_hash : bytes; md5_hash : bytes;
  exe_size : bytes; exe : bytes; create_at : bytes; modify_at : bytes; ppid : bytes; pgid : bytes;
  tgid : bytes; argv : bytes; comm : bytes; sessionid : bytes; uid : bytes; pns : bytes;
  matched_data : option (list bytes);
}.
Definition fields (self : t) : list (string * bytes) :=
  [("types", types self); ("class", class self); ("name", name self); ("exe", exe self);
   ("exe_size", exe_size self); ("exe_hash", exe_hash self); ("md5_hash", md5_hash self);
   ("create_at", create_at self); ("modify_at", modify_at self); ("pid", pid self); ("ppid", ppid self);
   ("pgid", pgid self); ("tgid", tgid self); ("argv", argv self); ("comm", comm self);
   ("sessionid", sessionid self); ("uid", uid self); ("pns", pns self)]%string.

Definition default_ : t := mk [] [] [] [] [] [] [] [] [] [] [] [] [] [] [] [] [] [] None.

(** [new]: [None] is the error of a process that is gone. *)
Definition new (proc : Z -> option Process) (pid : Z) (ftype fclass fname exe xhash md5sum : bytes)
    (size create_at modify_at : Z) (matched_data : option (list bytes)) : option t :=
  match proc pid with
  | None => None
  | Some p =>
      let of_status (f : ProcStatus -> bytes) := match status p with Some ps => f ps | None => bs "-3" end in
      let of_stat (f : Z * Z -> Z) := match stat p with Some s => show_i32 (f s) | None => bs "-3" end in
      Some (mk ftype fclass fname (show_i32 pid) xhash md5sum (show_u64 size) exe
              (show_u64 create_at) (show_u64 modify_at)
              (of_status (fun ps => show_i32 (ps_ppid ps))) (of_stat fst)
              (of_status (fun ps => show_i32 (ps_tgid ps)))
              (match cmdline p with Some l => join_space l | None => bs "-3" end)
              (of_status ps_name) (of_stat snd)
              (of_status (fun ps => show_u64 (ps_ruid ps)))
              (match status p with Some _ => pns_of (ns_link p) | None => bs "-3" end)
              matched_data)
  end.
End DetectProcEvent.

Module AntiRansomEvent.
Record t := mk {
  types : bytes; class : bytes; name : bytes; pid : bytes; exe_hash : bytes; md5_hash : bytes;
  exe_size : bytes; exe : bytes; create_at : bytes; modify_at : bytes; ppid : bytes; pgid : bytes;
  tgid : bytes; argv : bytes; comm : bytes; sessionid : bytes; uid : bytes; pns : bytes;
  file_path : bytes; file_hash : bytes; matched_data : option (list bytes);
}.
Definition fields (self : t) : list (string * bytes) :=
  [("types", types self); ("class", class self); ("name", name self); ("exe", exe self);
   ("exe_size", exe_size self); ("exe_hash", exe_hash self); ("md5_hash", md5_hash self);
   ("create_at", create_at self); ("modify_at", modify_at self); ("pid", pid self); ("ppid", ppid self);
   ("pgid", pgid self); ("tgid", tgid self); ("argv", argv self); ("comm", comm self);
   ("sessionid", sessionid self); ("uid", uid self); ("pns", pns self)]%string.
Definition file_fields (self : t) : list (string * bytes) :=
  [("file_path", file_path self); ("file_hash", file_hash self)]%string.

Definition default_ : t := mk [] [] [] [] [] [] [] [] [] [] [] [] [] [] [] [] [] [] [] [] None.

Definition new (proc : Z -> option Process) (pid : Z) (ftype fclass fname exe xhash md5sum : bytes)
    (size create_at modify_at : Z) (file_path file_hash : bytes) (matched_data : option (list bytes)) : option t :=
  match proc pid with
  | None => None
  | Some p =>
      let of_status (f : ProcStatus -> bytes) := match status p with Some ps => f ps | None => bs "-3" end in
      let of_stat (f : Z * Z -> Z) := match stat p with Some s => show_i32 (f s) | None => bs "-3" end in
      Some (mk ftype fclass fname (show_i32 pid) xhash md5sum (show_u64 size) exe
              (show_u64 create_at) (show_u64 modify_at)
              (of_status (fun ps => show_i32 (ps_ppid ps))) (of_stat fst)
              (of_status (fun ps => show_i32 (ps_tgid ps)))
              (match cmdline p with Some l => join_space l | None => bs "-3" end)
              (of_status ps_name) (of_stat snd)
              (of_status (fun ps => show_u64 (ps_ruid ps)))
              (match status p with Some _ => pns_of (ns_link p) | None => bs "-3" end)
              file_path file_hash matched_data)
  end.
End AntiRansomEvent.

Module DetectOneTaskEvent.
Record t := mk {
  types : bytes; class : bytes; name : bytes; exe : bytes; exe_size : bytes; exe_hash : bytes;
  md5_hash : bytes; create_at : bytes; modify_at : bytes; error : bytes; token : bytes;
  matched_data : option (list bytes);
}.
Definition fields (self : t) : list (string * bytes) :=
  [("types", types self); ("class", class self); ("name", name self); ("exe", exe self);
   ("exe_size", exe_size self); ("exe_hash", exe_hash self); ("md5_hash", md5_hash self);
   ("create_at", create_at self); ("modify_at", modify_at self)]%string.
End DetectOneTaskEvent.

Record RegReport := mkRegReport { db_version : bytes; db_sha256 : bytes }.
Record FulllScanFinished := mkFulllScanFinished {}.

Section records.
Variable to_json : list bytes -> bytes.

#[export] Instance DetectFileEvent_record : ToAgentRecord DetectFileEvent.t := {|
  to_record now self :=
    event_record 6001 now (DetectFileEvent.fields self ++ hit_data to_json (DetectFileEvent.matched_data self));
  to_record_token now self token :=
    event_record 6001 now (DetectFileEvent.fields self ++ [("token"%string, token)]
      ++ hit_data to_json (DetectFileEvent.matched_data self));
|}.

#[export] Instance DetectProcEvent_record : ToAgentRecord DetectProcEvent.t := {|
  to_record now self :=
    event_record 6002 now (DetectProcEvent.fields self ++ hit_data to_json (DetectProcEvent.matched_data self));
  to_record_token now self token :=
    event_record 6002 now (DetectProcEvent.fields self ++ [("token"%string, token)]
      ++ hit_data to_json (DetectProcEvent.matched_data self));
|}.

#[export] Instance AntiRansomEvent_record : ToAgentRecord AntiRansomEvent.t := {|
  to_record now self :=
    event_record 6005 now (AntiRansomEvent.fields self ++ AntiRansomEvent.file_fields self
      ++ hit_data to_json (AntiRansomEvent.matched_data self));
  to_record_token now self token :=
    event_record 6005 now (AntiRansomEvent.fields self ++ [("token"%string, token)]
      ++ AntiRansomEvent.file_fields self ++ hit_data to_json (AntiRansomEvent.matched_data self));
|}.

#[export] Instance DetectOneTaskEvent_record : ToAgentRecord DetectOneTaskEvent.t := {|
  to_record now self :=
    event_record 6003 now (DetectOneTaskEvent.fields self
      ++ [("error"%string, DetectOneTaskEvent.error self); ("token"%string, DetectOneTaskEvent.token self)]
      ++ hit_data to_json (DetectOneTaskEvent.matched_data self));
  to_record_token now self token :=
    event_record 6003 now (DetectOneTaskEvent.fields self
      ++ [("error"%string, DetectOneTaskEvent.error self); ("token"%string, token)]
      ++ hit_data to_json (DetectOneTaskEvent.matched_data self));
|}.

(** [for (k, v) in addons { hmp.insert(k, v) }]: the order of the map does not
    matter, an insertion replaces what was there. *)
Definition insert_addons (addons : gmap bytes bytes) (r : Record_) : Record_ :=
  let p := default Payload_new (data r) in set_data (set_fields (addons ∪ fields p) p) r.

Definition to_record_with_add_on (now : Z) (self : DetectOneTaskEvent.t) (addons : gmap bytes bytes) : Record_ :=
  insert_fields ([("error"%string, DetectOneTaskEvent.error self); ("token"%string, DetectOneTaskEvent.token self)]
      ++ hit_data to_json (DetectOneTaskEvent.matched_data self))
    (insert_addons addons (event_record 6003 now (DetectOneTaskEvent.fields self))).

#[export] Instance RegReport_record : ToAgentRecord RegReport := {|
  to_record now self :=
    event_record 6010 now [("version"%string, db_version self); ("exe_hash"%string, db_sha256 self)];
  to_record_token now self token :=
    event_record 6010 now [("version"%string, db_version self); ("exe_hash"%string, db_sha256 self);
      ("token"%string, token)];
|}.

#[export] Instance FulllScanFinished_record : ToAgentRecord FulllScanFinished := {|
  to_record now _ := event_record 6000 now [("data"%string, bs "FullScan Finished")];
  to_record_token now _ token :=
    event_record 6000 now [("token"%string, token); ("data"%string, bs "FullScan Finished")];
|}.
End records.

(** ** The laws of the trait *)

Lemma insert_field_comm k v k' v' r :
  k <> k' -> insert_field k v (insert_field k' v' r) = insert_field k' v' (insert_field k v r).
Proof.
  intros Hk. unfold insert_field, set_data, set_fields. simpl. do 3 f_equal. by apply insert_insert_ne.
Qed.

Lemma insert_field_twice k v v' r : insert_field k v (insert_field k v' r) = insert_field k v r.
Proof.
  unfold insert_field, set_data, set_fields. simpl. do 3 f_equal. by apply insert_insert_eq.
Qed.

Lemma insert_fields_after k v kvs r :
  forallb (fun kv => negb (bool_decide (bs kv.1 = k))) kvs = true ->
  insert_fields kvs (insert_field k v r) = insert_field k v (insert_fields kvs r).
Proof.
  unfold insert_fields. revert r. induction kvs as [|kv kvs IH]; intros r Hk; [done|].
  cbn [forallb foldl] in *. apply andb_true_iff in Hk as [Hn Hk].
  rewrite <- IH by done. f_equal. apply insert_field_comm.
  intros E. by rewrite (bool_decide_true _ E) in Hn.
Qed.

(** A field inserted on the way is a field inserted last, unless it is set again. *)
Lemma event_record_middle dt now pre post k v :
  forallb (fun kv => negb (bool_decide (bs kv.1 = bs k))) post = true ->
  event_record dt now (pre ++ [(k, v)] ++ post) = insert_field (bs k) v (event_record dt now (pre ++ post)).
Proof.
  intros Hk. unfold event_record. rewrite <- !insert_fields_app. by apply insert_fields_after.
Qed.

Lemma event_record_again dt now pre post k v v' :
  forallb (fun kv => negb (bool_decide (bs kv.1 = bs k))) post = true ->
  event_record dt now (pre ++ [(k, v)] ++ post)
  = insert_field (bs k) v (event_record dt now (pre ++ [(k, v')] ++ post)).
Proof.
  intros Hk. rewrite !event_record_middle by done. by rewrite insert_field_twice.
Qed.

Lemma event_record_stamped dt now kvs :
  kvs <> [] ->
  data_type (event_record dt now kvs) = dt /\ timestamp (event_record dt now kvs) = now
  /\ exists p, data (event_record dt now kvs) = Some p.
Proof.
  intros Hne. unfold event_record, set_timestamp, set_data_type, Record_new.
  cbn [data_type data rec_unknown_fields]. rewrite insert_fields_new by done. cbn. eauto.
Qed.

Lemma hit_data_no_token to_json md :
  forallb (fun kv => negb (bool_decide (bs kv.1 = bs "token"))) (hit_data to_json md) = true.
Proof. by destruct md. Qed.

Section laws.
Variable to_json : list bytes -> bytes.

#[local] Ltac agent_laws lem dt :=
  refine {| record_type := fun _ => dt |};
  [intros now e t; cbn [to_record to_record_token]; apply lem; apply hit_data_no_token
  |intros now e; by apply event_record_stamped].

#[export] Instance DetectFileEvent_laws : @ToAgentLaws _ (DetectFileEvent_record to_json).
Proof. agent_laws event_record_middle 6001%Z. Qed.

#[export] Instance DetectProcEvent_laws : @ToAgentLaws _ (DetectProcEvent_record to_json).
Proof. agent_laws event_record_middle 6002%Z. Qed.

#[export] Instance AntiRansomEvent_laws : @ToAgentLaws _ (AntiRansomEvent_record to_json).
Proof.
  refine {| record_type := fun _ => 6005%Z |}.
  - intros now e t. cbn [to_record to_record_token]. apply event_record_middle. by destruct (AntiRansomEvent.matched_data e).
  - intros now e. by apply event_record_stamped.
Qed.

#[export] Instance DetectOneTaskEvent_laws : @ToAgentLaws _ (DetectOneTaskEvent_record to_json).
Proof.
  refine {| record_type := fun _ => 6003%Z |}.
  - intros now e t. cbn [to_record to_record_token].
    exact (event_record_again 6003 now (DetectOneTaskEvent.fields e ++ [("error"%string, DetectOneTaskEvent.error e)])
      _ "token"%string t (DetectOneTaskEvent.token e) (hit_data_no_token to_json (DetectOneTaskEvent.matched_data e))).
  - intros now e. by apply event_record_stamped.
Qed.

#[export] Instance RegReport_laws : ToAgentLaws RegReport.
Proof.
  refine {| record_type := fun _ => 6010%Z |}.
  - intros now e t. done.
  - intros now e. by apply event_record_stamped.
Qed.

#[export] Instance FulllScanFinished_laws : ToAgentLaws FulllScanFinished.
Proof.
  refine {| record_type := fun _ => 6000%Z |}.
  - intros now e t. cbn [to_record to_record_token].
    by apply (event_record_middle 6000 now [] [("data"%string, bs "FullScan Finished")] "token"%string t).
  - intros now e. by apply event_record_stamped.
Qed.
End laws.

(** ** The path filter *)

Definition SCAN_DIR_FILTER : list bytes := map bs
  ["/root/.debug"; "/root/.vscode"; "/root/.bash_history";
   "/usr/bin/killall"; "/usr/bin/virt"; "/usr/bin/upx"; "/usr/bin/fim"; "/usr/bin/nc"; "/usr/bin/inputattach";
   "/usr/bin/clamdscan"; "/usr/bin/clamconf"; "/usr/bin/sigtool"; "/usr/bin/clamdtop"; "/usr/bin/clamsubmit";
   "/usr/bin/clambc"; "/usr/bin/clamscan"; "/usr/sbin/clamd"; "/usr/sbin/clamonacc";
   "/bin/nc"; "/bin/netcat"; "/bin/upx"; "/bin/inputattach";
   "/etc/alternatives/upx"; "/etc/alternatives/nc"; "/etc/alternatives/netcat"; "/etc/dictionaries-common/words";
   "/dev"; "/boot"; "/sys"; "/usr/src"]%string.

Record ScanConfig := mkScanConfig { fpath : bytes; max_depth : nat }.
Definition SCAN_DIR_CONFIG : list ScanConfig :=
  [mkScanConfig (bs "/root") 3; mkScanConfig (bs "/bin") 2; mkScanConfig (bs "/sbin") 2;
   mkScanConfig (bs "/usr/bin") 2; mkScanConfig (bs "/usr/sbin") 2; mkScanConfig (bs "/usr/local") 3;
   mkScanConfig (bs "/lib/systemd/system") 1; mkScanConfig (bs "/etc") 2; mkScanConfig (bs "/var/www/") 20].

(** The [HashSet]. *)
Definition Filter : Type := gset bytes.

(** [Filter::new]; [agent_path] is the parent of the current directory. *)
Definition Filter_new (agent_path : option bytes) : Filter :=
  foldl (fun set each => {[each]} ∪ set)
    (match agent_path with Some p => {[from_utf8_lossy p]} | None => ∅ end) SCAN_DIR_FILTER.

Definition Filter_add (k : bytes) (set : Filter) : Filter := {[k]} ∪ set.

(** [catch]: [order] is the order in which the set is iterated. *)
Fixpoint catch_loop (order : list bytes) (c : bytes) : Z :=
  match order with
  | [] => 0
  | each :: order' =>
      if starts_with c each then
        if length (split_on "/" each) <? length (split_on "/" c) then 2 else 1
      else catch_loop order' c
  end.
Definition catch_ (order : list bytes) (k : bytes) : Z := catch_loop order (from_utf8_lossy k).

Lemma count_zero (b : byte) l : length (filter (.= b) l) = 0 <-> b ∉ l.
Proof.
  induction l as [|c l IH]; [set_solver|]. rewrite filter_cons.
  case_decide as Hc; [subst; cbn; set_solver|]. rewrite IH. set_solver.
Qed.

Lemma catch_loop_spec order c :
  (catch_loop order c = 0%Z /\ (forall e, e ∈ order -> starts_with c e = false))
  \/ exists e, e ∈ order /\ starts_with c e = true
     /\ catch_loop order c = if length (split_on "/" e) <? length (split_on "/" c) then 2%Z else 1%Z.
Proof.
  induction order as [|e order IH]; [left; set_solver|]. cbn [catch_loop].
  destruct (starts_with c e) eqn:E; [right; exists e; set_solver|].
  destruct IH as [[-> IH]|(x & Hx & Hs & ->)]; [left; set_solver|right; exists x; set_solver].
Qed.

(** Whatever order the set is iterated in, [catch] is 0 exactly for the
    paths that no entry is a prefix of as a string (so "/dev" also catches
    "/developer"); otherwise it is 2 when the entry it met has fewer components
    than the path, and 1 when it has as many. *)
Theorem catch_spec set order k :
  (forall e, e ∈ order <-> e ∈ set) ->
  (catch_ order k = 0%Z <-> (forall e, e ∈ (set : Filter) -> ~ exists rest, from_utf8_lossy k = e ++ rest))
  /\ (catch_ order k <> 0%Z ->
      exists e rest, e ∈ set /\ from_utf8_lossy k = e ++ rest
        /\ catch_ order k = if bool_decide ("/"%byte ∈ rest) then 2%Z else 1%Z).
Proof.
  intros Ho. unfold catch_. set (c := from_utf8_lossy k).
  destruct (catch_loop_spec order c) as [[E Hn]|(e & He & Hs & E)]; rewrite E.
  - split; [|done]. split; [|done]. intros _ e He Hr. apply starts_with_spec in Hr.
    rewrite Hn in Hr; [done|by apply Ho].
  - pose proof Hs as [rest Hc]%starts_with_spec. split.
    + split; [destruct (_ <? _); done|]. intros Hall. exfalso. apply (Hall e); [by apply Ho|by exists rest].
    + intros _. exists e, rest. split; [by apply Ho|]. split; [done|].
      rewrite Hc, !length_split_on, filter_app, length_app. case_bool_decide as Hr.
      * rewrite (proj2 (Nat.ltb_lt _ _)); [done|]. cut (length (filter (.= "/"%byte) rest) <> 0); [lia|].
        rewrite count_zero. tauto.
      * rewrite (proj2 (Nat.ltb_ge _ _)); [done|]. apply count_zero in Hr. lia.
Qed.

Lemma catch_spec_witness :
  (forall e, e ∈ elements (Filter_new (Some (bs "/etc/elkeid"))) <-> e ∈ Filter_new (Some (bs "/etc/elkeid")))
  /\ ((catch_ (elements (Filter_new (Some (bs "/etc/elkeid")))) (bs "/developer/a") = 0%Z
       <-> (forall e, e ∈ Filter_new (Some (bs "/etc/elkeid")) ->
            ~ exists rest, from_utf8_lossy (bs "/developer/a") = e ++ rest))
  /\ (catch_ (elements (Filter_new (Some (bs "/etc/elkeid")))) (bs "/developer/a") <> 0%Z ->
      exists e rest, e ∈ Filter_new (Some (bs "/etc/elkeid")) /\ from_utf8_lossy (bs "/developer/a") = e ++ rest
        /\ catch_ (elements (Filter_new (Some (bs "/etc/elkeid")))) (bs "/developer/a")
           = if bool_decide ("/"%byte ∈ rest) then 2%Z else 1%Z)).
Proof.
  split; [intros e; apply elem_of_elements|].
  apply (catch_spec (Filter_new (Some (bs "/etc/elkeid"))) (elements (Filter_new (Some (bs "/etc/elkeid")))) (bs "/developer/a")).
  intros e. apply elem_of_elements.
Defined.

(** A directory that only starts like "/dev" is caught. *)
Example developer_caught : catch_ (elements (Filter_new None)) (bs "/developer/a") = 2%Z.
Proof. by vm_compute. Qed.
