(* ===== verification/Updater.v ===== *)
(** * The signature database of the scanner ([model/engine/clamav/updater.rs])

    [DBManager] downloads an archive of signatures, extracts it and checks its
    version and hash.  The disk is the two directories it works on: [tmp], with
    the archives, and [dat], with what was extracted; [None] is a directory that
    does not exist.  The network answers what [Net] says during a call.  [sha2],
    [hex] and [zip] are parameters. *)

From S2P Require Import Prelude Bytes RustStd.

Record DBManager := mkDBManager {
  version : bytes; dbname : bytes; url : list bytes; sha256 : bytes; passwd : bytes;
}.

Record Disk := mkDisk { tmp : option (gmap bytes bytes); dat : option (gmap bytes bytes) }.

(** A response of [reqwest]: whether its status is a success, and its body unless
    reading it fails. *)
Record response := mkResponse { ok_status : bool; body : option bytes }.
Record Net := mkNet { http : bytes -> option response; can_create : bool; can_write : bool }.

(** What the [zip] crate makes of an archive and a password: nothing if it is no
    archive, else its entries in order; an entry that cannot be decrypted is
    [None], one without a usable name has no name. *)
Definition Unzip : Type := bytes -> bytes -> option (list (option (option bytes * bytes))).

Definition DB_URLS : list bytes := map (fun host => bs host ++ bs "/obj/elkeid-download/18249e0cbe7c6aca231f047cb31d753fa4604434fcb79f484ea477f6009303c3/archive_db_default_20220607")
  ["http://lf26-elkeid.bytetos.com"; "http://lf3-elkeid.bytetos.com"; "http://lf6-elkeid.bytetos.com"; "http://lf9-elkeid.bytetos.com"]%string.
Definition ARCHIVE_DB_VERSION_FILE : bytes := bs "version".
Definition ARCHIVE_DB_PWD : bytes := bs "clamav_default_passwd".
Definition ARCHIVE_DB_HASH : bytes := bs "025e0fdde3865ab89e1261df747806bbb8841e89318a8ff5e7c252ce24fd64fb".
Definition ARCHIVE_DB_VERSION : bytes := bs "20220607".

(** [url.split('/').last()] *)
Definition last_segment (u : bytes) : bytes := List.last (split_on "/" u) [].
Definition zip_name (n : bytes) : bytes := n ++ bs ".zip".

(** [DBManager::new]: an index out of range panics. *)
Definition DBManager_new (version sha256 passwd : bytes) (urls : list bytes) : outcome DBManager :=
  match urls with
  | u :: _ => Ret (mkDBManager version (last_segment u) urls sha256 passwd)
  | [] => Panic
  end.

Section updater.
Variable sha256_digest : bytes -> bytes.
Variable hex : bytes -> bytes.
Variable hex_decode : bytes -> option bytes.
Variable unzip : Unzip.

(** The loop of [extract]: the entries before a bad one are written. *)
Fixpoint extract_entries (es : list (option (option bytes * bytes))) (d : option (gmap bytes bytes))
    : bool * option (gmap bytes bytes) :=
  match es with
  | [] => (true, d)
  | None :: _ => (false, d)
  | Some (None, _) :: es' => extract_entries es' d
  | Some (Some n, c) :: es' => extract_entries es' (Some (<[n := c]> (default ∅ d)))
  end.

(** [extract(tmp/<name>.zip, dat, passwd)] *)
Definition extract (name passwd : bytes) : SM Disk unit := fun s =>
  match tmp s ≫= (.!! zip_name name) with
  | None => (Fail IoError, s)
  | Some archive =>
      match unzip archive passwd with
      | None => (Fail IoError, s)
      | Some es =>
          let (done, d) := extract_entries es (dat s) in
          (if done : bool then Ret tt else Fail IoError, mkDisk (tmp s) d)
      end
  end.

Definition remove_dat : SM Disk unit := sm_modify (fun s => mkDisk (tmp s) None).
Definition remove_tmp : SM Disk unit := sm_modify (fun s => mkDisk None (dat s)).

(** [std::fs::read_to_string(dat/version)] *)
Definition read_version : SM Disk bytes := fun s =>
  match dat s ≫= (.!! ARCHIVE_DB_VERSION_FILE) with
  | Some v => (if utf8_valid v then Ret v else Fail IoError, s)
  | None => (Fail IoError, s)
  end.

(** [get_file_sha256]: empty when the file cannot be read. *)
Definition get_file_sha256 (name : bytes) (s : Disk) : bytes :=
  match tmp s ≫= (.!! zip_name name) with
  | Some c => hex (sha256_digest c)
  | None => []
  end.

Definition load (self : DBManager) : SM Disk unit :=
  remove_dat ;;
  extract (dbname self) (passwd self) ;;
  v ← read_version;
  if bool_decide (trim v <> version self) then sm_fail IoError
  else
    sum ← sm_gets (get_file_sha256 (dbname self));
    if bool_decide (sum <> sha256 self) then sm_fail IoError else mret tt.

(** One URL of [download]: the archive, if the network serves it with a signature
    that is its digest. *)
Definition fetch (net : Net) (host : bytes) : option bytes :=
  match http net (zip_name host), http net (host ++ bs ".sign") with
  | Some db, Some sign =>
      if ok_status db && ok_status sign then
        match body db, body sign with
        | Some content, Some text =>
            if bool_decide (sha256_digest content = default [] (hex_decode (trim text)))
            then Some content else None
        | _, _ => None
        end
      else None
  | _, _ => None
  end.

Fixpoint download_loop (net : Net) (np : bytes) (urls : list bytes) : SM Disk unit :=
  match urls with
  | [] => sm_fail IoError
  | host :: urls' =>
      match fetch net host with
      | Some content =>
          if can_write net
          then sm_modify (fun s => mkDisk (Some (<[np := content]> (default ∅ (tmp s)))) (dat s))
          else sm_fail IoError
      | None => download_loop net np urls'
      end
  end.

Definition download (net : Net) (urls : list bytes) : SM Disk unit :=
  match urls with
  | [] => sm_fail IoError
  | first :: _ => fun s =>
      match tmp s with
      | Some _ => download_loop net (zip_name (last_segment first)) urls s
      | None =>
          if can_create net
          then download_loop net (zip_name (last_segment first)) urls (mkDisk (Some ∅) (dat s))
          else (Fail IoError, s)
      end
  end.

Definition get (net : Net) (self : DBManager) : SM Disk unit := fun s =>
  match load self s with
  | (Ret _, s) => (Ret tt, s)
  | (_, s) =>
      (remove_tmp ;; download net (url self) ;; remove_dat ;; extract (dbname self) (passwd self)) s
  end.

(** [update]: it also gives the manager back; [dbname] keeps its value. *)
Definition update (net : Net) (self : DBManager) (version' sha256sum passwd' : bytes) (urls : list bytes)
    : Disk -> (outcome unit * DBManager) * Disk := fun s =>
  if bool_decide (version' = version self) && bool_decide (sha256sum = sha256 self)
  then ((Ret tt, self), s)
  else
    match (remove_tmp ;; download net urls ;; remove_dat ;; extract (dbname self) (passwd self)) s with
    | (Ret _, s) => ((Ret tt, mkDBManager version' (dbname self) urls sha256sum passwd'), s)
    | (err, s) => ((err, self), s)
    end.
End updater.

(** ** What a load and a download establish *)

Section facts.
Variable sha256_digest : bytes -> bytes.
Variable hex : bytes -> bytes.
Variable hex_decode : bytes -> option bytes.
Variable unzip : Unzip.
Let load := load sha256_digest hex unzip.
Let download := download sha256_digest hex_decode.
Let fetch := fetch sha256_digest hex_decode.
Let update := update sha256_digest hex_decode unzip.

(** The files of [db] are those of an archive with the hash and the version the
    manager expects, opened with its password. *)
Definition verified (m : DBManager) (s : Disk) (db : gmap bytes bytes) : Prop :=
  exists archive es v,
    tmp s ≫= (.!! zip_name (dbname m)) = Some archive /\ hex (sha256_digest archive) = sha256 m
    /\ unzip archive (passwd m) = Some es /\ extract_entries es None = (true, Some db)
    /\ db !! ARCHIVE_DB_VERSION_FILE = Some v /\ trim v = version m.

Lemma load_ok m s s' :
  load m s = (Ret tt, s') -> tmp s' = tmp s /\ exists db, dat s' = Some db /\ verified m s' db.
Proof.
  unfold load, Updater.load, remove_dat, extract, read_version, mbind at 1 2 3 4, SM_bind, sm_modify, sm_gets, sm_fail, mret, SM_ret.
  cbn [tmp dat]. destruct (tmp s ≫= (.!! zip_name (dbname m))) as [archive|] eqn:Ea; [|done].
  destruct (unzip archive (passwd m)) as [es|] eqn:Eu; [|done].
  destruct (extract_entries es None) as [[] d] eqn:Ee; [|done]. cbn [tmp dat].
  destruct d as [db|]; cbn [mbind option_bind]; [|done].
  destruct (db !! ARCHIVE_DB_VERSION_FILE) as [v|] eqn:Ev; [|done]. destruct (utf8_valid v); [|done].
  case_bool_decide as Hv; [done|]. cbn [get_file_sha256 tmp]. unfold get_file_sha256. cbn [tmp]. rewrite Ea.
  case_bool_decide as Hs; [done|]. intros [= <-]. split; [done|]. exists db. split; [done|].
  exists archive, es, v. cbn [tmp]. split_and!; first [assumption | by apply dec_stable].
Qed.

Lemma download_loop_fetched net np urls s s' :
  download_loop sha256_digest hex_decode net np urls s = (Ret tt, s') ->
  exists host content, host ∈ urls /\ fetch net host = Some content
    /\ s' = mkDisk (Some (<[np := content]> (default ∅ (tmp s)))) (dat s).
Proof.
  induction urls as [|host urls IH]; [done|]. cbn [download_loop]. fold (fetch net host).
  destruct (fetch net host) as [content|] eqn:Ef.
  - destruct (can_write net); [|done]. intros [= <-]. exists host, content. set_solver.
  - intros (h & c & Hh & Hf & ->)%IH. exists h, c. set_solver.
Qed.

Lemma download_loop_tmp net np urls s :
  tmp (snd (download_loop sha256_digest hex_decode net np urls s)) = tmp s
  \/ exists content, tmp (snd (download_loop sha256_digest hex_decode net np urls s))
       = Some (<[np := content]> (default ∅ (tmp s))).
Proof.
  induction urls as [|host urls IH]; [by left|]. cbn [download_loop].
  destruct (Updater.fetch _ _ net host) as [content|]; [|done]. destruct (can_write net); [|by left].
  right. by exists content.
Qed.

(** Without its archive a manager cannot load. *)
Lemma load_no_archive m s :
  tmp s ≫= (.!! zip_name (dbname m)) = None -> fst (load m s) = Fail IoError.
Proof.
  intros E. unfold load, Updater.load, remove_dat, extract, mbind at 1 2, SM_bind, sm_modify. cbn [tmp dat]. by rewrite E.
Qed.

(** After [remove_tmp] and [download] from [u :: urls], an archive of another
    name than that of [u] is not there. *)
Lemma download_other_name net m u urls s :
  last_segment u <> dbname m ->
  tmp (snd ((remove_tmp ;; download net (u :: urls)) s)) ≫= (.!! zip_name (dbname m)) = None.
Proof.
  intros Hn. unfold remove_tmp, mbind at 2, SM_bind, sm_modify, download, Updater.download. cbn [tmp dat].
  destruct (can_create net); [|done].
  destruct (download_loop_tmp net (zip_name (last_segment u)) (u :: urls) (mkDisk (Some ∅) (dat s)))
    as [->|[content ->]]; simpl; [apply lookup_empty|].
  rewrite lookup_insert_ne; [apply lookup_empty|]. unfold zip_name. intros E. by apply app_inv_tail in E.
Qed.

Lemma download_no_panic net urls s : fst (download net urls s) <> Panic.
Proof.
  assert (Hl : forall np us s, fst (download_loop sha256_digest hex_decode net np us s) <> Panic).
  { induction us as [|h us IH]; intros s0; [done|]. cbn [download_loop].
    destruct (Updater.fetch _ _ net h); [|done]. by destruct (can_write net). }
  unfold download, Updater.download. destruct urls; [done|]. destruct (tmp s); [done|]. by destruct (can_create net).
Qed.
End facts.

(** An update that changes the database extracts the new archive with the old
    password. *)
Lemma update_old_password sha256_digest hex_decode unzip net m version' sha' passwd' urls s m' s' :
  version' <> version m \/ sha' <> sha256 m ->
  update sha256_digest hex_decode unzip net m version' sha' passwd' urls s = ((Ret tt, m'), s') ->
  exists archive es, tmp s' ≫= (.!! zip_name (dbname m)) = Some archive /\ unzip archive (passwd m) = Some es.
Proof.
  intros Hd. unfold update.
  replace (bool_decide (version' = version m) && bool_decide (sha' = sha256 m)) with false
    by (symmetry; apply andb_false_iff; destruct Hd; [left|right]; by apply bool_decide_false).
  unfold remove_tmp, mbind at 1 2 3, SM_bind, sm_modify.
  destruct (download _ _ net urls _) as [[[]|e|] s1]; [|done..].
  unfold remove_dat, extract, sm_modify. cbn [tmp dat].
  destruct (tmp s1 ≫= (.!! zip_name (dbname m))) as [archive|] eqn:Ea; [|done]. destruct (unzip archive (passwd m)) as [es|] eqn:Eu; [|done].
  destruct (extract_entries es None) as [[] d]; [|done]. intros [= _ <-]. cbn [tmp]. eauto.
Qed.

(** ** Properties *)

Section properties.
Variable sha256_digest : bytes -> bytes.
Variable hex : bytes -> bytes.
Variable hex_decode : bytes -> option bytes.
Variable unzip : Unzip.

(** A load that succeeds leaves in [dat] exactly the files of the archive in
    [tmp], whose SHA-256 is the one the manager expects and whose version file
    names the version it expects; the archive itself is left alone. *)
Theorem load_verified m s s' :
  load sha256_digest hex unzip m s = (Ret tt, s') ->
  tmp s' = tmp s /\ exists db, dat s' = Some db /\ verified sha256_digest hex unzip m s' db.
Proof. apply load_ok. Qed.

(** An update whose archive has another name than the one in use cannot
    succeed and leaves nothing to go back to: the old archive is removed, the new
    one is looked for under the old name, and from then on every load fails. *)
Theorem update_other_name_breaks net m version' sha' passwd' u urls s :
  last_segment u <> dbname m -> version' <> version m \/ sha' <> sha256 m ->
  exists e s', update sha256_digest hex_decode unzip net m version' sha' passwd' (u :: urls) s = ((Fail e, m), s')
    /\ fst (load sha256_digest hex unzip m s') = Fail IoError.
Proof.
  intros Hn Hd. unfold update.
  replace (bool_decide (version' = version m) && bool_decide (sha' = sha256 m)) with false
    by (symmetry; apply andb_false_iff; destruct Hd; [left|right]; by apply bool_decide_false).
  pose proof (download_other_name sha256_digest hex_decode net m u urls s Hn) as Ht.
  unfold remove_tmp, mbind at 2, SM_bind, sm_modify in Ht. unfold remove_tmp, mbind at 1 2 3, SM_bind, sm_modify.
  pose proof (download_no_panic sha256_digest hex_decode net (u :: urls) (mkDisk None (dat s))) as Hp.
  destruct (download _ _ net (u :: urls) _) as [[[]|e|] s1]; [|eauto using load_no_archive|done].
  cbn [snd] in Ht. unfold remove_dat, extract, sm_modify. cbn [tmp dat]. rewrite Ht.
  exists IoError. eexists. split; [done|]. by apply load_no_archive.
Qed.
End properties.

(** ** The properties on a concrete archive *)

(** A toy digest and a toy archive: one entry, the file "version", whose content
    is the archive itself; every password opens it. *)
Definition sample_unzip : Unzip := fun archive _ => Some [Some (Some ARCHIVE_DB_VERSION_FILE, archive)].
Definition sample_manager : DBManager :=
  mkDBManager (bs "7") (bs "db") [bs "http://h/db"] (bs "7") (bs "pw").
Definition sample_disk : Disk := mkDisk (Some (<[bs "db.zip" := bs "7"]> ∅)) None.

Lemma load_verified_witness :
  exists s', load id id sample_unzip sample_manager sample_disk = (Ret tt, s')
  /\ tmp s' = tmp sample_disk /\ exists db, dat s' = Some db /\ verified id id sample_unzip sample_manager s' db.
Proof.
  eexists. split; [reflexivity|]. apply (load_verified id id sample_unzip sample_manager sample_disk). reflexivity.
Defined.

Definition sample_net : Net := mkNet (fun _ => Some (mkResponse true (Some (bs "8")))) true true.

Lemma update_other_name_breaks_witness :
  exists e s', update id Some sample_unzip sample_net sample_manager (bs "8") (bs "8") (bs "pw") [bs "http://h/db_8"] sample_disk
      = ((Fail e, sample_manager), s')
    /\ fst (load id id sample_unzip sample_manager s') = Fail IoError.
Proof.
  apply (update_other_name_breaks id id Some sample_unzip sample_net sample_manager (bs "8") (bs "8") (bs "pw")
    (bs "http://h/db_8") [] sample_disk); [by vm_compute|left; by vm_compute].
Defined.

(** The same update under the old name succeeds, and what it installed loads. *)
Example update_same_name :
  let '((r, m), s) := update id Some sample_unzip sample_net sample_manager (bs "8") (bs "8") (bs "pw") [bs "http://h/db"] sample_disk in
  r = Ret tt /\ fst (load id id sample_unzip m s) = Ret tt.
Proof. vm_compute. split; reflexivity. Qed.
