(* ===== verification/Detector.v ===== *)
(** * The detector of the scanner ([plugins/scanner/src/detector.rs], [lib.rs])

    Two threads: one receives tasks from the agent and puts scan jobs on a bounded
    queue; the other takes jobs and rule updates, scans and reports.  A scan job
    needs an engine, which is built from the database that [Updater] loads.
    What the file system, /proc and the engine answer while a message is handled
    is its [Host]; [serde_json] and the digests are parameters.  A full-disk scan
    is the records its jobs send. *)

From S2P Require Import Prelude Bytes RustStd Encoder Bridge WireInst Client ScanEvents Updater.

Record DetectTask := mkDetectTask {
  task_type : bytes; t_pid : Z; path : bytes; rpath : bytes; t_size : Z; btime : Z; mtime : Z;
  t_token : bytes; add_ons : option (gmap bytes bytes);
}.

(** ** Hashes of files *)

(** An open file: its length unless [metadata] fails, and what successive reads
    give; [None] is a read error, an empty read the end. *)
Record File := mkFile { file_len : option Z; reads : list (option bytes) }.

Fixpoint read_all (rs : list (option bytes)) (acc : bytes) : option bytes :=
  match rs with
  | [] | Some [] :: _ => Some acc
  | Some c :: rs' => read_all rs' (acc ++ c)
  | None :: _ => None
  end.

(** [file.take(limit).read_to_end] *)
Fixpoint read_take (limit : nat) (rs : list (option bytes)) (acc : bytes) : option bytes :=
  match limit, rs with
  | O, _ | _, [] | _, Some [] :: _ => Some acc
  | _, Some c :: rs' => read_take (limit - length c) rs' (acc ++ take limit c)
  | _, None :: _ => None
  end.

Section hashes.
Variable md5_hex : bytes -> bytes.
Variable xxh64_hex : Z -> bytes -> bytes.

Definition get_file_md5 (f : option File) : bytes :=
  match f with
  | None => []
  | Some f => match read_all (reads f) [] with Some c => md5_hex c | None => [] end
  end.
(** The same without the pauses between reads. *)
Definition get_file_md5_fast (f : option File) : bytes := get_file_md5 f.

Definition get_file_xhash (f : option File) : bytes :=
  match f with
  | None => bs "-3"
  | Some f =>
      match file_len f with
      | None => bs "-3"
      | Some n =>
          match read_take (32 * 1024) (reads f) [] with
          | Some buffer => xxh64_hex n buffer
          | None => bs "-3"
          end
      end
  end.
End hashes.

(** ** Scanning *)

(** [splitn(n, sep)] *)
Definition splitn (n : nat) (sep : byte) (s : bytes) : list bytes :=
  let l := split_on sep s in
  if length l <=? n then l else take (n - 1) l ++ [join sep (drop (n - 1) l)].

Definition not_detected : bytes := bs "not_detected".

(** The name of a rule, taken apart: type, class and name. *)
Definition rule_parts (result : bytes) : bytes * bytes * bytes :=
  let res :=
    if starts_with result (bs "YARA.")
    then splitn 3 "_" (trim_end_matches (bs ".UNOFFICIAL") (trim_start_matches (bs "YARA.") result))
    else splitn 3 "." (trim_end_matches (bs ".UNOFFICIAL") result) in
  match res with
  | [ftype; class; name] => (ftype, class, name)
  | _ => ([], [], result)
  end.

(** A web shell found in a file of another language is no detection. *)
Definition misplaced (ftype class fpath : bytes) : bool :=
  (starts_with ftype (bs "Php") && starts_with class (bs "Webshell") && negb (ends_with fpath (bs ".php")))
  || (starts_with ftype (bs "Jsp") && starts_with class (bs "Webshell") && negb (ends_with fpath (bs ".jsp"))).

Record Scan := mkScan {
  ftype : bytes; fclass : bytes; fname : bytes; xhash : bytes; md5sum : bytes; matched : option (list bytes);
}.

(** What a message meets. *)
Record Host (Engine : Type) := mkHost {
  now : Z;
  scan_file : Engine -> bytes -> option (bytes * option (list bytes));
  open_file : bytes -> option File;
  metadata : bytes -> (Z * Z * Z) + bytes;     (** length, creation and change time, or the error *)
  proc : Z -> option Process;
  net : Net;
  full_scan : list Record_;
}.
Arguments now {Engine}. Arguments scan_file {Engine}. Arguments open_file {Engine}.
Arguments metadata {Engine}. Arguments proc {Engine}. Arguments net {Engine}. Arguments full_scan {Engine}.

(** The third-party code the detector calls, the same for every message. *)
Record Crates (Engine : Type) := mkCrates {
  md5_hex : bytes -> bytes;
  xxh64_hex : Z -> bytes -> bytes;
  to_json : list bytes -> bytes;
  sha256_digest : bytes -> bytes;
  hex : bytes -> bytes;
  hex_decode : bytes -> option bytes;
  unzip : Unzip;
  parse_rules : bytes -> option DBManager;
  parse_map : bytes -> option (gmap bytes bytes);
  new_engine : option (gmap bytes bytes) -> option Engine;
}.
Arguments md5_hex {Engine}. Arguments xxh64_hex {Engine}. Arguments to_json {Engine}.
Arguments sha256_digest {Engine}. Arguments hex {Engine}. Arguments hex_decode {Engine}. Arguments unzip {Engine}.
Arguments parse_rules {Engine}. Arguments parse_map {Engine}. Arguments new_engine {Engine}.

Section scan.
Context {Engine : Type} (C : Crates Engine) (h : Host Engine).

Definition scan_with (md5 : option File -> bytes) (e : Engine) (fpath : bytes) : option Scan :=
  match scan_file h e fpath with
  | None => None
  | Some (result, matched_data) =>
      let x := get_file_xhash (xxh64_hex C) (open_file h fpath) in
      let md5sum := md5 (open_file h fpath) in
      if bool_decide (result = bs "OK") then Some (mkScan not_detected [] [] x md5sum None)
      else
        let '(t, c, n) := rule_parts result in
        if misplaced t c fpath then Some (mkScan not_detected [] [] x md5sum matched_data)
        else Some (mkScan t c n x md5sum matched_data)
  end.
Definition scan : Engine -> bytes -> option Scan := scan_with (get_file_md5 (md5_hex C)).
Definition scan_fast : Engine -> bytes -> option Scan := scan_with (get_file_md5_fast (md5_hex C)).
End scan.

(** ** The worker *)

Record Detector (Engine : Type) := mkDetector {
  d_client : Client;
  scanner : option Engine;
  db_manager : DBManager;
  disk : Disk;
  supper_mode : bool;
  cgroups : list (Z * Z);      (** the limits set so far, the last one first *)
  s_locker : bool;             (** the main thread was told to exit *)
}.
Arguments mkDetector {Engine}. Arguments d_client {Engine}. Arguments scanner {Engine}.
Arguments db_manager {Engine}. Arguments disk {Engine}. Arguments supper_mode {Engine}.
Arguments cgroups {Engine}. Arguments s_locker {Engine}.

(** How the handling of a message ends: the loop goes on, or [work] returns. *)
Inductive Flow := Continue | Return.

(** A message of [select!]; [None] is a disconnected channel. *)
Inductive Message := Rules (rdata : option bytes) | Job (task : option DetectTask) | Timeout.

Section work.
Context {Engine : Type} (C : Crates Engine) (h : Host Engine).
#[local] Instance file_record : ToAgentRecord DetectFileEvent.t := DetectFileEvent_record (to_json C).
#[local] Instance proc_record : ToAgentRecord DetectProcEvent.t := DetectProcEvent_record (to_json C).
#[local] Instance ransom_record : ToAgentRecord AntiRansomEvent.t := AntiRansomEvent_record (to_json C).
#[local] Instance one_task_record : ToAgentRecord DetectOneTaskEvent.t := DetectOneTaskEvent_record (to_json C).

Definition set_scanner (s : option Engine) (d : Detector Engine) : Detector Engine :=
  mkDetector (d_client d) s (db_manager d) (disk d) (supper_mode d) (cgroups d) (s_locker d).
Definition set_client (c : Client) (d : Detector Engine) : Detector Engine :=
  mkDetector c (scanner d) (db_manager d) (disk d) (supper_mode d) (cgroups d) (s_locker d).
Definition set_db (m : DBManager) (s : Disk) (d : Detector Engine) : Detector Engine :=
  mkDetector (d_client d) (scanner d) m s (supper_mode d) (cgroups d) (s_locker d).
Definition set_supper_mode (b : bool) (d : Detector Engine) : Detector Engine :=
  mkDetector (d_client d) (scanner d) (db_manager d) (disk d) b (cgroups d) (s_locker d).
Definition setup_cgroup (mem cpu : Z) (d : Detector Engine) : Detector Engine :=
  mkDetector (d_client d) (scanner d) (db_manager d) (disk d) (supper_mode d) ((mem, cpu) :: cgroups d) (s_locker d).

(** [work_s_locker.send(()).unwrap(); return] *)
Definition lock_and_return : SM (Detector Engine) Flow := fun d =>
  (Ret Return, mkDetector (d_client d) (scanner d) (db_manager d) (disk d) (supper_mode d) (cgroups d) true).

Section sending.
Context `{CodedOutputStream}.

(** [self.client.send_record(..)], whether it succeeded. *)
Definition try_send (r : Record_) : SM (Detector Engine) bool := fun d =>
  let (res, c) := send_record r (d_client d) in
  (Ret (match res with Ret _ => true | _ => false end), set_client c d).

Definition send_or_exit (r : Record_) : SM (Detector Engine) Flow :=
  sent ← try_send r;
  if sent : bool then mret Continue else lock_and_return.

(** [db_manager.load()] and [Scanner::new]: an error of either is told to the main
    thread.  Loading the signatures removes the directory. *)
Definition load_engine : SM (Detector Engine) bool := fun d =>
  let (res, s) := load (sha256_digest C) (hex C) (unzip C) (db_manager d) (disk d) in
  let d := set_db (db_manager d) s d in
  match res with
  | Ret _ =>
      match new_engine C (dat s) with
      | Some e => (Ret true, set_scanner (Some e) (set_db (db_manager d) (mkDisk (tmp s) None) d))
      | None => (Ret false, d)
      end
  | _ => (Ret false, d)
  end.

Definition update_db (dm : DBManager) : SM (Detector Engine) unit := fun d =>
  let '((_, m), s) := update (sha256_digest C) (hex_decode C) (unzip C) (net h)
    (db_manager d) (version dm) (sha256 dm) (passwd dm) (url dm) (disk d) in
  (Ret tt, set_db m s d).

(** The end of the rules arm. *)
Definition renew_scanner : SM (Detector Engine) Flow :=
  sm_modify (set_scanner None) ;;
  loaded ← load_engine;
  if loaded : bool then mret Continue else lock_and_return.

Definition rules_arm (rdata : option bytes) : SM (Detector Engine) Flow :=
  match rdata with
  | Some rdata =>
      match parse_rules C rdata with
      | None => mret Continue
      | Some dm =>
          update_db dm ;;
          flow ← send_or_exit (to_record (now h) (mkRegReport (version dm) (sha256 dm)));
          match flow with Continue => renew_scanner | Return => mret Return end
      end
  | None => renew_scanner
  end.

Definition file_event (t : DetectTask) (s : Scan) : DetectFileEvent.t :=
  DetectFileEvent.mk (ftype s) (fclass s) (fname s) (rpath t) (show_u64 (t_size t)) (xhash s) (md5sum s)
    (show_u64 (btime t)) (show_u64 (mtime t)) (matched s).

Definition proc_event (t : DetectTask) (s : Scan) : DetectProcEvent.t :=
  default DetectProcEvent.default_
    (DetectProcEvent.new (proc h) (t_pid t) (ftype s) (fclass s) (fname s) (rpath t) (xhash s) (md5sum s)
       (t_size t) (btime t) (mtime t) (matched s)).

Definition ransom_event (t : DetectTask) (s : Scan) : AntiRansomEvent.t :=
  default AntiRansomEvent.default_
    (AntiRansomEvent.new (proc h) (t_pid t) (ftype s) (bs "anti_ransom") (fname s) (path t) (xhash s) (md5sum s)
       (t_size t) (btime t) (mtime t) (rpath t) (t_token t) (matched s)).

Definition one_task_error (t : DetectTask) (e : bytes) : DetectOneTaskEvent.t :=
  DetectOneTaskEvent.mk [] [] [] (path t) [] [] [] [] [] e (t_token t) None.

Definition one_task_event (t : DetectTask) (len created changed : Z) (s : Scan) : DetectOneTaskEvent.t :=
  DetectOneTaskEvent.mk (ftype s) (fclass s) (fname s) (path t) (show_u64 len) (xhash s) (md5sum s)
    (show_u64 created) (show_u64 changed) [] (t_token t) (matched s).

(** The scan of the arms 6051, 6052 and 6054; [report] is what they send of it. *)
Definition scan_arm (t : DetectTask) (report : Scan -> option Record_) : SM (Detector Engine) Flow := fun d =>
  match scanner d ≫= fun e => scan C h e (path t) with
  | Some s => match report s with Some r => send_or_exit r d | None => (Ret Continue, d) end
  | None => (Ret Continue, d)
  end.

Definition if_detected (s : Scan) (r : Record_) : option Record_ :=
  if bool_decide (ftype s = not_detected) then None else Some r.

Definition one_task_arm (t : DetectTask) : SM (Detector Engine) Flow := fun d =>
  match metadata h (path t) with
  | inr e => (send_or_exit (to_record (now h) (one_task_error t e)) ;; mret Return) d
  | inl (len, created, changed) =>
      match scanner d ≫= fun e => scan C h e (path t) with
      | Some s =>
          let event := one_task_event t len created changed s in
          match add_ons t with
          | Some addons => send_or_exit (to_record_with_add_on (to_json C) (now h) event addons) d
          | None => send_or_exit (to_record (now h) event) d
          end
      | None => (Ret Continue, d)
      end
  end.

(** The jobs of a full scan send to the same pipe; a record that cannot be sent
    ends its job. *)
Fixpoint send_each (rs : list Record_) : SM (Detector Engine) unit :=
  match rs with
  | [] => mret tt
  | r :: rs' => try_send r ;; send_each rs'
  end.

Definition full_scan_arm (t : DetectTask) : SM (Detector Engine) Flow := fun d =>
  match scanner d with
  | Some _ =>
      (sm_modify (setup_cgroup (wrap_u32 (1024 * 1024 * wrap_u32 (t_size t))) (wrap_u32 (1000 * wrap_u32 (mtime t)))) ;;
       send_each (full_scan h) ;;
       sm_modify (set_scanner None) ;;
       try_send (to_record_token (now h) mkFulllScanFinished (t_token t)) ;;
       sm_modify (setup_cgroup (1024 * 1024 * 180) 10000) ;;
       mret Continue) d
  | None => (Ret Continue, d)
  end.

Definition task_arm (t : DetectTask) : SM (Detector Engine) Flow :=
  if bool_decide (task_type t = bs "6051")
  then scan_arm t (fun s => if_detected s (to_record (now h) (file_event t s)))
  else if bool_decide (task_type t = bs "6052")
  then scan_arm t (fun s => if_detected s (to_record (now h) (proc_event t s)))
  else if bool_decide (task_type t = bs "6053") then one_task_arm t
  else if bool_decide (task_type t = bs "6054")
  then scan_arm t (fun s => Some (to_record (now h) (ransom_event t s)))
  else if bool_decide (task_type t = bs "6055") then sm_modify (set_supper_mode true) ;; mret Continue
  else if bool_decide (task_type t = bs "6056") then sm_modify (set_supper_mode false) ;; mret Continue
  else if bool_decide (task_type t = bs "6057") then full_scan_arm t
  else mret Continue.

(** The engine is loaded before the message is looked at. *)
Definition job_arm (task : option DetectTask) : SM (Detector Engine) Flow :=
  loaded ← sm_gets (fun d => bool_decide (is_Some (scanner d)));
  ready ← (if loaded : bool then mret true else load_engine);
  if ready : bool then
    match task with Some t => task_arm t | None => sm_panic end
  else lock_and_return.

Definition work_step (m : Message) : SM (Detector Engine) Flow :=
  match m with
  | Rules rdata => rules_arm rdata
  | Job task => job_arm task
  | Timeout => sm_modify (set_scanner None) ;; mret Continue
  end.
End sending.
End work.

(** The thread calls [work] again when it returns; it is over when the main thread
    was told to exit. *)
Fixpoint work {Engine} (C : Crates Engine) `{CodedOutputStream} (ms : list (Host Engine * Message))
    : SM (Detector Engine) unit :=
  match ms with
  | [] => mret tt
  | (h, m) :: ms' => fun d =>
      if s_locker d then (Ret tt, d) else (work_step C h m ;; work C ms') d
  end.

(** ** The engine in use *)

Section engine.
Context {Engine : Type} (C : Crates Engine) `{CodedOutputStream}.

(** The engine was built from a database that passed [load]. *)
Definition engine_ok (d : Detector Engine) : Prop :=
  match scanner d with
  | Some e => exists m s db, verified (sha256_digest C) (hex C) (unzip C) m s db /\ new_engine C (Some db) = Some e
  | None => True
  end.

Definition engine_keeps {A} (m : SM (Detector Engine) A) : Prop := forall d, engine_ok d -> engine_ok (snd (m d)).

Lemma engine_keeps_bind {A B} (m : SM (Detector Engine) A) (k : A -> SM (Detector Engine) B) :
  engine_keeps m -> (forall a, engine_keeps (k a)) -> engine_keeps (m ≫= k).
Proof.
  intros Hm Hk d Hd. specialize (Hm d Hd). unfold mbind, SM_bind.
  destruct (m d) as [[a|e|] d']; [by apply Hk|done..].
Qed.

Lemma engine_keeps_same {A} (m : SM (Detector Engine) A) :
  (forall d, scanner (snd (m d)) = scanner d) -> engine_keeps m.
Proof. intros Hm d. unfold engine_ok. by rewrite Hm. Qed.

Lemma engine_keeps_ret {A} (a : A) : engine_keeps (mret a).
Proof. by apply engine_keeps_same. Qed.

Lemma engine_keeps_clear : engine_keeps (sm_modify (set_scanner None)).
Proof. done. Qed.

Lemma engine_keeps_try_send r : engine_keeps (try_send r).
Proof. apply engine_keeps_same. intros d. unfold try_send. by destruct (send_record r (d_client d)). Qed.

Lemma engine_keeps_lock : engine_keeps lock_and_return.
Proof. by apply engine_keeps_same. Qed.

Lemma engine_keeps_send_or_exit r : engine_keeps (send_or_exit r).
Proof. apply engine_keeps_bind; [apply engine_keeps_try_send|]. intros []; [apply engine_keeps_ret|apply engine_keeps_lock]. Qed.

Lemma engine_keeps_load_engine : engine_keeps (load_engine C).
Proof.
  intros d Hd. unfold load_engine.
  destruct (load _ _ _ (db_manager d) (disk d)) as [[[]|e|] s] eqn:El; [|exact Hd..].
  apply load_ok in El as (_ & db & -> & Hv). destruct (new_engine C (Some db)) as [e|] eqn:En; [|exact Hd].
  by exists (db_manager d), s, db.
Qed.

Lemma engine_keeps_update_db h dm : engine_keeps (update_db C h dm).
Proof. apply engine_keeps_same. intros d. unfold update_db. by destruct (update _ _ _ _ _ _ _ _ _ _) as [[? ?] ?]. Qed.

Lemma engine_keeps_send_each rs : engine_keeps (send_each rs).
Proof. induction rs as [|r rs IH]; [apply engine_keeps_ret|]. apply engine_keeps_bind; [apply engine_keeps_try_send|done]. Qed.
End engine.

Create HintDb engine_keeps.
#[export] Hint Resolve engine_keeps_ret engine_keeps_clear engine_keeps_try_send engine_keeps_lock engine_keeps_send_or_exit engine_keeps_load_engine
  engine_keeps_update_db engine_keeps_send_each : engine_keeps.

Section engine_steps.
Context {Engine : Type} (C : Crates Engine) (h : Host Engine) `{CodedOutputStream}.

Lemma engine_keeps_renew : engine_keeps C (renew_scanner C).
Proof.
  apply engine_keeps_bind; [apply engine_keeps_clear|intros _]. apply engine_keeps_bind; [apply engine_keeps_load_engine|].
  intros []; auto with engine_keeps.
Qed.

Lemma engine_keeps_rules rdata : engine_keeps C (rules_arm C h rdata).
Proof.
  unfold rules_arm. destruct rdata as [rdata|]; [|apply engine_keeps_renew].
  destruct (parse_rules C rdata) as [dm|]; [|apply engine_keeps_ret].
  apply engine_keeps_bind; [apply engine_keeps_update_db|intros _]. apply engine_keeps_bind; [apply engine_keeps_send_or_exit|].
  intros []; [apply engine_keeps_renew|apply engine_keeps_ret].
Qed.

Lemma engine_keeps_scan_arm t report : engine_keeps C (scan_arm C h t report).
Proof.
  intros d Hd. unfold scan_arm. destruct (scanner d ≫= _) as [s|]; [|done].
  destruct (report s); [by apply engine_keeps_send_or_exit|done].
Qed.

Lemma engine_keeps_one_task t : engine_keeps C (one_task_arm C h t).
Proof.
  intros d Hd. unfold one_task_arm. destruct (metadata h (path t)) as [[[len a] b]|e].
  - destruct (scanner d ≫= _) as [s|]; [|done]. destruct (add_ons t); by apply engine_keeps_send_or_exit.
  - apply (engine_keeps_bind C); [apply engine_keeps_send_or_exit|intros; apply engine_keeps_ret|done].
Qed.

Lemma engine_keeps_full_scan t : engine_keeps C (full_scan_arm h t).
Proof.
  intros d Hd. unfold full_scan_arm. destruct (scanner d); [|done]. revert d Hd.
  repeat (apply engine_keeps_bind; [first [by apply engine_keeps_same | auto with engine_keeps]|intros _]). apply engine_keeps_ret.
Qed.

Lemma engine_keeps_task t : engine_keeps C (task_arm C h t).
Proof.
  unfold task_arm. repeat case_bool_decide;
    auto using engine_keeps_scan_arm, engine_keeps_one_task, engine_keeps_full_scan with engine_keeps;
    (apply engine_keeps_bind; [by apply engine_keeps_same|intros _; apply engine_keeps_ret]).
Qed.

Lemma engine_keeps_step m : engine_keeps C (work_step C h m).
Proof.
  destruct m as [rdata|task|]; cbn [work_step]; [apply engine_keeps_rules| |].
  - unfold job_arm. apply engine_keeps_bind; [by apply engine_keeps_same|intros loaded].
    apply engine_keeps_bind; [destruct loaded; auto with engine_keeps|]. intros []; [|apply engine_keeps_lock].
    destruct task; [apply engine_keeps_task|by apply engine_keeps_same].
  - apply engine_keeps_bind; auto with engine_keeps.
Qed.
End engine_steps.

Lemma engine_keeps_work {Engine} (C : Crates Engine) `{CodedOutputStream} ms : engine_keeps C (work C ms).
Proof.
  induction ms as [|[h m] ms IH]; [apply engine_keeps_ret|]. intros d Hd. cbn [work].
  destruct (s_locker d); [done|]. apply (engine_keeps_bind C); [apply engine_keeps_step|done|done].
Qed.

(** ** What a job sends *)

Section jobs.
Context {Engine : Type} (C : Crates Engine) (h : Host Engine) `{CodedOutputLaws}.

(** The detector after records went through its pipe. *)
Definition piped (rs : list Record_) (d : Detector Engine) : Detector Engine :=
  set_client (mkClient (writer (d_client d) ++ concat (map (fun r => framed (Record_write r)) rs))
    true (reader (d_client d))) d.

Definition field (r : Record_) (k : bytes) : option bytes := data r ≫= fun p => fields p !! k.

Lemma send_or_exit_open r d :
  writer_open (d_client d) = true -> send_or_exit r d = (Ret Continue, piped [r] d).
Proof.
  intros Ho. unfold send_or_exit. etransitivity; [apply (sm_bind_ret _ _ _ true (piped [r] d))|done].
  unfold try_send. destruct d as [[w o rd] sc m ds su cg lk]. cbn in Ho. subst.
  unfold send_record, write_all, mbind, SM_bind. cbn [d_client writer_open writer reader].
  unfold piped, set_client, framed. cbn [map concat d_client writer reader scanner db_manager disk supper_mode cgroups s_locker].
  by rewrite app_nil_r, Record_size_write, <- app_assoc.
Qed.

Lemma piped_nil d : writer_open (d_client d) = true -> piped [] d = d.
Proof.
  destruct d as [[w o rd] sc m ds su cg lk]. cbn. intros ->. unfold piped, set_client. cbn. by rewrite app_nil_r.
Qed.

Lemma field_insert_eq k v r : field (insert_field k v r) k = Some v.
Proof. unfold field, insert_field. simpl. apply lookup_insert_eq. Qed.

Lemma field_insert_ne k k' v r : k <> k' -> field (insert_field k v r) k' = field r k'.
Proof.
  intros Hk. unfold field, insert_field. simpl. rewrite lookup_insert_ne by done.
  destruct (data r); [done|]. apply lookup_empty.
Qed.

Lemma field_insert_fields kvs r k v :
  field r k = Some v -> forallb (fun kv => negb (bool_decide (bs kv.1 = k))) kvs = true ->
  field (insert_fields kvs r) k = Some v.
Proof.
  unfold insert_fields. revert r. induction kvs as [|kv kvs IH]; intros r Hr Hk; [done|].
  cbn [forallb foldl] in *. apply andb_true_iff in Hk as [Hn Hk]. apply IH; [|done].
  rewrite field_insert_ne; [done|]. intros E. by rewrite (bool_decide_true _ E) in Hn.
Qed.

Lemma insert_fields_stamp kvs r :
  data_type (insert_fields kvs r) = data_type r /\ timestamp (insert_fields kvs r) = timestamp r.
Proof. unfold insert_fields. revert r. induction kvs as [|kv kvs IH]; intros r; [done|]. apply (IH (insert_field _ _ r)). Qed.

(** Every field is empty. *)
Definition blank (r : Record_) : Prop := forall k v, field r k = Some v -> v = [].

Lemma blank_insert_fields kvs r :
  blank r -> forallb (fun kv => bool_decide (kv.2 = [])) kvs = true -> blank (insert_fields kvs r).
Proof.
  unfold insert_fields. revert r. induction kvs as [|kv kvs IH]; intros r Hr Hk; [done|].
  cbn [forallb foldl] in *. apply andb_true_iff in Hk as [Hn%bool_decide_eq_true Hk]. apply IH; [|done].
  intros k v. destruct (decide (bs kv.1 = k)) as [<-|Hne].
  - rewrite field_insert_eq. by intros [= <-].
  - rewrite field_insert_ne by done. apply Hr.
Qed.

(** An answer to a one-time task: its type, its time and its token. *)
Definition answers (t : DetectTask) (r : Record_) : Prop :=
  data_type r = 6003%Z /\ timestamp r = now h /\ field r (bs "token") = Some (t_token t).

Lemma answers_suffix ev t base :
  DetectOneTaskEvent.token ev = t_token t -> data_type base = 6003%Z -> timestamp base = now h ->
  answers t (insert_fields
    ([("error"%string, DetectOneTaskEvent.error ev); ("token"%string, DetectOneTaskEvent.token ev)]
      ++ hit_data (to_json C) (DetectOneTaskEvent.matched_data ev)) base).
Proof.
  intros Et Hd Hs. destruct (insert_fields_stamp
    ([("error"%string, DetectOneTaskEvent.error ev); ("token"%string, DetectOneTaskEvent.token ev)]
      ++ hit_data (to_json C) (DetectOneTaskEvent.matched_data ev)) base) as [E1 E2].
  split; [by rewrite E1|]. split; [by rewrite E2|]. rewrite <- insert_fields_app.
  apply field_insert_fields; [|apply hit_data_no_token]. rewrite <- Et. apply field_insert_eq.
Qed.

Lemma one_task_answer ev t :
  DetectOneTaskEvent.token ev = t_token t ->
  answers t (@to_record _ (DetectOneTaskEvent_record (to_json C)) (now h) ev)
  /\ forall addons, answers t (to_record_with_add_on (to_json C) (now h) ev addons).
Proof.
  intros Et. cbn [to_record DetectOneTaskEvent_record]. unfold to_record_with_add_on, event_record.
  rewrite <- insert_fields_app.
  split; [|intros addons]; apply answers_suffix; first [done | apply insert_fields_stamp].
Qed.

Lemma answered_then (f : Flow -> Flow) r d t (P : Prop) :
  writer_open (d_client d) = true -> answers t r -> ~ P ->
  exists flow rs, (flow ← send_or_exit r; mret (f flow)) d = (Ret flow, piped rs d)
    /\ Forall (answers t) rs /\ length rs <= 1 /\ (rs = [] <-> P).
Proof.
  intros Ho Ha Hp. exists (f Continue), [r]. split; [|split; [by constructor|split; [cbn; lia|by split]]].
  etransitivity; [apply (sm_bind_ret _ _ _ Continue (piped [r] d)); by apply send_or_exit_open|done].
Qed.

Lemma answered r d t (P : Prop) :
  writer_open (d_client d) = true -> answers t r -> ~ P ->
  exists flow rs, send_or_exit r d = (Ret flow, piped rs d)
    /\ Forall (answers t) rs /\ length rs <= 1 /\ (rs = [] <-> P).
Proof.
  intros Ho Ha Hp. exists Continue, [r].
  split; [by apply send_or_exit_open|split; [by constructor|split; [cbn; lia|by split]]].
Qed.

(** A job that finds an engine goes straight to its arm. *)
Lemma job_with_engine t e d :
  scanner d = Some e -> work_step C h (Job (Some t)) d = task_arm C h t d.
Proof. intros Hs. unfold work_step, job_arm, mbind, SM_bind, sm_gets. by rewrite Hs. Qed.
End jobs.

(** ** Properties *)

Section properties.
Context {Engine : Type} (C : Crates Engine) `{CodedOutputLaws}.

(** Whatever messages the worker handles, the engine it scans with was built
    from files extracted from an archive whose SHA-256 and version are those its
    manager expected: no engine is ever built from an unchecked database. *)
Theorem engine_verified ms d e :
  scanner d = None -> scanner (snd (work C ms d)) = Some e ->
  exists m s db, verified (sha256_digest C) (hex C) (unzip C) m s db /\ new_engine C (Some db) = Some e.
Proof.
  intros Hn He. assert (Hd : engine_ok C d) by (unfold engine_ok; by rewrite Hn).
  pose proof (engine_keeps_work C ms d Hd) as Hw. unfold engine_ok in Hw. by rewrite He in Hw.
Qed.

(** A one-time task is answered at most once, with a record of type 6003 that
    carries its token; the only task that gets no answer is one whose path exists
    but cannot be scanned. *)
Theorem one_task_answers h d e t :
  task_type t = bs "6053" -> scanner d = Some e -> writer_open (d_client d) = true ->
  exists flow rs, work_step C h (Job (Some t)) d = (Ret flow, piped rs d)
    /\ Forall (answers h t) rs /\ length rs <= 1
    /\ (rs = [] <-> scan C h e (path t) = None /\ exists m, metadata h (path t) = inl m).
Proof.
  intros Ht Hs Ho. rewrite (job_with_engine C h t e d Hs). unfold task_arm. rewrite Ht.
  change (exists flow rs, one_task_arm C h t d = (Ret flow, piped rs d)
    /\ Forall (answers h t) rs /\ length rs <= 1
    /\ (rs = [] <-> scan C h e (path t) = None /\ exists m, metadata h (path t) = inl m)).
  unfold one_task_arm. rewrite Hs. cbn [mbind option_bind].
  destruct (metadata h (path t)) as [[[len a] b]|err].
  - destruct (scan C h e (path t)) as [s|] eqn:Es.
    + destruct (one_task_answer C h (one_task_event t len a b s) t eq_refl) as [H1 H2].
      destruct (add_ons t) as [addons|]; apply answered; auto; by intros [].
    + exists Continue, []. rewrite piped_nil by done. split_and!; [done|constructor|cbn; lia|]. split; eauto.
  - destruct (one_task_answer C h (one_task_error t err) t eq_refl) as [H1 _].
    apply (answered_then h (fun _ => Return)); auto. by intros (_ & m & ?).
Qed.

(** When the process of a detection is gone by the time it is reported, the
    detection is reported without a trace of what was found: every field of the
    record, the rule and the path included, is empty. *)
Theorem gone_process_reported_empty h d e t s :
  task_type t = bs "6052" -> scanner d = Some e -> writer_open (d_client d) = true ->
  scan C h e (path t) = Some s -> ftype s <> not_detected -> proc h (t_pid t) = None ->
  exists r, work_step C h (Job (Some t)) d = (Ret Continue, piped [r] d)
    /\ data_type r = 6002%Z /\ blank r.
Proof.
  intros Ht Hs Ho Hsc Hf Hp. rewrite (job_with_engine C h t e d Hs). unfold task_arm. rewrite Ht.
  exists (@to_record _ (DetectProcEvent_record (to_json C)) (now h) DetectProcEvent.default_).
  assert (Ep : proc_event h t s = DetectProcEvent.default_) by (unfold proc_event, DetectProcEvent.new; by rewrite Hp).
  rewrite <- Ep. split; [|rewrite Ep; split; [apply insert_fields_stamp|]].
  - transitivity (scan_arm C h t (fun s => if_detected s
      (@to_record _ (DetectProcEvent_record (to_json C)) (now h) (proc_event h t s))) d); [done|].
    unfold scan_arm. rewrite Hs. cbn [mbind option_bind]. rewrite Hsc. unfold if_detected.
    rewrite bool_decide_false by done. by apply send_or_exit_open.
  - apply blank_insert_fields; [done|]. by vm_compute.
Qed.
End properties.

(** ** The thread that receives tasks *)

Definition MAX_SCAN_ENGINES : Z := 4.
Definition MAX_SCAN_CPU_100 : Z := 4.
Definition MAX_SCAN_MEM_MB : Z := 2048.

(** The capacity of the channel, [bounded(256)]. *)
Definition QUEUE_CAP : nat := 256.

Record Receiver := mkReceiver {
  queue : list DetectTask;       (** the jobs not taken yet, the oldest first *)
  honeypot : bool;               (** [_arf_t] is [Some] *)
  rules_out : list bytes;        (** the rule updates handed to the worker *)
  r_cgroups : list (Z * Z);
  told_exit : bool;
}.

Section receiver.
Context {Engine : Type} (C : Crates Engine).

Definition set_queue (q : list DetectTask) (r : Receiver) : Receiver :=
  mkReceiver q (honeypot r) (rules_out r) (r_cgroups r) (told_exit r).
Definition set_honeypot (b : bool) (r : Receiver) : Receiver :=
  mkReceiver (queue r) b (rules_out r) (r_cgroups r) (told_exit r).

(** [task_sender.try_send(task)], whether it succeeded. *)
Definition try_push (t : DetectTask) (r : Receiver) : bool * Receiver :=
  if decide (length (queue r) < QUEUE_CAP) then (true, set_queue (queue r ++ [t]) r) else (false, r).

(** A number of the task's map; what cannot be parsed and 0 give the default. *)
Definition task_number (m : gmap bytes bytes) (k : bytes) (dflt : Z) : Z :=
  match m !! k with
  | Some v => let n := default 0%Z (parse_u32 v) in if (n =? 0)%Z then dflt else n
  | None => dflt
  end.

Definition one_time_task (t : Task) (exe : bytes) (m : gmap bytes bytes) : DetectTask :=
  mkDetectTask (bs "6053") 0 exe [] 0 0 0 (token t) (Some m).
Definition mode_task (ty : bytes) : DetectTask := mkDetectTask ty 0 [] [] 0 0 0 [] None.
Definition full_scan_task (ppid : Z) (t : Task) (m : gmap bytes bytes) : DetectTask :=
  mkDetectTask (bs "6057") ppid [] [] (task_number m (bs "mem") MAX_SCAN_MEM_MB)
    (task_number m (bs "worker") MAX_SCAN_ENGINES) (task_number m (bs "cpu") MAX_SCAN_CPU_100) (token t) None.

Definition handle_task (ppid : Z) (honeypot_ok worker_alive : bool) (t : Task) (r : Receiver) : Flow * Receiver :=
  let ty := task_data_type t in
  if bool_decide (ty = 6053%Z) then
    if decide (250 <= length (queue r)) then (Continue, r)
    else
      match parse_map C (task_data t) with
      | Some m =>
          match m !! bs "exe" with
          | Some exe =>
              if starts_with exe (bs "/") then (Continue, snd (try_push (one_time_task t exe m) r))
              else (Continue, r)
          | None => (Continue, r)
          end
      | None => (Continue, r)
      end
  else if bool_decide (ty = 6050%Z) then
    if worker_alive
    then (Continue, mkReceiver (queue r) (honeypot r) (rules_out r ++ [task_data t]) (r_cgroups r) (told_exit r))
    else (Return, mkReceiver (queue r) (honeypot r) (rules_out r) (r_cgroups r) true)
  else if bool_decide (ty = 6051%Z) then
    if honeypot r then (Continue, r) else (Continue, set_honeypot honeypot_ok r)
  else if bool_decide (ty = 6052%Z) then (Continue, set_honeypot false r)
  else if bool_decide (ty = 6054%Z) then (Continue, r)
  else if bool_decide (ty = 6055%Z) then (Continue, snd (try_push (mode_task (bs "6055")) r))
  else if bool_decide (ty = 6056%Z) then
    let (pushed, r) := try_push (mode_task (bs "6056")) r in
    if pushed : bool
    then (Continue, mkReceiver (queue r) (honeypot r) (rules_out r) ((1024 * 1024 * 180, 10000)%Z :: r_cgroups r) (told_exit r))
    else (Continue, r)
  else if bool_decide (ty = 6057%Z) then
    match parse_map C (task_data t) with
    | Some m => (Continue, snd (try_push (full_scan_task ppid t m) r))
    | None => (Continue, r)
    end
  else (Continue, r).

(** What happens to the receiver: a task arrives, the pipe fails, a scan job of the
    plugin itself (files 6051, processes 6052, honeypots 6054) queues a job when
    there is room, or the worker takes the oldest one. *)
Inductive recv_event :=
  Arrives (honeypot_ok worker_alive : bool) (t : Task) | PipeFails | Queues (t : DetectTask) | Taken.

Inductive recv_step (ppid : Z) : recv_event -> Receiver -> Receiver -> Prop :=
  | step_arrives hp alive t r :
      told_exit r = false -> recv_step ppid (Arrives hp alive t) r (snd (handle_task ppid hp alive t r))
  | step_fails r :
      told_exit r = false ->
      recv_step ppid PipeFails r (mkReceiver (queue r) (honeypot r) (rules_out r) (r_cgroups r) true)
  | step_queues t r :
      task_type t ∈ [bs "6051"; bs "6052"; bs "6054"] -> length (queue r) < QUEUE_CAP ->
      recv_step ppid (Queues t) r (set_queue (queue r ++ [t]) r)
  | step_taken r t q :
      queue r = t :: q -> recv_step ppid Taken r (set_queue q r).

Inductive recv_steps (ppid : Z) : list recv_event -> Receiver -> Receiver -> Prop :=
  | steps_nil r : recv_steps ppid [] r r
  | steps_cons e es r r' r'' :
      recv_step ppid e r r' -> recv_steps ppid es r' r'' -> recv_steps ppid (e :: es) r r''.

(** The jobs on the queue: their number and their shape. *)
Definition job_ok (t : DetectTask) : Prop :=
  (task_type t = bs "6053" -> starts_with (path t) (bs "/") = true /\ is_Some (add_ons t))
  /\ (task_type t = bs "6057" -> (0 < t_size t /\ 0 < btime t /\ 0 < mtime t)%Z).
Definition queue_ok (r : Receiver) : Prop := length (queue r) <= QUEUE_CAP /\ Forall job_ok (queue r).

Lemma try_push_ok t r : queue_ok r -> job_ok t -> queue_ok (snd (try_push t r)).
Proof.
  intros [Hl Hq] Ht. unfold try_push. case_decide; [|done]. split; cbn [queue set_queue snd].
  - rewrite length_app. cbn. lia.
  - apply Forall_app. auto.
Qed.

Lemma task_number_pos m k dflt : (0 < dflt)%Z -> (0 < task_number m k dflt)%Z.
Proof.
  intros Hd. unfold task_number. destruct (m !! k) as [v|]; [|done].
  destruct (parse_u32 v) as [n|] eqn:E; [|done]. simpl.
  assert (0 <= n)%Z by (by eapply parse_unsigned_bounds). destruct (Z.eqb_spec n 0); lia.
Qed.

Lemma handle_task_ok ppid hp alive t r : queue_ok r -> queue_ok (snd (handle_task ppid hp alive t r)).
Proof.
  intros Hr. unfold handle_task. repeat case_bool_decide; try exact Hr.
  - case_decide; [exact Hr|]. destruct (parse_map C (task_data t)) as [m|]; [|exact Hr].
    destruct (m !! bs "exe") as [exe|]; [|exact Hr]. destruct (starts_with exe (bs "/")) eqn:Es; [|exact Hr].
    apply try_push_ok; [done|]. split; [|by vm_compute]. intros _. split; [exact Es|]. by eexists.
  - by destruct alive.
  - by destruct (honeypot r).
  - apply try_push_ok; [done|]. split; by vm_compute.
  - pose proof (try_push_ok (mode_task (bs "6056")) r Hr) as Hp.
    destruct (try_push (mode_task (bs "6056")) r) as [[] r']; apply Hp; split; by vm_compute.
  - destruct (parse_map C (task_data t)) as [m|]; [|exact Hr]. apply try_push_ok; [done|].
    split; [by vm_compute|]. intros _. cbn [t_size btime mtime full_scan_task]. split_and!; by apply task_number_pos.
Qed.

Lemma recv_step_ok ppid e r r' : recv_step ppid e r r' -> queue_ok r -> queue_ok r'.
Proof.
  intros Hs [Hl Hq]. destruct Hs as [hp alive t r _|r _|t r Ht Hroom|r t q Eq]; [by apply handle_task_ok|done| |].
  - split; cbn [queue set_queue]; [rewrite length_app; cbn; lia|]. apply Forall_app. split; [done|].
    constructor; [|constructor]. split; intros E; rewrite E in Ht; apply (bool_decide_eq_true_2 _) in Ht; by vm_compute in Ht.
  - rewrite Eq in Hl, Hq. cbn in Hl. split; cbn [queue set_queue]; [lia|]. by apply Forall_cons in Hq as [_ ?].
Qed.

(** Over any interleaving of arriving tasks, jobs of the plugin itself and
    jobs taken, the queue never holds more than its 256 places, each one-time job
    on it names an absolute path and carries its task's fields, and each full
    scan has positive limits. *)
Theorem recv_queue_ok ppid es r r' :
  queue_ok r -> recv_steps ppid es r r' -> queue_ok r'.
Proof. intros Hr Hs. induction Hs as [|e es r r1 r2 H1 Hs IH]; [done|]. apply IH. by eapply recv_step_ok. Qed.
End receiver.

(** ** The properties on a concrete scanner *)

(** An engine is the database it was built from; a file whose path ends in "x" is
    infected. *)
Definition sample_crates : Crates (gmap bytes bytes) :=
  mkCrates _ id (fun _ b => b) (fun l => join_space l) id id Some sample_unzip (fun _ => None)
    (fun b => Some (<[bs "exe" := b]> ∅)) id.
Definition sample_host : Host (gmap bytes bytes) :=
  mkHost _ 100 (fun _ p => Some (if ends_with p (bs "x") then bs "Unix.Trojan.A" else bs "OK", None))
    (fun p => Some (mkFile (Some 3%Z) [Some p])) (fun _ => inl (3, 1, 2)%Z) (fun _ => None) sample_net [].
Definition sample_detector : Detector (gmap bytes bytes) :=
  mkDetector (mkClient [] true []) None sample_manager sample_disk false [] false.
Definition sample_job (ty p : string) : DetectTask :=
  mkDetectTask (bs ty) 7 (bs p) (bs p) 3 1 2 (bs "tok") None.

Lemma engine_verified_witness :
  exists e, scanner (snd (work sample_crates [(sample_host, Job (Some (sample_job "6055" "")))] sample_detector)) = Some e
  /\ exists m s db, verified id id sample_unzip m s db /\ new_engine sample_crates (Some db) = Some e.
Proof.
  eexists. split; [reflexivity|].
  apply (engine_verified sample_crates [(sample_host, Job (Some (sample_job "6055" "")))] sample_detector); reflexivity.
Defined.

(** The detector with its engine loaded. *)
Definition sample_ready : Detector (gmap bytes bytes) := set_scanner (Some ∅) sample_detector.

Lemma one_task_answers_witness :
  exists flow rs, work_step sample_crates sample_host (Job (Some (sample_job "6053" "/bin/x"))) sample_ready
      = (Ret flow, piped rs sample_ready)
    /\ Forall (answers sample_host (sample_job "6053" "/bin/x")) rs /\ length rs <= 1
    /\ (rs = [] <-> scan sample_crates sample_host ∅ (bs "/bin/x") = None
         /\ exists m, metadata sample_host (bs "/bin/x") = inl m).
Proof.
  refine (one_task_answers sample_crates sample_host sample_ready ∅ (sample_job "6053" "/bin/x") _ _ _); reflexivity.
Defined.

Lemma gone_process_reported_empty_witness :
  exists r, work_step sample_crates sample_host (Job (Some (sample_job "6052" "/bin/x"))) sample_ready
      = (Ret Continue, piped [r] sample_ready)
    /\ data_type r = 6002%Z /\ blank r.
Proof.
  refine (gone_process_reported_empty sample_crates sample_host sample_ready ∅ (sample_job "6052" "/bin/x")
    (mkScan (bs "Unix") (bs "Trojan") (bs "A") (bs "/bin/x") (bs "/bin/x") None) _ _ _ _ _ _);
    first [reflexivity | by vm_compute].
Defined.

Lemma recv_queue_ok_witness :
  queue_ok (set_queue [] (snd (handle_task sample_crates 1 true true (mkTask 6053 [] (bs "/bin/x") (bs "t") []) (mkReceiver [] false [] [] false)))).
Proof.
  refine (recv_queue_ok sample_crates 1 [Arrives true true (mkTask 6053 [] (bs "/bin/x") (bs "t") []); Taken]
    (mkReceiver [] false [] [] false) _ _ _).
  - split; [cbn; lia|constructor].
  - eapply steps_cons; [by apply step_arrives|]. eapply steps_cons; [|apply steps_nil].
    eapply step_taken. reflexivity.
Defined.
