(* ===== verification/ScanJobs.v ===== *)
(** * The scan jobs of the scanner ([plugins/scanner/src/model/functional]:
    cronjob.rs, fulldiskscan.rs)

    The periodic scans of directories and processes and the full-disk scan.  Each
    walks a directory tree or /proc, leaves out what the filter catches and what
    is not a file of a fitting size, and puts a task per file on the queue of a
    detector.  [walkdir] is an interface whose laws are what its documentation
    promises; an entry of a walk carries what [metadata] answers when it is looked
    at, and whether the queue still takes its task. *)

From S2P Require Import Prelude Bytes RustStd Encoder Bridge WireInst Client ScanEvents Updater Detector.

(** ** Files *)

(** [std::fs::Metadata]; the times are in nanoseconds since the epoch, [None] where
    the file system has none. *)
Record Meta := mkMeta { is_dir : bool; is_file : bool; m_len : Z; m_created : option Z; m_modified : option Z }.

(** [duration_since(UNIX_EPOCH)] fails for a time before the epoch. *)
Definition secs (t : option Z) : Z := match t with Some ns => if (0 <=? ns)%Z then (ns / 10 ^ 9)%Z else 0%Z | None => 0%Z end.
Definition get_file_btime (m : Meta) : Z * Z := (secs (m_created m), secs (m_modified m)).

Definition CLAMAV_MAX_FILESIZE : Z := 1024 * 1024 * 18.

(** ** [walkdir] *)

Record Entry := mkEntry {
  e_path : bytes;
  e_is_dir : bool;
  e_meta : option Meta;
  e_open : bool;
}.
(** [Some None] is an error of the walk. *)
Class WalkDir (W : Type) := {
  next : W -> option (option Entry) * W;
  skip_current_dir : W -> W;
}.

Definition in_directory (d p : bytes) : Prop := exists r, p = (if ends_with d (bs "/") then d else d ++ bs "/") ++ r.
(** The directory that was yielded last: the entry itself, or the one it is in. *)
Definition directory_of (e : Entry) : option bytes :=
  if e_is_dir e then Some (e_path e)
  else match reverse (split_on "/" (e_path e)) with
       | _ :: ((_ :: _) as up) => Some (join "/" (reverse up))
       | _ => None
       end.

(** A walk is finite; skipping leaves out entries of that directory only. *)
Class WalkLaws (W : Type) `{!WalkDir W} := {
  left_ : W -> list (option Entry);
  next_left w : match next w with
                | (None, _) => left_ w = []
                | (Some x, w') => left_ w = x :: left_ w'
                end;
  skip_left w e w' : next w = (Some (Some e), w') ->
    exists skipped, left_ w' = skipped ++ left_ (skip_current_dir w')
    /\ forall e', Some e' ∈ skipped -> exists d, directory_of e = Some d /\ in_directory d (e_path e');
}.

(** ** Walking *)

(** What a job does to the world. *)
Inductive Act := Send (t : DetectTask) | Lock | Sleep (seconds : Z).

Definition file_task (e : Entry) (size : Z) (bt : Z * Z) : DetectTask :=
  mkDetectTask (bs "6051") (-1) (from_utf8_lossy (e_path e)) (from_utf8_lossy (e_path e)) size bt.1 bt.2 [] None.

(** What the two walks differ in: the files they take and what sending does. *)
Record Job := mkJob {
  passes : Meta -> bool;
  fits : Z -> bool;
  sending : bool -> DetectTask -> list Act;
}.

(** A directory scan takes everything that is not a directory, waits after each
    task and tells the main thread when the queue is gone. *)
Definition dir_job : Job := mkJob
  (fun m => negb (is_dir m))
  (fun size => negb ((size <=? 1) || (CLAMAV_MAX_FILESIZE <? size)))%Z
  (fun open t => (if open then [Send t] else [Lock]) ++ [Sleep 20]).
(** A full scan takes regular files, larger ones too, and only logs. *)
Definition full_job : Job := mkJob is_file
  (fun size => negb ((size <=? 4) || (1024 * 1024 * 100 <? size)))%Z
  (fun open t => if open then [Send t] else []).

Section Walk.
Context {W : Type} `{!WalkDir W} (job : Job) (order : list bytes).

(** What is done for an entry the filter lets through. *)
Definition visit (e : Entry) : list Act :=
  match e_meta e with
  | Some m =>
      if passes job m then
        if fits job (m_len m) then sending job (e_open e) (file_task e (m_len m) (get_file_btime m)) else []
      else []
  | None => []
  end.

(** [order] is the order in which the filter's set is iterated.  The result is
    [None] when the fuel is used up. *)
Fixpoint walk (fuel : nat) (w : W) : option (list Act) :=
  match fuel with
  | 0 => None
  | S fuel =>
      match next w with
      | (None, _) | (Some None, _) => Some []
      | (Some (Some e), w) =>
          let filter_flag := catch_ order (e_path e) in
          if bool_decide (filter_flag = 1%Z) then walk fuel w
          else if bool_decide (filter_flag = 2%Z) then walk fuel (skip_current_dir w)
          else acts ← walk fuel w; Some (visit e ++ acts)
      end
  end.
End Walk.

(** ** The periodic scan of directories *)

Definition DAY : Z := 3600 * 24.
(** The pause after a directory that was finished at [now], the round having begun
    at [start]; [u64] subtraction wraps. *)
Definition dir_pause (start now : Z) : Z := DAY - wrap_u64 (now - start) mod DAY.

(** One round over [SCAN_DIR_CONFIG]: each directory with its walk and the time it is
    finished. *)
Section DirRound.
Context {W : Type} `{!WalkDir W} (order : list bytes) (fuel : nat) (start : Z).

Fixpoint dir_round (confs : list (W * Z)) : option (list Act) :=
  match confs with
  | [] => Some []
  | (w, now) :: confs =>
      acts ← walk dir_job order fuel w; rest ← dir_round confs;
      Some (acts ++ [Sleep (dir_pause start now)] ++ rest)
  end.
End DirRound.

(** ** The scans of processes *)

(** An entry of /proc: its name, the target of its [exe] link and what [metadata] says
    of that target; the queue. *)
Record ProcEntry := mkProcEntry {
  p_name : option bytes; p_exe : option bytes; p_meta : option Meta; p_open : bool }.

Definition exe_link (p : Z) : bytes := bs "/proc/" ++ show_i32 p ++ bs "/exe".
Definition proc_task (p : Z) (exe_real : bytes) (size : Z) (bt : Z * Z) : DetectTask :=
  mkDetectTask (bs "6052") p (exe_link p) exe_real size bt.1 bt.2 [] None.

Section ProcScan.
Context (fits : Z -> bool) (sending : bool -> DetectTask -> list Act) (order : list bytes).

Definition visit_process (e : ProcEntry) : list Act :=
  match p_name e ≫= fun n => parse_i32 (from_utf8_lossy n) with
  | None => []
  | Some p =>
      match p_exe e with
      | None => []
      | Some target =>
          let exe_real := from_utf8_lossy target in
          if bool_decide (catch_ order exe_real = 0%Z) then
            match p_meta e with
            | Some m =>
                if is_dir m then []
                else if fits (m_len m) then sending (p_open e) (proc_task p exe_real (m_len m) (get_file_btime m)) else []
            | None => []
            end
          else []
      end
  end.
Definition scan_processes (es : list ProcEntry) : list Act := concat (map visit_process es).
End ProcScan.

Definition HOUR : Z := 3600.
(** One round; [read_dir] of /proc is unwrapped. *)
Definition proc_round (order : list bytes) (start now : Z) (es : option (list ProcEntry)) : outcome (list Act) :=
  match es with
  | None => Panic
  | Some es =>
      Ret (scan_processes (fun size => negb ((size <=? 0) || (CLAMAV_MAX_FILESIZE <? size)))%Z
             (fun open t => (if open then [Send t] else [Lock]) ++ [Sleep 8]) order es
           ++ [Sleep (HOUR - wrap_u64 (now - start) mod HOUR)])
  end.

(** ** The full scan *)

(** Processes first, then the whole disk without /proc. *)
Definition full_scan_job {W} `{!WalkDir W} (filter : list bytes) (order : list bytes) (es : option (list ProcEntry))
    (fuel : nat) (w : W) : outcome (option (list Act)) :=
  match es with
  | None => Panic
  | Some es =>
      Ret (acts ← walk full_job order fuel w;
           Some (scan_processes (fits full_job) (sending full_job) filter es ++ acts))
  end.

(** A message of a worker: a task, the end of the queue, or the timeout. *)
Inductive WorkerMessage := WTask (t : DetectTask) | WClosed | WTimeout.

Section Workers.
Context {Engine : Type} (C : Crates Engine) `{CodedOutputStream} (engine : Engine).

Definition worker_record (h : Host Engine) (t : DetectTask) : option Record_ :=
  if bool_decide (task_type t = bs "6051") then
    s ← scan_fast C h engine (path t); if_detected s (to_record (ToAgentRecord := DetectFileEvent_record (to_json C)) (now h) (file_event t s))
  else if bool_decide (task_type t = bs "6052") then
    s ← scan_fast C h engine (path t); if_detected s (to_record (ToAgentRecord := DetectProcEvent_record (to_json C)) (now h) (proc_event h t s))
  else None.

(** [SuperDetector::work]: what a worker sends until it returns or its messages are
    over. *)
Fixpoint worker (ms : list (Host Engine * WorkerMessage)) : SM Client unit :=
  match ms with
  | [] => mret tt
  | (h, WTask t) :: ms =>
      match worker_record h t with
      | None => worker ms
      | Some r => fun c =>
          match send_record r c with
          | (Ret _, c) => worker ms c
          | (_, c) => (Ret tt, c)
          end
      end
  | (_, WClosed) :: _ | (_, WTimeout) :: _ => mret tt
  end.
End Workers.

(** ** What the filter's flags mean for a walk *)

Lemma app_slash_prefix (e rest d n : bytes) :
  e ++ rest = d ++ "/"%byte :: n -> "/"%byte ∈ rest -> ~ ("/"%byte ∈ n) -> exists d', d = e ++ d'.
Proof.
  revert d. induction e as [|x e IH]; intros d E Hr Hn; [by exists d|].
  destruct d as [|y d]; cbn in E; injection E as -> E.
  - exfalso. apply Hn. rewrite <- E. set_solver.
  - destruct (IH d E Hr Hn) as [d' ->]. by exists d'.
Qed.

(** A file lies in the directory of its entry. *)
Lemma directory_of_file e d :
  e_is_dir e = false -> directory_of e = Some d -> exists n, e_path e = d ++ "/"%byte :: n /\ ~ ("/"%byte ∈ n).
Proof.
  unfold directory_of. intros ->. destruct (reverse (split_on "/" (e_path e))) as [|n [|x up]] eqn:E; [done|done|]. intros [= <-].
  apply (f_equal reverse) in E. rewrite reverse_involutive in E. exists n. rewrite reverse_cons in E. split.
  - rewrite <- (join_split_on "/" (e_path e)), E. apply join_snoc. rewrite reverse_cons. by destruct (reverse up).
  - pose proof (split_on_fields "/" (e_path e)) as Hf. rewrite E, Forall_app in Hf. by destruct Hf as [_ [Hn _]%Forall_cons].
Qed.

Lemma in_directory_lossy d p : in_directory d p -> exists t, from_utf8_lossy p = from_utf8_lossy d ++ t.
Proof.
  intros [r ->]. destruct (ends_with d (bs "/")) eqn:E.
  - apply ends_with_spec in E as [d0 ->]. exists (from_utf8_lossy r). change (bs "/") with ["/"%byte]. rewrite <- app_assoc. cbn [app].
    by rewrite !from_utf8_lossy_slash, <- app_assoc.
  - exists ("/"%byte :: from_utf8_lossy r). rewrite <- app_assoc. change (bs "/" ++ r) with ("/"%byte :: r). apply from_utf8_lossy_slash.
Qed.

(** When the filter asks to skip the directory of an entry, it catches everything in
    that directory. *)
Lemma skipped_caught order e d p :
  catch_ order (e_path e) = 2%Z -> directory_of e = Some d -> in_directory d p -> catch_ order p <> 0%Z.
Proof.
  unfold catch_. intros Hc Hd [t Hp]%in_directory_lossy Hz.
  destruct (catch_loop_spec order (from_utf8_lossy (e_path e))) as [[E _]|(x & Hx & Hs & E)]; [by rewrite E in Hc|].
  destruct (catch_loop_spec order (from_utf8_lossy p)) as [[_ Hno]|(y & _ & _ & E')]; [|rewrite E' in Hz; by destruct (_ <? _)].
  specialize (Hno x Hx). rewrite E in Hc. apply starts_with_spec in Hs as [rest Hs].
  enough (Hin : exists d', from_utf8_lossy d = x ++ d').
  { destruct Hin as [d' Hd']. enough (starts_with (from_utf8_lossy p) x = true) by congruence.
    apply starts_with_spec. exists (d' ++ t). by rewrite Hp, Hd', <- app_assoc. }
  assert (Hrest : "/"%byte ∈ rest).
  { apply dec_stable. intros Hn. revert Hc. rewrite Hs, !length_split_on, filter_app, length_app.
    apply count_zero in Hn. rewrite Hn, Nat.add_0_r, Nat.ltb_irrefl. done. }
  destruct (e_is_dir e) eqn:Hdir.
  - unfold directory_of in Hd. rewrite Hdir in Hd. injection Hd as <-. by exists rest.
  - destruct (directory_of_file e d Hdir Hd) as (n & Hn & Hns). rewrite Hn, from_utf8_lossy_slash in Hs.
    by apply (app_slash_prefix x rest (from_utf8_lossy d) (from_utf8_lossy n)); [|done|apply from_utf8_lossy_noslash].
Qed.

(** ** Walks *)

Section Walks.
Context {W : Type} `{!WalkDir W} `{!WalkLaws W} (job : Job) (order : list bytes).

(** The entries the filter lets through, each visited. *)
Definition visits (es : list (option Entry)) : list Act :=
  concat (map (fun o => match o with
                        | Some e => if bool_decide (catch_ order (e_path e) = 0%Z) then visit job e else []
                        | None => []
                        end) es).
Lemma visits_app es es' : visits (es ++ es') = visits es ++ visits es'.
Proof. unfold visits. by rewrite map_app, concat_app. Qed.
Lemma visits_caught es : (forall e, Some e ∈ es -> catch_ order (e_path e) <> 0%Z) -> visits es = [].
Proof.
  induction es as [|[e|] es IH]; intros Hc; [done| |].
  - change (visits (Some e :: es)) with ((if bool_decide (catch_ order (e_path e) = 0%Z) then visit job e else []) ++ visits es).
    rewrite bool_decide_eq_false_2 by (apply Hc, list_elem_of_here). apply IH. intros e' He'. by apply Hc, list_elem_of_further.
  - apply IH. intros e' He'. by apply Hc, list_elem_of_further.
Qed.
Lemma catch_cases k : catch_ order k = 0%Z \/ catch_ order k = 1%Z \/ catch_ order k = 2%Z.
Proof. unfold catch_. destruct (catch_loop_spec order (from_utf8_lossy k)) as [[-> _]|(e & _ & _ & ->)]; [by left|]. destruct (_ <? _); auto. Qed.

(** One turn of the loop, on what is left of the walk. *)
Lemma walk_turn fuel w e w' :
  next w = (Some (Some e), w') ->
  exists skipped w2, left_ w' = skipped ++ left_ w2 /\ visits skipped = []
  /\ walk job order (S fuel) w =
       (acts ← walk job order fuel w2;
        Some ((if bool_decide (catch_ order (e_path e) = 0%Z) then visit job e else []) ++ acts)).
Proof.
  intros E. cbn [walk]. rewrite E. destruct (catch_cases (e_path e)) as [H1|[H1|H1]]; rewrite H1.
  - exists [], w'. done.
  - exists [], w'. split; [done|]. split; [done|]. rewrite bool_decide_eq_true_2 by done. cbn. by destruct (walk job order fuel w').
  - destruct (skip_left w e w' E) as (skipped & Hl & Hin). exists skipped, (skip_current_dir w'). split; [done|]. split.
    + apply visits_caught. intros e' He'. destruct (Hin e' He') as (d & Hd & Hp). by eapply skipped_caught.
    + cbn. by destruct (walk job order fuel (skip_current_dir w')).
Qed.

(** C12: skipping directories loses nothing: a walk without errors does exactly what
    visiting every entry that the filter lets through would do, in the same order,
    however the filter's set is iterated, and it ends. *)
Theorem walk_skips_nothing fuel w :
  Forall is_Some (left_ w) -> length (left_ w) < fuel -> walk job order fuel w = Some (visits (left_ w)).
Proof.
  revert w. induction fuel as [|fuel IH]; intros w Hall Hf; [lia|].
  pose proof (next_left w) as Hn. destruct (next w) as [[[e|]|] w'] eqn:E.
  - destruct (walk_turn fuel w e w' E) as (skipped & w2 & Hl & Hs & ->). rewrite Hn in *. apply Forall_cons in Hall as [_ Hall].
    rewrite Hl, Forall_app in Hall. cbn [length] in Hf. rewrite Hl, length_app in Hf.
    rewrite IH by (tauto || lia). cbn [mbind option_bind]. f_equal. rewrite Hl.
    change (visits (Some e :: skipped ++ left_ w2)) with ((if bool_decide (catch_ order (e_path e) = 0%Z) then visit job e else []) ++ visits (skipped ++ left_ w2)).
    by rewrite visits_app, Hs.
  - rewrite Hn in Hall. apply Forall_cons in Hall as [[? [=]] _].
  - cbn [walk]. by rewrite E, Hn.
Qed.

(** The first error of a walk ends it: nothing behind it is scanned, whatever
    there is, when the entries before it make the filter skip nothing. *)
Theorem walk_stops_at_error fuel w pre post :
  left_ w = map Some pre ++ None :: post -> Forall (fun e => catch_ order (e_path e) <> 2%Z) pre -> length pre < fuel ->
  walk job order fuel w = Some (visits (map Some pre)).
Proof.
  intros Hl Hpre. revert w fuel Hl. induction Hpre as [|e pre He Hpre IH]; intros w fuel Hl Hf; (destruct fuel as [|fuel]; [cbn in Hf; lia|]).
  - cbn [walk]. pose proof (next_left w) as Hn. destruct (next w) as [[[e|]|] w']; rewrite Hl in Hn; cbn in Hn; [congruence|done|congruence].
  - pose proof (next_left w) as Hn. cbn [walk]. destruct (next w) as [[[e'|]|] w']; rewrite Hl in Hn; cbn in Hn; [|congruence..].
    injection Hn as <- Hn. specialize (IH w' fuel (eq_sym Hn)). cbn [length] in Hf.
    change (visits (map Some (e :: pre))) with ((if bool_decide (catch_ order (e_path e) = 0%Z) then visit job e else []) ++ visits (map Some pre)).
    rewrite IH by lia. destruct (catch_cases (e_path e)) as [H1|[H1|H1]]; rewrite H1 in *; done.
Qed.
End Walks.

(** ** The pace of the periodic scan *)

(** The directories were finished at [nows], each after the pause of the one before. *)
Definition paced (start : Z) (nows : list Z) : Prop :=
  (forall now, now ∈ nows -> start <= now < 2 ^ 64)%Z
  /\ forall i a b, nows !! i = Some a -> nows !! S i = Some b -> (a + dir_pause start a <= b)%Z.

Lemma dir_pause_next start now k :
  (0 <= start <= now)%Z -> (now < 2 ^ 64)%Z -> (start + k * DAY <= now)%Z -> (start + (k + 1) * DAY <= now + dir_pause start now)%Z.
Proof.
  intros H1 H2 H3. unfold dir_pause, wrap_u64, DAY in *. rewrite (Z.mod_small _ (2 ^ 64)) by lia.
  pose proof (Z.div_mod (now - start) (3600 * 24) ltac:(lia)) as Hd.
  pose proof (Z.mod_pos_bound (now - start) (3600 * 24) ltac:(lia)).
  assert (k <= (now - start) / (3600 * 24))%Z by (apply Z.div_le_lower_bound; lia). lia.
Qed.

(** The pause of a day is taken after every directory, not after every round:
    the directory at position [i] is done with no earlier than [i + 1] days after the
    round began, and a round over [SCAN_DIR_CONFIG] takes at least nine days. *)
Theorem a_day_per_directory start nows :
  (0 <= start)%Z -> paced start nows ->
  (forall i now, nows !! i = Some now -> (start + (Z.of_nat i + 1) * DAY <= now + dir_pause start now)%Z)
  /\ (length nows = length SCAN_DIR_CONFIG ->
      exists now, last nows = Some now /\ (start + 9 * DAY <= now + dir_pause start now)%Z).
Proof.
  intros Hs [Hb Hp].
  assert (Hi : forall i now, nows !! i = Some now -> (start + (Z.of_nat i + 1) * DAY <= now + dir_pause start now)%Z).
  { induction i as [|i IH]; intros now Hn; pose proof (Hb now (list_elem_of_lookup_2 _ _ _ Hn)).
    - apply dir_pause_next; lia.
    - destruct (lookup_lt_is_Some_2 nows i) as [a Ha]; [apply lookup_lt_Some in Hn; lia|].
      specialize (IH a Ha). specialize (Hp i a now Ha Hn). apply dir_pause_next; lia. }
  split; [done|]. intros Hl. change (length SCAN_DIR_CONFIG) with 9 in Hl.
  destruct (lookup_lt_is_Some_2 nows 8) as [now Hn]; [lia|]. exists now. split; [by rewrite last_lookup, Hl|].
  exact (Hi 8 now Hn).
Qed.

(** ** The workers of a full scan *)

Section Full.
Context {Engine : Type} (C : Crates Engine) `{CodedOutputLaws} (engine : Engine).
#[local] Abbreviation record_of := (fun x => worker_record C engine x.1 x.2).

Definition sent (rs : list Record_) (c : Client) : Client :=
  mkClient (writer c ++ concat (map (fun r => framed (Record_write r)) rs)) (writer_open c) (reader c).

Lemma send_record_open r c : writer_open c = true -> send_record r c = (Ret tt, sent [r] c).
Proof.
  intros Ho. destruct c as [w o rd]. cbn in Ho. subst. unfold send_record, write_all, mbind, SM_bind, sent, framed. cbn.
  by rewrite app_nil_r, Record_size_write, <- app_assoc.
Qed.

Lemma worker_tasks (ms : list (Host Engine * DetectTask)) rest c :
  writer_open c = true ->
  worker C engine (map (fun x => (x.1, WTask x.2)) ms ++ rest) c = worker C engine rest (sent (omap record_of ms) c).
Proof.
  revert c. induction ms as [|[h t] ms IH]; intros c Ho; cbn [map app].
  { unfold sent. cbn. rewrite app_nil_r. by destruct c. }
  cbn [worker omap list_omap fst snd]. destruct (worker_record C engine h t) as [r|]; [|by apply IH].
  rewrite send_record_open by done. rewrite IH by done. f_equal. unfold sent. cbn. by rewrite app_nil_r, <- app_assoc.
Qed.

(** However the tasks of a full scan are divided among its workers, each task is
    scanned once and each detection reported once: a worker on an open pipe sends the
    reports of its tasks in order, then ends with the queue, and the reports of all
    workers are those of the tasks. *)
Theorem full_scan_reports (parts : list (list (Host Engine * DetectTask))) tasks :
  concat parts ≡ₚ tasks ->
  (forall ms h c, ms ∈ parts -> writer_open c = true ->
     worker C engine (map (fun x => (x.1, WTask x.2)) ms ++ [(h, WClosed)]) c = (Ret tt, sent (omap record_of ms) c))
  /\ concat (map (omap record_of) parts) ≡ₚ omap record_of tasks.
Proof.
  intros Hp. split.
  - intros ms h c _ Ho. by rewrite worker_tasks.
  - rewrite <- Hp. clear Hp. induction parts as [|ms parts IH]; [done|]. cbn [map concat]. by rewrite omap_app, IH.
Qed.
End Full.

(** ** A walk over a list of entries *)

Definition Listing : Type := option Entry * list (option Entry).
#[global] Instance in_directory_dec d p : Decision (in_directory d p).
Proof.
  refine (cast_if (decide (starts_with p (if ends_with d (bs "/") then d else d ++ bs "/") = true)));
    rewrite starts_with_spec in *; done.
Defined.
Definition skipped_by (d : option bytes) (o : option Entry) : Prop :=
  match o, d with Some e', Some d => in_directory d (e_path e') | _, _ => False end.
#[global] Instance skipped_by_dec d o : Decision (skipped_by d o).
Proof. destruct o, d; apply _. Defined.
Fixpoint drop_skipped (d : option bytes) (es : list (option Entry)) : list (option Entry) :=
  match es with [] => [] | o :: es' => if decide (skipped_by d o) then drop_skipped d es' else es end.
#[global] Instance listing_walk : WalkDir Listing := {|
  next w := match w.2 with [] => (None, w) | o :: es => (Some o, (o, es)) end;
  skip_current_dir w := (w.1, drop_skipped (w.1 ≫= directory_of) w.2) |}.
#[global] Program Instance listing_laws : WalkLaws Listing := {| left_ w := w.2 |}.
Next Obligation. intros [l [|o es]]; done. Qed.
Next Obligation.
  intros [l [|o es]] e w' E; [done|]. injection E as -> <-. cbn. generalize (directory_of e). intros d.
  assert (Hno : forall e' : Entry, Some e' ∈ [] -> exists d', d = Some d' /\ in_directory d' (e_path e')) by (intros ? Hi; by apply not_elem_of_nil in Hi).
  induction es as [|o es (sk & IH & Hin)]; cbn; [by exists []|]. case_decide as Hd; [|by exists []].
  exists (o :: sk). split; [by rewrite IH at 1|]. intros e' [He|He]%elem_of_cons; [|by apply Hin].
  subst o. destruct d as [d|]; [by exists d|done].
Qed.

(** A directory with an entry the filter knows, one it does not and one that cannot be
    read. *)
Definition test_meta : Meta := mkMeta false true 100 (Some (5 * 10 ^ 9)%Z) None.
Definition test_file (p : string) : Entry := mkEntry (bs p) false (Some test_meta) true.
Definition test_dir (p : string) : Entry := mkEntry (bs p) true (Some (mkMeta true false 4096 None None)) true.
Definition test_order : list bytes := elements (Filter_new None).
Definition test_walk : Listing := (None, map Some
  [test_dir "/usr"; test_dir "/usr/src"; test_dir "/usr/src/linux"; test_file "/usr/src/linux/a.c"; test_file "/usr/x"]).

Lemma walk_skips_nothing_witness :
  walk dir_job test_order 9 test_walk = Some (visits dir_job test_order (left_ test_walk))
  /\ walk dir_job test_order 9 test_walk = Some [Send (mkDetectTask (bs "6051") (-1) (bs "/usr/x") (bs "/usr/x") 100 5 0 [] None); Sleep 20].
Proof.
  split; [|vm_compute; reflexivity].
  refine (walk_skips_nothing dir_job test_order 9 test_walk _ _); [by repeat constructor|cbn; lia].
Defined.

Definition broken_walk : Listing := (None, [Some (test_dir "/usr"); None; Some (test_file "/usr/x")]).
Lemma walk_stops_at_error_witness :
  walk dir_job test_order 9 broken_walk = Some (visits dir_job test_order [Some (test_dir "/usr")]).
Proof.
  refine (walk_stops_at_error dir_job test_order 9 broken_walk [test_dir "/usr"] [Some (test_file "/usr/x")] _ _ _);
    [reflexivity| |cbn; lia]. constructor; [vm_compute; discriminate|constructor].
Defined.

Definition test_nows : list Z := map (fun i => 1000 + Z.of_nat i * DAY + 5)%Z (seq 0 9).
Lemma a_day_per_directory_witness :
  (forall i now, test_nows !! i = Some now -> (1000 + (Z.of_nat i + 1) * DAY <= now + dir_pause 1000 now)%Z)
  /\ (length test_nows = length SCAN_DIR_CONFIG ->
      exists now, last test_nows = Some now /\ (1000 + 9 * DAY <= now + dir_pause 1000 now)%Z).
Proof.
  refine (a_day_per_directory 1000 test_nows _ _); [lia|]. split.
  - intros now Hn. apply list_elem_of_fmap in Hn as (i & -> & Hi). apply elem_of_seq in Hi. unfold DAY. lia.
  - intros i a b Ha Hb. do 9 (destruct i as [|i]; [vm_compute in Ha, Hb; try discriminate; injection Ha as <-; injection Hb as <-; vm_compute; discriminate|]).
    vm_compute in Ha. discriminate.
Defined.

(** Two workers share the tasks of a file and a process. *)
Definition test_tasks : list (Host (gmap bytes bytes) * DetectTask) :=
  [(sample_host, sample_job "6051" "/bin/x"); (sample_host, sample_job "6052" "/proc/7/exe")].
Lemma full_scan_reports_witness :
  (forall ms h c, ms ∈ map (fun t => [t]) test_tasks -> writer_open c = true ->
     worker sample_crates ∅ (map (fun x => (x.1, WTask x.2)) ms ++ [(h, WClosed)]) c
     = (Ret tt, sent (omap (fun x => worker_record sample_crates ∅ x.1 x.2) ms) c))
  /\ concat (map (omap (fun x => worker_record sample_crates ∅ x.1 x.2)) (map (fun t => [t]) test_tasks))
     ≡ₚ omap (fun x => worker_record sample_crates ∅ x.1 x.2) (reverse test_tasks).
Proof. refine (full_scan_reports sample_crates ∅ (map (fun t => [t]) test_tasks) (reverse test_tasks) _). by rewrite reverse_Permutation. Defined.
