(* ===== verification/Clamav.v ===== *)
(** * The scan engine ([plugins/scanner/src/model/engine/clamav/mod.rs])

    The wrapper around libclamav: building an engine, scanning a file or a buffer,
    and the handles, which share one engine of the library by counting references.
    The library is a parameter: the codes it returns and what a scan finds.  What
    it allocates is kept in the state: the references to the engine and the
    contexts for the hits of YARA rules, which the wrapper must free. *)

From S2P Require Import Prelude Bytes RustStd.

(** ** The library *)

Definition CL_SUCCESS : Z := 0.
Definition CL_VIRUS : Z := 1.
Definition CL_SCAN_PARSE_ELF : Z := 2.
Definition CL_ENGINE_MAX_SCANSIZE : Z := 0.
Definition CL_ENGINE_MAX_FILESIZE : Z := 1.
Definition CL_ENGINE_DISABLE_CACHE : Z := 24.
Definition CL_ENGINE_MAX_SCANTIME : Z := 30.
Definition CL_ENGINE_PCRE_MATCH_LIMIT : Z := 31.
Definition CL_ENGINE_PCRE_RECMATCH_LIMIT : Z := 32.

(** [CL_SCAN_GENERAL_YARAHIT] belongs to a later version of the library's header than
    the bindings that are kept with the sources. *)
Class LibClamav := {
  CL_SCAN_GENERAL_YARAHIT : Z;
  cl_init : Z;
  cl_engine_set_num : Z -> Z -> Z;
  cl_load : bytes -> Z;
  cl_engine_compile : Z;
  (** by the options and the path: the code, the name of the virus as C text and the
      hits recorded in the context *)
  cl_scanfile : Z * Z -> bytes -> Z * bytes * list bytes;
  cl_scanmap : Z * Z -> bytes -> bytes -> Z * bytes;
}.

Definition CLAMAV_MAX_FILESIZE : Z := 1024 * 1024 * 18.
Definition CLAMAV_MAX_SCANSIZE : Z := 1024 * 1024 * 25.
Definition CLAMAV_MAX_SCANTIME : Z := 5000.

(** What is allocated: references to the engine, contexts, and the maps of buffers;
    and whether the directory of signatures is there. *)
Record Lib := mkLib { refs : nat; contexts : nat; fmaps : nat; db_dir : bool }.
Definition set_refs n s := mkLib n (contexts s) (fmaps s) (db_dir s).
Definition set_contexts n s := mkLib (refs s) n (fmaps s) (db_dir s).
Definition set_fmaps n s := mkLib (refs s) (contexts s) n (db_dir s).
Definition set_db_dir b s := mkLib (refs s) (contexts s) (fmaps s) b.

(** The general and parse options of a handle. *)
Record Clamav := mkClamav { scan_option : Z * Z; scan_option_php : Z * Z }.

Section Engine.
Context `{!LibClamav}.
#[local] Abbreviation M := (SM Lib).

Definition clamav_init : M unit := if bool_decide (cl_init = 0%Z) then mret tt else sm_fail IoError.

Definition options : Clamav := mkClamav (0, CL_SCAN_PARSE_ELF)%Z (CL_SCAN_GENERAL_YARAHIT, 0)%Z.
Definition Clamav_new : M Clamav := sm_modify (fun s => set_refs (S (refs s)) s);; mret options.
Definition clone (self : Clamav) : M Clamav := sm_modify (fun s => set_refs (S (refs s)) s);; mret options.
(** [Drop] *)
Definition drop_ (self : Clamav) : M unit := sm_modify (fun s => set_refs (pred (refs s)) s).

Definition set_engine_filed_num (code num : Z) : M unit :=
  if bool_decide (cl_engine_set_num code num = 0%Z) then mret tt else sm_fail IoError.
Definition set_max_size (maxfilesize maxscansize maxscantime : Z) : M unit :=
  set_engine_filed_num CL_ENGINE_MAX_SCANSIZE maxscansize;;
  set_engine_filed_num CL_ENGINE_MAX_FILESIZE maxfilesize;;
  set_engine_filed_num CL_ENGINE_MAX_SCANTIME maxscantime;;
  set_engine_filed_num CL_ENGINE_PCRE_MATCH_LIMIT 500;;
  set_engine_filed_num CL_ENGINE_PCRE_RECMATCH_LIMIT 250;;
  set_engine_filed_num CL_ENGINE_DISABLE_CACHE 1.

(** [CString::new(..).unwrap()] *)
Definition c_string (s : bytes) : M bytes := if bool_decide (x00 ∈ s) then sm_panic else mret s.

Definition load_db (db_path : bytes) : M unit :=
  present ← sm_gets db_dir;
  if negb present then sm_fail IoError
  else
    p ← c_string db_path;
    if bool_decide (cl_load p = CL_SUCCESS) then sm_modify (set_db_dir false) else sm_fail IoError.
Definition compile_engine : M unit := if bool_decide (cl_engine_compile = CL_SUCCESS) then mret tt else sm_fail IoError.

(** [ScanEngine::new]: an error, or a panic, drops the engine that was begun. *)
Definition ScanEngine_new (db_path : bytes) : M Clamav := fun s =>
  match Clamav_new s with
  | (Ret engine, s) =>
      match (set_max_size CLAMAV_MAX_FILESIZE CLAMAV_MAX_SCANSIZE CLAMAV_MAX_SCANTIME;; load_db db_path;; compile_engine) s with
      | (Ret _, s) => (Ret engine, s)
      | (Fail e, s) => (Fail e, snd (drop_ engine s))
      | (Panic, s) => (Panic, snd (drop_ engine s))
      end
  | (Fail e, s) => (Fail e, s)
  | (Panic, s) => (Panic, s)
  end.

(** [to_str().unwrap()] on the name of a virus. *)
Definition virus_text (name : bytes) : M bytes := if utf8_valid name then mret name else sm_panic.

Definition scan_mem (self : Clamav) (fname buf : bytes) : M bytes :=
  if length buf <=? 5 then sm_fail IoError
  else
    filename ← c_string fname;
    sm_modify (fun s => set_fmaps (S (fmaps s)) s);;
    let '(retc, virus_name) := cl_scanmap (scan_option self) filename buf in
    sm_modify (fun s => set_fmaps (pred (fmaps s)) s);;
    if bool_decide (retc = CL_SUCCESS) then mret (bs "OK")
    else if bool_decide (retc = CL_VIRUS) then virus_text virus_name
    else sm_fail IoError.

Definition ctx_init : M unit := sm_modify (fun s => set_contexts (S (contexts s)) s).
Definition ctx_free : M unit := sm_modify (fun s => set_contexts (pred (contexts s)) s).

(** A file of PHP is scanned with a context for the rules that hit; the hits are taken
    from the end of their array.  [exists_] and [is_file] are the answers of the file
    system. *)
Definition scan_file (exists_ is_file : bool) (self : Clamav) (fpath : bytes) : M (bytes * option (list bytes)) :=
  if negb exists_ then sm_fail IoError
  else if negb is_file then sm_fail IoError
  else
    let php_flag := ends_with fpath (bs ".php") in
    target_path ← c_string fpath;
    (if php_flag then ctx_init else mret tt);;
    let '(retc, virus_name, hits) := cl_scanfile (if php_flag then scan_option_php self else scan_option self) target_path in
    if bool_decide (retc = CL_SUCCESS) then
      (if php_flag then ctx_free else mret tt);; mret (bs "OK", None)
    else if bool_decide (retc = CL_VIRUS) then
      target_virust_name ← virus_text virus_name;
      if php_flag && negb (bool_decide (hits = [])) then
        ctx_free;; mret (target_virust_name, Some (map from_utf8_lossy (reverse hits)))
      else mret (target_virust_name, None)
    else (if php_flag then ctx_free else mret tt);; sm_fail IoError.
End Engine.

(** ** References *)

Section Handles.
Context `{!LibClamav}.

(** A handle is made, copied, used or dropped; [live] counts those there are. *)
Inductive hstep : Lib * list Clamav -> Lib * list Clamav -> Prop :=
  | HNew db r s s' hs : ScanEngine_new db s = (r, s') ->
      hstep (s, hs) (s', match r with Ret e => e :: hs | _ => hs end)
  | HClone e e' s s' hs : e ∈ hs -> clone e s = (Ret e', s') -> hstep (s, hs) (s', e' :: hs)
  | HDrop e s s' hs hs' : hs ≡ₚ e :: hs' -> drop_ e s = (Ret tt, s') -> hstep (s, hs) (s', hs')
  | HScan ex f e p r s s' hs : e ∈ hs -> scan_file ex f e p s = (r, s') -> hstep (s, hs) (s', hs)
  | HMem e n b r s s' hs : e ∈ hs -> scan_mem e n b s = (r, s') -> hstep (s, hs) (s', hs).

(** Code that leaves the references alone. *)
Definition same_refs {A} (m : SM Lib A) : Prop := forall s, refs (snd (m s)) = refs s.
Lemma same_refs_bind {A B} (m : SM Lib A) (k : A -> SM Lib B) : same_refs m -> (forall a, same_refs (k a)) -> same_refs (m ≫= k).
Proof. intros Hm Hk s. specialize (Hm s). unfold mbind, SM_bind. destruct (m s) as [[a|e|] s']; cbn in *; [by rewrite Hk|done..]. Qed.
Lemma same_refs_pure {A} (m : SM Lib A) : (forall s, snd (m s) = s) -> same_refs m.
Proof. intros Hm s. by rewrite Hm. Qed.
Lemma same_refs_modify f : (forall s, refs (f s) = refs s) -> same_refs (sm_modify f).
Proof. intros Hf s. apply Hf. Qed.
Ltac same_refs := repeat first
  [ match goal with |- same_refs (_ ≫= _) => apply same_refs_bind; [|intros ?] end
  | apply same_refs_modify; by intros ? | apply same_refs_pure; by intros ? | case_match ].

Lemma same_refs_field code num : same_refs (set_engine_filed_num code num).
Proof. unfold set_engine_filed_num. same_refs. Qed.
Lemma same_refs_build db :
  same_refs (set_max_size CLAMAV_MAX_FILESIZE CLAMAV_MAX_SCANSIZE CLAMAV_MAX_SCANTIME;; load_db db;; compile_engine).
Proof.
  unfold set_max_size, load_db, compile_engine, c_string. same_refs; apply same_refs_field.
Qed.
Lemma same_refs_scan ex f e p : same_refs (scan_file ex f e p).
Proof. unfold scan_file, c_string, virus_text, ctx_init, ctx_free. same_refs. Qed.
Lemma same_refs_mem e n b : same_refs (scan_mem e n b).
Proof. unfold scan_mem, c_string, virus_text. same_refs. Qed.

(** C34: the library holds exactly one reference for every handle there is: an engine
    is freed when its last handle is dropped and never while one is in use, and a
    construction that fails leaves no reference behind. *)
Theorem handles_counted db_there s hs :
  rtc hstep (mkLib 0 0 0 db_there, []) (s, hs) -> refs s = length hs.
Proof.
  intros Hs. enough (Hk : forall x y, rtc hstep x y -> refs x.1 = length x.2 -> refs y.1 = length y.2) by (by apply (Hk _ _ Hs)).
  clear. intros x y Hs. induction Hs as [|x y z Hxy Hs IH]; [done|]. intros Hx. apply IH. clear IH Hs z.
  destruct Hxy as [db r s s' hs E|e e' s s' hs _ E|e s s' hs hs' Hp E|ex f e p r s s' hs _ E|e n b r s s' hs _ E]; cbn in *.
  - unfold ScanEngine_new, Clamav_new, mbind at 1, SM_bind at 1, sm_modify in E. cbn in E.
    pose proof (same_refs_build db (set_refs (S (refs s)) s)) as Hb. revert E Hb. generalize (set_max_size CLAMAV_MAX_FILESIZE CLAMAV_MAX_SCANSIZE CLAMAV_MAX_SCANTIME;; load_db db;; compile_engine).
    intros m. destruct (m _) as [[[]|e|] s1]; cbn; intros [= <- <-] Hb; cbn in *; lia.
  - injection E as <- <-. cbn. lia.
  - injection E as <-. cbn. apply Permutation_length in Hp. cbn in Hp. lia.
  - by rewrite <- Hx, <- (same_refs_scan ex f e p s), E.
  - by rewrite <- Hx, <- (same_refs_mem e n b s), E.
Qed.
End Handles.

(** ** Contexts *)

(** A scan frees the context it made, with one exception: a virus found in a PHP
    file without the hit of a rule leaks it, since the context is freed only where
    the hits are read. *)
Theorem scan_leaks_context `{!LibClamav} ex f e p s :
  let '(retc, virus, hits) := cl_scanfile (if ends_with p (bs ".php") then scan_option_php e else scan_option e) p in
  (fst (scan_file ex f e p s) <> Panic ->
   contexts (snd (scan_file ex f e p s)) =
     contexts s + (if ex && f && ends_with p (bs ".php") && bool_decide (retc = CL_VIRUS) && bool_decide (hits = []) then 1 else 0))
  /\ fmaps (snd (scan_file ex f e p s)) = fmaps s.
Proof.
  unfold scan_file, c_string, virus_text, ctx_init, ctx_free, mbind, SM_bind.
  destruct ex; [|destruct (cl_scanfile _ p) as [[retc virus] hits]; cbn; lia].
  destruct f; [|destruct (cl_scanfile _ p) as [[retc virus] hits]; cbn; lia]. cbn [negb andb].
  destruct (decide (x00 ∈ p)) as [Hz|Hz]; [rewrite (bool_decide_eq_true_2 _ Hz)|rewrite (bool_decide_eq_false_2 _ Hz)].
  { destruct (cl_scanfile _ p) as [[retc virus] hits]. by split. }
  destruct (ends_with p (bs ".php")); cbn [mret SM_ret sm_modify]; unfold mret, SM_ret, sm_modify;
    destruct (cl_scanfile _ p) as [[retc virus] hits]; unfold CL_SUCCESS, CL_VIRUS.
  all: destruct (decide (retc = 0%Z)) as [->|Hr0]; [rewrite (bool_decide_eq_true_2 (0 = 0)%Z), (bool_decide_eq_false_2 (0 = 1)%Z) by done; cbn; lia|].
  all: rewrite (bool_decide_eq_false_2 (retc = 0%Z)) by done; destruct (decide (retc = 1%Z)) as [->|Hr1]; [|rewrite (bool_decide_eq_false_2 (retc = 1%Z)) by done; cbn; lia].
  all: rewrite (bool_decide_eq_true_2 (1 = 1)%Z) by done; cbn; destruct (utf8_valid virus); cbn; [|by split]; try lia.
  destruct (decide (hits = [])) as [->|Hh]; [cbn; lia|]. rewrite (bool_decide_eq_false_2 (hits = [])) by done. cbn. lia.
Qed.

(** ** Concrete runs *)

Section Runs.
(** A library that finds a virus in every file, without the hit of a rule. *)
Definition test_lib : LibClamav :=
  {| CL_SCAN_GENERAL_YARAHIT := 16; cl_init := 0; cl_engine_set_num := fun _ _ => 0%Z; cl_load := fun _ => 0%Z; cl_engine_compile := 0;
     cl_scanfile := fun _ _ => (1%Z, bs "Php.Webshell.A", []); cl_scanmap := fun _ _ _ => (0%Z, []) |}.
#[local] Existing Instance test_lib.

Lemma handles_counted_witness : refs (mkLib 1 0 0 false) = length [options].
Proof.
  refine (handles_counted true (mkLib 1 0 0 false) [options] _).
  eapply rtc_l; [apply (HNew (bs "./dat")); vm_compute; reflexivity|].
  eapply rtc_l; [apply (HClone options); [apply list_elem_of_here|vm_compute; reflexivity]|].
  eapply rtc_l; [eapply (HDrop options _ _ _ [options]); [reflexivity|vm_compute; reflexivity]|]. apply rtc_refl.
Defined.

Example php_virus_leaks : contexts (snd (scan_file true true options (bs "/var/www/a.php") (mkLib 1 0 0 false))) = 1.
Proof. reflexivity. Qed.
End Runs.
