(* ===== verification/RaspOs.v ===== *)
(** * The operating system below rasp ([librasp/src/lib.rs], [librasp/src/settings.rs])

    The rasp plugin asks its host many things: files and links under /proc, other
    programs it starts, signals it sends; the honeypots of the scanner ask the same
    kind of things, and use the same calls.  Here each such question is a [call],
    and a host is any function from the calls made so far to the answer of the
    next one, so that a theorem holds whatever the host answers and however its
    answers change over time.  The calls made are kept in the state, so that a
    theorem can say which programs were run and which signals were sent.

    [run_async_process] (lib.rs) is modelled on the clock of its two polling
    threads; the paths of settings.rs and the path operations of the standard
    library follow. *)

From S2P Require Import Prelude Bytes RustStd ScanEvents.

(** ** Calls and answers *)

(** [ExitStatus]: [None] is a process ended by a signal. *)
Definition ExitStatus : Type := option Z.
Definition success (s : ExitStatus) : bool := bool_decide (s = Some 0%Z).

Record Output := mkOutput { out_status : ExitStatus; out_stdout : bytes; out_stderr : bytes }.

(** A child process: its pid; the turn of [wait] in which [try_wait] first answers
    if no signal comes before, with the answer ([None]: [try_wait] failed); the
    same for a child that was sent SIGKILL, counted from the signal; which of the
    threads [wait] and [kill] takes a turn first; and what it prints.  Every child
    ends at some time, if only long after the signal. *)
Record Child := mkChild {
  c_pid : Z;
  c_turn : nat; c_exit : option ExitStatus;
  c_delay : nat; c_killed : option ExitStatus;
  c_kill_first : nat -> bool;
  c_stdout : bytes; c_stderr : bytes;
}.

(** [procfs]: /proc/<pid>/stat, /proc/<pid>/status and the name spaces. *)
Record Stat := mkStat { st_ppid : Z; st_session : Z; st_tpgid : Z; st_starttime : Z }.
Record Status := mkStatus {
  s_ruid : Z; s_rgid : Z; s_euid : Z; s_egid : Z; s_suid : Z; s_sgid : Z; s_fuid : Z; s_fgid : Z;
  s_tgid : Z; s_nspid : option (list Z);
}.
Record Namespaces := mkNamespaces { mnt : option bytes }.

(** What [goblin] finds in a binary: the name of each section (an offset outside
    the string table gives none, one that is not text an error) and of each
    symbol ([None]: indexing the string table panics). *)
Record Elf := mkElf {
  elf_sections : list (option (option bytes));
  elf_dynsyms : list (option bytes);
  elf_syms : list (option bytes);
}.

Inductive call : Type :=
  | ReadLink (path : bytes)
  | ProcNew (pid : Z)
  | ProcExe (pid : Z)
  | ProcEnviron (pid : Z)
  | ProcCmdline (pid : Z)
  | ProcNs (pid : Z)
  | ProcStatus_ (pid : Z)
  | ProcMaps (pid : Z)
  | ProcTasks (pid : Z)
  | ReadDir (path : bytes)
  | FirstLine (path : bytes)
  | Exists (path : bytes)
  | Metadata (path : bytes)
  | ElfParse (path : bytes)
  | Spawn (program : bytes) (args : list bytes)
  | CommandOutput (program : bytes) (args : list bytes)
  | CopyFile (from to : bytes)
  | CopyDir (from to : bytes)
  | CreateAll (path : bytes)
  | RemoveDir (path : bytes)
  | RemoveFile (path : bytes)
  | CreateDir (path : bytes)
  | WriteAll (path content : bytes)
  | Download (url : bytes)
  | SpawnServer (pid : Z)
  | Kill (pid signal : Z)
  | KillPg (pgrp signal : Z)
  | TicksPerSecond
  | BootTime
  | ReadFile (path : bytes)
  | KernelVersion
  | IsDir (path : bytes)
  | DirEntries (path : bytes)
  | Chown (path : bytes) (uid gid : Z)
  | FanotifyInit (flags : Z)
  | FanotifyMark (flags mask : Z) (path : option bytes)
  | OpenFile (path : bytes)
  | SetNs (fd flags : Z)
  | Bind (addr : bytes)
  | Chmod (path : bytes) (mode : Z)
  | Now.

#[global] Instance call_eq_dec : EqDecision call.
Proof. solve_decision. Defined.

(** [None] is an error of the call; [ProcMaps] gives the mapped paths that are
    paths, [ProcTasks] the name of each thread that can be read, [DirEntries] each
    entry that can be read, with whether it is a directory unless that fails. *)
Definition answer (c : call) : Type :=
  match c with
  | ReadLink _ | FirstLine _ | ProcExe _ | ReadFile _ => option bytes
  | ProcNew _ => option Stat
  | ProcEnviron _ => option (gmap bytes bytes)
  | ProcCmdline _ | ProcMaps _ | ReadDir _ => option (list bytes)
  | ProcTasks _ => option (list (option bytes))
  | ProcNs _ => option Namespaces
  | ProcStatus_ _ => option Status
  | Exists _ | IsDir _ => bool
  | KernelVersion => option (Z * Z * Z)
  | DirEntries _ => option (list (option (bytes * option bool)))
  | Chown _ _ _ | SetNs _ _ | Bind _ | Chmod _ _ => option unit
  | Metadata _ | TicksPerSecond | BootTime | OpenFile _ => option Z
  | ElfParse _ => option Elf
  | Spawn _ _ => option Child
  | CommandOutput _ _ => option Output
  | CopyFile _ _ | CopyDir _ _ | CreateAll _ | RemoveDir _ | RemoveFile _ | CreateDir _ | WriteAll _ _ | SpawnServer _ => option unit
  | Download _ => option (option bytes)
  | Kill _ _ | KillPg _ _ | FanotifyInit _ | FanotifyMark _ _ _ | Now => Z
  end.

(** A host: the answer of a call may depend on every call before it. *)
Class Host := reply : list call -> forall c : call, answer c.

(** The regular expressions of the [regex] crate: the capture groups of the
    leftmost match, group 0 first. *)
Class Regex := captures : string -> bytes -> option (list (option bytes)).
Definition is_match `{Regex} (re : string) (s : bytes) : bool := bool_decide (is_Some (captures re s)).
(** [c.get(i).map_or("", |m| m.as_str())] *)
Definition group (i : nat) (c : list (option bytes)) : bytes := default [] (mjoin (c !! i)).

(** ** Code that calls the host *)

(** A state that holds the calls made so far. *)
Class HasCalls (S : Type) := {
  calls : S -> list call;
  set_calls : list call -> S -> S;
}.
#[global] Instance calls_self : HasCalls (list call) := {| calls h := h; set_calls h _ := h |}.

Section Ask.
Context {S : Type} `{!HasCalls S} `{!Host}.

Definition ask (c : call) : SM S (answer c) := fun s =>
  (Ret (reply (calls s) c), set_calls (calls s ++ [c]) s).

(** [?] on the answer of a call that can fail. *)
Definition try_ {A} (o : option A) : SM S A :=
  match o with Some a => mret a | None => sm_fail IoError end.
(** [ok_or(anyhow!(..))?] *)
Definition ok_or {A} (msg : string) (o : option A) : SM S A :=
  match o with Some a => mret a | None => sm_fail (Anyhow msg) end.
(** [unwrap] *)
Definition unwrap {A} (o : option A) : SM S A :=
  match o with Some a => mret a | None => sm_panic end.
(** [match call { Ok(v) => .., Err(e) => .. }]: an error becomes a value; a panic
    does not. *)
Definition attempt {A} (m : SM S A) : SM S (option A) := fun s =>
  match m s with
  | (Ret a, s') => (Ret (Some a), s')
  | (Fail _, s') => (Ret None, s')
  | (Panic, s') => (Panic, s')
  end.
(** [for x in xs { .. }] with the early return of its body. *)
Fixpoint for_each {A} (f : A -> SM S unit) (xs : list A) : SM S unit :=
  match xs with
  | [] => mret tt
  | x :: xs => f x;; for_each f xs
  end.
End Ask.

(** ** [run_async_process] (lib.rs)

    The child is polled by the thread [wait] every five seconds.  The thread
    [kill] counts, also every five seconds, and at its 120th turn sends SIGKILL
    unless [wait] has cleared the shared flag. *)
Section AsyncProcess.
Variable child : Child.

Definition KILL_TURN : nat := 120.

(** [child.try_wait()] in turn [n], the signal having been sent in turn [killed]. *)
Definition try_wait (n : nat) (killed : option nat) : option (option ExitStatus) :=
  match killed with
  | Some k => if k + c_delay child <=? n then Some (c_killed child)
              else if c_turn child <=? n then Some (c_exit child) else None
  | None => if c_turn child <=? n then Some (c_exit child) else None
  end.

(** One turn of [kill], the flag being still set. *)
Definition kill_turn (n : nat) (killed : option nat) : option nat :=
  match killed with
  | Some k => Some k
  | None => if KILL_TURN <=? S n then Some n else None
  end.

(** The loop of [wait], with [kill] beside it: what [try_wait] answered, in which
    turn, and the turn of the signal. *)
Fixpoint wait_turns (fuel n : nat) (killed : option nat) : option (option ExitStatus * nat * option nat) :=
  match fuel with
  | 0 => None
  | S fuel =>
      let killed1 := if c_kill_first child n then kill_turn n killed else killed in
      match try_wait n killed1 with
      | Some st => Some (st, n, killed1)
      | None => wait_turns fuel (S n) (kill_turn n killed1)
      end
  end.

Definition wait_loop : option (option ExitStatus * nat * option nat) := wait_turns (S (c_turn child)) 0 None.
End AsyncProcess.

(** The lines of a stream with their ends. *)
Fixpoint split_inclusive (s : bytes) : list bytes :=
  match s with
  | [] => []
  | c :: s =>
      if bool_decide (c = x0a) then [c] :: split_inclusive s
      else match split_inclusive s with
           | [] => [[c]]
           | l :: ls => (c :: l) :: ls
           end
  end.
(** The threads [child_stdout] and [child_stderr]: [read_line] until the end of
    the stream or the first line that is not text. *)
Fixpoint read_lines (ls : list bytes) : bytes :=
  match ls with
  | [] => []
  | l :: ls => if utf8_valid l then l ++ read_lines ls else []
  end.

(** A child that could not be started, or not be waited for, is an error;
    otherwise its status is returned with what it printed, also when the status
    is a failure. *)
Definition SIGKILL : Z := 9.
(** The output of a child that answered [st]. *)
Definition child_output (child : Child) (st : ExitStatus) : Output :=
  mkOutput st (read_lines (split_inclusive (c_stdout child))) (read_lines (split_inclusive (c_stderr child))).
Definition await {S} `{!HasCalls S} `{!Host} (child : Child) : SM S Output :=
  match wait_loop child with
  | Some (st, _, killed) =>
      (match killed with Some _ => _ ← ask (Kill (c_pid child) SIGKILL); mret tt | None => mret tt end);;
      st ← try_ st; mret (child_output child st)
  | None => sm_panic
  end.
Definition run_async_process {S} `{!HasCalls S} `{!Host} (program : bytes) (args : list bytes) : SM S Output :=
  r ← ask (Spawn program args); child ← try_ r; await child.

(** ** Paths ([std::path]) *)

(** The components of a path that are neither empty nor the current directory. *)
Definition components (p : bytes) : list bytes :=
  filter (fun c => c <> [] /\ c <> bs ".") (split_on "/" p).
Definition has_root (p : bytes) : bool := starts_with p (bs "/").

Definition file_name (p : bytes) : option bytes :=
  match last (components p) with
  | Some c => if bool_decide (c = bs "..") then None else Some c
  | None => None
  end.

(** [parent]: the path without its last component; neither the root nor the empty
    path has one. *)
Definition parent (p : bytes) : option bytes :=
  match components p with
  | [] => None
  | cs => let up := join "/" (removelast cs) in Some (if has_root p then bs "/" ++ up else up)
  end.

(** [push] and [join] of a relative path. *)
Definition push (p q : bytes) : bytes :=
  if has_root q then q else if bool_decide (p = []) || ends_with p (bs "/") then p ++ q else p ++ bs "/" ++ q.

(** ** Settings (settings.rs) *)
Module settings.
Definition RASP_VERSION : bytes := bs "1.0.0.1".

(** [current_dir] fails when the directory is gone; its name need not be text. *)
Definition RASP_BASE_DIR (current_dir : option bytes) : outcome bytes :=
  match current_dir with
  | Some p => if utf8_valid p then Ret p else Panic
  | None => Panic
  end.

Section paths.
(** What [RASP_BASE_DIR] returned. *)
Variable base : bytes.

Definition RASP_NS_ENTER_BIN : bytes := base ++ bs "/nsenter".
Definition RASP_MOUNT_SCRIPT_BIN : bytes := base ++ bs "/mount_script".
Definition RASP_LIB_DIR : bytes := base ++ bs "/lib-" ++ RASP_VERSION.
Definition RASP_SERVER_BIN : bytes := RASP_LIB_DIR ++ bs "/rasp_server".
Definition RASP_PANGOLIN : bytes := RASP_LIB_DIR ++ bs "/pangolin".
Definition RASP_GOLANG : bytes := RASP_LIB_DIR ++ bs "/golang/go_probe".
Definition RASP_PYTHON_LOADER : bytes := RASP_LIB_DIR ++ bs "/python/python_loader".
Definition RASP_PYTHON_DIR : bytes := RASP_LIB_DIR ++ bs "/python/rasp".
Definition RASP_PYTHON_ENTRY : bytes := RASP_LIB_DIR ++ bs "/python/entry.py".
Definition RASP_JAVA_JATTACH_BIN : bytes := RASP_LIB_DIR ++ bs "/java/jattach".
Definition RASP_JAVA_PROBE_BIN : bytes := RASP_LIB_DIR ++ bs "/java/SmithAgent.jar".
Definition RASP_NODEJS_DIR : bytes := RASP_LIB_DIR ++ bs "/node".
Definition RASP_NODEJS_INJECTOR : bytes := RASP_NODEJS_DIR ++ bs "/injector.js".

(** The versions of PHP there is a probe for. *)
Definition php_supported (major miner : bytes) : bool :=
  if bool_decide (major = bs "5") then bool_decide (miner ∈ [bs "3"; bs "4"; bs "5"; bs "6"])
  else if bool_decide (major = bs "7") then bool_decide (miner ∈ [bs "0"; bs "2"; bs "3"; bs "4"])
  else if bool_decide (major = bs "8") then bool_decide (miner ∈ [bs "0"; bs "1"])
  else false.

Definition RASP_PHP_PROBE (major miner : bytes) (zts : bool) : option (bytes * bytes) :=
  if php_supported major miner then
    let name := bs "libphp_probe-" ++ major ++ bs "." ++ miner ++ (if zts then bs "-zts.so" else bs ".so") in
    Some (RASP_LIB_DIR ++ bs "/php/" ++ name, name)
  else None.
End paths.
End settings.

(** ** Lemmas *)

Section Ask_lemmas.
Context {S : Type} `{!HasCalls S} `{!Host}.

Lemma ask_eq c (s : S) : ask c s = (Ret (reply (calls s) c), set_calls (calls s ++ [c]) s).
Proof. done. Qed.

Lemma ask_inv c (s : S) a s' :
  ask c s = (Ret a, s') -> a = reply (calls s) c /\ s' = set_calls (calls s ++ [c]) s.
Proof. rewrite ask_eq. by intros [= <- <-]. Qed.
Lemma try_inv {A} (o : option A) (s : S) a s' : try_ o s = (Ret a, s') -> o = Some a /\ s' = s.
Proof. destruct o; [|done]. by intros [= <- <-]. Qed.
Lemma ok_or_inv {A} msg (o : option A) (s : S) a s' : ok_or msg o s = (Ret a, s') -> o = Some a /\ s' = s.
Proof. destruct o; [|done]. by intros [= <- <-]. Qed.
Lemma attempt_inv {A} (m : SM S A) (s : S) a s' : attempt m s = (Ret (Some a), s') -> m s = (Ret a, s').
Proof. unfold attempt. destruct (m s) as [[]]; by intros [= <- <-]. Qed.

Lemma attempt_snd {A} (m : SM S A) s : snd (attempt m s) = snd (m s).
Proof. unfold attempt. by destruct (m s) as [[] s0]. Qed.
Lemma for_each_app {A} (f : A -> SM S unit) xs ys s :
  for_each f (xs ++ ys) s = (for_each f xs;; for_each f ys) s.
Proof.
  revert s. induction xs as [|x xs IH]; intros s; [done|]. simpl.
  unfold mbind, SM_bind in *. destruct (f x s) as [[] s']; [|done..]. by rewrite IH.
Qed.
End Ask_lemmas.

(** Take a successful run apart into its calls. *)
Ltac sm_inv := repeat match goal with
  | H : (_ ≫= _) _ = (Ret _, _) |- _ => apply sm_bind_inv in H as (? & ? & ? & H)
  | H : ask ?c ?s = (Ret ?a, ?s1) |- _ => destruct (ask_inv c s a s1 H) as [? ->]; clear H
  | H : try_ _ _ = (Ret _, _) |- _ => apply try_inv in H as [? ->]
  | H : ok_or _ _ _ = (Ret _, _) |- _ => apply ok_or_inv in H as [? ->]
  | H : attempt _ _ = (Ret (Some _), _) |- _ => apply attempt_inv in H
  | H : mret _ _ = (Ret _, _) |- _ => injection H as H ?; subst
  | H : sm_fail _ _ = (Ret _, _) |- _ => discriminate H
  | H : sm_panic _ = (Ret _, _) |- _ => discriminate H
  end.

#[local] Arguments wait_loop : simpl never.
#[local] Arguments kill_turn : simpl never.
#[local] Arguments try_wait : simpl never.
Section AsyncProcess_lemmas.
Context (child : Child).

Lemma kill_turn_sent n k : kill_turn n (Some k) = Some k.
Proof. done. Qed.

(** No signal before the 120th turn. *)
Lemma kill_turn_early n : S n < KILL_TURN -> kill_turn n None = None.
Proof. intros Hn. unfold kill_turn. by rewrite (proj2 (Nat.leb_gt _ _)). Qed.

Lemma kill_turn_late n : KILL_TURN <= S n -> kill_turn n None = Some n.
Proof. intros Hn. unfold kill_turn. by rewrite (proj2 (Nat.leb_le _ _)). Qed.

(** The wait of a child that ends by itself in time. *)
Lemma wait_turns_early fuel n :
  S (c_turn child) < KILL_TURN -> n <= c_turn child < n + fuel ->
  wait_turns child fuel n None = Some (c_exit child, c_turn child, None).
Proof.
  intros Hlt. revert n. induction fuel as [|fuel IH]; intros n Hn; [lia|]. simpl.
  rewrite kill_turn_early by lia. replace (if c_kill_first child n then None else None) with (@None nat)
    by (by destruct (c_kill_first child n)). unfold try_wait.
  destruct (Nat.leb_spec (c_turn child) n).
  - by replace n with (c_turn child) by lia.
  - rewrite kill_turn_early by lia. apply IH. lia.
Qed.

(** The loop ends no later than the child does by itself. *)
Lemma wait_turns_ends fuel n killed :
  n <= c_turn child < n + fuel -> exists st m k, wait_turns child fuel n killed = Some (st, m, k) /\ n <= m <= c_turn child.
Proof.
  revert n killed. induction fuel as [|fuel IH]; intros n killed Hn; [lia|]. simpl.
  set (k1 := if c_kill_first child n then _ else _).
  destruct (try_wait child n k1) as [st|] eqn:E.
  - exists st, n, k1. split; [done|lia].
  - assert (n < c_turn child).
    { destruct (decide (n < c_turn child)); [done|]. exfalso. revert E. unfold try_wait.
      rewrite (proj2 (Nat.leb_le (c_turn child) n)) by lia. by destruct k1; cases. }
    destruct (IH (S n) (kill_turn n k1)) as (st & m & k & -> & ?); [lia|]. exists st, m, k. split; [done|lia].
Qed.

(** After the signal of turn [k] the loop ends within [c_delay] turns. *)
Lemma wait_turns_killed fuel n k :
  n <= c_turn child < n + fuel -> k <= n <= k + c_delay child -> c_turn child >= k + c_delay child ->
  wait_turns child fuel n (Some k) = Some (c_killed child, k + c_delay child, Some k).
Proof.
  revert n. induction fuel as [|fuel IH]; intros n Hn Hk Ht; [lia|]. simpl. rewrite kill_turn_sent.
  replace (if c_kill_first child n then Some k else Some k) with (Some k) by (by destruct (c_kill_first child n)).
  unfold try_wait. destruct (Nat.leb_spec (k + c_delay child) n).
  - by replace n with (k + c_delay child) by lia.
  - rewrite (proj2 (Nat.leb_gt (c_turn child) n)) by lia. apply IH; lia.
Qed.
End AsyncProcess_lemmas.

Lemma wait_loop_total child : exists st n k, wait_loop child = Some (st, n, k).
Proof.
  destruct (wait_turns_ends child (S (c_turn child)) 0 None) as (st & m & k & E & _); [lia|]. eauto.
Qed.

(** A child that runs on is killed in turn 119, the 120th, and the wait ends with
    what it then answers: whoever takes a turn first, the loop is over by turn
    [120 + c_delay]. *)
Lemma wait_turns_late child fuel n :
  119 + c_delay child < c_turn child -> n <= 119 -> c_turn child < n + fuel ->
  wait_turns child fuel n None = Some (c_killed child, 119 + Nat.max (c_delay child) (if c_kill_first child 119 then 0 else 1), Some 119).
Proof.
  intros Hlt. revert n. induction fuel as [|fuel IH]; intros n Hn Hf; [lia|]. simpl.
  destruct (decide (n = 119)) as [->|Hne].
  - rewrite kill_turn_late by (unfold KILL_TURN; lia). destruct (c_kill_first child 119) eqn:E.
    + unfold try_wait. destruct (Nat.leb_spec (119 + c_delay child) 119) as [|Hd].
      * replace (c_delay child) with 0 by lia. done.
      * rewrite (proj2 (Nat.leb_gt (c_turn child) 119)) by lia.
        rewrite kill_turn_sent, wait_turns_killed by lia. rewrite Nat.max_0_r. done.
    + unfold try_wait at 1. rewrite (proj2 (Nat.leb_gt (c_turn child) 119)) by lia.
      rewrite kill_turn_late by (unfold KILL_TURN; lia). destruct (c_delay child) as [|d] eqn:Ed.
      * destruct fuel as [|fuel]; [lia|]. simpl. rewrite kill_turn_sent. replace (if c_kill_first child 120 then Some 119 else Some 119) with (Some 119) by (by destruct (c_kill_first child 120)).
        unfold try_wait. rewrite Ed. done.
      * rewrite wait_turns_killed by lia. rewrite Ed. do 3 f_equal; lia.
  - rewrite kill_turn_early by (unfold KILL_TURN; lia).
    replace (if c_kill_first child n then None else None) with (@None nat) by (by destruct (c_kill_first child n)).
    unfold try_wait. rewrite (proj2 (Nat.leb_gt (c_turn child) n)) by lia.
    rewrite kill_turn_early by (unfold KILL_TURN; lia). apply IH; lia.
Qed.

Lemma run_async_eq {S} `{!HasCalls S} `{!Host} program args child (s : S) :
  reply (calls s) (Spawn program args) = Some child ->
  run_async_process program args s = await child (set_calls (calls s ++ [Spawn program args]) s).
Proof. intros E. unfold run_async_process, mbind, SM_bind, ask. by rewrite E. Qed.

(** ** Code that does not panic *)

Definition no_panic {S A} (m : SM S A) : Prop := forall s, fst (m s) <> Panic.

Create HintDb no_panic.
Section No_panic.
Context {S : Type} `{!HasCalls S} `{!Host}.

Lemma no_panic_bind {A B} (m : SM S A) (k : A -> SM S B) : no_panic m -> (forall a, no_panic (k a)) -> no_panic (m ≫= k).
Proof.
  intros Hm Hk s. unfold mbind, SM_bind. specialize (Hm s). destruct (m s) as [[a|e|] s']; [apply Hk|done|done].
Qed.
Lemma no_panic_ret {A} (a : A) : no_panic (S := S) (mret a).
Proof. done. Qed.
Lemma no_panic_ask c : no_panic (S := S) (ask c).
Proof. done. Qed.
Lemma no_panic_fail {A} e : no_panic (S := S) (A := A) (sm_fail e).
Proof. done. Qed.
Lemma no_panic_try {A} (o : option A) : no_panic (S := S) (try_ o).
Proof. by destruct o. Qed.
Lemma no_panic_ok_or {A} msg (o : option A) : no_panic (S := S) (ok_or msg o).
Proof. by destruct o. Qed.
Lemma no_panic_unwrap {A} (o : option A) : is_Some o -> no_panic (S := S) (unwrap o).
Proof. by intros [a ->]. Qed.
Lemma no_panic_attempt {A} (m : SM S A) : no_panic m -> no_panic (attempt m).
Proof. intros Hm s. unfold attempt. specialize (Hm s). by destruct (m s) as [[]]. Qed.
Lemma no_panic_await child : no_panic (S := S) (await child).
Proof. intros s. unfold await. destruct (wait_loop_total child) as (st & n & k & ->). by destruct k, st. Qed.
End No_panic.
#[export] Hint Resolve no_panic_ret no_panic_fail no_panic_try no_panic_ok_or no_panic_unwrap
  no_panic_attempt no_panic_await : no_panic.
#[export] Hint Extern 1 (no_panic (ask ?c)) => exact (no_panic_ask c) : no_panic.

Ltac no_panic_step := first
  [ solve [eauto with no_panic]
  | match goal with
    | |- no_panic (_ ≫= _) => apply no_panic_bind; [|intros ?]
    | |- no_panic (attempt _) => apply no_panic_attempt
    end
  | case_step ].
Ltac no_panic := repeat no_panic_step.

Lemma no_panic_run_async {S} `{!HasCalls S} `{!Host} program args : no_panic (S := S) (run_async_process program args).
Proof. unfold run_async_process. no_panic. Qed.
#[export] Hint Resolve no_panic_run_async : no_panic.

(** ** What a caller of [run_async_process] gets *)


(** ** A host for concrete runs

    One java process in every pid; every program started ends at once with success. *)
Definition test_child : Child := mkChild 50 0 (Some (Some 0%Z)) 0 (Some None) (fun _ => false) (bs "out") [].
Definition test_host : Host := fun h c =>
  match c return answer c with
  | ReadLink _ => Some (bs "pid:[1]")
  | FirstLine _ | ReadFile _ => None
  | ProcExe _ => Some (bs "/usr/bin/java")
  | ProcNew _ => Some (mkStat 1 1 1 300)
  | ProcEnviron _ => Some {[bs "HOME" := bs "/"]}
  | ProcCmdline _ => Some [bs "java"; bs "-jar"]
  | ProcMaps _ => None
  | ReadDir _ => Some [bs "7"; bs "net"]
  | ProcTasks _ => None
  | ProcNs _ => Some (mkNamespaces (Some (bs "mnt:[1]")))
  | ProcStatus_ _ => Some (mkStatus 0 0 0 0 0 0 0 0 7 None)
  | Exists _ => true
  | IsDir _ => false
  | KernelVersion => Some (4, 19, 0)%Z
  | DirEntries _ => Some [Some (bs "0_elkeid_hids_anti_ransom.txt", Some false)]
  | Chown _ _ _ | SetNs _ _ | Bind _ | Chmod _ _ => Some tt
  | OpenFile _ => Some 9%Z
  | Metadata _ => Some 10%Z
  | TicksPerSecond => Some 100%Z
  | BootTime => Some 1000%Z
  | ElfParse _ => None
  | Spawn _ _ => Some test_child
  | CommandOutput _ _ => Some (mkOutput (Some 0%Z) (bs "OpenJDK 64-Bit Server VM JDK 11.0.2") [])
  | CopyFile _ _ | CopyDir _ _ | CreateAll _ | RemoveDir _ | RemoveFile _ | CreateDir _ | WriteAll _ _ | SpawnServer _ => Some tt
  | Download _ => Some None
  | Kill _ _ | KillPg _ _ | FanotifyMark _ _ _ => 0%Z
  | FanotifyInit _ => 3%Z
  | Now => (1000 + (2 ^ 32 + 300) / 100)%Z
  end.
(** Knows one pattern, on the one text it is used on. *)
Definition test_regex : Regex := fun re s =>
  if bool_decide (re = "JDK (\d+)\."%string) && contains s (bs "JDK 11.") then Some [Some (bs "JDK 11."); Some (bs "11")] else None.

#[local] Existing Instance test_host.
