(* ===== verification/RaspProcess.v ===== *)
(** * Processes as rasp sees them ([librasp/src/process.rs])

    [ProcessInfo] with the methods that fill it from /proc, and [read_nspid], which
    finds the pid a process has inside its container.  A method runs on the info
    and the host's calls together, so that an error keeps what was written
    before it. *)

From S2P Require Import Prelude Bytes RustStd ScanEvents RaspOs.
From Stdlib Require Import Floats.SpecFloat.

(** ** Data *)

(** [f32], with its 24 bits of precision. *)
Definition f32 : Type := spec_float.
Definition f32_of_u64 (n : Z) : f32 := binary_normalize 24 128 n 0 false.

(** [Runtime] (runtime.rs). *)
Record Runtime := mkRuntime { rt_name : bytes; rt_version : bytes }.
Definition show_runtime (r : Runtime) : bytes := rt_name r ++ bs " " ++ rt_version r.

Inductive TracingState := WAIT_INSPECT | INSPECTED | WAIT_ATTACH | ATTACHED | CLOSING.
#[global] Instance TracingState_eq_dec : EqDecision TracingState.
Proof. solve_decision. Defined.
(** [Display] is the derived [Debug]: the constructor's name. *)
Definition show_state (st : TracingState) : bytes :=
  match st with
  | WAIT_INSPECT => bs "WAIT_INSPECT" | INSPECTED => bs "INSPECTED" | WAIT_ATTACH => bs "WAIT_ATTACH"
  | ATTACHED => bs "ATTACHED" | CLOSING => bs "CLOSING"
  end.

Record ProcessInfo := mkInfo {
  pid : Z;
  cmdline : option bytes;
  exe_name : option bytes;
  exe_path : option bytes;
  sid : Z;
  ruid : Z; rgid : Z; euid : Z; egid : Z; suid : Z; sgid : Z; fuid : Z; fgid : Z;
  ppid : Z;
  tgid : Z;
  environ : option (gmap bytes bytes);
  namespace_info : option Namespaces;
  tracing_state : option TracingState;
  auto_attach : bool;
  runtime : option Runtime;
  current_config_hash : bytes;
  attach_start_time : option bytes;
  attach_end_time : option bytes;
  failed_time : option bytes;
  missing_time : option bytes;
  start_time : option f32;
  try_attach_count : Z;
  attached_count : Z;
}.

Definition ProcessInfo_new (p : Z) : ProcessInfo :=
  mkInfo p None None None 0 0 0 0 0 0 0 0 0 0 0 None None None false None [] None None None None None 0 0.

Definition set_cmdline v_cmdline (i : ProcessInfo) : ProcessInfo :=
  mkInfo (pid i) v_cmdline (exe_name i) (exe_path i) (sid i) (ruid i) (rgid i)
    (euid i) (egid i) (suid i) (sgid i) (fuid i) (fgid i) (ppid i)
    (tgid i) (environ i) (namespace_info i) (tracing_state i) (auto_attach i) (runtime i) (current_config_hash i)
    (attach_start_time i) (attach_end_time i) (failed_time i) (missing_time i) (start_time i) (try_attach_count i) (attached_count i).
Definition set_sid v_sid (i : ProcessInfo) : ProcessInfo :=
  mkInfo (pid i) (cmdline i) (exe_name i) (exe_path i) v_sid (ruid i) (rgid i)
    (euid i) (egid i) (suid i) (sgid i) (fuid i) (fgid i) (ppid i)
    (tgid i) (environ i) (namespace_info i) (tracing_state i) (auto_attach i) (runtime i) (current_config_hash i)
    (attach_start_time i) (attach_end_time i) (failed_time i) (missing_time i) (start_time i) (try_attach_count i) (attached_count i).
Definition set_ppid v_ppid (i : ProcessInfo) : ProcessInfo :=
  mkInfo (pid i) (cmdline i) (exe_name i) (exe_path i) (sid i) (ruid i) (rgid i)
    (euid i) (egid i) (suid i) (sgid i) (fuid i) (fgid i) v_ppid
    (tgid i) (environ i) (namespace_info i) (tracing_state i) (auto_attach i) (runtime i) (current_config_hash i)
    (attach_start_time i) (attach_end_time i) (failed_time i) (missing_time i) (start_time i) (try_attach_count i) (attached_count i).
Definition set_tgid v_tgid (i : ProcessInfo) : ProcessInfo :=
  mkInfo (pid i) (cmdline i) (exe_name i) (exe_path i) (sid i) (ruid i) (rgid i)
    (euid i) (egid i) (suid i) (sgid i) (fuid i) (fgid i) (ppid i)
    v_tgid (environ i) (namespace_info i) (tracing_state i) (auto_attach i) (runtime i) (current_config_hash i)
    (attach_start_time i) (attach_end_time i) (failed_time i) (missing_time i) (start_time i) (try_attach_count i) (attached_count i).
Definition set_environ v_environ (i : ProcessInfo) : ProcessInfo :=
  mkInfo (pid i) (cmdline i) (exe_name i) (exe_path i) (sid i) (ruid i) (rgid i)
    (euid i) (egid i) (suid i) (sgid i) (fuid i) (fgid i) (ppid i)
    (tgid i) v_environ (namespace_info i) (tracing_state i) (auto_attach i) (runtime i) (current_config_hash i)
    (attach_start_time i) (attach_end_time i) (failed_time i) (missing_time i) (start_time i) (try_attach_count i) (attached_count i).
Definition set_namespace_info v_namespace_info (i : ProcessInfo) : ProcessInfo :=
  mkInfo (pid i) (cmdline i) (exe_name i) (exe_path i) (sid i) (ruid i) (rgid i)
    (euid i) (egid i) (suid i) (sgid i) (fuid i) (fgid i) (ppid i)
    (tgid i) (environ i) v_namespace_info (tracing_state i) (auto_attach i) (runtime i) (current_config_hash i)
    (attach_start_time i) (attach_end_time i) (failed_time i) (missing_time i) (start_time i) (try_attach_count i) (attached_count i).
Definition set_tracing_state v_tracing_state (i : ProcessInfo) : ProcessInfo :=
  mkInfo (pid i) (cmdline i) (exe_name i) (exe_path i) (sid i) (ruid i) (rgid i)
    (euid i) (egid i) (suid i) (sgid i) (fuid i) (fgid i) (ppid i)
    (tgid i) (environ i) (namespace_info i) v_tracing_state (auto_attach i) (runtime i) (current_config_hash i)
    (attach_start_time i) (attach_end_time i) (failed_time i) (missing_time i) (start_time i) (try_attach_count i) (attached_count i).
Definition set_runtime v_runtime (i : ProcessInfo) : ProcessInfo :=
  mkInfo (pid i) (cmdline i) (exe_name i) (exe_path i) (sid i) (ruid i) (rgid i)
    (euid i) (egid i) (suid i) (sgid i) (fuid i) (fgid i) (ppid i)
    (tgid i) (environ i) (namespace_info i) (tracing_state i) (auto_attach i) v_runtime (current_config_hash i)
    (attach_start_time i) (attach_end_time i) (failed_time i) (missing_time i) (start_time i) (try_attach_count i) (attached_count i).
Definition set_current_config_hash v_current_config_hash (i : ProcessInfo) : ProcessInfo :=
  mkInfo (pid i) (cmdline i) (exe_name i) (exe_path i) (sid i) (ruid i) (rgid i)
    (euid i) (egid i) (suid i) (sgid i) (fuid i) (fgid i) (ppid i)
    (tgid i) (environ i) (namespace_info i) (tracing_state i) (auto_attach i) (runtime i) v_current_config_hash
    (attach_start_time i) (attach_end_time i) (failed_time i) (missing_time i) (start_time i) (try_attach_count i) (attached_count i).
Definition set_attach_start_time v_attach_start_time (i : ProcessInfo) : ProcessInfo :=
  mkInfo (pid i) (cmdline i) (exe_name i) (exe_path i) (sid i) (ruid i) (rgid i)
    (euid i) (egid i) (suid i) (sgid i) (fuid i) (fgid i) (ppid i)
    (tgid i) (environ i) (namespace_info i) (tracing_state i) (auto_attach i) (runtime i) (current_config_hash i)
    v_attach_start_time (attach_end_time i) (failed_time i) (missing_time i) (start_time i) (try_attach_count i) (attached_count i).
Definition set_attach_end_time v_attach_end_time (i : ProcessInfo) : ProcessInfo :=
  mkInfo (pid i) (cmdline i) (exe_name i) (exe_path i) (sid i) (ruid i) (rgid i)
    (euid i) (egid i) (suid i) (sgid i) (fuid i) (fgid i) (ppid i)
    (tgid i) (environ i) (namespace_info i) (tracing_state i) (auto_attach i) (runtime i) (current_config_hash i)
    (attach_start_time i) v_attach_end_time (failed_time i) (missing_time i) (start_time i) (try_attach_count i) (attached_count i).
Definition set_failed_time v_failed_time (i : ProcessInfo) : ProcessInfo :=
  mkInfo (pid i) (cmdline i) (exe_name i) (exe_path i) (sid i) (ruid i) (rgid i)
    (euid i) (egid i) (suid i) (sgid i) (fuid i) (fgid i) (ppid i)
    (tgid i) (environ i) (namespace_info i) (tracing_state i) (auto_attach i) (runtime i) (current_config_hash i)
    (attach_start_time i) (attach_end_time i) v_failed_time (missing_time i) (start_time i) (try_attach_count i) (attached_count i).
Definition set_missing_time v_missing_time (i : ProcessInfo) : ProcessInfo :=
  mkInfo (pid i) (cmdline i) (exe_name i) (exe_path i) (sid i) (ruid i) (rgid i)
    (euid i) (egid i) (suid i) (sgid i) (fuid i) (fgid i) (ppid i)
    (tgid i) (environ i) (namespace_info i) (tracing_state i) (auto_attach i) (runtime i) (current_config_hash i)
    (attach_start_time i) (attach_end_time i) (failed_time i) v_missing_time (start_time i) (try_attach_count i) (attached_count i).
Definition set_start_time v_start_time (i : ProcessInfo) : ProcessInfo :=
  mkInfo (pid i) (cmdline i) (exe_name i) (exe_path i) (sid i) (ruid i) (rgid i)
    (euid i) (egid i) (suid i) (sgid i) (fuid i) (fgid i) (ppid i)
    (tgid i) (environ i) (namespace_info i) (tracing_state i) (auto_attach i) (runtime i) (current_config_hash i)
    (attach_start_time i) (attach_end_time i) (failed_time i) (missing_time i) v_start_time (try_attach_count i) (attached_count i).
Definition set_try_attach_count v_try_attach_count (i : ProcessInfo) : ProcessInfo :=
  mkInfo (pid i) (cmdline i) (exe_name i) (exe_path i) (sid i) (ruid i) (rgid i)
    (euid i) (egid i) (suid i) (sgid i) (fuid i) (fgid i) (ppid i)
    (tgid i) (environ i) (namespace_info i) (tracing_state i) (auto_attach i) (runtime i) (current_config_hash i)
    (attach_start_time i) (attach_end_time i) (failed_time i) (missing_time i) (start_time i) v_try_attach_count (attached_count i).
Definition set_attached_count v_attached_count (i : ProcessInfo) : ProcessInfo :=
  mkInfo (pid i) (cmdline i) (exe_name i) (exe_path i) (sid i) (ruid i) (rgid i)
    (euid i) (egid i) (suid i) (sgid i) (fuid i) (fgid i) (ppid i)
    (tgid i) (environ i) (namespace_info i) (tracing_state i) (auto_attach i) (runtime i) (current_config_hash i)
    (attach_start_time i) (attach_end_time i) (failed_time i) (missing_time i) (start_time i) (try_attach_count i) v_attached_count.
Definition set_exe v_exe_name v_exe_path (i : ProcessInfo) : ProcessInfo :=
  mkInfo (pid i) (cmdline i) v_exe_name v_exe_path (sid i) (ruid i) (rgid i)
    (euid i) (egid i) (suid i) (sgid i) (fuid i) (fgid i) (ppid i)
    (tgid i) (environ i) (namespace_info i) (tracing_state i) (auto_attach i) (runtime i) (current_config_hash i)
    (attach_start_time i) (attach_end_time i) (failed_time i) (missing_time i) (start_time i) (try_attach_count i) (attached_count i).
Definition set_ids v_ruid v_rgid v_euid v_egid v_suid v_sgid v_fuid v_fgid (i : ProcessInfo) : ProcessInfo :=
  mkInfo (pid i) (cmdline i) (exe_name i) (exe_path i) (sid i) v_ruid v_rgid
    v_euid v_egid v_suid v_sgid v_fuid v_fgid (ppid i)
    (tgid i) (environ i) (namespace_info i) (tracing_state i) (auto_attach i) (runtime i) (current_config_hash i)
    (attach_start_time i) (attach_end_time i) (failed_time i) (missing_time i) (start_time i) (try_attach_count i) (attached_count i).

(** ** The methods *)

(** The info and the host's calls. *)
Definition IS : Type := ProcessInfo * list call.
#[global] Instance IS_calls : HasCalls IS := {| calls := snd; set_calls h s := (fst s, h) |}.

Section Methods.
Context `{!Host} `{!Regex}.

Definition update (f : ProcessInfo -> ProcessInfo) : SM IS unit := sm_modify (fun s => (f (fst s), snd s)).
Definition self {A} (f : ProcessInfo -> A) : SM IS A := sm_gets (fun s => f (fst s)).

Definition current_time : SM IS bytes := n ← ask Now; mret (show_u64 n).
Definition update_attach_start_time : SM IS unit := t ← current_time; update (set_attach_start_time (Some t)).
Definition update_attach_end_time : SM IS unit := t ← current_time; update (set_attach_end_time (Some t)).
Definition update_failed_time : SM IS unit := t ← current_time; update (set_failed_time (Some t)).
Definition update_missing_time : SM IS unit := t ← current_time; update (set_missing_time (Some t)).

(** [u16 += 1]: a release build wraps. *)
Definition wrap_u16 (n : Z) : Z := (n mod 2 ^ 16)%Z.
Definition update_try_attach_count : SM IS unit := update (fun i => set_try_attach_count (wrap_u16 (try_attach_count i + 1)) i).
Definition update_attached_count : SM IS unit := update (fun i => set_attached_count (wrap_u16 (attached_count i + 1)) i).

(** [Process]: the pid it was opened for and the stat read then. *)
Record Process := mkProcess { p_pid : Z; p_stat : Stat }.
Definition Process_new {S} `{!HasCalls S} (p : Z) : SM S Process := r ← ask (ProcNew p); st ← try_ r; mret (mkProcess p st).

Definition update_id (process : Process) : SM IS unit :=
  r ← ask (ProcStatus_ (p_pid process)); st ← try_ r;
  update (set_ids (s_ruid st) (s_rgid st) (s_euid st) (s_egid st) (s_suid st) (s_sgid st) (s_fuid st) (s_fgid st)).

Definition update_start_time (process : Process) : SM IS f32 :=
  o ← self start_time;
  match o with
  | Some st => mret st
  | None =>
      let st := f32_of_u64 (st_starttime (p_stat process)) in
      update (set_start_time (Some st));; mret st
  end.

Definition update_exe (process : Process) : SM IS (bytes * bytes) :=
  on ← self exe_name; op ← self exe_path;
  match on, op with
  | Some n, Some p => mret (n, p)
  | _, _ =>
      r ← ask (ProcExe (p_pid process)); exe ← try_ r;
      n ← ok_or "fetch file name failed" (file_name exe);
      (if utf8_valid n then mret tt else sm_fail (Anyhow "convert osstr to str failed"));;
      (if utf8_valid exe then mret tt else sm_fail (Anyhow "convert osstr to string failed"));;
      update (set_exe (Some n) (Some exe));; mret (n, exe)
  end.

Definition update_cmdline (process : Process) : SM IS bytes :=
  o ← self cmdline;
  (match o with
   | None => r ← ask (ProcCmdline (p_pid process)); l ← try_ r; update (set_cmdline (Some (join_space l)))
   | Some _ => mret tt
   end);;
  o ← self cmdline; unwrap o.

Definition update_all_env (process : Process) : SM IS unit :=
  r ← ask (ProcEnviron (p_pid process)); envs ← try_ r; update (set_environ (Some envs)).

(** [Vec::remove] panics out of range. *)
Definition vec_remove {A} (i : nat) (l : list A) : outcome (list A) :=
  if i <? length l then Ret (take i l ++ drop (S i) l) else Panic.
(** [for i in remove.iter() { keys.remove( *i); }] *)
Fixpoint remove_each {A} (is_ : list nat) (l : list A) : outcome (list A) :=
  match is_ with
  | [] => Ret l
  | i :: is_ => l ← vec_remove i l; remove_each is_ l
  end.

(** The value of a key that is known already and is text. *)
Definition known (env : gmap bytes bytes) (key : bytes) : option bytes :=
  v ← env !! key; if utf8_valid v then Some v else None.
(** The first loop: the keys known, with their values and their positions. *)
Fixpoint known_keys (env : gmap bytes bytes) (index : nat) (keys : list bytes)
    (result : gmap bytes bytes) (remove : list nat) : gmap bytes bytes * list nat :=
  match keys with
  | [] => (result, remove)
  | key :: keys =>
      match known env key with
      | Some s => known_keys env (S index) keys (<[key := s]> result) (remove ++ [index])
      | None => known_keys env (S index) keys result remove
      end
  end.
(** A value that is missing, or is not text, counts as empty. *)
Definition text_or_empty (v : option bytes) : bytes :=
  match v with Some v => if utf8_valid v then v else [] | None => [] end.
(** The second loop: the keys left are looked up in the process's environment. *)
Fixpoint read_keys (envs : gmap bytes bytes) (keys : list bytes) (self_environ result : gmap bytes bytes) :
    gmap bytes bytes * gmap bytes bytes :=
  match keys with
  | [] => (self_environ, result)
  | key :: keys =>
      let v := envs !! key in
      let self_environ := match v with Some v => <[key := v]> self_environ | None => self_environ end in
      read_keys envs keys self_environ (<[key := text_or_empty v]> result)
  end.

Definition update_env (process : Process) (collect : list bytes) : SM IS (gmap bytes bytes) :=
  o ← self environ;
  '(keys, result) ← match o with
    | Some env =>
        let '(result, remove) := known_keys env 0 collect ∅ [] in
        keys ← sm_lift (remove_each remove collect); mret (keys, result)
    | None => update (set_environ (Some ∅));; mret (collect, ∅)
    end;
  r ← ask (ProcEnviron (p_pid process)); envs ← try_ r;
  o ← self environ; env ← unwrap o;
  let '(env, result) := read_keys envs keys env result in
  update (set_environ (Some env));; mret result.

Definition update_ns_info (process : Process) : SM IS Namespaces :=
  o ← self namespace_info;
  (match o with
   | None => r ← ask (ProcNs (p_pid process)); ns ← try_ r; update (set_namespace_info (Some ns))
   | Some _ => mret tt
   end);;
  o ← self namespace_info; unwrap o.

Definition get_mnt_ns {S} (i : ProcessInfo) : SM S bytes :=
  match namespace_info i with
  | Some ns => match mnt ns with Some m => mret m | None => sm_fail (Anyhow "process mnt ns empty") end
  | None => sm_fail (Anyhow "fetch process ns failed")
  end.

Definition update_ppid (process : Process) : SM IS Z :=
  p ← self ppid;
  if bool_decide (p <> 0%Z) then mret p
  else update (set_ppid (st_ppid (p_stat process)));; mret (st_ppid (p_stat process)).

Definition update_tgid (process : Process) : SM IS Z :=
  t ← self tgid;
  if bool_decide (t <> 0%Z) then mret t
  else r ← ask (ProcStatus_ (p_pid process)); st ← try_ r; update (set_tgid (s_tgid st));; mret (s_tgid st).

Definition update_sid (process : Process) : SM IS Z :=
  t ← self sid;
  if bool_decide (t <> 0%Z) then mret t
  else update (set_sid (st_session (p_stat process)));; mret (st_session (p_stat process)).

(** Run methods on a new info; the info is returned when they succeed. *)
Definition on_info {S A} `{!HasCalls S} (i : ProcessInfo) (m : SM IS A) : SM S (A * ProcessInfo) := fun s =>
  match m (i, calls s) with
  | (Ret a, (i', h)) => (Ret (a, i'), set_calls h s)
  | (Fail e, (_, h)) => (Fail e, set_calls h s)
  | (Panic, (_, h)) => (Panic, set_calls h s)
  end.

Definition fill (process : Process) : SM IS unit :=
  _ ← update_exe process;
  update_all_env process;;
  _ ← update_cmdline process;
  _ ← update_ns_info process;
  _ ← update_ppid process;
  _ ← update_tgid process;
  _ ← update_cmdline process;
  update_id process.

Definition from_pid {S} `{!HasCalls S} (p : Z) : SM S ProcessInfo :=
  process ← Process_new p;
  '(_, i) ← on_info (ProcessInfo_new p) (fill process);
  mret i.

(** ** The pid inside a container *)

(** [traverse_proc]: the entries of a directory that are numbers. *)
Definition numeric (names : list bytes) : list Z := omap (fun n => parse_i32 (from_utf8_lossy n)) names.
Definition proc_dir (p : Z) : bytes := bs "/proc/" ++ show_i32 p.
Definition traverse_proc {S} `{!HasCalls S} (p : Z) : SM S (list Z) :=
  r ← ask (ReadDir (proc_dir p ++ bs "/root/proc")); names ← try_ r; mret (numeric names).

Definition sched_pattern : string := "\((\d+),".
Definition sched_get_host_pid {S} `{!HasCalls S} (path : bytes) : SM S Z :=
  r ← ask (FirstLine path); line ← try_ r;
  match captures sched_pattern line with
  | Some c => match parse_i32 (group 1 c) with Some n => mret n | None => sm_fail ParseIntError end
  | None => sm_fail (Anyhow "can not find sched pid")
  end.

(** The scan for the entry whose /proc/<pid>/sched names the host's pid. *)
Definition sched_path (p q : Z) : bytes := proc_dir p ++ bs "/root/proc/" ++ show_i32 q ++ bs "/sched".
Fixpoint scan_sched {S} `{!HasCalls S} (p : Z) (pids : list Z) : SM S (option Z) :=
  match pids with
  | [] => mret None
  | q :: pids =>
      o ← attempt (sched_get_host_pid (sched_path p q));
      match o with
      | Some n => if bool_decide (n = p) then mret (Some q) else scan_sched p pids
      | None => scan_sched p pids
      end
  end.

Definition read_nspid {S} `{!HasCalls S} (p : Z) : SM S (option Z) :=
  r ← ask (ReadLink (bs "/proc/self/ns/pid")); current ← try_ r;
  r ← ask (ReadLink (proc_dir p ++ bs "/ns/pid")); target ← try_ r;
  if bool_decide (current = target) then mret (Some p)
  else
    _ ← Process_new p;
    r ← ask (ProcStatus_ p); st ← try_ r;
    match s_nspid st with
    | Some [_; n] => mret (Some n)
    | _ => pids ← traverse_proc p; scan_sched p pids
    end.
End Methods.

(** ** Lemmas *)

(** Which methods keep what: an info that holds a part of a process keeps it. *)
Definition info_ready (i : ProcessInfo) : Prop :=
  is_Some (exe_name i) /\ is_Some (exe_path i) /\ is_Some (environ i)
  /\ is_Some (cmdline i) /\ is_Some (namespace_info i).

(** The methods, with what each establishes: [P] holds of the info after a
    normal return, whatever the host answers. *)
Definition establishes {A} (P Q : ProcessInfo -> Prop) (m : SM IS A) : Prop :=
  forall s, P (fst s) -> match m s with (Ret _, s') => Q (fst s') | (Fail _, _) => True | (Panic, _) => False end.

Lemma establishes_bind {A B} P Q R (m : SM IS A) (k : A -> SM IS B) :
  establishes P Q m -> (forall a, establishes Q R (k a)) -> establishes P R (m ≫= k).
Proof.
  intros Hm Hk s HP. unfold mbind, SM_bind. specialize (Hm s HP).
  destruct (m s) as [[a|e|] s']; [|done..]. by apply Hk.
Qed.

Lemma establishes_post {A} (P Q R : ProcessInfo -> Prop) (m : SM IS A) :
  (forall i, Q i -> R i) -> establishes P Q m -> establishes P R m.
Proof. intros HQ Hm s HP. specialize (Hm s HP). destruct (m s) as [[]]; eauto. Qed.

Section Method_lemmas.
Context `{!Host} `{!Regex}.

(** Steps through a method: each call of the host, test and assignment. *)
Ltac method := repeat first
  [ progress (unfold mbind, SM_bind, ask, try_, ok_or, unwrap, update, self, sm_gets, sm_modify, sm_fail, sm_panic, mret, SM_ret in *; simpl in * )
  | case_step; simplify_eq/= ].

Lemma update_exe_ok P process :
  (forall i n p, P i -> P (set_exe (Some n) (Some p) i)) ->
  establishes P (fun i => P i /\ is_Some (exe_name i) /\ is_Some (exe_path i)) (update_exe process).
Proof. intros HP [i h] Hi. unfold update_exe. simpl in Hi. method; eauto 10. Qed.

Lemma update_all_env_ok P process :
  (forall i e, P i -> P (set_environ (Some e) i)) ->
  establishes P (fun i => P i /\ is_Some (environ i)) (update_all_env process).
Proof. intros HP [i h] Hi. unfold update_all_env. simpl in Hi. method; eauto. Qed.

Lemma update_cmdline_ok P process :
  (forall i c, P i -> P (set_cmdline (Some c) i)) ->
  establishes P (fun i => P i /\ is_Some (cmdline i)) (update_cmdline process).
Proof. intros HP [i h] Hi. unfold update_cmdline. simpl in Hi. method; eauto. all: congruence. Qed.

Lemma update_ns_info_ok P process :
  (forall i n, P i -> P (set_namespace_info (Some n) i)) ->
  establishes P (fun i => P i /\ is_Some (namespace_info i)) (update_ns_info process).
Proof. intros HP [i h] Hi. unfold update_ns_info. simpl in Hi. method; eauto. all: congruence. Qed.

Lemma update_ppid_ok P process : (forall i p, P i -> P (set_ppid p i)) -> establishes P P (update_ppid process).
Proof. intros HP [i h] Hi. unfold update_ppid. simpl in Hi. method; eauto. Qed.
Lemma update_tgid_ok P process : (forall i p, P i -> P (set_tgid p i)) -> establishes P P (update_tgid process).
Proof. intros HP [i h] Hi. unfold update_tgid. simpl in Hi. method; eauto. Qed.
Lemma update_sid_ok P process : (forall i p, P i -> P (set_sid p i)) -> establishes P P (update_sid process).
Proof. intros HP [i h] Hi. unfold update_sid. simpl in Hi. method; eauto. Qed.
Lemma update_start_time_ok P process :
  (forall i t, P i -> P (set_start_time t i)) -> establishes P P (update_start_time process).
Proof. intros HP [i h] Hi. unfold update_start_time. simpl in Hi. method; eauto. Qed.
Lemma update_id_ok P process :
  (forall i a b c d e f g h, P i -> P (set_ids a b c d e f g h i)) -> establishes P P (update_id process).
Proof. intros HP [i h] Hi. unfold update_id. simpl in Hi. method; eauto. Qed.
End Method_lemmas.

(** Each line of a sequence of methods adds what it establishes. *)
Ltac chain := eapply establishes_bind; [|intros ?].

Section From_pid.
Context `{!Host}.

Lemma on_info_ready {S A} `{!HasCalls S} (i : ProcessInfo) (m : SM IS A) (P Q : ProcessInfo -> Prop) (s : S) :
  establishes P Q m -> P i ->
  match on_info i m s with (Ret (_, i'), _) => Q i' | (Fail _, _) => True | (Panic, _) => False end.
Proof.
  intros Hm Hi. unfold on_info. specialize (Hm (i, calls s) Hi).
  by destruct (m (i, calls s)) as [[a|e|] [i' h]].
Qed.

Lemma fill_ready p process : establishes (fun i => pid i = p) (fun i => pid i = p /\ info_ready i) (fill process).
Proof.
  chain; [apply update_exe_ok; naive_solver|]. chain; [apply update_all_env_ok; naive_solver|]. chain; [apply update_cmdline_ok; naive_solver|].
  chain; [apply update_ns_info_ok; naive_solver|]. chain; [apply update_ppid_ok; naive_solver|]. chain; [apply update_tgid_ok; naive_solver|].
  chain; [apply update_cmdline_ok; naive_solver|].
  eapply establishes_post; [|apply update_id_ok; naive_solver]. unfold info_ready. naive_solver.
Qed.

Lemma from_pid_safe {S} `{!HasCalls S} (p : Z) (s : S) :
  match from_pid p s with
  | (Ret i, _) => pid i = p /\ info_ready i
  | (Fail _, _) => True
  | (Panic, _) => False
  end.
Proof.
  unfold from_pid, Process_new, mbind, SM_bind, ask. simpl.
  destruct (reply _ (ProcNew p)) as [st|]; [|done]. simpl.
  pose proof (on_info_ready (ProcessInfo_new p) (fill (mkProcess p st)) _ _
    (set_calls (calls s ++ [ProcNew p]) s) (fill_ready p (mkProcess p st)) eq_refl) as Hr.
  by destruct (on_info _ _ _) as [[[_ i']|e|] s'].
Qed.

(** A [ProcessInfo] made by [from_pid] is the one of that pid and has its
    executable, environment, command line and name spaces, so that the
    [unwrap]s of the code that inspects it are safe; otherwise [from_pid] is
    an error, never a panic. *)
Theorem from_pid_ready {S} `{!HasCalls S} (p : Z) (s : S) :
  match from_pid p s with
  | (Ret i, _) => pid i = p /\ info_ready i
  | (Fail _, _) => True
  | (Panic, _) => False
  end.
Proof. apply from_pid_safe. Qed.
End From_pid.

(** ** Collecting the environment *)

Lemma read_keys_spec envs keys env result :
  (forall k, snd (read_keys envs keys env result) !! k =
     if bool_decide (k ∈ keys) then Some (text_or_empty (envs !! k)) else result !! k)
  /\ (forall k, fst (read_keys envs keys env result) !! k =
     if bool_decide (k ∈ keys /\ is_Some (envs !! k)) then envs !! k else env !! k).
Proof.
  revert env result. induction keys as [|key keys IH]; intros env result; cbn [read_keys fst snd].
  { split; intros k; rewrite bool_decide_eq_false_2; set_solver. }
  split; intros k; [rewrite (proj1 (IH _ _))|rewrite (proj2 (IH _ _))].
  - destruct (decide (k ∈ keys)) as [Hk|Hk]; [rewrite !bool_decide_eq_true_2; set_solver|].
    rewrite (bool_decide_eq_false_2 (k ∈ keys)) by done. destruct (decide (k = key)) as [->|Hne].
    + rewrite lookup_insert_eq, bool_decide_eq_true_2; set_solver.
    + rewrite lookup_insert_ne, bool_decide_eq_false_2 by set_solver. done.
  - destruct (decide (k ∈ keys /\ is_Some (envs !! k))) as [Hk|Hk]; [rewrite !bool_decide_eq_true_2; set_solver|].
    rewrite (bool_decide_eq_false_2 (k ∈ keys /\ _)) by done. destruct (envs !! key) as [v|] eqn:E.
    + destruct (decide (k = key)) as [->|Hne].
      * rewrite lookup_insert_eq, bool_decide_eq_true_2; [done|]. rewrite E. set_solver.
      * rewrite lookup_insert_ne, bool_decide_eq_false_2; set_solver.
    + rewrite bool_decide_eq_false_2; [done|]. intros [Hin Hs]. apply Hk. split; [|done].
      apply elem_of_cons in Hin as [->|]; [|done]. rewrite E in Hs. by destruct Hs.
Qed.

(** The positions the first loop collects. *)
Lemma known_keys_remove env index keys result remove :
  snd (known_keys env index keys result remove) = remove ++ snd (known_keys env index keys ∅ []).
Proof.
  revert index result remove. induction keys as [|key keys IH]; intros index result remove; simpl.
  { by rewrite app_nil_r. }
  destruct (known env key) as [v|]; [|apply IH].
  rewrite (IH _ _ (remove ++ _)), (IH _ _ [index]). by rewrite <- app_assoc.
Qed.

Lemma known_keys_app env index ks ks' :
  snd (known_keys env index (ks ++ ks') ∅ []) =
  snd (known_keys env index ks ∅ []) ++ snd (known_keys env (index + length ks) ks' ∅ []).
Proof.
  revert index. induction ks as [|k ks IH]; intros index; simpl; [by rewrite Nat.add_0_r|].
  replace (index + S (length ks)) with (S index + length ks) by lia.
  destruct (known env k).
  - rewrite known_keys_remove, IH, (known_keys_remove _ _ ks _ [index]). by rewrite <- app_assoc.
  - apply IH.
Qed.

Lemma known_keys_bounds env index ks i :
  i ∈ snd (known_keys env index ks ∅ []) -> index <= i < index + length ks.
Proof.
  revert index. induction ks as [|k ks IH]; intros index; simpl; [by intros ?%elem_of_nil|].
  destruct (known env k); [rewrite known_keys_remove; intros [?|H]%elem_of_app|intros H].
  - set_unfold. lia.
  - apply IH in H. lia.
  - apply IH in H. lia.
Qed.

Lemma known_keys_nonempty env index ks k :
  k ∈ ks -> is_Some (known env k) -> snd (known_keys env index ks ∅ []) <> [].
Proof.
  revert index. induction ks as [|k' ks IH]; intros index; [by intros ?%elem_of_nil|].
  intros [->|Hin]%elem_of_cons Hk; simpl.
  - destruct Hk as [v ->]. rewrite known_keys_remove. by destruct (snd _).
  - destruct (known env k'); [rewrite known_keys_remove; simpl; by destruct (snd _)|]. by apply IH.
Qed.

(** Removing positions one by one shortens the list by one each time. *)
Lemma remove_each_app {A} is1 is2 (l : list A) : remove_each (is1 ++ is2) l = (remove_each is1 l ≫= remove_each is2).
Proof.
  revert l. induction is1 as [|i is1 IH]; intros l; [done|]. simpl. unfold mbind, outcome_bind in *.
  by destruct (vec_remove i l).
Qed.
Lemma remove_each_length {A} is1 (l l' : list A) : remove_each is1 l = Ret l' -> length l' + length is1 = length l.
Proof.
  revert l. induction is1 as [|i is1 IH]; intros l; simpl; [intros [= ->]; lia|].
  unfold vec_remove, mbind, outcome_bind. destruct (Nat.ltb_spec i (length l)); [|done].
  intros E%IH. rewrite length_app, length_take, length_drop in E. lia.
Qed.
Lemma remove_each_no_fail {A} is1 (l : list A) e : remove_each is1 l <> Fail e.
Proof.
  revert l. induction is1 as [|i is1 IH]; intros l; [done|]. simpl. unfold vec_remove, mbind, outcome_bind.
  by destruct (i <? length l).
Qed.

Section Update_env.
Context `{!Host}.

(** On a new info, as [collect] uses it, [update_env] returns a value for
    every key asked for, the process's own or the empty text, and no other; the
    info keeps those the process has.  On an info that already knows the last key
    asked for and another one it panics: the positions found are removed in
    ascending order, each removal moving the later ones. *)
Theorem update_env_spec process collect i h :
  (environ i = None ->
   match update_env process collect (i, h) with
   | (Ret result, (i', _)) =>
       exists envs, reply h (ProcEnviron (p_pid process)) = Some envs
       /\ (forall k, result !! k = if bool_decide (k ∈ collect) then Some (text_or_empty (envs !! k)) else None)
       /\ exists env, environ i' = Some env /\ forall k, env !! k = if bool_decide (k ∈ collect) then envs !! k else None
   | (Fail _, (i', _)) => environ i' = Some ∅
   | (Panic, _) => False
   end)
  /\ (forall env pre key key', environ i = Some env -> collect = pre ++ [key] -> key' ∈ pre ->
        is_Some (known env key) -> is_Some (known env key') -> fst (update_env process collect (i, h)) = Panic).
Proof.
  split.
  - intros Hi. unfold update_env, mbind, SM_bind, self, update, sm_gets, sm_modify, ask; simpl. rewrite Hi; simpl.
    destruct (reply h _) as [envs|] eqn:E; simpl; [|done].
    pose proof (read_keys_spec envs collect ∅ ∅) as [Hr He]. destruct (read_keys envs collect ∅ ∅) as [env result]; simpl in *.
    exists envs. split; [done|]. split; [intros k; by rewrite Hr, lookup_empty|].
    exists env. split; [done|]. intros k. rewrite He, lookup_empty.
    destruct (decide (k ∈ collect)); [|rewrite !bool_decide_eq_false_2; naive_solver].
    rewrite (bool_decide_eq_true_2 (k ∈ collect)) by done. destruct (envs !! k) eqn:Ek.
    + rewrite bool_decide_eq_true_2; [done|]. split; [done|]. by eexists.
    + by case_bool_decide.
  - intros env pre key key' Hi -> Hin [v Hv] Hk'. unfold update_env, mbind, SM_bind, self, sm_gets; simpl. rewrite Hi.
    destruct (known_keys env 0 (pre ++ [key]) ∅ []) as [result remove] eqn:E.
    assert (Hr : remove = snd (known_keys env 0 pre ∅ []) ++ [length pre]).
    { change remove with (snd (result, remove)). rewrite <- E, known_keys_app. f_equal. simpl. by rewrite Hv. }
    pose proof (known_keys_nonempty env 0 pre key' Hin Hk') as Hne.
    unfold sm_lift. rewrite Hr, remove_each_app. unfold mbind, outcome_bind.
    destruct (remove_each _ (pre ++ [key])) as [l| |] eqn:El; [|by apply remove_each_no_fail in El|done].
    apply remove_each_length in El. rewrite length_app in El; simpl in El. destruct (snd _) as [|x xs]; [done|].
    simpl in El. cbn [remove_each]. unfold vec_remove, mbind, outcome_bind.
    destruct (Nat.ltb_spec (length pre) (length l)); [lia|done].
Qed.

(** ** The pid in the container *)

(** Answers of a host that does not change. *)
Ltac at_rest fixed := repeat match goal with
  | H : context [reply ?h ?c] |- _ => lazymatch h with nil => fail | _ => rewrite (fixed h [] c) in H end
  end.

Lemma scan_sched_inv `{!Regex} {S} `{!HasCalls S} (fixed : forall h h' c, reply h c = reply h' c) p q pids (s s' : S) :
  scan_sched p pids s = (Ret (Some q), s') ->
  q ∈ pids /\ exists line c, reply [] (FirstLine (sched_path p q)) = Some line
    /\ captures sched_pattern line = Some c /\ parse_i32 (group 1 c) = Some p.
Proof.
  revert s. induction pids as [|q' pids IH]; intros s Hs; [done|]. cbn [scan_sched] in Hs.
  apply sm_bind_inv in Hs as ([n|] & s1 & H1 & Hs); [|apply IH in Hs; set_solver].
  case_bool_decide as Hn; [|apply IH in Hs; set_solver]. injection Hs as <- <-. subst n.
  split; [apply list_elem_of_here|]. unfold sched_get_host_pid in H1. sm_inv.
  destruct (captures sched_pattern _) as [c|] eqn:Ec; [|done]. destruct (parse_i32 (group 1 c)) as [n|] eqn:En; [|done].
  sm_inv. at_rest fixed. subst. eauto 10.
Qed.

(** The pid [read_nspid] returns is justified by the host, if its answers do
    not change meanwhile: the process shares our pid name space and keeps its
    pid, or the kernel lists exactly two pids for it and it is the inner one, or
    an entry of the container's /proc names the host's pid in its sched file. *)
Theorem read_nspid_correct `{!Regex} {S} `{!HasCalls S} (fixed : forall h h' c, reply h c = reply h' c) p q (s s' : S) :
  read_nspid p s = (Ret (Some q), s') ->
  (reply [] (ReadLink (bs "/proc/self/ns/pid")) = reply [] (ReadLink (proc_dir p ++ bs "/ns/pid")) /\ q = p)
  \/ (exists st n, reply [] (ProcStatus_ p) = Some st /\ s_nspid st = Some [n; q])
  \/ (exists names line c, reply [] (ReadDir (proc_dir p ++ bs "/root/proc")) = Some names /\ q ∈ numeric names
      /\ reply [] (FirstLine (sched_path p q)) = Some line /\ captures sched_pattern line = Some c
      /\ parse_i32 (group 1 c) = Some p).
Proof.
  intros Hs. unfold read_nspid in Hs. sm_inv. at_rest fixed.
  case_bool_decide as Heq; sm_inv; [left; split; congruence|].
  at_rest fixed. assert (Hscan : forall s0, (traverse_proc p ≫= scan_sched p) s0 = (Ret (Some q), s') ->
    exists names line c, reply [] (ReadDir (proc_dir p ++ bs "/root/proc")) = Some names /\ q ∈ numeric names
      /\ reply [] (FirstLine (sched_path p q)) = Some line /\ captures sched_pattern line = Some c
      /\ parse_i32 (group 1 c) = Some p).
  { intros s0 Ht. unfold traverse_proc in Ht. sm_inv. at_rest fixed.
    apply scan_sched_inv in Ht as (Hq & line & c & Hr); [|done]. subst. eauto 10. }
  right. destruct (s_nspid _) as [[|n [|q' [|]]]|] eqn:En; [right; eauto..| |right; eauto|right; eauto].
  left. sm_inv. subst. eauto.
Qed.
End Update_env.

(** ** Concrete runs *)

#[local] Existing Instance test_host.
#[local] Existing Instance test_regex.
Lemma read_nspid_correct_witness :
  exists s', read_nspid (S := list call) 7 [] = (Ret (Some 7%Z), s') /\
  ((reply [] (ReadLink (bs "/proc/self/ns/pid")) = reply [] (ReadLink (proc_dir 7 ++ bs "/ns/pid")) /\ 7%Z = 7%Z)
  \/ (exists st n, reply [] (ProcStatus_ 7) = Some st /\ s_nspid st = Some [n; 7%Z])
  \/ (exists names line c, reply [] (ReadDir (proc_dir 7 ++ bs "/root/proc")) = Some names /\ 7%Z ∈ numeric names
      /\ reply [] (FirstLine (sched_path 7 7)) = Some line /\ captures sched_pattern line = Some c
      /\ parse_i32 (group 1 c) = Some 7%Z)).
Proof.
  eexists. split; [reflexivity|]. eapply (read_nspid_correct (S := list call) (fun _ _ c => ltac:(by destruct c)) 7 7 [] _). reflexivity.
Defined.

(** A java process in the mount name space [mnt:[1]]. *)
Definition test_process (p : Z) : ProcessInfo :=
  mkInfo p (Some (bs "java -jar")) (Some (bs "java")) (Some (bs "/usr/bin/java")) 0 0 0 0 0 0 0 0 0 0 0 (Some ∅)
    (Some (mkNamespaces (Some (bs "mnt:[1]")))) None false None [] None None None None None 0 0.
Lemma test_process_ready p : info_ready (test_process p).
Proof. repeat split; by eexists. Qed.
