(* ===== verification/RaspRuntime.v ===== *)
(** * Runtimes and their probes ([librasp/src]: runtime.rs, jvm.rs, nodejs.rs,
    golang.rs, cpython.rs, php.rs)

    Which runtime a process is ([inspect_from_process_info]), whether its probe is
    already there ([inspect_process] of each runtime), and how a probe is brought
    in (the [.._attach] functions), against the host of [RaspOs]. *)

From S2P Require Import Prelude Bytes RustStd ScanEvents RaspOs RaspProcess.

(** ** Filters (runtime.rs) *)

Record RuntimeFilter := mkFilter {
  rf_cmdline : option (list bytes);
  rf_env : option (list (bytes * bytes));
  rf_exe : option (list bytes);
  rf_runtime : option bytes;
}.

Definition RuntimeFilter_new : RuntimeFilter := mkFilter None None None None.
(** The filters are constants in JSON; a field they leave out is [None]. *)
Definition exe_filter (names : list string) : RuntimeFilter := mkFilter None None (Some (map bs names)) None.
Definition DEFAULT_JVM_FILTER : RuntimeFilter := exe_filter ["java"]%string.
Definition DEFAULT_CPYTHON_FILTER : RuntimeFilter := exe_filter
  ["python"; "python2"; "python3"; "python2.7"; "python3.4"; "python3.5"; "python3.6"; "python3.7"; "python3.8";
   "python3.9"; "python3.10"; "uwsgi"]%string.
Definition DEFAULT_NODEJS_FILTER : RuntimeFilter := exe_filter ["node"; "nodejs"]%string.

Definition update_runtime (runtime_name : bytes) (self : RuntimeFilter) : RuntimeFilter :=
  mkFilter (rf_cmdline self) (rf_env self) (rf_exe self) (Some runtime_name).
Definition add_env_filter (env_name env_value : bytes) (self : RuntimeFilter) : RuntimeFilter :=
  mkFilter (rf_cmdline self)
    (Some (match rf_env self with Some v => v ++ [(env_name, env_value)] | None => [(env_name, env_value)] end))
    (rf_exe self) (rf_runtime self).
Definition add_cmdline_filter (keyword : bytes) (self : RuntimeFilter) : RuntimeFilter :=
  mkFilter (Some (match rf_cmdline self with Some v => v ++ [keyword] | None => [keyword] end))
    (rf_env self) (rf_exe self) (rf_runtime self).
Definition add_exe_filter (word : bytes) (self : RuntimeFilter) : RuntimeFilter :=
  mkFilter (rf_cmdline self) (rf_env self)
    (Some (match rf_exe self with Some v => v ++ [word] | None => [word] end)) (rf_runtime self).

(** The results are [Result<bool, ()>]: [None] is [Err(())]. *)
Definition match_runtime (self : RuntimeFilter) (runtime : bytes) : option bool :=
  match rf_runtime self with
  | Some rt => if bool_decide (rt = runtime) then Some true else Some false
  | None => Some true
  end.
Fixpoint exe_loop (exe_vec : list bytes) (target : bytes) : bool :=
  match exe_vec with
  | [] => false
  | exe :: exe_vec => if bool_decide (target = exe) then true else exe_loop exe_vec target
  end.
Definition match_exe (self : RuntimeFilter) (target_exe : bytes) : option bool :=
  match rf_exe self with None => Some false | Some v => Some (exe_loop v target_exe) end.
Fixpoint cmdline_loop (cmdlines : list bytes) (target : bytes) : bool :=
  match cmdlines with
  | [] => false
  | cmdline :: cmdlines => if starts_with target cmdline then true else cmdline_loop cmdlines target
  end.
Definition match_cmdline (self : RuntimeFilter) (target_cmdline : bytes) : option bool :=
  match rf_cmdline self with None => Some true | Some v => Some (cmdline_loop v target_cmdline) end.
(** The loop of [match_env]: [None] is the early [return Ok(false)]. *)
Fixpoint env_loop (envs : list (bytes * bytes)) (target_env : gmap bytes bytes) (count : nat) : option nat :=
  match envs with
  | [] => Some count
  | (k, v) :: envs =>
      match target_env !! k with
      | Some w => if bool_decide (w = v) then env_loop envs target_env (S count) else None
      | None => env_loop envs target_env count
      end
  end.
Definition match_env (self : RuntimeFilter) (target_env : gmap bytes bytes) : option bool :=
  match rf_env self with
  | None => Some true
  | Some envs =>
      match env_loop envs target_env 0 with
      | Some count => if count =? length envs then Some true else Some false
      | None => Some false
      end
  end.
Definition match_process_info (self : RuntimeFilter) (cmdline : bytes) (environ : gmap bytes bytes)
    (runtime_name : bytes) : option bool :=
  match rf_cmdline self, rf_env self with
  | None, None => None
  | _, _ =>
      let runtime_match := default false (match_runtime self runtime_name) in
      let cmdline_match := default false (match_cmdline self cmdline) in
      let env_match := default false (match_env self environ) in
      if cmdline_match && env_match && runtime_match then Some true else Some false
  end.

(** ** Probe states *)

Inductive ProbeState := Attached | NotAttach.

Definition MAX_BIN : Z := 500 * 1024 * 1024.

Section Runtimes.
Context {S : Type} `{!HasCalls S} `{!Host} `{!Regex} (base : bytes).
#[local] Abbreviation M := (SM S).

(** /proc/<pid>/root/<exe>, the binary as its container sees it. *)
Definition exe_in_root (p : Z) (exe_path : bytes) : bytes :=
  let path := proc_dir p ++ bs "/root/" in
  if has_root exe_path then foldl push path (components exe_path) else push path exe_path.

(** [procfs::process::Process::new(pid)?.maps()?] *)
Definition maps (p : Z) : M (list bytes) :=
  _ ← Process_new p; r ← ask (ProcMaps p); try_ r.

(** The first mapped path that is text and contains [needle]. *)
Fixpoint mapped (needle : bytes) (ms : list bytes) : ProbeState :=
  match ms with
  | [] => NotAttach
  | m :: ms => if utf8_valid m && contains m needle then Attached else mapped needle ms
  end.

(** ** JVM (jvm.rs) *)

Definition JVMProbe_names : list bytes * list bytes :=
  ([settings.RASP_JAVA_JATTACH_BIN base; settings.RASP_JAVA_PROBE_BIN base], []).

Definition java_attach (p : Z) : M bool :=
  _ ← run_async_process (settings.RASP_JAVA_JATTACH_BIN base)
        [show_i32 p; bs "load"; bs "instrument"; bs "false"; settings.RASP_JAVA_PROBE_BIN base];
  mret true.

Definition jcmd (p : Z) (cmd : bytes) : M bytes :=
  r ← ask (CommandOutput (settings.RASP_JAVA_JATTACH_BIN base) [show_i32 p; bs "jcmd"; cmd]);
  o ← try_ r; mret (out_stdout o).

Definition vm_version (p : Z) : M Z :=
  stdout ← jcmd p (bs "VM.version");
  let response := if utf8_valid stdout then stdout else [] in
  match captures "JDK (\d+)\." response with
  | Some c => match parse_i32 (group 1 c) with Some vm => mret vm | None => sm_fail ParseIntError end
  | None => sm_fail (Anyhow "can not find version")
  end.

Definition prop (p : Z) : M bool :=
  stdout ← jcmd p (bs " VM.system_properties");
  mret (is_match "rasp\.probe" (from_utf8_lossy stdout)).

Definition JVM_inspect_process (i : ProcessInfo) : M ProbeState :=
  b ← prop (pid i); mret (if b : bool then Attached else NotAttach).

(** ** NodeJS (nodejs.rs) *)

Definition NodeJSProbe_names : list bytes * list bytes := ([], [settings.RASP_NODEJS_DIR base]).

Definition require_prefix : bytes := bs "setTimeout((inspector) => {inspector.close(); }, 500, require('inspector')); if (!Object.keys(require.cache).some(m => m.includes('smith.js'))) { require('".

Definition nodejs_run (p : Z) (node_path smith_module_path : bytes) : M bool :=
  o ← read_nspid p;
  let nspid := default p o in
  let require_module := require_prefix ++ smith_module_path ++ bs "');}" in
  r ← ask (CommandOutput (settings.RASP_NS_ENTER_BIN base)
        [bs "-m"; bs "-n"; bs "-p"; bs "-t"; show_i32 p; node_path; settings.RASP_NODEJS_INJECTOR base;
         show_i32 nspid; require_module]);
  out ← try_ r;
  if success (out_status out) then mret true
  else match out_status out with
       | Some n => if bool_decide (n = 1%Z) then sm_fail (Anyhow "can not attach nodejs") else sm_fail (Anyhow "return code")
       | None => sm_fail (Anyhow "no return code founded")
       end.

Definition nodejs_attach (p : Z) (node_path : bytes) : M bool :=
  nodejs_run p node_path (settings.RASP_NODEJS_DIR base).

Definition nodejs_version (p : Z) (nodejs_bin_path : bytes) : M (Z * Z * bytes) :=
  r ← ask (CommandOutput (settings.RASP_NS_ENTER_BIN base)
        [bs "-m"; bs "-n"; bs "-p"; bs "-t"; show_i32 p; nodejs_bin_path; bs "-v"]);
  out ← try_ r;
  let output := if utf8_valid (out_stdout out) then out_stdout out else [] in
  if bool_decide (output = []) then sm_fail (Anyhow "empty stdout")
  else match captures "v((\d+)\.(\d+)\.\d+)" output with
       | Some c =>
           match parse_u32 (group 2 c), parse_u32 (group 3 c) with
           | Some major, Some minor => mret (major, minor, group 1 c)
           | _, _ => sm_fail ParseIntError
           end
       | None => sm_fail (Anyhow "can not find version")
       end.

(** ** Golang (golang.rs) *)

Definition GolangProbe_names : list bytes * list bytes := ([settings.RASP_GOLANG base], []).

Definition golang_search_proc_map (i : ProcessInfo) : M ProbeState :=
  ms ← maps (pid i); mret (mapped (bs "go_probe") ms).

(** A thread whose stat cannot be read is passed over. *)
Definition search_thread (i : ProcessInfo) : M ProbeState :=
  _ ← Process_new (pid i); r ← ask (ProcTasks (pid i)); tasks ← try_ r;
  mret (if existsb (fun t => bool_decide (t = Some (bs "go-probe"))) tasks then Attached else NotAttach).

Definition Golang_inspect_process (i : ProcessInfo) : M ProbeState :=
  o ← attempt (search_thread i);
  match o with Some Attached => mret Attached | _ => golang_search_proc_map i end.

(** The exit codes of the injector, for Go and for Python. *)
Definition injector_result (name : string) (es : ExitStatus) : M bool :=
  match es with
  | None => sm_fail (Anyhow "get status code failed")
  | Some ec => if bool_decide (ec = 0%Z) then mret true else sm_fail (Anyhow name)
  end.

Definition golang_attach (p : Z) : M bool :=
  out ← run_async_process (settings.RASP_PANGOLIN base)
          [bs "--daemon"; bs "--deaf"; show_i32 p; settings.RASP_GOLANG base];
  injector_result "golang attach exit code" (out_status out).

(** [name.unwrap()] panics on a section name that is not text. *)
Fixpoint section_loop (sections : list (option (option bytes))) : M bool :=
  match sections with
  | [] => mret false
  | None :: sections => section_loop sections
  | Some None :: _ => sm_panic
  | Some (Some name) :: sections => if bool_decide (name = bs ".gopclntab") then mret true else section_loop sections
  end.

Definition golang_bin_inspect (bin_file : bytes) : M bool :=
  r ← ask (Metadata bin_file); size ← try_ r;
  if (MAX_BIN <=? size)%Z then sm_fail (Anyhow "bin file oversize")
  else r ← ask (ElfParse bin_file); elf ← try_ r; section_loop (elf_sections elf).

(** ** CPython (cpython.rs) *)

Definition CPythonProbe_names : list bytes * list bytes :=
  ([settings.RASP_PYTHON_LOADER base], [settings.RASP_PYTHON_DIR base]).

Definition CPython_inspect_process (i : ProcessInfo) : M ProbeState :=
  ms ← maps (pid i); mret (mapped (bs "python_loader") ms).

Fixpoint libpython_loop (ms : list bytes) : option bytes :=
  match ms with
  | [] => None
  | m :: ms =>
      if utf8_valid m then
        match captures "libpython(\d\.\d+)\.so" m with
        | Some c => match mjoin (c !! 1) with Some version => Some version | None => libpython_loop ms end
        | None => libpython_loop ms
        end
      else libpython_loop ms
  end.
Definition libpython_inspect (i : ProcessInfo) : M (option bytes) := ms ← maps (pid i); mret (libpython_loop ms).

(** Indexing the string table panics outside it. *)
Fixpoint symbol_loop (names : list (option bytes)) : M bool :=
  match names with
  | [] => mret false
  | None :: _ => sm_panic
  | Some name :: names => if bool_decide (name = bs "PyRun_SimpleString") then mret true else symbol_loop names
  end.
Definition symbol_inspect (i : ProcessInfo) : M (option bytes) :=
  exe_path ← unwrap (exe_path i);
  let path := exe_in_root (pid i) exe_path in
  r ← ask (Metadata path); size ← try_ r;
  if (MAX_BIN <=? size)%Z then sm_fail (Anyhow "bin file oversize")
  else
    r ← ask (ElfParse path); elf ← try_ r;
    found ← symbol_loop (elf_dynsyms elf);
    if found : bool then mret (Some (bs "Unknow"))
    else found ← symbol_loop (elf_syms elf); mret (if found : bool then Some (bs "Unknow") else None).

Definition python_inspect (i : ProcessInfo) : M (option bytes) :=
  o ← attempt (libpython_inspect i);
  match o with
  | Some (Some s) => mret (Some s)
  | _ => o ← attempt (symbol_inspect i); match o with Some (Some s) => mret (Some s) | _ => mret None end
  end.

Definition entry_py : bytes := bs "import os
import sys

name = 'rasp'
path = '" ++ settings.RASP_PYTHON_DIR base ++ bs "/__init__.py'

if sys.version_info >= (3, 3):
    from importlib.machinery import SourceFileLoader
    SourceFileLoader(name, path).load_module()
elif sys.version_info >= (2, 7):
    import imp
    imp.load_module(name, None, os.path.dirname(path), ('', '', imp.PKG_DIRECTORY))

".
Definition write_python_entry (p : Z) : M unit :=
  r ← ask (WriteAll (proc_dir p ++ bs "/root" ++ settings.RASP_PYTHON_ENTRY base) entry_py); try_ r.

Definition pangolin_inject_file (p : Z) (file_path : bytes) : M bool :=
  out ← run_async_process (settings.RASP_PANGOLIN base)
          [show_i32 p; bs "--"; settings.RASP_PYTHON_LOADER base; bs "--file"; file_path];
  injector_result "python attach exit code" (out_status out).

Definition python_attach (p : Z) : M bool :=
  write_python_entry p;; pangolin_inject_file p (settings.RASP_PYTHON_ENTRY base).
End Runtimes.

(** ** PHP (php.rs) *)

Module php.
Section php.
Context {S : Type} `{!HasCalls S} `{!Host} `{!Regex} (base : bytes).
#[local] Abbreviation M := (SM S).

Definition inspect_phpfpm (process : ProcessInfo) : M bool :=
  name ← unwrap (exe_name process);
  if starts_with name (bs "php-fpm") then
    ppi ← from_pid (ppid process);
    name ← unwrap (exe_name ppi);
    if starts_with name (bs "php-fpm") then mret false else mret true
  else mret false.

(** [nsenter -m -p -t <pid> <php-fpm> <flag>] *)
Definition execute_phpfpm (flag : bytes) (p : Z) (phpfpm : bytes) : M bytes :=
  out ← run_async_process (settings.RASP_NS_ENTER_BIN base) [bs "-m"; bs "-p"; bs "-t"; show_i32 p; phpfpm; flag];
  if success (out_status out) then mret (out_stdout out) else sm_fail (Anyhow "can not fetch phpfpm").
Definition execute_phpfpm_version : Z -> bytes -> M bytes := execute_phpfpm (bs "-v").
Definition execute_phpfpm_info : Z -> bytes -> M bytes := execute_phpfpm (bs "-i").

Definition inspect_phpfpm_version (process : ProcessInfo) : M bytes :=
  exe ← unwrap (exe_path process);
  output ← execute_phpfpm_version (pid process) exe;
  match captures "PHP ((\d\.\d+)\.\d+)(-| )" output with
  | Some caps => if length caps =? 4 then unwrap (mjoin (caps !! 2)) else sm_fail (Anyhow "can not found php version")
  | None => sm_fail (Anyhow "can not found php version")
  end.

Definition inspect_phpfpm_zts (process : ProcessInfo) : M bool :=
  exe ← unwrap (exe_path process);
  output ← execute_phpfpm_info (pid process) exe;
  mret (is_match "Configure Command.+zts" output).

Definition check_probe (process_info : ProcessInfo) : M ProbeState :=
  ms ← maps (pid process_info); mret (mapped (bs "probe") ms).
Definition PHP_inspect_process : ProcessInfo -> M ProbeState := check_probe.

(** *** Where the configuration is *)

Fixpoint maps_loop (ms : list bytes) : option bytes :=
  match ms with
  | [] => None
  | m :: ms => if utf8_valid m && is_match "\b/php.+\.so" m then Some m else maps_loop ms
  end.
Definition search_maps (process : Process) : M (option bytes) :=
  r ← ask (ProcMaps (p_pid process)); ms ← try_ r; mret (maps_loop ms).
Definition locate_extension_dir (process : Process) : M bytes :=
  o ← search_maps process;
  match o ≫= parent with Some p => mret p | None => sm_fail (Anyhow "can not found extension dir") end.

(** An expression without groups has one capture, the match itself. *)
Fixpoint argv_loop (cmdlines : list bytes) : option bytes :=
  match cmdlines with
  | [] => None
  | cmdline :: cmdlines =>
      match captures "/.+php.+\.conf" cmdline with
      | Some caps => if 1 <? length caps then argv_loop cmdlines else Some (group 0 caps)
      | None => argv_loop cmdlines
      end
  end.
Definition search_argv (process : Process) : M (option bytes) :=
  r ← ask (ProcCmdline (p_pid process)); cmdlines ← try_ r; mret (argv_loop cmdlines).

(** [conf.d] beside the directory, if it exists in the container. *)
Definition confd_in (process : Process) (dir : bytes) : M (option bytes) :=
  let confd := push dir (bs "conf.d") in
  b ← ask (Exists (proc_dir (p_pid process) ++ bs "/root" ++ confd));
  mret (if b : bool then Some confd else None).
Definition locate_confd_dir (process : Process) : M bytes :=
  o ← search_argv process;
  match o ≫= parent with
  | Some confp =>
      o ← confd_in process confp;
      match o with
      | Some confd => mret confd
      | None =>
          match parent confp with
          | Some confpp =>
              o ← confd_in process confpp;
              match o with Some confd => mret confd | None => sm_fail (Anyhow "can not found phpfpm confd dir") end
          | None => sm_fail (Anyhow "can not found phpfpm confd dir")
          end
      end
  | None => sm_fail (Anyhow "can not found phpfpm confd dir")
  end.

(** *** Writing into the container *)

Definition create_dir_if_not_exist (dir dest_root : bytes) : M unit :=
  b ← ask (Exists (dest_root ++ dir));
  if b : bool then mret tt else r ← ask (CreateAll (dest_root ++ dir)); try_ r.

Definition copy_file_from_to_dest (from dest_root : bytes) : M unit :=
  let target := dest_root ++ bs "/" ++ from in
  b ← ask (Exists target);
  if b : bool then mret tt
  else
    dir ← unwrap (parent from);
    create_dir_if_not_exist dir dest_root;;
    r ← ask (CopyFile from target);
    ok_or "copy failed" r.

Definition copy_so_to_extension_dir (root_dir extension_dir probe_path probe_name : bytes) : M unit :=
  let target_path := root_dir ++ bs "/" ++ extension_dir ++ bs "/" ++ probe_name in
  b ← ask (Exists target_path);
  if b : bool then mret tt else r ← ask (CopyFile probe_path target_path); try_ r.

Definition write_conf_to_cond_dir (root_dir confd_dir probe_path : bytes) : M unit :=
  copy_file_from_to_dest probe_path root_dir;;
  r ← ask (WriteAll (root_dir ++ bs "/" ++ confd_dir ++ bs "/999-php_probe.ini") (bs "extension=" ++ probe_path));
  try_ r.

Definition SIGUSR2 : Z := 12.
Definition reload_phpfpm (p : Z) : M unit :=
  r ← ask (Kill p SIGUSR2);
  if bool_decide ((r : Z) = (-1)%Z) then sm_fail (Anyhow "restart phpfpm failed") else mret tt.

(** [RASP_PHP_PROBE(..).unwrap()] panics when there is no probe for the version. *)
Definition probe_of (version : bytes) : M (bytes * bytes) :=
  match split_on "." version with
  | [major; miner] => unwrap (settings.RASP_PHP_PROBE base major miner false)
  | [major; miner; _] => unwrap (settings.RASP_PHP_PROBE base major miner true)
  | _ => sm_fail (Anyhow "php version detect failed")
  end.

Definition php_attach (process_info : ProcessInfo) (version : bytes) : M bool :=
  process ← Process_new (pid process_info);
  '(probe_path, probe_name) ← probe_of version;
  o ← attempt (locate_confd_dir process);
  match o with
  | Some path =>
      o ← attempt (write_conf_to_cond_dir (proc_dir (pid process_info) ++ bs "/root") path probe_path);
      match o with
      | Some _ => reload_phpfpm (pid process_info);; mret true
      | None => mret false
      end
  | None => mret false
  end.
End php.
End php.

(** ** Inspection (runtime.rs) *)

Section Inspect.
Context {S : Type} `{!HasCalls S} `{!Host} `{!Regex} (base : bytes).
#[local] Abbreviation M := (SM S).

(** The version of NodeJS: none below 8.6, and the empty one when it cannot be
    read. *)
Definition nodejs_checked_version (p : Z) (exe : bytes) : M bytes :=
  o ← attempt (nodejs_version base p exe);
  match o with
  | Some (major, minor, v) =>
      if (major <? 8)%Z then sm_fail (Anyhow "nodejs version lower than 8.6")
      else if bool_decide (major = 8%Z) && (minor <? 6)%Z then sm_fail (Anyhow "nodejs version lower than 8.6")
      else mret v
  | None => mret []
  end.

(** The part for PHP: [None] goes on to the next test. *)
Definition inspect_php (i : ProcessInfo) : M (option Runtime) :=
  o ← attempt (php.inspect_phpfpm i);
  match o with
  | Some true =>
      o ← attempt (php.inspect_phpfpm_version base i);
      match o with
      | Some version =>
          zts ← php.inspect_phpfpm_zts base i;
          mret (Some (mkRuntime (bs "PHP") (if zts : bool then version ++ bs ".zts" else version)))
      | None => mret None
      end
  | _ => mret None
  end.

Definition inspect_from_process_info (i : ProcessInfo) : M (option Runtime) :=
  exe ← unwrap (exe_name i);
  if default false (match_exe DEFAULT_JVM_FILTER exe) then
    v ← vm_version base (pid i); mret (Some (mkRuntime (bs "JVM") (show_i32 v)))
  else if default false (match_exe DEFAULT_CPYTHON_FILTER exe) then
    mret (Some (mkRuntime (bs "CPython") []))
  else if default false (match_exe DEFAULT_NODEJS_FILTER exe) then
    version ← nodejs_checked_version (pid i) exe; mret (Some (mkRuntime (bs "NodeJS") version))
  else
    path ← unwrap (exe_path i);
    o ← attempt (golang_bin_inspect (exe_in_root (pid i) path));
    match o with
    | Some true => mret (Some (mkRuntime (bs "Golang") []))
    | _ =>
        o ← inspect_php i;
        match o with
        | Some r => mret (Some r)
        | None =>
            o ← python_inspect i;
            match o with Some version => mret (Some (mkRuntime (bs "CPython") version)) | None => mret None end
        end
    end.
End Inspect.

(** ** Theorems *)

(** *** Filters *)

Lemma exe_loop_spec v t : exe_loop v t = true <-> t ∈ v.
Proof.
  induction v as [|e v IH]; simpl; [by split; [|intros ?%elem_of_nil]|].
  rewrite elem_of_cons. case_bool_decide; naive_solver.
Qed.
Lemma cmdline_loop_spec v t : cmdline_loop v t = true <-> exists c, c ∈ v /\ starts_with t c = true.
Proof.
  induction v as [|e v IH]; simpl; [split; [done|by intros (? & ?%elem_of_nil & _)]|].
  destruct (starts_with t e) eqn:E.
  - split; [|done]. intros _. exists e. split; [apply list_elem_of_here|done].
  - rewrite IH. split; intros (c & Hc & Hs); exists c; (split; [|done]); [by apply list_elem_of_further|].
    apply elem_of_cons in Hc as [->|]; [congruence|done].
Qed.
Lemma env_loop_spec v env n c :
  env_loop v env n = Some c ->
  c <= n + length v /\ (c = n + length v <-> Forall (fun kv => env !! kv.1 = Some kv.2) v).
Proof.
  revert n. induction v as [|[k w] v IH]; intros n; simpl; [intros [= ->]; split; [lia|split; [by constructor|lia]]|].
  rewrite Forall_cons; simpl. destruct (env !! k) as [w'|] eqn:E.
  - case_bool_decide as Hw; [|done]. intros (H1 & H2)%IH. split; [lia|]. subst w'.
    replace (n + S (length v)) with (S n + length v) by lia. rewrite H2. naive_solver.
  - intros (H1 & H2)%IH. split; [lia|]. split; [lia|]. by intros [[=] _].
Qed.
Lemma env_loop_none v env n : env_loop v env n = None -> ~ Forall (fun kv => env !! kv.1 = Some kv.2) v.
Proof.
  revert n. induction v as [|[k w] v IH]; intros n; simpl; [done|]. rewrite Forall_cons; simpl.
  destruct (env !! k) as [w'|] eqn:E; [case_bool_decide|]; naive_solver.
Qed.
Lemma match_env_spec f env v :
  rf_env f = Some v -> match_env f env = Some (bool_decide (Forall (fun kv => env !! kv.1 = Some kv.2) v)).
Proof.
  intros E. unfold match_env. rewrite E. destruct (env_loop v env 0) as [c|] eqn:Ec.
  - apply env_loop_spec in Ec as [_ Hc]. rewrite Nat.add_0_l in Hc.
    destruct (Nat.eqb_spec c (length v)); [rewrite bool_decide_eq_true_2 by tauto|rewrite bool_decide_eq_false_2 by tauto]; done.
  - apply env_loop_none in Ec. by rewrite bool_decide_eq_false_2.
Qed.

(** C23: [match_process_info] is an error exactly for a filter with neither command
    lines nor environment; otherwise it says yes exactly when the runtime is the
    filter's if it names one, the command line starts with one of the filter's if
    it lists any, and the environment has every one of the filter's variables
    with its value. *)
Theorem match_process_info_spec f cmd env rt :
  (match_process_info f cmd env rt = None <-> rf_cmdline f = None /\ rf_env f = None)
  /\ (match_process_info f cmd env rt = Some true <->
      ~ (rf_cmdline f = None /\ rf_env f = None)
      /\ (forall r, rf_runtime f = Some r -> r = rt)
      /\ (forall v, rf_cmdline f = Some v -> exists c, c ∈ v /\ exists rest, cmd = c ++ rest)
      /\ (forall v, rf_env f = Some v -> Forall (fun kv => env !! kv.1 = Some kv.2) v)).
Proof.
  assert (Hr : default false (match_runtime f rt) = true <-> forall r, rf_runtime f = Some r -> r = rt).
  { unfold match_runtime. destruct (rf_runtime f) as [r|]; [case_bool_decide|]; simpl; unfold id; naive_solver. }
  assert (Hc : default false (match_cmdline f cmd) = true <->
    forall v, rf_cmdline f = Some v -> exists c, c ∈ v /\ exists rest, cmd = c ++ rest).
  { unfold match_cmdline. destruct (rf_cmdline f) as [v|]; simpl; unfold id; [|naive_solver]. rewrite cmdline_loop_spec.
    setoid_rewrite starts_with_spec. naive_solver. }
  assert (He : default false (match_env f env) = true <->
    forall v, rf_env f = Some v -> Forall (fun kv => env !! kv.1 = Some kv.2) v).
  { destruct (rf_env f) as [v|] eqn:E; [rewrite (match_env_spec f env v E); simpl; unfold id; rewrite bool_decide_eq_true; naive_solver|].
    unfold match_env. rewrite E. simpl. unfold id. naive_solver. }
  assert (Hif : forall a b c : bool, (if a && b && c then Some true else Some false) = Some true <-> c = true /\ a = true /\ b = true).
  { intros [] [] []; simpl; intuition congruence. }
  assert (Hnone : forall b : bool, (if b then Some true else Some false) <> None) by (by intros []).
  unfold match_process_info. rewrite <- Hr, <- Hc, <- He.
  destruct (decide (rf_cmdline f = None /\ rf_env f = None)) as [[E1 E2]|Hne].
  - rewrite E1, E2. split; [done|]. split; [done|]. by intros [[] _].
  - assert (E : match rf_cmdline f, rf_env f with None, None => None
      | _, _ => if default false (match_cmdline f cmd) && default false (match_env f env) && default false (match_runtime f rt)
                then Some true else Some false end
      = (if default false (match_cmdline f cmd) && default false (match_env f env) && default false (match_runtime f rt)
         then Some true else Some false)) by (destruct (rf_cmdline f), (rf_env f); [done..|by destruct Hne]).
    rewrite E, Hif. clear E. split; [|tauto]. split; [by intros ?%Hnone|done].
Qed.

(** *** Inspection is safe *)

(** What the host and the expressions are relied on: [goblin] gives names that are
    text and lie in their tables, and the expression for PHP's version has its
    second group in every match. *)
Definition elf_ok (elf : Elf) : Prop :=
  (Some None ∉ elf_sections elf) /\ (None ∉ elf_dynsyms elf) /\ (None ∉ elf_syms elf).
Definition php_pattern : string := "PHP ((\d\.\d+)\.\d+)(-| )".

Section Inspect_safe.
Context {S : Type} `{!HasCalls S} `{!Host} `{!Regex} (base : bytes).
Context (elves : forall h path elf, reply h (ElfParse path) = Some elf -> elf_ok elf).
Context (php_groups : forall s caps, captures php_pattern s = Some caps -> is_Some (mjoin (caps !! 2))).

Lemma no_panic_section_loop l : Some None ∉ l -> no_panic (S := S) (section_loop l).
Proof.
  induction l as [|[[n|]|] l IH]; intros Hl; [done|..]; cbn [section_loop].
  - case_bool_decide; [done|]. apply IH. set_solver.
  - set_solver.
  - apply IH. set_solver.
Qed.
Lemma no_panic_symbol_loop l : None ∉ l -> no_panic (S := S) (symbol_loop l).
Proof.
  induction l as [|[n|] l IH]; intros Hl; [done|..]; cbn [symbol_loop]; [|set_solver].
  case_bool_decide; [done|]. apply IH. set_solver.
Qed.

(** After the call that parses a binary, its names are as relied on. *)
Lemma no_panic_elf {A} path (k : Elf -> SM S A) :
  (forall elf, elf_ok elf -> no_panic (k elf)) -> no_panic (r ← ask (ElfParse path); elf ← try_ r; k elf).
Proof.
  intros Hk s. unfold mbind, SM_bind, ask, try_. destruct (reply (calls s) (ElfParse path)) as [elf|] eqn:E; [|done].
  apply Hk. by eapply elves.
Qed.

Lemma no_panic_from_pid p : no_panic (S := S) (from_pid p).
Proof. intros s. pose proof (from_pid_safe p s) as Hp. by destruct (from_pid p s) as [[]]. Qed.
Lemma no_panic_Process_new p : no_panic (S := S) (Process_new p).
Proof. unfold Process_new. no_panic. Qed.
Lemma no_panic_scan_sched p pids : no_panic (S := S) (scan_sched p pids).
Proof. induction pids as [|q pids IH]; cbn [scan_sched]; unfold sched_get_host_pid; no_panic. Qed.
Hint Resolve no_panic_from_pid no_panic_Process_new no_panic_scan_sched : no_panic.
Lemma no_panic_read_nspid p : no_panic (S := S) (read_nspid p).
Proof. unfold read_nspid, traverse_proc. no_panic. Qed.
Hint Resolve no_panic_section_loop no_panic_symbol_loop : no_panic.
Ltac no_panic_elf := repeat first [ apply no_panic_elf; intros ? (? & ? & ?) | progress no_panic_step ].
Lemma no_panic_golang_bin path : no_panic (S := S) (golang_bin_inspect path).
Proof. unfold golang_bin_inspect. no_panic_elf. Qed.
Lemma no_panic_python i : is_Some (exe_path i) -> no_panic (S := S) (python_inspect i).
Proof.
  intros Hp. unfold python_inspect, libpython_inspect, symbol_inspect, maps. no_panic_elf.
Qed.
Lemma no_panic_php i : is_Some (exe_name i) -> is_Some (exe_path i) -> no_panic (S := S) (inspect_php base i).
Proof.
  intros Hn Hp. unfold inspect_php. apply no_panic_bind.
  { apply no_panic_attempt. intros s. unfold php.inspect_phpfpm. destruct Hn as [n ->].
    unfold mbind, SM_bind, unwrap, mret, SM_ret. destruct (starts_with n (bs "php-fpm")); [|done].
    pose proof (from_pid_safe (ppid i) s) as Hi. destruct (from_pid (ppid i) s) as [[j|e|] s']; [|done..].
    destruct Hi as (_ & [m ->] & _). by destruct (starts_with m (bs "php-fpm")). }
  intros [[]|]; [|done..]. unfold php.inspect_phpfpm_version, php.inspect_phpfpm_zts, php.execute_phpfpm_version, php.execute_phpfpm_info, php.execute_phpfpm.
  no_panic.
Qed.
Hint Resolve no_panic_read_nspid no_panic_golang_bin no_panic_python no_panic_php : no_panic.

Lemma inspect_php_name i s r s' : inspect_php base i s = (Ret (Some r), s') -> rt_name r = bs "PHP".
Proof.
  unfold inspect_php. intros E. apply sm_bind_inv in E as ([[]|] & s1 & _ & E); [|done..].
  apply sm_bind_inv in E as ([v|] & s2 & _ & E); [|done]. apply sm_bind_inv in E as (zts & s3 & _ & E). by injection E as <- _.
Qed.

End Inspect_safe.

(** *** Attaching to PHP *)

(** A path that ends in a plain name has a parent. *)
Lemma parent_named q name :
  "/"%byte ∉ name -> name <> [] -> name <> bs "." -> is_Some (parent (q ++ bs "/" ++ name)).
Proof.
  intros Hs Hn Hd. unfold parent. assert (Hc : name ∈ components (q ++ bs "/" ++ name)).
  { unfold components. apply list_elem_of_filter. split; [done|].
    change (q ++ bs "/" ++ name) with (q ++ "/"%byte :: name). rewrite split_on_app, (split_on_nosep _ name) by done.
    apply elem_of_app. right. apply list_elem_of_here. }
  destruct (components _); [by apply elem_of_nil in Hc|]. by eexists.
Qed.

Lemma php_supported_cases major miner :
  settings.php_supported major miner = true ->
  (major, miner) ∈ [(bs "5", bs "3"); (bs "5", bs "4"); (bs "5", bs "5"); (bs "5", bs "6"); (bs "7", bs "0");
    (bs "7", bs "2"); (bs "7", bs "3"); (bs "7", bs "4"); (bs "8", bs "0"); (bs "8", bs "1")].
Proof. unfold settings.php_supported. repeat case_bool_decide; set_solver. Qed.

Lemma probe_has_parent base major miner zts path name :
  settings.RASP_PHP_PROBE base major miner zts = Some (path, name) -> is_Some (parent path).
Proof.
  unfold settings.RASP_PHP_PROBE. destruct (settings.php_supported major miner) eqn:Hs; [|done].
  intros Heq. apply (f_equal (fun o => default [] (fst <$> o))) in Heq. change (default [] (fst <$> Some (path, name))) with path in Heq.
  rewrite <- Heq. clear Heq. cbv beta iota zeta delta [fmap option_fmap option_map fst default from_option id].
  apply php_supported_cases in Hs. assert (E : forall l n : bytes, l ++ bs "/php/" ++ n = (l ++ bs "/php") ++ bs "/" ++ n) by (intros; by rewrite <- app_assoc).
  rewrite E. apply parent_named.
  all: repeat (apply elem_of_cons in Hs as [[= -> ->]|Hs]; [destruct zts; apply (bool_decide_unpack _); by vm_compute|]); by apply elem_of_nil in Hs.
Qed.

Section Php_attach.
Context {S : Type} `{!HasCalls S} `{!Host} `{!Regex} (base : bytes).

Lemma Process_new_eq p s st :
  reply (calls s) (ProcNew p) = Some st -> Process_new p s = (Ret (mkProcess p st), set_calls (calls s ++ [ProcNew p]) s).
Proof. intros E. unfold Process_new, mbind, SM_bind, ask, try_. by rewrite E. Qed.

Lemma no_panic_confd process : no_panic (S := S) (php.locate_confd_dir process).
Proof. unfold php.locate_confd_dir, php.search_argv, php.confd_in. no_panic. Qed.
Lemma no_panic_write_conf root confd probe :
  is_Some (parent probe) -> no_panic (S := S) (php.write_conf_to_cond_dir root confd probe).
Proof.
  intros Hp. unfold php.write_conf_to_cond_dir, php.copy_file_from_to_dest, php.create_dir_if_not_exist. no_panic.
Qed.
Lemma no_panic_reload p : no_panic (S := S) (php.reload_phpfpm p).
Proof. unfold php.reload_phpfpm. no_panic. Qed.
Hint Resolve no_panic_confd no_panic_write_conf no_panic_reload : no_panic.

(** Attaching to a PHP process whose version is [major.miner], with or without
    thread safety, panics exactly when there is no probe for the version: PHP 7.1
    or 8.2 ends the thread that attaches, instead of an error for that process. *)
Theorem php_attach_panics i major miner (zts : bool) s st :
  "."%byte ∉ major -> "."%byte ∉ miner -> reply (calls s) (ProcNew (pid i)) = Some st ->
  fst (php.php_attach base i (major ++ bs "." ++ miner ++ (if zts then bs ".zts" else [])) s) = Panic
  <-> settings.php_supported major miner = false.
Proof.
  intros Hma Hmi Hst. assert (Hprobe : php.probe_of (S := S) base (major ++ bs "." ++ miner ++ (if zts then bs ".zts" else []))
    = unwrap (settings.RASP_PHP_PROBE base major miner zts)).
  { unfold php.probe_of. change (major ++ bs "." ++ ?l) with (major ++ "."%byte :: l). rewrite split_on_app_sep by done.
    destruct zts; [change (miner ++ bs ".zts") with (miner ++ "."%byte :: bs "zts"); by rewrite split_on_app_sep|].
    by rewrite app_nil_r, split_on_nosep. }
  unfold php.php_attach. rewrite Hprobe, (sm_bind_ret _ _ _ _ _ (Process_new_eq _ _ _ Hst)).
  destruct (settings.RASP_PHP_PROBE base major miner zts) as [[path name]|] eqn:E.
  - pose proof (probe_has_parent _ _ _ _ _ _ E) as Hp. unfold settings.RASP_PHP_PROBE in E.
    destruct (settings.php_supported major miner); [|done]. split; [|done]. intros Hpanic. exfalso. revert Hpanic.
    rewrite (sm_bind_ret (unwrap (Some (path, name))) _ _ (path, name) _ eq_refl). cbv beta iota.
    match goal with |- (?m ?s1).1 = Panic -> False => enough (Hnp : no_panic m) by exact (Hnp s1) end.
    no_panic.
  - unfold settings.RASP_PHP_PROBE in E. by destruct (settings.php_supported major miner).
Qed.

(** Attaching to a JVM reports success for every child that could be waited for,
    also when the injector failed. *)
Lemma java_attach_ignores_status p s child st
    (spawned : reply (calls s) (Spawn (settings.RASP_JAVA_JATTACH_BIN base)
       [show_i32 p; bs "load"; bs "instrument"; bs "false"; settings.RASP_JAVA_PROBE_BIN base]) = Some child) :
  Datatypes.S (c_turn child) < KILL_TURN -> c_exit child = Some st -> fst (java_attach base p s) = Ret true.
Proof.
  intros Hlt He. unfold java_attach. unfold mbind, SM_bind. rewrite (run_async_eq _ _ child s spawned).
  unfold await, wait_loop. rewrite wait_turns_early by lia. by rewrite He.
Qed.
End Php_attach.

(** ** Concrete runs *)

#[local] Existing Instance test_host.
#[local] Existing Instance test_regex.
Lemma php_attach_panics_witness :
  fst (php.php_attach (S := list call) (bs "/opt") (test_process 7) (bs "7.1.zts") []) = Panic
  /\ fst (php.php_attach (S := list call) (bs "/opt") (test_process 7) (bs "7.4") []) <> Panic.
Proof.
  split.
  - refine (proj2 (php_attach_panics (S := list call) (bs "/opt") (test_process 7) (bs "7") (bs "1") true [] (mkStat 1 1 1 300) _ _ _) _);
      [set_solver|set_solver|done|done].
  - intros E. pose proof (proj1 (php_attach_panics (S := list call) (bs "/opt") (test_process 7) (bs "7") (bs "4") false [] (mkStat 1 1 1 300)
      ltac:(set_solver) ltac:(set_solver) eq_refl) E) as E'. discriminate E'.
Defined.
