(* ===== verification/RaspServer.v ===== *)
(** * The rasp server ([rasp_server/src]: proto.rs, utils.rs, process_mode.rs, comm.rs)

    The messages between the plugin, its server and the probes, with what
    [serde] derives for them; the child process a plugin in server mode starts,
    its two threads and what it does with a line of the child; and the socket of
    the server: pairs, dispatcher and the loop of a connection. *)

From S2P Require Import Prelude Bytes RustStd Json Encoder Bridge ScanEvents RaspOs RaspProcess.
From Stdlib Require Import Floats.SpecFloat.

(** ** Structures as JSON

    [show_f64] below is [to_string] of an [f64]. *)

(** A derived [Deserialize] reads each field once; one that is missing is an error
    unless its type is an [Option], and fields it does not know are ignored. *)
Definition member (k : string) (kvs : list (bytes * json)) : option (option json) :=
  match filter (fun kv => kv.1 = bs k) kvs with
  | [] => Some None
  | [(_, j)] => Some (Some j)
  | _ => None
  end.
Definition required {A} (k : string) (f : json -> option A) (kvs : list (bytes * json)) : option A :=
  o ← member k kvs; j ← o; f j.
Definition optional {A} (k : string) (f : json -> option A) (kvs : list (bytes * json)) : option (option A) :=
  o ← member k kvs;
  match o with
  | None | Some JNull => Some None
  | Some j => a ← f j; Some (Some a)
  end.

Definition of_i32 (j : json) : option Z :=
  match j with JNum n => if (- 2 ^ 31 <=? n)%Z && (n <? 2 ^ 31)%Z then Some n else None | _ => None end.
Definition of_str (j : json) : option bytes := match j with JStr s => Some s | _ => None end.
(** A structure is an object, or an array with all of its fields in order. *)
Definition of_struct (names : list string) (j : json) : option (list (bytes * json)) :=
  match j with
  | JObj kvs => Some kvs
  | JArr l => if length l =? length names then Some (zip (map bs names) l) else None
  | _ => None
  end.
Definition of_arr {A} (f : json -> option A) (j : json) : option (list A) :=
  match j with JArr l => mapM f l | _ => None end.

Definition to_option {A} (f : A -> json) (o : option A) : json := match o with Some a => f a | None => JNull end.
(** [skip_serializing_if = "Option::is_none"] *)
Definition skip_none {A} (k : string) (f : A -> json) (o : option A) : list (bytes * json) :=
  match o with Some a => [(bs k, f a)] | None => [] end.

(** ** Configuration of a probe (proto.rs) *)

Record ProbeConfigRules := mkRules { r_index : Z; r_regex : bytes }.
Record ProbeConfigBlock := mkBlock { b_class_id : Z; b_method_id : Z; b_rules : list ProbeConfigRules }.
Record ProbeConfigFilter := mkConfigFilter {
  f_class_id : Z; f_method_id : Z; f_include : list ProbeConfigRules; f_exclude : list ProbeConfigRules }.
Record ProbeConfigLimit := mkLimit { l_class_id : Z; l_method_id : Z; l_quota : Z }.
Record ProbeConfigPatch := mkPatch {
  p_class_name : bytes; p_path : bytes; p_file_download_url : option (list bytes); p_sum_hash : option bytes }.
Record ProbeConfigData := mkConfigData {
  uuid : bytes;
  blocks : option (list ProbeConfigBlock);
  filters : option (list ProbeConfigFilter);
  limits : option (list ProbeConfigLimit);
  patches : option (list ProbeConfigPatch);
}.
Record ProbeConfig := mkConfig { c_pid_ : Z; c_message_type : Z; c_data : ProbeConfigData }.
Record PidMissingProbeConfig := mkPidMissing { message_type : Z; config_data : ProbeConfigData }.

Definition Rules_to_json (r : ProbeConfigRules) : json :=
  JObj [(bs "index", JNum (r_index r)); (bs "regex", JStr (r_regex r))].
Definition Rules_of_json (j : json) : option ProbeConfigRules :=
  o ← of_struct ["index"; "regex"]%string j; i ← required "index" of_i32 o; r ← required "regex" of_str o; Some (mkRules i r).

Definition Block_to_json (b : ProbeConfigBlock) : json :=
  JObj [(bs "class_id", JNum (b_class_id b)); (bs "method_id", JNum (b_method_id b));
        (bs "rules", JArr (map Rules_to_json (b_rules b)))].
Definition Block_of_json (j : json) : option ProbeConfigBlock :=
  o ← of_struct ["class_id"; "method_id"; "rules"]%string j; c ← required "class_id" of_i32 o; m ← required "method_id" of_i32 o;
  r ← required "rules" (of_arr Rules_of_json) o; Some (mkBlock c m r).

Definition Filter_to_json (f : ProbeConfigFilter) : json :=
  JObj [(bs "class_id", JNum (f_class_id f)); (bs "method_id", JNum (f_method_id f));
        (bs "include", JArr (map Rules_to_json (f_include f))); (bs "exclude", JArr (map Rules_to_json (f_exclude f)))].
Definition Filter_of_json (j : json) : option ProbeConfigFilter :=
  o ← of_struct ["class_id"; "method_id"; "include"; "exclude"]%string j; c ← required "class_id" of_i32 o; m ← required "method_id" of_i32 o;
  i ← required "include" (of_arr Rules_of_json) o; e ← required "exclude" (of_arr Rules_of_json) o;
  Some (mkConfigFilter c m i e).

Definition Limit_to_json (l : ProbeConfigLimit) : json :=
  JObj [(bs "class_id", JNum (l_class_id l)); (bs "method_id", JNum (l_method_id l)); (bs "quota", JNum (l_quota l))].
Definition Limit_of_json (j : json) : option ProbeConfigLimit :=
  o ← of_struct ["class_id"; "method_id"; "quota"]%string j; c ← required "class_id" of_i32 o; m ← required "method_id" of_i32 o; q ← required "quota" of_i32 o;
  Some (mkLimit c m q).

Definition Patch_to_json (p : ProbeConfigPatch) : json :=
  JObj [(bs "class_name", JStr (p_class_name p)); (bs "path", JStr (p_path p));
        (bs "file_download_url", to_option (fun l => JArr (map JStr l)) (p_file_download_url p));
        (bs "sum_hash", to_option JStr (p_sum_hash p))].
Definition Patch_of_json (j : json) : option ProbeConfigPatch :=
  o ← of_struct ["class_name"; "path"; "file_download_url"; "sum_hash"]%string j; c ← required "class_name" of_str o; p ← required "path" of_str o;
  u ← optional "file_download_url" (of_arr of_str) o; s ← optional "sum_hash" of_str o; Some (mkPatch c p u s).

Definition Data_to_json (d : ProbeConfigData) : json :=
  JObj ([(bs "uuid", JStr (uuid d))]
    ++ skip_none "blocks" (fun l => JArr (map Block_to_json l)) (blocks d)
    ++ skip_none "filters" (fun l => JArr (map Filter_to_json l)) (filters d)
    ++ skip_none "limits" (fun l => JArr (map Limit_to_json l)) (limits d)
    ++ skip_none "patches" (fun l => JArr (map Patch_to_json l)) (patches d)).
Definition Data_of_json (j : json) : option ProbeConfigData :=
  o ← of_struct ["uuid"; "blocks"; "filters"; "limits"; "patches"]%string j; u ← required "uuid" of_str o;
  b ← optional "blocks" (of_arr Block_of_json) o; f ← optional "filters" (of_arr Filter_of_json) o;
  l ← optional "limits" (of_arr Limit_of_json) o; p ← optional "patches" (of_arr Patch_of_json) o;
  Some (mkConfigData u b f l p).

Definition ProbeConfig_of_json (j : json) : option ProbeConfig :=
  o ← of_struct ["pid"; "message_type"; "data"]%string j; p ← required "pid" of_i32 o; t ← required "message_type" of_i32 o;
  d ← required "data" Data_of_json o; Some (mkConfig p t d).
Definition ProbeConfig_to_json (c : ProbeConfig) : json :=
  JObj [(bs "pid", JNum (c_pid_ c)); (bs "message_type", JNum (c_message_type c)); (bs "data", Data_to_json (c_data c))].
Definition PidMissing_of_json (j : json) : option PidMissingProbeConfig :=
  o ← of_struct ["message_type"; "data"]%string j; t ← required "message_type" of_i32 o; d ← required "data" Data_of_json o; Some (mkPidMissing t d).
Definition PidMissing_to_json (c : PidMissingProbeConfig) : json :=
  JObj [(bs "message_type", JNum (message_type c)); (bs "data", Data_to_json (config_data c))].

(** [ProbeConfigData::empty]: an empty configuration of a type. *)
Definition ProbeConfigData_empty (message_type : Z) : option ProbeConfigData :=
  match message_type with
  | 6 => Some (mkConfigData [] None (Some []) None None)
  | 7 => Some (mkConfigData [] (Some []) None None None)
  | 8 => Some (mkConfigData [] None None (Some []) None)
  | 9 => Some (mkConfigData [] None None None (Some []))
  | _ => None
  end%Z.

(** ** Messages of a probe (proto.rs) *)

Record JarData := mkJar {
  j_path : bytes; implementation_title : option bytes; implementation_version : option bytes;
  specification_tittle : option bytes; specification_version : option bytes }.
Record GolangReplace := mkReplace { gr_path : option bytes; gr_sum : option bytes; gr_version : option bytes }.
Record GolangDep := mkDep { gd_path : option bytes; gd_sum : option bytes; gd_version : option bytes; gd_replace : option GolangReplace }.
Record GolangDepData := mkDepData { deps : option (list GolangDep); main_deps : option (list GolangDep); dep_path : option bytes }.
Record ProbeData := mkProbeData {
  args : option (list bytes); method_id : option Z; class_id : option Z; stack_trace : option (list bytes);
  async_stack_trace : option (list (list bytes)); action : option Z; config : option bytes;
  jars : option (list JarData); golang : option GolangDepData; request : option bytes; blocked : option bool }.
(** The time is an [f64], of which only its text is used. *)
Record Message := mkMessage {
  m_pid : Z; m_runtime : bytes; m_runtime_version : bytes; m_probe_version : bytes; m_message_type : Z;
  m_time : spec_float; m_data : option ProbeData }.

Definition ProbeData_default : ProbeData := mkProbeData None None None None None None None None None None None.
Definition ProbeData_new_config (c : bytes) : ProbeData :=
  mkProbeData None None None None None None (Some c) None None None None.
Definition ProbeData_new_action (a : Z) : ProbeData :=
  mkProbeData None None None None None (Some a) None None None None None.
Definition Message_default (now : spec_float) : Message := mkMessage 0 [] [] [] 0 now None.
Definition Message_new_config (now : spec_float) (c : bytes) : Message :=
  mkMessage 0 [] [] [] 3 now (Some (ProbeData_new_config c)).
Definition Message_new_action (now : spec_float) (a : Z) : Message :=
  mkMessage 0 [] [] [] 4 now (Some (ProbeData_new_action a)).

Definition Jar_to_json (j : JarData) : json :=
  JObj [(bs "path", JStr (j_path j)); (bs "implementation_title", to_option JStr (implementation_title j));
        (bs "implementation_version", to_option JStr (implementation_version j));
        (bs "specification_tittle", to_option JStr (specification_tittle j));
        (bs "specification_version", to_option JStr (specification_version j))].

Definition show_bool (b : bool) : bytes := if b then bs "true" else bs "false".

Section Messages.
Context `{!Json} (show_f64 : spec_float -> bytes).

Definition strs (l : list bytes) : json := JArr (map JStr l).
(** [if let Some(v) = self.field { pdhm.insert(..) }] *)
Definition put {A} (k : string) (f : A -> bytes) (o : option A) (m : gmap bytes bytes) : gmap bytes bytes :=
  match o with Some a => <[bs k := f a]> m | None => m end.

Definition ProbeData_to_hashmap (d : ProbeData) : gmap bytes bytes :=
  put "blocked" show_bool (blocked d)
  (put "jars" (fun l => json_print (JArr (map Jar_to_json l))) (jars d)
  (put "stack_trace" (fun l => json_print (strs l)) (stack_trace d)
  (put "request" (fun r => json_print (JStr r)) (request d)
  (put "async_stack_trace" (fun l => json_print (JArr (map strs l))) (async_stack_trace d)
  (put "class_id" show_u64 (class_id d)
  (put "method_id" show_u64 (method_id d)
  (put "args" (fun l => json_print (strs l)) (args d) ∅))))))).

(** [mhm.extend(..)]: the data wins over a field of the same name. *)
Definition Message_to_hashmap (m : Message) : gmap bytes bytes :=
  let mhm := <[bs "probe_version" := m_probe_version m]> (<[bs "rasp_timestamp" := show_f64 (m_time m)]>
    (<[bs "message_type" := show_u64 (m_message_type m)]> (<[bs "runtime_version" := m_runtime_version m]>
    (<[bs "runtime" := m_runtime m]> (<[bs "pid" := show_i32 (m_pid m)]> ∅))))) in
  match m_data m with Some d => ProbeData_to_hashmap d ∪ mhm | None => mhm end.

(** [message_handle]: the line printed and the answer; [parse] is the derived
    deserialization and [printed] the serialization of a message. *)
Context (parse : bytes -> option Message) (printed : Message -> bytes).
Definition message_handle (message : bytes) : outcome (bytes * bytes) :=
  match parse message with
  | None => Fail ProtoError
  | Some m =>
      match m_message_type m with
      | 1 => Ret (bs "heart_beat:" ++ printed m, printed m)
      | 2 => Ret (bs "probe_report:" ++ printed m, [])
      | 5 => Ret (bs "jar:" ++ printed m, [])
      | _ => Fail (Anyhow "bad message type")
      end%Z
  end.

(** ** The child of server mode (process_mode.rs) *)

(** [buf.splitn(2, ":")] *)
Fixpoint split_colon (s : bytes) : option (bytes * bytes) :=
  match s with
  | [] => None
  | c :: s => if bool_decide (c = ":"%byte) then Some ([], s) else '(a, b) ← split_colon s; Some (c :: a, b)
  end.
Definition parse_server_stdout (buf : bytes) : option (gmap bytes bytes) :=
  '(head, rest) ← split_colon buf;
  if bool_decide (head ∈ [bs "probe_report"; bs "heart_beat"; bs "jar"]) then m ← parse rest; Some (Message_to_hashmap m)
  else None.

(** The record of a line of the child: its message, with the fields known for the
    process it names laid over it. *)
Definition patched (patch_field : gmap bytes (gmap bytes bytes)) (message : gmap bytes bytes) : gmap bytes bytes :=
  match patch_field !! default [] (message !! bs "pid") with
  | Some patch => patch ∪ message
  | None => message
  end.
Definition probe_record (fields : gmap bytes bytes) : Record_ :=
  set_data (set_fields fields Payload_new) Record_new.

(** One turn of the thread [comm_send]: the two flags, what [read_line] gives
    ([None] an error, the empty line the end), the fields known by then, and
    whether the queue takes a record. *)
Record Turn := mkTurn {
  t_ctrl : bool; t_child : bool; t_line : option bytes; t_patch : gmap bytes (gmap bytes bytes); t_send : bool }.

(** The records sent until the loop ends or the turns are over. *)
Fixpoint comm_send (turns : list Turn) : list Record_ :=
  match turns with
  | [] => []
  | t :: turns =>
      if negb (t_ctrl t) then []
      else if negb (t_child t) then []
      else match t_line t with
           | None => []
           | Some buf =>
               if bool_decide (buf = []) then []
               else match parse_server_stdout buf with
                    | None => comm_send turns
                    | Some message =>
                        if t_send t then probe_record (patched (t_patch t) message) :: comm_send turns else []
                    end
           end
  end.

(** One turn of [comm_recv]: the flags, what the queue gives, and whether the pipe
    takes it; the bytes written to the child. *)
Inductive Recv := RLine (line : bytes) | REmpty | RDisconnected.
Record RTurn := mkRTurn { rt_ctrl : bool; rt_child : bool; rt_recv : Recv; rt_write : bool; rt_flush : bool }.
Fixpoint comm_recv (turns : list RTurn) : bytes :=
  match turns with
  | [] => []
  | t :: turns =>
      if negb (rt_ctrl t) then []
      else if negb (rt_child t) then []
      else match rt_recv t with
           | RLine line =>
               if rt_write t then (line ++ bs "
") ++ (if rt_flush t then comm_recv turns else []) else []
           | REmpty => comm_recv turns
           | RDisconnected => []
           end
  end.

(** [listen_stdin]: the messages the server takes from its input, for the pid each
    names; a line that is not a [ProbeConfig] is skipped. *)
Fixpoint listen_stdin (input : list (option bytes)) : list (Z * bytes) :=
  match input with
  | [] => []
  | None :: _ => []
  | Some l :: input =>
      match json_parse l ≫= ProbeConfig_of_json with
      | Some value => (c_pid_ value, l) :: listen_stdin input
      | None => listen_stdin input
      end
  end.
End Messages.

Record RASPServerProcess := mkServer {
  child_id : Z;
  patch_field : gmap bytes (gmap bytes bytes);
  server_pid : Z;
}.

(** A patch without the pid in the container is dropped. *)
Definition update_patch_field (patch : gmap bytes bytes) (self : RASPServerProcess) : RASPServerProcess :=
  match patch !! bs "nspid" with
  | Some nspid => mkServer (child_id self) (<[nspid := patch]> (patch_field self)) (server_pid self)
  | None => self
  end.
Definition RASPServerProcess_new (p : Z) (patch : gmap bytes bytes) : RASPServerProcess :=
  update_patch_field patch (mkServer 0 ∅ p).

Section Server.
Context {S : Type} `{!HasCalls S} `{!Host}.

(** [spawn]: the child's pid goes to the threads that serve it; the structure keeps
    the [child_id] it was made with. *)
Definition spawn_server (self : RASPServerProcess) : SM S RASPServerProcess :=
  r ← ask (SpawnServer (server_pid self)); _ ← try_ r; mret self.

Definition kill_server (self : RASPServerProcess) : SM S unit :=
  _ ← ask (KillPg (child_id self) SIGKILL); _ ← ask (Kill (child_id self) SIGKILL); mret tt.
End Server.

(** ** Numbers (utils.rs) *)

Definition four_bytes_to_num (a b c d : byte) : Z :=
  Z.shiftl (u8 a) 24 + Z.shiftl (u8 b) 16 + Z.shiftl (u8 c) 8 + Z.shiftl (u8 d) 0.
Definition num_to_four_bytes (x : Z) : byte * byte * byte * byte :=
  (to_u8 (Z.land (Z.shiftr x 24) 255), to_u8 (Z.land (Z.shiftr x 16) 255),
   to_u8 (Z.land (Z.shiftr x 8) 255), to_u8 (Z.land x 255)).

(** [Control]: the flag the threads of a connection or of the server share. *)
Definition Control : Type := bool.
Definition Control_new : Control := true.
Definition check (c : Control) : bool := c.
Definition stop (_ : Control) : Control := false.

(** ** The socket (comm.rs) *)

Section Socket.
Context {S : Type} `{!HasCalls S} `{!Host}.

Definition clean_bind_addr (addr : bytes) : SM S unit :=
  b ← ask (Exists addr);
  (if b : bool then r ← ask (RemoveFile addr); try_ r else mret tt);;
  match parent addr with
  | Some d => b ← ask (Exists d); if b : bool then mret tt else r ← ask (CreateDir d); try_ r
  | None => mret tt
  end.

(** [generate_patch]: what is known of the peer of a connection. *)
Definition status_fields (st : Status) : list (string * bytes) :=
  [("ruid", show_u64 (s_ruid st)); ("rgid", show_u64 (s_rgid st)); ("euid", show_u64 (s_euid st));
   ("egid", show_u64 (s_egid st)); ("suid", show_u64 (s_suid st)); ("sgid", show_u64 (s_sgid st));
   ("fuid", show_u64 (s_fuid st)); ("fgid", show_u64 (s_fgid st))]%string.
Definition insert_strs (kvs : list (string * bytes)) (m : gmap bytes bytes) : gmap bytes bytes :=
  foldl (fun m kv => <[bs kv.1 := kv.2]> m) m kvs.
Definition generate_patch (p : Z) : SM S (gmap bytes bytes) :=
  proc ← Process_new p;
  let res := insert_strs [("sid", show_i32 (st_session (p_stat proc))); ("ppid", show_i32 (st_ppid (p_stat proc)));
                          ("tgid", show_i32 (st_tpgid (p_stat proc)))]%string ∅ in
  exe ← ask (ProcExe p);
  let res := <[bs "exe" := match exe with Some e => from_utf8_lossy e | None => [] end]> res in
  argv ← ask (ProcCmdline p);
  let res := <[bs "argv" := match argv with Some l => join_space l | None => [] end]> res in
  st ← ask (ProcStatus_ p);
  mret (match st with Some st => insert_strs (status_fields st) res | None => res end).
End Socket.

(** The pid of a peer: 0 when it is not known. *)
Definition peer_pid (cred : option (option Z)) : Z := default 0%Z (mjoin cred).

(** *** The loop of a connection *)

(** What [select!] may take next: a message for the probe (or its channel closed),
    a frame of the probe (or the end, or an error), and, beside the loop, the
    patch becoming known.  Each comes with whether the send it leads to succeeds
    and, for a frame, with the clock. *)
Inductive Event :=
  | EvSend (message : option bytes) (sent : bool)
  | EvFrame (frame : option (option bytes)) (now : Z) (sent : bool)
  | EvPatch (patch : gmap bytes bytes).

Record Conn := mkConn {
  patch_r : gmap bytes bytes;      (** the patch, empty until it is known *)
  final_patch : gmap bytes bytes;
  records : list Record_;          (** sent to the agent *)
  frames : list bytes;             (** written to the probe *)
  ctrl : Control;                  (** the pair's flag *)
}.
Definition Conn_new : Conn := mkConn ∅ ∅ [] [] true.

Definition DATA_TYPE_RASP : Z := 2439.
(** The record of a frame. *)
Definition frame_record (p now : Z) (patch : gmap bytes bytes) (message : bytes) : Record_ :=
  mkRecord DATA_TYPE_RASP now (Some (mkPayload (<[bs "RASP_DATA" := message]> (<[bs "pid" := show_i32 p]> patch)) [])) [].

(** One turn: the connection, and whether the loop goes on. *)
Definition looping_step (p : Z) (ev : Event) (c : Conn) : Conn * bool :=
  match ev with
  | EvPatch patch => (mkConn (patch ∪ patch_r c) (final_patch c) (records c) (frames c) (ctrl c), true)
  | EvSend (Some s) sent =>
      if sent then (mkConn (patch_r c) (final_patch c) (records c) (frames c ++ [s]) (ctrl c), true) else (c, false)
  | EvSend None _ => (mkConn (patch_r c) (final_patch c) (records c) (frames c) (stop (ctrl c)), false)
  | EvFrame (Some (Some buf)) now sent =>
      let message := from_utf8_lossy buf in
      let fin := if bool_decide (final_patch c <> ∅) then final_patch c
                 else if bool_decide (patch_r c <> ∅) then patch_r c ∪ final_patch c else final_patch c in
      if sent then
        (mkConn (patch_r c) fin (records c ++ [frame_record p now fin message]) (frames c) (ctrl c), true)
      else (mkConn (patch_r c) fin (records c) (frames c) (stop (ctrl c)), false)
  | EvFrame _ _ _ => (mkConn (patch_r c) (final_patch c) (records c) (frames c) (stop (ctrl c)), false)
  end.

(** The loop; when it ends the connection is stopped. *)
Fixpoint looping (p : Z) (evs : list Event) (c : Conn) : Conn :=
  match evs with
  | [] => c
  | ev :: evs =>
      let '(c', go) := looping_step p ev c in
      if go then looping p evs c'
      else mkConn (patch_r c') (final_patch c') (records c') (frames c') (stop (ctrl c'))
  end.

(** ** Theorems *)

(** *** Configurations *)

Definition i32_ok (n : Z) : Prop := (- 2 ^ 31 <= n < 2 ^ 31)%Z.
Definition rules_ok (r : ProbeConfigRules) : Prop := i32_ok (r_index r).
Definition data_ok (d : ProbeConfigData) : Prop :=
  (forall l, blocks d = Some l -> Forall (fun b => i32_ok (b_class_id b) /\ i32_ok (b_method_id b) /\ Forall rules_ok (b_rules b)) l)
  /\ (forall l, filters d = Some l -> Forall (fun f => i32_ok (f_class_id f) /\ i32_ok (f_method_id f)
        /\ Forall rules_ok (f_include f) /\ Forall rules_ok (f_exclude f)) l)
  /\ (forall l, limits d = Some l -> Forall (fun l => i32_ok (l_class_id l) /\ i32_ok (l_method_id l) /\ i32_ok (l_quota l)) l).
Definition config_ok (c : PidMissingProbeConfig) : Prop :=
  i32_ok (message_type c) /\ data_ok (config_data c) /\ json_ok 127 (PidMissing_to_json c) = true.

Lemma of_i32_ok n : i32_ok n -> of_i32 (JNum n) = Some n.
Proof. unfold i32_ok, of_i32. intros. destruct (Z.leb_spec (- 2 ^ 31) n), (Z.ltb_spec n (2 ^ 31)); simpl; (done || lia). Qed.

Lemma of_arr_map {A} (f : A -> json) (g : json -> option A) (l : list A) :
  Forall (fun a => g (f a) = Some a) l -> of_arr g (JArr (map f l)) = Some l.
Proof. induction 1 as [|a l Ha Hl IH]; simpl in *; [done|]. by rewrite Ha; simpl; rewrite IH. Qed.

(** Members of an object written out. *)
Lemma member_here k j kvs : Forall (fun kv => kv.1 <> bs k) kvs -> member k ((bs k, j) :: kvs) = Some (Some j).
Proof.
  intros Hk. unfold member. rewrite filter_cons_True by done. 
  replace (filter (fun kv => kv.1 = bs k) kvs) with (@nil (bytes * json)); [done|].
  symmetry. induction Hk as [|kv kvs Hkv Hk IH]; [done|]. by rewrite filter_cons_False.
Qed.
Lemma member_further k k' j kvs : bs k' <> bs k -> member k ((bs k', j) :: kvs) = member k kvs.
Proof. intros Hk. unfold member. by rewrite filter_cons_False. Qed.
Lemma member_nil k : member k [] = Some None.
Proof. done. Qed.
Ltac member_step :=
  first [ rewrite member_here by (repeat (constructor; [discriminate|]); constructor) | rewrite member_further by discriminate | rewrite member_nil ].
Ltac members := unfold required, optional; repeat (member_step; cbn [mbind option_bind]).

Lemma Rules_roundtrip r : rules_ok r -> Rules_of_json (Rules_to_json r) = Some r.
Proof.
  intros Hr. unfold Rules_of_json, Rules_to_json. cbn [of_struct mbind option_bind]. members.
  rewrite of_i32_ok by done. by destruct r.
Qed.
Lemma rules_list_roundtrip l : Forall rules_ok l -> of_arr Rules_of_json (JArr (map Rules_to_json l)) = Some l.
Proof. intros Hl. apply of_arr_map. eapply Forall_impl; [exact Hl|]. apply Rules_roundtrip. Qed.

Lemma Block_roundtrip b :
  i32_ok (b_class_id b) /\ i32_ok (b_method_id b) /\ Forall rules_ok (b_rules b) -> Block_of_json (Block_to_json b) = Some b.
Proof.
  intros (Hc & Hm & Hr). unfold Block_of_json, Block_to_json. cbn [of_struct mbind option_bind]. members.
  rewrite !of_i32_ok by done. cbn [mbind option_bind]. rewrite rules_list_roundtrip by done. by destruct b.
Qed.
Lemma Filter_roundtrip f :
  i32_ok (f_class_id f) /\ i32_ok (f_method_id f) /\ Forall rules_ok (f_include f) /\ Forall rules_ok (f_exclude f) ->
  Filter_of_json (Filter_to_json f) = Some f.
Proof.
  intros (Hc & Hm & Hi & He). unfold Filter_of_json, Filter_to_json. cbn [of_struct mbind option_bind]. members.
  rewrite !of_i32_ok by done. cbn [mbind option_bind]. rewrite !rules_list_roundtrip by done. by destruct f.
Qed.
Lemma Limit_roundtrip l :
  i32_ok (l_class_id l) /\ i32_ok (l_method_id l) /\ i32_ok (l_quota l) -> Limit_of_json (Limit_to_json l) = Some l.
Proof.
  intros (Hc & Hm & Hq). unfold Limit_of_json, Limit_to_json. cbn [of_struct mbind option_bind]. members.
  rewrite !of_i32_ok by done. by destruct l.
Qed.
Lemma strs_roundtrip l : of_arr of_str (JArr (map JStr l)) = Some l.
Proof. apply of_arr_map. by apply Forall_true. Qed.
Lemma Patch_roundtrip p : Patch_of_json (Patch_to_json p) = Some p.
Proof.
  unfold Patch_of_json, Patch_to_json. cbn [of_struct mbind option_bind]. members. destruct p as [c p [u|] [s|]]; cbn [to_option p_file_download_url p_sum_hash p_class_name p_path of_str mbind option_bind].
  all: rewrite ?strs_roundtrip; done.
Qed.

Lemma Data_roundtrip d : data_ok d -> Data_of_json (Data_to_json d) = Some d.
Proof.
  intros (Hb & Hf & Hl). assert (HB : forall l, blocks d = Some l -> of_arr Block_of_json (JArr (map Block_to_json l)) = Some l).
  { intros l E. apply of_arr_map. eapply Forall_impl; [by apply Hb|]. apply Block_roundtrip. }
  assert (HF : forall l, filters d = Some l -> of_arr Filter_of_json (JArr (map Filter_to_json l)) = Some l).
  { intros l E. apply of_arr_map. eapply Forall_impl; [by apply Hf|]. apply Filter_roundtrip. }
  assert (HL : forall l, limits d = Some l -> of_arr Limit_of_json (JArr (map Limit_to_json l)) = Some l).
  { intros l E. apply of_arr_map. eapply Forall_impl; [by apply Hl|]. apply Limit_roundtrip. }
  assert (HP : forall l, of_arr Patch_of_json (JArr (map Patch_to_json l)) = Some l).
  { intros l. apply of_arr_map, Forall_true, Patch_roundtrip. }
  clear Hb Hf Hl. destruct d as [u [b|] [f|] [l|] [p|]]; cbn [blocks filters limits patches uuid] in *.
  all: unfold Data_of_json, Data_to_json; cbn [blocks filters limits patches uuid skip_none app of_struct mbind option_bind]; members;
    rewrite ?(HB _ eq_refl); cbn [mbind option_bind]; rewrite ?(HF _ eq_refl); cbn [mbind option_bind];
    rewrite ?(HL _ eq_refl); cbn [mbind option_bind]; rewrite ?HP; done.
Qed.

Lemma config_decodes `{!Json} `{!JsonLaws} c :
  config_ok c -> (json_parse (json_print (PidMissing_to_json c)) ≫= PidMissing_of_json) = Some c.
Proof.
  intros (Ht & Hd & Hj). rewrite json_roundtrip by done. cbn [mbind option_bind]. unfold PidMissing_of_json, PidMissing_to_json.
  cbn [of_struct mbind option_bind]. members. rewrite of_i32_ok by done. cbn [mbind option_bind].
  rewrite Data_roundtrip by done. by destruct c.
Qed.

(** A server in process mode takes none of the messages its plugin writes to it:
    they name no pid, which its [ProbeConfig] requires. *)
Lemma pid_missing_rejected c : ProbeConfig_of_json (PidMissing_to_json c) = None.
Proof. unfold ProbeConfig_of_json, PidMissing_to_json. cbn [of_struct mbind option_bind]. members. done. Qed.

(** C40: whatever configurations the plugin writes to the server of process mode,
    the server passes none of them on: each is refused for the pid it lacks. *)
Theorem server_refuses_configs `{!Json} `{!JsonLaws} cs :
  Forall config_ok cs -> listen_stdin (map (fun c => Some (json_print (PidMissing_to_json c))) cs) = [].
Proof.
  induction 1 as [|c cs (_ & _ & Hj) Hcs IH]; [done|]. cbn [map listen_stdin]. rewrite json_roundtrip by done. cbn [mbind option_bind].
  by rewrite pid_missing_rejected.
Qed.

(** *** Numbers *)

(** The four big-endian bytes of a length give it back, and every four bytes are
    those of the number they encode, which a [u32] holds. *)
Theorem four_bytes_roundtrip n a b c d :
  (0 <= n < 2 ^ 32)%Z ->
  (let '(w, x, y, z) := num_to_four_bytes n in four_bytes_to_num w x y z = n)
  /\ num_to_four_bytes (four_bytes_to_num a b c d) = (a, b, c, d)
  /\ (0 <= four_bytes_to_num a b c d < 2 ^ 32)%Z.
Proof.
  intros Hn. pose proof (u8_range a). pose proof (u8_range b). pose proof (u8_range c). pose proof (u8_range d).
  assert (Hl : forall z, Z.land z 255 = (z mod 256)%Z) by (intros z; exact (Z.land_ones z 8 ltac:(lia))).
  assert (Hv : four_bytes_to_num a b c d = (u8 a * 2 ^ 24 + u8 b * 2 ^ 16 + u8 c * 2 ^ 8 + u8 d)%Z).
  { unfold four_bytes_to_num. rewrite !Z.shiftl_mul_pow2 by lia. lia. }
  split; [|split].
  - unfold num_to_four_bytes, four_bytes_to_num. rewrite !u8_to_u8, !Hl, !Z.mod_mod by lia.
    rewrite !Z.shiftl_mul_pow2, !Z.shiftr_div_pow2 by lia. Z.to_euclidean_division_equations; lia.
  - rewrite Hv. unfold num_to_four_bytes. rewrite !Hl, !Z.shiftr_div_pow2 by lia.
    assert (Hb : forall x y, to_u8 x = y <-> (x mod 256 = u8 y)%Z).
    { intros x y. split; [intros <-; by rewrite u8_to_u8|]. intros E. apply u8_inj. by rewrite u8_to_u8. }
    repeat f_equal; apply Hb; rewrite Z.mod_mod by lia; Z.to_euclidean_division_equations; lia.
  - rewrite Hv. lia.
Qed.

(** *** A connection *)

(** The frames a connection takes before an event ends its loop, with the clock. *)
Fixpoint taken (evs : list Event) : list (bytes * Z) :=
  match evs with
  | [] => []
  | EvPatch _ :: evs => taken evs
  | EvSend (Some _) true :: evs => taken evs
  | EvFrame (Some (Some buf)) now true :: evs => (buf, now) :: taken evs
  | _ => []
  end.
(** The messages for the probe it writes. *)
Fixpoint written (evs : list Event) : list bytes :=
  match evs with
  | [] => []
  | EvPatch _ :: evs => written evs
  | EvSend (Some s) true :: evs => s :: written evs
  | EvFrame (Some (Some _)) _ true :: evs => written evs
  | _ => []
  end.

Definition records_of (p : Z) (fs : list (bytes * Z)) (pats : list (gmap bytes bytes)) : list Record_ :=
  zip_with (fun f fin => frame_record p f.2 fin (from_utf8_lossy f.1)) fs pats.

Lemma looping_records p evs c :
  exists n fin, n <= length (taken evs)
  /\ records (looping p evs c) = records c ++ records_of p (taken evs)
       (replicate n (final_patch c) ++ replicate (length (taken evs) - n) fin)
  /\ (final_patch c <> ∅ -> n = length (taken evs))
  /\ frames (looping p evs c) = frames c ++ written evs.
Proof.
  revert c. induction evs as [|ev evs IH]; intros c; [exists 0, ∅; by rewrite !app_nil_r|].
  destruct ev as [[s|] sent|[[buf|]|] now sent|patch]; cbn [looping looping_step taken written].
  - destruct sent; [|exists 0, ∅; by rewrite !app_nil_r].
    destruct (IH (mkConn (patch_r c) (final_patch c) (records c) (frames c ++ [s]) (ctrl c))) as (n & fin & Hn & Hr & Hf & Hw).
    exists n, fin. rewrite Hr, Hw. cbn. by rewrite <- app_assoc.
  - exists 0, ∅. by rewrite !app_nil_r.
  - destruct sent; [|exists 0, ∅; by rewrite !app_nil_r].
    set (fin0 := if bool_decide _ then _ else _).
    destruct (IH (mkConn (patch_r c) fin0 (records c ++ [frame_record p now fin0 (from_utf8_lossy buf)]) (frames c) (ctrl c)))
      as (n & fin & Hn & Hr & Hf & Hw). cbn [final_patch records frames] in *.
    rewrite Hr, Hw. destruct (decide (fin0 = final_patch c)) as [E|E].
    + exists (S n), fin. rewrite E in *. split; [simpl; lia|]. split; [|split; [intros H%Hf; simpl; lia|done]].
      rewrite <- app_assoc. done.
    + assert (Hfin : final_patch c = ∅).
      { destruct (decide (final_patch c = ∅)) as [|Hne]; [done|]. unfold fin0 in E. by rewrite bool_decide_eq_true_2 in E. }
      exists 0, fin0. split; [lia|]. split; [|split; [done|done]]. rewrite <- app_assoc.
      rewrite (Hf ltac:(intros E0; apply E; by rewrite E0, Hfin)). by rewrite Nat.sub_diag, app_nil_r.
  - exists 0, ∅. by rewrite !app_nil_r.
  - exists 0, ∅. by rewrite !app_nil_r.
  - destruct (IH (mkConn (patch ∪ patch_r c) (final_patch c) (records c) (frames c) (ctrl c))) as (n & fin & Hn & Hr & Hf & Hw).
    by exists n, fin.
Qed.

(** C18: a connection loses and reorders nothing: its records are those of the frames
    taken before the loop ends, in order, each of type 2439 with the peer's pid and
    the frame as text; the first ones carry no more, and from some frame on all
    carry the same patch.  The messages written to the probe are those taken for
    it, in order. *)
Theorem connection_forwards p evs :
  exists n fin, n <= length (taken evs)
  /\ records (looping p evs Conn_new) =
       records_of p (taken evs) (replicate n ∅ ++ replicate (length (taken evs) - n) fin)
  /\ frames (looping p evs Conn_new) = written evs.
Proof. destruct (looping_records p evs Conn_new) as (n & fin & Hn & Hr & _ & Hw). by exists n, fin. Qed.

(** *** The lines of a server in process mode *)

Lemma comm_send_inv `{!Json} show_f64 parse turns r :
  r ∈ comm_send show_f64 parse turns ->
  exists t buf message, t ∈ turns /\ t_line t = Some buf /\ parse_server_stdout show_f64 parse buf = Some message
    /\ r = probe_record (patched (t_patch t) message).
Proof.
  induction turns as [|t turns IH]; cbn [comm_send]; [by intros ?%elem_of_nil|].
  destruct (t_ctrl t), (t_child t); cbn [negb]; try by intros ?%elem_of_nil.
  destruct (t_line t) as [buf|] eqn:El; [|by intros ?%elem_of_nil]. case_bool_decide; [by intros ?%elem_of_nil|].
  destruct (parse_server_stdout show_f64 parse buf) as [message|] eqn:Em.
  - destruct (t_send t); [|by intros ?%elem_of_nil]. intros [->|Hin]%elem_of_cons.
    + exists t, buf, message. split; [apply list_elem_of_here|done].
    + apply IH in Hin as (t' & buf' & m' & Hin & Hr). exists t', buf', m'. split; [by apply list_elem_of_further|done].
  - intros Hin. apply IH in Hin as (t' & buf' & m' & Hin & Hr). exists t', buf', m'. split; [by apply list_elem_of_further|done].
Qed.

(** A record a plugin in server mode reports for its server comes from a line
    the server printed, has the fields known for the process the line names laid
    over the line's own, and has neither a data type nor a timestamp: both are 0. *)
Theorem server_records_untyped `{!Json} show_f64 parse turns r :
  r ∈ comm_send show_f64 parse turns ->
  data_type r = 0%Z /\ timestamp r = 0%Z
  /\ exists t buf message, t ∈ turns /\ t_line t = Some buf /\ parse_server_stdout show_f64 parse buf = Some message
     /\ forall k v, default ∅ (t_patch t !! default [] (message !! bs "pid")) !! k = Some v ->
          (fields <$> data r) ≫= (.!! k) = Some v.
Proof.
  intros (t & buf & m & Hin & Hl & Hm & ->)%comm_send_inv. split; [done|]. split; [done|].
  exists t, buf, m. do 3 (split; [done|]). intros k v. unfold patched.
  destruct (t_patch t !! default [] (m !! bs "pid")) as [patch|]; simpl; [|by rewrite lookup_empty].
  intros E. by rewrite lookup_union, E, union_Some_l.
Qed.

(** ** A printer and parser of JSON that keep the laws

    JSON is the text of [JsonText]. *)
Section Coding.
Definition test_json : Json := JsonText.json_text.
#[local] Existing Instance test_json.
Lemma test_json_laws : JsonLaws.
Proof. exact JsonText.json_text_laws. Qed.
#[local] Existing Instance test_json_laws.

Definition test_config : PidMissingProbeConfig :=
  mkPidMissing 7 (mkConfigData (bs "u1") (Some [mkBlock 1 2 [mkRules 0 (bs ".*")]]) None None None).
Lemma test_config_ok : config_ok test_config.
Proof.
  split; [unfold i32_ok; cbn; lia|]. split; [|done]. split; [|split; by intros ? [=]].
  intros ? [= <-]. repeat constructor; unfold i32_ok; cbn; lia.
Qed.

Lemma server_refuses_configs_witness :
  listen_stdin (map (fun c => Some (json_print (PidMissing_to_json c))) [test_config]) = [].
Proof. refine (server_refuses_configs [test_config] _). constructor; [apply test_config_ok|constructor]. Defined.

Lemma four_bytes_roundtrip_witness :
  (let '(w, x, y, z) := num_to_four_bytes 258 in four_bytes_to_num w x y z = 258%Z)
  /\ num_to_four_bytes (four_bytes_to_num x00 x00 x01 x02) = (x00, x00, x01, x02)
  /\ (0 <= four_bytes_to_num x00 x00 x01 x02 < 2 ^ 32)%Z.
Proof. refine (four_bytes_roundtrip 258 x00 x00 x01 x02 _). lia. Defined.

Definition test_turn : Turn := mkTurn true true (Some (bs "jar:{}")) {[bs "7" := {[bs "exe" := bs "java"]}]} true.
Definition test_message (b : bytes) : option Message := Some (mkMessage 7 (bs "JVM") [] [] 2 (S754_zero false) None).
Lemma server_records_untyped_witness :
  exists r, comm_send (fun _ => []) test_message [test_turn] = [r]
  /\ data_type r = 0%Z /\ timestamp r = 0%Z
  /\ exists t buf message, t ∈ [test_turn] /\ t_line t = Some buf /\ parse_server_stdout (fun _ => []) test_message buf = Some message
     /\ forall k v, default ∅ (t_patch t !! default [] (message !! bs "pid")) !! k = Some v ->
          (fields <$> data r) ≫= (.!! k) = Some v.
Proof.
  eexists. split; [reflexivity|]. refine (server_records_untyped (fun _ => []) test_message [test_turn] _ _).
  apply list_elem_of_here.
Defined.
End Coding.
