(* ===== verification/RaspHub.v ===== *)
(** * The socket server of rasp ([rasp/rasp_server/src/comm.rs]: start_bind)

    Probes connect to a socket; a connection is served by the loop of [RaspServer].
    [pairs] maps the pid of a peer to its latest connection, whose channel and flag
    it shares.  Beside the accepting loop run a task that looks for
    the file of the socket, a dispatcher, which takes the plugin's
    messages and puts each on the channel of its pid, and a cleaner, which removes
    the pairs whose flag is down.  Accepting, dispatching and cleaning take the write lock of [pairs]: the
    dispatcher keeps it while it waits for room and for a second after, the cleaner
    while it sleeps.  A turn is what one of them does between two awaits that can
    wait; a turn that has to wait for the lock or for room is [None]. *)

From S2P Require Import Prelude Bytes RustStd Bridge RaspOs RaspProcess RaspServer.

(** ** State *)

(** A connection: the channel of its pair, the state of its loop (whose [ctrl] is the
    pair's flag), and whether the loop runs. *)
Record Link := mkLink { l_pid : Z; l_chan : list bytes; l_conn : Conn; l_running : bool }.

Definition PAIR_CHANNEL : nat := 5.

Inductive Cleaner :=
  | CTop                        (** at the head of the loop *)
  | CPass | CQuit               (** the flag was seen up, or down; the lock is awaited *)
  | CFound (pids : list Z)      (** the lock was given back, and is awaited again *)
  | CSleep                      (** asleep with the lock *)
  | CDone.
Inductive Dispatcher :=
  | DTop
  | DTook (p : Z) (m : bytes)              (** a message was taken; the lock is awaited *)
  | DSending (p : Z) (i : nat) (m : bytes) (** with the lock, waiting for room *)
  | DSleep                                 (** asleep with the lock *)
  | DDone.

Record Hub := mkHub {
  links : list Link;            (** every connection accepted so far *)
  pairs : gmap Z nat;           (** the latest connection of a pid *)
  working : Control;            (** the flag of the server *)
  rx : list (Z * bytes);        (** the plugin's channel *)
  rx_open : bool;
  cleaner : Cleaner;
  dispatcher : Dispatcher;
  dispatched : list (Z * bytes);(** messages the dispatcher is done with *)
  given : list (Z * bytes)      (** every message the plugin ever sent *)
}.

Definition set_links (ls : list Link) (h : Hub) : Hub := mkHub ls (pairs h) (working h) (rx h) (rx_open h) (cleaner h) (dispatcher h) (dispatched h) (given h).
Definition set_pairs (ps : gmap Z nat) (h : Hub) : Hub := mkHub (links h) ps (working h) (rx h) (rx_open h) (cleaner h) (dispatcher h) (dispatched h) (given h).
Definition stop_hub (h : Hub) : Hub := mkHub (links h) (pairs h) (stop (working h)) (rx h) (rx_open h) (cleaner h) (dispatcher h) (dispatched h) (given h).
Definition set_rx (q : list (Z * bytes)) (h : Hub) : Hub := mkHub (links h) (pairs h) (working h) q (rx_open h) (cleaner h) (dispatcher h) (dispatched h) (given h).
Definition set_cleaner (c : Cleaner) (h : Hub) : Hub := mkHub (links h) (pairs h) (working h) (rx h) (rx_open h) c (dispatcher h) (dispatched h) (given h).
Definition set_dispatcher (d : Dispatcher) (h : Hub) : Hub := mkHub (links h) (pairs h) (working h) (rx h) (rx_open h) (cleaner h) d (dispatched h) (given h).
(** The dispatcher is done with [m]. *)
Definition finish (m : Z * bytes) (d : Dispatcher) (h : Hub) : Hub :=
  mkHub (links h) (pairs h) (working h) (rx h) (rx_open h) (cleaner h) d (dispatched h ++ [m]) (given h).

Definition Hub_new : Hub := mkHub [] ∅ Control_new [] true CTop DTop [] [].

(** Someone holds the write lock. *)
Definition cleaner_holds (c : Cleaner) : bool := match c with CSleep => true | _ => false end.
Definition dispatcher_holds (d : Dispatcher) : bool := match d with DSending _ _ _ | DSleep => true | _ => false end.
Definition locked (h : Hub) : bool := cleaner_holds (cleaner h) || dispatcher_holds (dispatcher h).

(** ** Turns *)

(** The task that looks for the file of the socket every hour: once it is gone the
    flag of the server goes down. *)
Definition checking_turn (exists_ : bool) (h : Hub) : Hub := if exists_ then h else stop_hub h.

(** A connection is accepted: [new_pair] files it, which drops the pair that was
    there and with it the sender of that connection's channel. *)
Definition accept_turn (cred : option (option Z)) (h : Hub) : option Hub :=
  if locked h then None
  else
    let p := peer_pid cred in
    Some (set_pairs (<[p := length (links h)]> (pairs h)) (set_links (links h ++ [mkLink p [] Conn_new true]) h)).

Definition set_flag (w : Control) (l : Link) : Link :=
  let c := l_conn l in mkLink (l_pid l) (l_chan l) (mkConn (patch_r c) (final_patch c) (records c) (frames c) w) (l_running l).
Definition flag_of (ls : list Link) (i : nat) : Control := from_option (fun l => ctrl (l_conn l)) false (ls !! i).
(** The pids whose pair has stopped. *)
Definition stopped_pids (h : Hub) : list Z := map fst (filter (fun pi => check (flag_of (links h) pi.2) = false) (map_to_list (pairs h))).
(** Every pair is stopped. *)
Definition stop_pairs (h : Hub) : list Link :=
  imap (fun i l => if bool_decide (pairs h !! l_pid l = Some i) then set_flag (stop (ctrl (l_conn l))) l else l) (links h).

Definition cleaner_turn (h : Hub) : option Hub :=
  match cleaner h with
  | CTop => Some (set_cleaner (if check (working h) then CPass else CQuit) h)
  | CQuit => if locked h then None else Some (set_cleaner CDone (set_links (stop_pairs h) h))
  | CPass => if locked h then None else Some (set_cleaner (CFound (stopped_pids h)) h)
  | CFound pids => if locked h then None else Some (set_cleaner CSleep (set_pairs (foldr delete (pairs h) pids) h))
  | CSleep => Some (set_cleaner CTop h)
  | CDone => None
  end.

Definition dispatcher_turn (h : Hub) : option Hub :=
  match dispatcher h with
  | DTop =>
      if negb (check (working h)) then Some (set_dispatcher DDone h)
      else match rx h with
           | (p, m) :: q => Some (set_dispatcher (DTook p m) (set_rx q h))
           | [] => if rx_open h then Some h else Some (set_dispatcher DDone (stop_hub h))
           end
  | DTook p m =>
      if locked h then None
      else match pairs h !! p with
           | Some i => Some (set_dispatcher (DSending p i m) h)
           | None => Some (finish (p, m) DTop h)
           end
  | DSending p i m =>
      match links h !! i with
      | Some l =>
          if negb (l_running l) then Some (finish (p, m) DSleep h)
          else if length (l_chan l) <? PAIR_CHANNEL
          then Some (finish (p, m) DSleep (set_links (<[i := mkLink (l_pid l) (l_chan l ++ [m]) (l_conn l) true]> (links h)) h))
          else None
      | None => None
      end
  | DSleep => Some (set_dispatcher DTop h)
  | DDone => None
  end.

(** What the loop of a connection takes next: its channel (with whether the frame can
    be written), a frame of the probe, or the patch. *)
Inductive LinkEvent :=
  | LRecv (sent : bool)
  | LFrame (frame : option (option bytes)) (now : Z) (sent : bool)
  | LPatch (patch : gmap bytes bytes).

(** The event of the loop with what is left in the channel; an empty channel waits as
    long as its pair is filed. *)
Definition link_event (h : Hub) (i : nat) (l : Link) (ev : LinkEvent) : option (Event * list bytes) :=
  match ev with
  | LRecv sent =>
      match l_chan l with
      | m :: q => Some (EvSend (Some m) sent, q)
      | [] => if bool_decide (pairs h !! l_pid l = Some i) then None else Some (EvSend None sent, [])
      end
  | LFrame f now sent => Some (EvFrame f now sent, l_chan l)
  | LPatch p => Some (EvPatch p, l_chan l)
  end.
Definition link_step (ev : Event) (q : list bytes) (l : Link) : Link :=
  let '(c, go) := looping_step (l_pid l) ev (l_conn l) in
  if go then mkLink (l_pid l) q c true
  else mkLink (l_pid l) q (mkConn (patch_r c) (final_patch c) (records c) (frames c) (stop (ctrl c))) false.
Definition link_turn (i : nat) (ev : LinkEvent) (h : Hub) : option Hub :=
  l ← links h !! i;
  if negb (l_running l) then None
  else '(e, q) ← link_event h i l ev; Some (set_links (<[i := link_step e q l]> (links h)) h).

(** The capacity of the plugin's channel: 50 where the server is a thread of the
    plugin, 100 in a process of its own. *)
Class RxCap := rx_cap : nat.

Section hub.
Context {cap : RxCap}.

(** The plugin sends a message, which waits for room, drops its end of the channel, or
    stops the server. *)
Definition put_turn (m : Z * bytes) (h : Hub) : option Hub :=
  if rx_open h && (length (rx h) <? rx_cap)
  then Some (mkHub (links h) (pairs h) (working h) (rx h ++ [m]) true (cleaner h) (dispatcher h) (dispatched h) (given h ++ [m]))
  else None.
Definition close_turn (h : Hub) : option Hub :=
  Some (mkHub (links h) (pairs h) (working h) (rx h) false (cleaner h) (dispatcher h) (dispatched h) (given h)).

Inductive hstep : Hub -> Hub -> Prop :=
  | HAccept cred h h' : accept_turn cred h = Some h' -> hstep h h'
  | HClean h h' : cleaner_turn h = Some h' -> hstep h h'
  | HDispatch h h' : dispatcher_turn h = Some h' -> hstep h h'
  | HLink i ev h h' : link_turn i ev h = Some h' -> hstep h h'
  | HPut m h h' : put_turn m h = Some h' -> hstep h h'
  | HClose h h' : close_turn h = Some h' -> hstep h h'
  | HCheck exists_ h : hstep h (checking_turn exists_ h)
  | HStop h : hstep h (stop_hub h).

(** ** Routing *)

(** The messages for a pid, and what its connections got of them, first to last:
    written to the probe, or waiting in the channel. *)
Definition msgs (p : Z) (l : list (Z * bytes)) : list bytes := map snd (filter (fun m => m.1 = p) l).
Definition out (l : Link) : list bytes := frames (l_conn l) ++ l_chan l.
Definition out_of (p : Z) (ls : list Link) : list bytes := concat (map out (filter (fun l => l_pid l = p) ls)).
#[local] Arguments msgs : simpl never.
#[local] Arguments out_of : simpl never.
Definition pending (d : Dispatcher) : list (Z * bytes) :=
  match d with DTook p m | DSending p _ m => [(p, m)] | _ => [] end.

Lemma msgs_app p l k : msgs p (l ++ k) = msgs p l ++ msgs p k.
Proof. unfold msgs. by rewrite filter_app, map_app. Qed.
Lemma out_of_app p l k : out_of p (l ++ k) = out_of p l ++ out_of p k.
Proof. unfold out_of. by rewrite filter_app, map_app, concat_app. Qed.
Lemma out_of_other p ls : Forall (fun l => l_pid l <> p) ls -> out_of p ls = [].
Proof.
  intros H. unfold out_of. replace (filter _ ls) with (@nil Link); [done|]. symmetry.
  induction H as [|l ls Hl H IH]; [done|]. by rewrite filter_cons_False.
Qed.
Lemma out_of_cons p l ls : out_of p (l :: ls) = (if decide (l_pid l = p) then out l else []) ++ out_of p ls.
Proof. unfold out_of. rewrite filter_cons. by case_decide. Qed.

(** A connection that lost some of its messages. *)
Lemma out_of_insert p ls i l l' :
  ls !! i = Some l -> l_pid l' = l_pid l -> out l' `sublist_of` out l -> out_of p (<[i := l']> ls) `sublist_of` out_of p ls.
Proof.
  intros Hi Hp Ho. pose proof (lookup_lt_Some _ _ _ Hi) as Hl. rewrite <- (take_drop_middle ls i l Hi) at 2.
  rewrite insert_take_drop by done. rewrite !out_of_app, !out_of_cons, Hp.
  apply sublist_app; [done|]. apply sublist_app; [by case_decide|done].
Qed.

(** A filed connection is there, has its pid, and is the last with it. *)
Definition latest (ls : list Link) (p : Z) (i : nat) : Prop :=
  exists l, ls !! i = Some l /\ l_pid l = p /\ Forall (fun l => l_pid l <> p) (drop (S i) ls).

Record hub_ok (h : Hub) : Prop := {
  ok_pairs : forall p i, pairs h !! p = Some i -> latest (links h) p i;
  ok_sending : forall p i m, dispatcher h = DSending p i m -> pairs h !! p = Some i;
  ok_lock : cleaner_holds (cleaner h) && dispatcher_holds (dispatcher h) = false;
  ok_out : forall p, out_of p (links h) `sublist_of` msgs p (dispatched h);
  ok_given : given h = dispatched h ++ pending (dispatcher h) ++ rx h;
}.

Lemma latest_insert ls p i j l l' :
  ls !! j = Some l -> l_pid l' = l_pid l -> latest ls p i -> latest (<[j := l']> ls) p i.
Proof.
  intros Hj Hp (k & Hk & Hkp & Hall). pose proof (lookup_lt_Some _ _ _ Hj).
  assert (Hd : Forall (fun l => l_pid l <> p) (drop (S i) (<[j := l']> ls))).
  { apply Forall_lookup. intros n x Hx. rewrite lookup_drop in Hx. destruct (decide (j = S i + n)) as [->|Hne].
    - rewrite list_lookup_insert_eq in Hx by done. injection Hx as <-. rewrite Hp.
      refine (proj1 (Forall_lookup _ _) Hall n l _). by rewrite lookup_drop.
    - rewrite list_lookup_insert_ne in Hx by done. refine (proj1 (Forall_lookup _ _) Hall n x _). by rewrite lookup_drop. }
  destruct (decide (j = i)) as [->|Hne].
  - exists l'. rewrite list_lookup_insert_eq by done. split; [done|]. split; [congruence|done].
  - exists k. by rewrite list_lookup_insert_ne.
Qed.

Lemma ok_turn_links h ls :
  hub_ok h -> (forall p i, latest (links h) p i -> latest ls p i) -> (forall p, out_of p ls `sublist_of` out_of p (links h)) ->
  hub_ok (set_links ls h).
Proof.
  intros [Hp Hs Hl Ho Hg] Hlat Hout. split; cbn; try done; [intros p i E; by apply Hlat, Hp|].
  intros p. etransitivity; [apply Hout|apply Ho].
Qed.

Lemma link_turn_ok i ev h h' : link_turn i ev h = Some h' -> hub_ok h -> hub_ok h'.
Proof.
  unfold link_turn. intros (l & Hl & E)%bind_Some Hok. destruct (negb (l_running l)); [done|].
  apply bind_Some in E as ([e q] & He & [= <-]).
  assert (Hpid : l_pid (link_step e q l) = l_pid l) by (unfold link_step; by destruct (looping_step _ _ _) as [c []]).
  apply ok_turn_links; [done|intros p j; by eapply latest_insert|].
  intros p. apply (out_of_insert p _ i l); [done|done|]. unfold out, link_step.
  unfold link_event in He. destruct ev as [sent|f now sent|pt].
  - destruct (l_chan l) as [|m c] eqn:Ec.
    + case_bool_decide; [done|]. injection He as <- <-. cbn. by rewrite app_nil_r.
    + injection He as <- <-. cbn. destruct sent; cbn; [by rewrite <- app_assoc|]. apply sublist_app; [done|]. by constructor.
  - injection He as <- <-. destruct f as [[buf|]|]; cbn; [destruct sent; cbn; done|done..].
  - by injection He as <- <-.
Qed.

Lemma stop_pairs_ok h : hub_ok h -> hub_ok (set_links (stop_pairs h) h).
Proof.
  intros Hok. assert (Hall : forall ls k (f : nat -> Link -> Link), (forall i l, l_pid (f i l) = l_pid l /\ out (f i l) = out l) ->
    map (fun l => (l_pid l, out l)) (imap (fun i => f (k + i)) ls) = map (fun l => (l_pid l, out l)) ls).
  { intros ls. induction ls as [|l ls IH]; intros k f Hf; [done|]. cbn. destruct (Hf (k + 0) l) as [-> ->]. f_equal.
    rewrite <- (IH (S k) f Hf). f_equal. apply imap_ext. intros. cbn. by rewrite Nat.add_succ_r. }
  set (f := fun i l => if bool_decide (pairs h !! l_pid l = Some i) then set_flag (stop (ctrl (l_conn l))) l else l).
  assert (Hf : forall i l, l_pid (f i l) = l_pid l /\ out (f i l) = out l) by (intros i l; unfold f; by case_bool_decide).
  pose proof (Hall (links h) 0 f Hf) as E. change (stop_pairs h) with (imap f (links h)).
  apply ok_turn_links; [done| |].
  - intros p i (l & Hi & Hp & Hd). exists (f i l). rewrite list_lookup_imap, Hi. split; [done|]. split; [by rewrite (proj1 (Hf i l))|].
    apply Forall_lookup. intros n x Hx. rewrite lookup_drop, list_lookup_imap in Hx.
    destruct (links h !! (S i + n)) as [y|] eqn:Ey; [|done]. injection Hx as <-. rewrite (proj1 (Hf _ y)).
    refine (proj1 (Forall_lookup _ _) Hd n y _). by rewrite lookup_drop.
  - intros p. replace (out_of p (imap f (links h))) with (out_of p (links h)); [done|].
    assert (Hout : forall ls, out_of p ls = concat (map snd (filter (fun po => po.1 = p) (map (fun l => (l_pid l, out l)) ls)))).
    { intros ls. induction ls as [|l ls IH]; [done|]. rewrite out_of_cons. cbn [map]. rewrite filter_cons. cbn. by case_decide; rewrite IH. }
    by rewrite !Hout, <- E.
Qed.

Lemma cleaner_turn_ok h h' : cleaner_turn h = Some h' -> hub_ok h -> hub_ok h'.
Proof.
  intros E Hok. unfold cleaner_turn in E. destruct (cleaner h) eqn:Ec.
  - injection E as <-. destruct Hok. split; cbn; try done. by destruct (check _).
  - destruct (locked h) eqn:El; [done|]. injection E as <-. by destruct Hok.
  - destruct (locked h); [done|]. injection E as <-. destruct (stop_pairs_ok h Hok). by split.
  - destruct (locked h) eqn:El; [done|]. injection E as <-. apply orb_false_iff in El as [_ El]. destruct Hok as [Hp Hs Hl Ho Hg].
    assert (Hsub : forall p i, foldr delete (pairs h) pids !! p = Some i -> pairs h !! p = Some i).
    { clear. induction pids as [|q pids IH]; [done|]. cbn. intros p i [_ H]%lookup_delete_Some. by apply IH. }
    split; cbn; try done; [intros p i H; by apply Hp, Hsub|]. intros p i m E. by rewrite E in El.
  - injection E as <-. by destruct Hok.
  - done.
Qed.

(** The latest connection of a pid takes a message. *)
Lemma out_of_push p ls i l m :
  ls !! i = Some l -> latest ls p i ->
  out_of p (<[i := mkLink (l_pid l) (l_chan l ++ [m]) (l_conn l) true]> ls) = out_of p ls ++ [m]
  /\ forall q, q <> p -> out_of q (<[i := mkLink (l_pid l) (l_chan l ++ [m]) (l_conn l) true]> ls) = out_of q ls.
Proof.
  intros Hi (k & Hk & Hp & Hd). rewrite Hi in Hk. injection Hk as <-. pose proof (lookup_lt_Some _ _ _ Hi).
  pose proof (take_drop_middle ls i l Hi) as E. rewrite insert_take_drop by done.
  split; [|intros q Hq]; rewrite out_of_app, out_of_cons; cbn [l_pid].
  - rewrite decide_True, (out_of_other p (drop _ _)) by done. unfold out at 1. cbn. rewrite app_nil_r, !app_assoc. f_equal.
    rewrite <- E at 2. rewrite out_of_app, out_of_cons, decide_True, (out_of_other p (drop _ _)) by done. unfold out. by rewrite app_nil_r, app_assoc.
  - rewrite decide_False by congruence. rewrite <- E at 3. rewrite out_of_app, out_of_cons. by rewrite decide_False by congruence.
Qed.

Lemma msgs_snoc p q m l : msgs p (l ++ [(q, m)]) = msgs p l ++ (if decide (q = p) then [m] else []).
Proof. rewrite msgs_app. unfold msgs at 2. rewrite filter_cons, filter_nil. cbn. by case_decide. Qed.

Lemma dispatcher_turn_ok h h' : dispatcher_turn h = Some h' -> hub_ok h -> hub_ok h'.
Proof.
  intros E [Hp Hs Hl Ho Hg]. unfold dispatcher_turn in E. destruct (dispatcher h) as [|p m|p i m| |] eqn:Ed.
  - destruct (negb _). { injection E as <-. split; cbn; rewrite ?andb_false_r; done. }
    destruct (rx h) as [|[p m] q] eqn:Er.
    + destruct (rx_open h); injection E as <-; [split; try done; rewrite ?Ed, ?Er; done|].
      split; cbn; rewrite ?andb_false_r, ?Er; done.
    + injection E as <-. split; cbn; rewrite ?andb_false_r; done.
  - destruct (locked h) eqn:El; [done|]. apply orb_false_iff in El as [El _].
    destruct (pairs h !! p) as [i|] eqn:Epi; injection E as <-.
    + split; cbn; try done; [by intros ? ? ? [= <- <- <-]|by rewrite El].
    + split; cbn; rewrite ?andb_false_r; try done; [|by rewrite Hg, <- app_assoc].
      intros q. rewrite msgs_snoc. by apply sublist_inserts_r.
  - destruct (links h !! i) as [l|] eqn:Eli; [|done]. pose proof (Hs p i m eq_refl) as Hpi. pose proof (Hp p i Hpi) as Hlat.
    cbn in Hl. rewrite andb_true_r in Hl.
    destruct (negb (l_running l)).
    { injection E as <-. split; cbn; try done; [by rewrite Hl| |by rewrite Hg, <- app_assoc]. intros q. rewrite msgs_snoc. by apply sublist_inserts_r. }
    destruct (_ <? _); [|done]. injection E as <-. destruct (out_of_push p (links h) i l m Eli Hlat) as [Hop Hoq].
    split; cbn; try done; [intros q j Hq; by eapply latest_insert; [done|done|apply Hp]|by rewrite Hl| |by rewrite Hg, <- app_assoc].
    intros q. rewrite msgs_snoc. destruct (decide (q = p)) as [->|Hne].
    + rewrite decide_True, Hop by done. by apply sublist_app.
    + rewrite decide_False, app_nil_r, Hoq by congruence. done.
  - injection E as <-. split; cbn; rewrite ?andb_false_r; done.
  - done.
Qed.

Lemma accept_turn_ok cred h h' : accept_turn cred h = Some h' -> hub_ok h -> hub_ok h'.
Proof.
  unfold accept_turn. intros E [Hp Hs Hl Ho Hg]. destruct (locked h) eqn:El; [done|]. injection E as <-.
  apply orb_false_iff in El as [_ El]. set (p := peer_pid cred). split; cbn; try done.
  - intros q i Hq. destruct (decide (p = q)) as [->|Hne].
    + rewrite lookup_insert_eq in Hq. injection Hq as <-. eexists. split; [by rewrite list_lookup_middle|]. split; [done|].
      by rewrite drop_ge by (rewrite length_app; cbn; lia).
    + rewrite lookup_insert_ne in Hq by done. destruct (Hp q i Hq) as (l & Hi & Hlp & Hd). exists l.
      pose proof (lookup_lt_Some _ _ _ Hi). rewrite lookup_app_l by done. split; [done|]. split; [done|].
      rewrite drop_app_le by lia. apply Forall_app. split; [done|]. by repeat constructor.
  - intros q i m Ed. by rewrite Ed in El.
  - intros q. rewrite out_of_app. cbn. rewrite out_of_cons. cbn. case_decide; by rewrite app_nil_r.
Qed.

Lemma hstep_ok h h' : hstep h h' -> hub_ok h -> hub_ok h'.
Proof.
  intros Hs Hok. destruct Hs as [cred h h' E|h h' E|h h' E|i ev h h' E|m h h' E|h h' E|exists_ h|h].
  - by eapply accept_turn_ok.
  - by eapply cleaner_turn_ok.
  - by eapply dispatcher_turn_ok.
  - by eapply link_turn_ok.
  - unfold put_turn in E. destruct (_ && _); [|done]. injection E as <-. destruct Hok as [? ? ? ? Hg]. split; cbn; try done.
    by rewrite Hg, <- !app_assoc.
  - injection E as <-. by destruct Hok.
  - destruct exists_; by destruct Hok.
  - by destruct Hok.
Qed.

Lemma hub_runs_ok h : rtc hstep Hub_new h -> hub_ok h.
Proof.
  intros Hr. assert (H0 : hub_ok Hub_new) by (split; cbn; try done; intros p i; by rewrite lookup_empty).
  revert H0. induction Hr as [h|h1 h2 h3 Hs _ IH]; intros Hok; [done|]. apply IH. by eapply hstep_ok.
Qed.

(** C17: however connections come and go and the tasks of the server interleave, the
    plugin's messages are handled in the order they were sent, none twice: for
    every pid, what its successive connections wrote to the probe or still hold,
    from the first connection to the last, is a subsequence of the messages for
    that pid the dispatcher is done with; and a pair always leads to the last
    connection of its pid.  The write lock of the pairs is never held twice. *)
Theorem messages_routed h :
  rtc hstep Hub_new h ->
  given h = dispatched h ++ pending (dispatcher h) ++ rx h
  /\ (forall p, out_of p (links h) `sublist_of` msgs p (dispatched h))
  /\ (forall p i, pairs h !! p = Some i -> latest (links h) p i)
  /\ cleaner_holds (cleaner h) && dispatcher_holds (dispatcher h) = false.
Proof. by intros [Hp _ Hl Ho Hg]%hub_runs_ok. Qed.

(** ** A probe that does not read *)

(** The dispatcher waits for room on the channel of connection [i]. *)
Definition stalled (i : nat) (h : Hub) : Prop :=
  exists p m l, dispatcher h = DSending p i m /\ links h !! i = Some l /\ l_running l = true /\ PAIR_CHANNEL <= length (l_chan l).

Lemma link_turn_links i ev h h' :
  link_turn i ev h = Some h' -> dispatcher h' = dispatcher h /\ pairs h' = pairs h /\ exists l, links h' = <[i := l]> (links h).
Proof.
  unfold link_turn. intros (l & _ & E)%bind_Some. destruct (negb _); [done|]. apply bind_Some in E as ([e q] & _ & [= <-]). cbn. eauto.
Qed.

(** One probe that does not read stops the server: while the dispatcher waits for
    room in the channel of a connection it holds the lock, and until that
    connection takes a turn of its own nothing is dispatched, accepted or removed:
    every other step leaves the pairs, the number of connections and the
    dispatcher where they are. *)
Theorem stalled_probe_blocks i h h' :
  stalled i h -> hstep h h' -> (forall ev, link_turn i ev h <> Some h') ->
  stalled i h' /\ dispatcher h' = dispatcher h /\ pairs h' = pairs h /\ length (links h') = length (links h)
  /\ dispatched h' = dispatched h.
Proof.
  intros (p & m & l & Hd & Hl & Hr & Hf) Hs Hi.
  assert (Hlock : locked h = true) by (unfold locked; rewrite Hd; apply orb_true_r).
  assert (Hkeep : forall h', dispatcher h' = dispatcher h -> pairs h' = pairs h -> dispatched h' = dispatched h ->
    length (links h') = length (links h) -> links h' !! i = Some l -> stalled i h' /\ dispatcher h' = dispatcher h
    /\ pairs h' = pairs h /\ length (links h') = length (links h) /\ dispatched h' = dispatched h).
  { intros h0 E1 E2 E3 E4 E5. split_and!; try done. exists p, m, l. by rewrite E1. }
  destruct Hs as [cred h h' E|h h' E|h h' E|j ev h h' E|m' h h' E|h h' E|exists_ h|h].
  - unfold accept_turn in E. by rewrite Hlock in E.
  - unfold cleaner_turn in E. rewrite Hlock in E. destruct (cleaner h); simplify_eq; by apply Hkeep.
  - unfold dispatcher_turn in E. rewrite Hd, Hl, Hr in E. cbn [negb] in E. destruct (Nat.ltb_spec (length (l_chan l)) PAIR_CHANNEL); [lia|done].
  - destruct (decide (j = i)) as [->|Hne]; [by destruct (Hi ev)|]. pose proof E as E0.
    apply link_turn_links in E as (E1 & E2 & l' & E3). apply Hkeep; [done|done| |by rewrite E3, length_insert|by rewrite E3, list_lookup_insert_ne].
    unfold link_turn in E0. apply bind_Some in E0 as (l0 & _ & E0). destruct (negb _); [done|].
    by apply bind_Some in E0 as ([e q] & _ & [= <-]).
  - unfold put_turn in E. destruct (_ && _); [|done]. injection E as <-. by apply Hkeep.
  - injection E as <-. by apply Hkeep.
  - destruct exists_; by apply Hkeep.
  - by apply Hkeep.
Qed.

End hub.

(** ** A connection lost to the cleaner *)

(** Turns, one after the other. *)
Fixpoint turns (ts : list (Hub -> option Hub)) (h : Hub) : option Hub :=
  match ts with [] => Some h | t :: ts => h ← t h; turns ts h end.
Definition a_turn {cap : RxCap} (t : Hub -> option Hub) : Prop := forall h h', t h = Some h' -> hstep h h'.

Lemma turns_run {cap : RxCap} ts h h' : Forall a_turn ts -> turns ts h = Some h' -> rtc hstep h h'.
Proof.
  intros Ht. revert h. induction Ht as [|t ts Ht _ IH]; intros h; cbn [turns]; [intros [= <-]; apply rtc_refl|].
  intros (h1 & E & E1)%bind_Some. eapply rtc_l; [by apply Ht|by apply IH].
Qed.
Lemma a_turn_accept {cap : RxCap} cred : a_turn (accept_turn cred).
Proof. intros h h'. apply HAccept. Qed.
Lemma a_turn_clean {cap : RxCap} : a_turn cleaner_turn.
Proof. intros h h'. apply HClean. Qed.
Lemma a_turn_dispatch {cap : RxCap} : a_turn dispatcher_turn.
Proof. intros h h'. apply HDispatch. Qed.
Lemma a_turn_link {cap : RxCap} i ev : a_turn (link_turn i ev).
Proof. intros h h'. apply HLink. Qed.
Lemma a_turn_put {cap : RxCap} m : a_turn (put_turn m).
Proof. intros h h'. apply HPut. Qed.
#[local] Hint Resolve a_turn_accept a_turn_clean a_turn_dispatch a_turn_link a_turn_put : elkeid.

Ltac all_turns := repeat (apply Forall_cons; split; [solve [auto with elkeid]|]); apply Forall_nil_2.

(** A probe reconnects while the cleaner has found its old connection stopped and
    waits for the lock again. *)
Definition reconnect : list (Hub -> option Hub) :=
  [accept_turn (Some (Some 7%Z)); link_turn 0 (LFrame None 0 true); cleaner_turn; cleaner_turn;
   accept_turn (Some (Some 7%Z)); cleaner_turn].

(** The cleaner can remove a connection that works: a probe that reconnects between
    the cleaner's two locks is filed under a pid found stopped, and its pair is
    removed; its channel is closed and its loop ends with the next turn on it. *)
Theorem reconnect_closed {cap : RxCap} :
  exists h l, rtc hstep Hub_new h /\ links h !! 1 = Some l /\ l_pid l = 7%Z /\ l_running l = true /\ check (ctrl (l_conn l)) = true
  /\ pairs h !! 7%Z = None
  /\ exists h' l', link_turn 1 (LRecv true) h = Some h' /\ links h' !! 1 = Some l' /\ l_running l' = false.
Proof.
  destruct (turns reconnect Hub_new) as [h|] eqn:E; [|by vm_compute in E].
  exists h, (mkLink 7 [] Conn_new true). split; [apply (turns_run reconnect); [all_turns|done]|].
  vm_compute in E. injection E as <-. do 5 (split; [reflexivity|]). eexists _, _. split; [reflexivity|]. split; reflexivity.
Qed.

(** A server that was stopped goes on: once the cleaner and the dispatcher have
    ended, a new connection is accepted as before and its frames are reported. *)
Theorem stopped_server_serves cred buf now h :
  cleaner h = CDone -> dispatcher h = DDone ->
  exists h1 h2 l, accept_turn cred h = Some h1
  /\ link_turn (length (links h)) (LFrame (Some (Some buf)) now true) h1 = Some h2
  /\ links h2 !! length (links h) = Some l
  /\ records (l_conn l) = [frame_record (peer_pid cred) now ∅ (from_utf8_lossy buf)].
Proof.
  intros Ec Ed. unfold accept_turn. assert (locked h = false) as -> by (unfold locked; by rewrite Ec, Ed).
  eexists _, _, _. split; [done|]. unfold link_turn. cbn. rewrite list_lookup_middle by done. cbn.
  split; [done|]. cbn. split; [by rewrite list_lookup_insert_eq by (rewrite length_app; cbn; lia)|done].
Qed.

(** ** Runs *)

#[local] Instance fifty : RxCap := 50.

(** Two messages to a probe that reconnects between them. *)
Definition routed_run : list (Hub -> option Hub) :=
  [accept_turn (Some (Some 7%Z)); put_turn (7%Z, bs "a"); put_turn (7%Z, bs "b"); dispatcher_turn; dispatcher_turn; dispatcher_turn; dispatcher_turn;
   link_turn 0 (LRecv true); accept_turn (Some (Some 7%Z)); dispatcher_turn; dispatcher_turn; dispatcher_turn].
Definition routed : Hub := default Hub_new (turns routed_run Hub_new).

Lemma messages_routed_witness :
  out_of 7 (links routed) = [bs "a"; bs "b"]
  /\ given routed = dispatched routed ++ pending (dispatcher routed) ++ rx routed
  /\ (forall p, out_of p (links routed) `sublist_of` msgs p (dispatched routed))
  /\ (forall p i, pairs routed !! p = Some i -> latest (links routed) p i)
  /\ cleaner_holds (cleaner routed) && dispatcher_holds (dispatcher routed) = false.
Proof.
  split; [vm_compute; reflexivity|]. refine (messages_routed routed _).
  apply (turns_run routed_run); [all_turns|vm_compute; reflexivity].
Defined.

(** Six messages to a probe that reads none. *)
Definition stalled_run : list (Hub -> option Hub) :=
  accept_turn (Some (Some 7%Z)) :: concat (replicate 5 [put_turn (7%Z, bs "a"); dispatcher_turn; dispatcher_turn; dispatcher_turn; dispatcher_turn])
  ++ [put_turn (7%Z, bs "b"); dispatcher_turn; dispatcher_turn].
Definition stuck : Hub := default Hub_new (turns stalled_run Hub_new).

Lemma stalled_probe_blocks_witness :
  stalled 0 (stop_hub stuck) /\ dispatcher (stop_hub stuck) = dispatcher stuck /\ pairs (stop_hub stuck) = pairs stuck
  /\ length (links (stop_hub stuck)) = length (links stuck) /\ dispatched (stop_hub stuck) = dispatched stuck.
Proof.
  refine (stalled_probe_blocks 0 stuck (stop_hub stuck) _ (HStop stuck) _).
  - exists 7%Z, (bs "b"), (mkLink 7 (replicate 5 (bs "a")) Conn_new true). split_and!; [vm_compute; reflexivity..|cbn; unfold PAIR_CHANNEL; lia].
  - intros ev E. apply (f_equal (fun o => default true (working <$> o))) in E. unfold link_turn in E.
    replace (links stuck !! 0) with (Some (mkLink 7 (replicate 5 (bs "a")) Conn_new true)) in E by (vm_compute; reflexivity).
    cbn [mbind option_bind] in E. destruct ev; vm_compute in E; discriminate.
Defined.
