(* ===== verification/RaspManager.v ===== *)
(** * The rasp manager ([librasp/src]: manager.rs, comm.rs)

    The manager keeps, for each mount name space, the processes it serves there and
    whether a server runs ([MntNamespaceTracer]); it starts and stops servers in
    one of two modes, sends configurations to probes and attaches probes to
    processes. *)

From S2P Require Import Prelude Bytes RustStd Json Encoder Bridge ScanEvents RaspOs RaspProcess RaspRuntime RaspServer.

(** ** Name spaces *)

Module tracer.
(** {<mnt namespace>: ([<pid>, <pid>...], <server_start_or_not>)} *)
Abbreviation t := (gmap bytes (list Z * bool)).
Definition new : t := ∅.

Definition add (ns : bytes) (p : Z) (self : t) : t :=
  match self !! ns with
  | Some (pids, on) => if bool_decide (p ∈ pids) then self else <[ns := (pids ++ [p], on)]> self
  | None => <[ns := ([p], false)]> self
  end.
Definition detele_namespace (ns : bytes) (self : t) : t := delete ns self.
(** [position] and [Vec::remove]: the first occurrence. *)
Fixpoint remove_first (p : Z) (pids : list Z) : list Z :=
  match pids with
  | [] => []
  | q :: pids => if bool_decide (q = p) then pids else q :: remove_first p pids
  end.
Definition delete_pid (ns : bytes) (p : Z) (self : t) : t :=
  match self !! ns with Some (pids, on) => <[ns := (remove_first p pids, on)]> self | None => self end.
Definition server_state (ns : bytes) (self : t) : option bool := snd <$> self !! ns.
Definition server_state_on (ns : bytes) (self : t) : t :=
  match self !! ns with Some (pids, _) => <[ns := (pids, true)]> self | None => self end.
(** Whether the server is to be killed, and the map after. *)
Definition server_state_off (ns : bytes) (p : Z) (self : t) : bool * t :=
  match self !! ns with
  | Some (pids, on) =>
      let pids := if bool_decide (p ∈ pids) then remove_first p pids else pids in
      if bool_decide (pids = []) then (true, delete ns self) else (false, <[ns := (pids, on)]> self)
  | None => (false, self)
  end.
End tracer.

(** ** Ways to talk to probes (comm.rs) *)

Record ThreadMode := mkThreadMode {
  bind_path : bytes;
  linking_to : option bytes;
  using_mount : bool;
  agent_to_probe : list (Z * bytes);   (** messages sent *)
  receiving : bool;                    (** the other end of the channel is there *)
  tm_ctrl : Control;
}.
(** A channel holds fifty messages and its other end is kept beside it, so that a
    send never fails; one that would have to wait counts as sent here. *)
Record ProcessMode := mkProcessMode {
  mnt_namesapce_server_map : gmap bytes RASPServerProcess;
  mnt_namespace_comm_pair : gmap bytes (list bytes);
}.
Definition ProcessMode_new : ProcessMode := mkProcessMode ∅ ∅.

Record RASPManager := mkManager {
  namespace_tracer : tracer.t;
  thread_comm : option ThreadMode;
  process_comm : option ProcessMode;
  host_calls : list call;
}.
#[global] Instance manager_calls : HasCalls RASPManager :=
  {| calls := host_calls; set_calls h m := mkManager (namespace_tracer m) (thread_comm m) (process_comm m) h |}.
Definition set_tracer (tr : tracer.t) (m : RASPManager) : RASPManager := mkManager tr (thread_comm m) (process_comm m) (host_calls m).
Definition set_thread (c : ThreadMode) (m : RASPManager) : RASPManager :=
  mkManager (namespace_tracer m) (Some c) (process_comm m) (host_calls m).
Definition set_process (c : ProcessMode) (m : RASPManager) : RASPManager :=
  mkManager (namespace_tracer m) (thread_comm m) (Some c) (host_calls m).

(** Code that only calls the host, run by the manager. *)
Definition io {A} (c : SM (list call) A) : SM RASPManager A := fun m =>
  let '(r, h) := c (host_calls m) in (r, set_calls h m).

Section Comm.
Context `{!Host} `{!Regex} (base : bytes).

Definition mount (p : Z) (from to : bytes) : SM (list call) unit :=
  o ← attempt (run_async_process (settings.RASP_MOUNT_SCRIPT_BIN base) [show_i32 p; from; to; settings.RASP_NS_ENTER_BIN base]);
  match o with
  | Some out => if success (out_status out) then mret tt else sm_fail (Anyhow "mount script execute failed")
  | None => sm_fail (Anyhow "can not mount")
  end.

Definition thread_start_comm (c : ThreadMode) (p : Z) : SM (list call) unit :=
  (if using_mount c then match parent (bind_path c) with Some d => mount p d d | None => mret tt end else mret tt);;
  match linking_to c with
  | Some link =>
      r ← ask (CommandOutput (settings.RASP_NS_ENTER_BIN base)
            [bs "-t"; show_i32 p; bs "-m"; bs "-i"; bs "-n"; bs "-p"; bs "/bin/ln"; bs "-sf"; bind_path c; link]);
      match r with Some _ => mret tt | None => sm_fail (Anyhow "link bind path failed") end
  | None => mret tt
  end.
Definition thread_stop_comm : SM (list call) unit := mret tt.
(** A channel whose other end is gone stops the plugin. *)
Definition thread_send_message (c : ThreadMode) (p : Z) (message : bytes) : outcome unit * ThreadMode :=
  if receiving c then (Ret tt, mkThreadMode (bind_path c) (linking_to c) (using_mount c) (agent_to_probe c ++ [(p, message)]) true (tm_ctrl c))
  else (Fail (Anyhow "send message to probe failed"),
        mkThreadMode (bind_path c) (linking_to c) (using_mount c) (agent_to_probe c) false (stop (tm_ctrl c))).

Definition process_start_comm (c : ProcessMode) (p : Z) (ns : bytes) (patch : gmap bytes bytes) : SM (list call) ProcessMode :=
  server ← spawn_server (RASPServerProcess_new p patch);
  mret (mkProcessMode (<[ns := server]> (mnt_namesapce_server_map c)) (<[ns := []]> (mnt_namespace_comm_pair c))).
Definition process_stop_comm (c : ProcessMode) (ns : bytes) : SM RASPManager unit :=
  match mnt_namesapce_server_map c !! ns with
  | Some runner =>
      sm_modify (set_process (mkProcessMode (delete ns (mnt_namesapce_server_map c)) (mnt_namespace_comm_pair c)));;
      kill_server runner
  | None => sm_fail (Anyhow "didn't start server for mnt namespace")
  end.
Definition process_send_message (c : ProcessMode) (ns message : bytes) : ProcessMode :=
  match mnt_namespace_comm_pair c !! ns with
  | Some q => mkProcessMode (mnt_namesapce_server_map c) (<[ns := q ++ [message]]> (mnt_namespace_comm_pair c))
  | None => c
  end.

(** ** [RASPManager] *)

(** The fields a server lays over the messages of a process. *)
Definition patch_of (i : ProcessInfo) (nspid : Z) : gmap bytes bytes :=
  insert_strs [("sid", show_i32 (sid i)); ("pid", show_i32 (pid i)); ("nspid", show_i32 nspid); ("ppid", show_i32 (ppid i));
    ("tgid", show_i32 (tgid i)); ("argv", default [] (cmdline i)); ("exe", default [] (exe_path i));
    ("ruid", show_u64 (ruid i)); ("rgid", show_u64 (rgid i)); ("euid", show_u64 (euid i)); ("egid", show_u64 (egid i));
    ("suid", show_u64 (suid i)); ("sgid", show_u64 (sgid i)); ("fuid", show_u64 (fuid i)); ("fgid", show_u64 (fgid i))]%string ∅.

Definition track (ns : bytes) (p : Z) : SM RASPManager unit :=
  sm_modify (fun m => set_tracer (tracer.server_state_on ns (tracer.add ns p (namespace_tracer m))) m).

Definition start_comm (i : ProcessInfo) : SM RASPManager unit :=
  ns ← get_mnt_ns i;
  o ← io (read_nspid (pid i));
  let nspid := default (pid i) o in
  m ← sm_gets id;
  match thread_comm m, process_comm m with
  | Some comm, _ => io (thread_start_comm comm (pid i));; track ns (pid i)
  | None, Some comm =>
      let patch := patch_of i nspid in
      match tracer.server_state ns (namespace_tracer m) with
      | Some true =>
          match mnt_namesapce_server_map comm !! ns with
          | Some runner =>
              sm_modify (set_process (mkProcessMode (<[ns := update_patch_field patch runner]> (mnt_namesapce_server_map comm))
                                        (mnt_namespace_comm_pair comm)))
          | None => mret tt
          end
      | Some false => track ns (pid i)
      | None => comm ← io (process_start_comm comm (pid i) ns patch); sm_modify (set_process comm);; track ns (pid i)
      end
  | None, None => sm_fail (Anyhow "both thread && process comm mode not init")
  end.

Definition stop_comm (i : ProcessInfo) : SM RASPManager unit :=
  ns ← get_mnt_ns i;
  kill_check ← sm_call (fun m => let '(k, tr) := tracer.server_state_off ns (pid i) (namespace_tracer m) in (k, set_tracer tr m));
  if kill_check : bool then
    m ← sm_gets id;
    (match thread_comm m with Some _ => io thread_stop_comm | None => mret tt end);;
    match process_comm m with Some comm => process_stop_comm comm ns | None => mret tt end
  else mret tt.

(** *** Configurations *)

Definition config_dir : bytes := bs "/var/run/elkeid_rasp".
Definition config_path (nspid : Z) : bytes := config_dir ++ bs "/" ++ show_i32 nspid ++ bs ".json".
(** The arguments of [nsenter]. *)
Definition write_config_args (p nspid : Z) (message : bytes) : list bytes :=
  let bak := config_path nspid ++ bs ".bak" in
  [bs "-m"; bs "-t"; show_i32 p; bs "sh"; bs "-c"; bs "PATH=/bin:/usr/bin:/sbin";
   bs "mkdir -p " ++ config_dir ++ bs " && echo '" ++ message ++ bs "' > " ++ bak ++ bs " && mv " ++ bak ++ bs " " ++ config_path nspid].
Definition write_message_to_config_file (p nspid : Z) (message : bytes) : SM (list call) unit :=
  _ ← run_async_process (settings.RASP_NS_ENTER_BIN base) (write_config_args p nspid message); mret tt.
Definition delete_config_file (p nspid : Z) : SM (list call) unit :=
  b ← ask (Exists (config_path nspid));
  if b : bool then
    _ ← run_async_process (settings.RASP_NS_ENTER_BIN base)
          [bs "-m"; bs "-t"; show_i32 p; bs "sh"; bs "-c"; bs "rm " ++ config_path nspid]; mret tt
  else mret tt.

(** The messages sent for those received: an empty configuration stands for one
    without a uuid, and all four of them for none at all. *)
Definition empty_config (message_type : Z) : outcome PidMissingProbeConfig :=
  match ProbeConfigData_empty message_type with
  | Some d => Ret (mkPidMissing message_type d)
  | None => Fail (Anyhow "message type not valid")
  end.
Fixpoint outcome_map {A B} (f : A -> outcome B) (l : list A) : outcome (list B) :=
  match l with
  | [] => Ret []
  | a :: l => b ← f a; bs ← outcome_map f l; Ret (b :: bs)
  end.
Definition valid_message (m : PidMissingProbeConfig) : outcome PidMissingProbeConfig :=
  if bool_decide (uuid (config_data m) = []) then empty_config (message_type m) else Ret m.
Definition valid_messages (messages : list PidMissingProbeConfig) : outcome (list PidMissingProbeConfig) :=
  messages ← match messages with [] => outcome_map empty_config [6; 7; 8; 9]%Z | _ => Ret messages end;
  outcome_map valid_message messages.

Context `{!Json}.
Definition send_one (p : Z) (ns : bytes) (v : PidMissingProbeConfig) : SM RASPManager unit :=
  let m_string := json_print (PidMissing_to_json v) in
  m ← sm_gets id;
  match thread_comm m, process_comm m with
  | Some comm, _ => let '(r, comm) := thread_send_message comm p m_string in sm_modify (set_thread comm);; sm_lift r
  | None, Some comm => sm_modify (set_process (process_send_message comm ns m_string))
  | None, None => sm_fail (Anyhow "both thread && process comm mode not init")
  end.
Definition send_message_to_probe (p : Z) (ns message : bytes) : SM RASPManager unit :=
  o ← io (read_nspid p); nspid ← ok_or "can not fetch nspid" o;
  messages ← ok_or "serde" (json_parse message ≫= of_arr PidMissing_of_json);
  valid ← sm_lift (valid_messages messages);
  for_each (send_one p ns) valid;;
  io (write_message_to_config_file p nspid (json_print (JArr (map PidMissing_to_json valid)))).
End Comm.

(** *** Files of the probes *)

Section Attach.
Context `{!Host} `{!Regex} (base : bytes).
#[local] Abbreviation IO := (SM (list call)).

Definition can_copy (ns : bytes) : bool := true.
Definition root_dir (p : Z) : bytes := bs "/proc/" ++ show_i32 p ++ bs "/root".

Definition create_dir_if_not_exist (dir dest_root : bytes) : IO unit := php.create_dir_if_not_exist dir dest_root.
Definition copy_file_from_to_dest (from dest_root : bytes) : IO unit := php.copy_file_from_to_dest from dest_root.
(** [target] has no slash between its parts, the destination of the copy has one. *)
Definition copy_dir_from_to_dest (from dest_root : bytes) : IO unit :=
  b ← ask (Exists (dest_root ++ from));
  if b : bool then mret tt
  else
    dir ← unwrap (parent from);
    create_dir_if_not_exist dir dest_root;;
    r ← ask (CopyDir from (dest_root ++ bs "/" ++ from));
    ok_or "copy failed" r.
Definition copy_names (ns : bytes) (names : list bytes * list bytes) (dest : bytes) : IO unit :=
  if can_copy ns then
    for_each (fun from => copy_file_from_to_dest from dest) names.1;;
    for_each (fun from => copy_dir_from_to_dest from dest) names.2
  else mret tt.

(** [cwd] is [std::env::current_dir()]. *)
Definition copy_to_dest (cwd : option bytes) (dest_root : bytes) : IO unit :=
  cwd ← try_ cwd;
  (if utf8_valid cwd then mret tt else sm_panic);;
  _ ← ask (CreateAll (dest_root ++ cwd));
  r ← ask (CopyDir (cwd ++ bs "/lib") (dest_root ++ bs "/" ++ cwd ++ bs "/"));
  ok_or "copy failed" r.
Definition copy_to_target_dir (cwd : option bytes) (p : Z) (ns : bytes) : SM RASPManager unit :=
  o ← sm_gets (fun m => tracer.server_state ns (namespace_tracer m));
  match o with
  | Some true => mret tt
  | _ => io (copy_to_dest cwd (root_dir p))
  end.

(** *** Inspection *)

Definition PROCESS_BALACK : list bytes := map bs ["/usr/sbin"; "/lib/systemd"; "/pause"; "/bin"; "/sbin"]%string.
Definition inspect (i : ProcessInfo) : IO unit :=
  path ← ok_or "missing exe path during inspect" (exe_path i);
  if existsb (starts_with path) PROCESS_BALACK then sm_fail (Anyhow "inspecting process hit black list") else mret tt.
Definition runtime_inspect (i : ProcessInfo) : IO (bool * ProcessInfo) :=
  r ← inspect_from_process_info base i; mret (true, set_runtime r i).

(** *** Attaching *)

Definition attach_not_attached (st : ProbeState) (ns : bytes) (names : list bytes * list bytes) (dest : bytes) (go : IO bool) : IO bool :=
  match st with
  | Attached => mret true
  | NotAttach => copy_names ns names dest;; go
  end.

Definition attach_runtime (i : ProcessInfo) (ns : bytes) (r : Runtime) : IO bool :=
  let dest := root_dir (pid i) in
  if bool_decide (rt_name r = bs "JVM") then
    st ← JVM_inspect_process base i;
    attach_not_attached st ns (JVMProbe_names base) dest (java_attach base (pid i))
  else if bool_decide (rt_name r = bs "CPython") then
    st ← CPython_inspect_process i;
    attach_not_attached st ns (CPythonProbe_names base) dest (python_attach base (pid i))
  else if bool_decide (rt_name r = bs "Golang") then
    st ← Golang_inspect_process i;
    attach_not_attached st ns (GolangProbe_names base) dest (golang_attach base (pid i))
  else if bool_decide (rt_name r = bs "NodeJS") then
    copy_names ns (NodeJSProbe_names base) dest;;
    path ← ok_or "process exe path not found" (exe_path i);
    nodejs_attach base (pid i) path
  else if bool_decide (rt_name r = bs "PHP") then
    st ← php.PHP_inspect_process i;
    match st with
    | Attached => mret true
    | NotAttach => php.php_attach base i (rt_version r)
    end
  else sm_fail (Anyhow "can not attach to runtime").

Definition attach (i : ProcessInfo) : IO unit :=
  match runtime i with
  | None => sm_fail (Anyhow "attaching to unknow runtime process")
  | Some r =>
      _ ← ok_or "can not fetch envrion" (environ i);
      namespace ← unwrap (namespace_info i);
      ns ← unwrap (mnt namespace);
      o ← read_nspid (pid i); nspid ← ok_or "can not read nspid" o;
      delete_config_file base (pid i) nspid;;
      success ← attach_runtime i ns r;
      if success : bool then mret tt else sm_fail (Anyhow "attach failed")
  end.

(** *** Start of the manager *)

Definition clean_prev_lib : IO unit :=
  r ← ask (ReadDir (bs "./")); names ← try_ r;
  for_each (fun name =>
    let filename := from_utf8_lossy name in
    if contains filename (bs "lib-") && negb (contains filename settings.RASP_VERSION)
    then r ← ask (RemoveDir (bs "./" ++ filename)); try_ r else mret tt) names.

Definition init (comm_mode : bytes) (bind : bytes) (link : option bytes) (use_mount : bool) : IO RASPManager := fun h =>
  match clean_prev_lib h with
  | (Ret _, h) =>
      if bool_decide (comm_mode = bs "thread") then
        (Ret (mkManager tracer.new (Some (mkThreadMode bind link use_mount [] true Control_new)) None h), h)
      else if bool_decide (comm_mode = bs "server") then (Ret (mkManager tracer.new None (Some ProcessMode_new) h), h)
      else (Fail (Anyhow "not a valid comm mode"), h)
  | (Fail e, h) => (Fail e, h)
  | (Panic, h) => (Panic, h)
  end.
End Attach.

(** ** The state of the manager *)

(** What every manager in server mode keeps to: a name space is traced exactly
    when it has a server, always with the server marked as started, for exactly
    one process, and no server knows the pid of its child. *)
Definition manager_ok (m : RASPManager) : Prop :=
  thread_comm m = None
  /\ exists comm, process_comm m = Some comm
     /\ (forall ns, is_Some (mnt_namesapce_server_map comm !! ns) <-> is_Some (namespace_tracer m !! ns))
     /\ map_Forall (fun _ v => exists p, v = ([p], true)) (namespace_tracer m)
     /\ map_Forall (fun _ server => child_id server = 0%Z) (mnt_namesapce_server_map comm).

Lemma io_keeps {A} (c : SM (list call) A) m r m' :
  io c m = (r, m') -> namespace_tracer m' = namespace_tracer m /\ thread_comm m' = thread_comm m /\ process_comm m' = process_comm m
  /\ c (host_calls m) = (r, host_calls m').
Proof. unfold io. destruct (c (host_calls m)) as [r0 h]. by intros [= <- <-]. Qed.

Lemma manager_ok_same m m' :
  namespace_tracer m' = namespace_tracer m -> thread_comm m' = thread_comm m -> process_comm m' = process_comm m ->
  manager_ok m -> manager_ok m'.
Proof. unfold manager_ok. by intros -> -> ->. Qed.

Lemma get_mnt_ns_pure {S} i (s : S) : snd (get_mnt_ns i s) = s.
Proof. unfold get_mnt_ns. destruct (namespace_info i) as [n|]; [|done]. by destruct (mnt n). Qed.
Lemma get_mnt_ns_total {S} i (s : S) : fst (get_mnt_ns i s) <> Panic.
Proof. unfold get_mnt_ns. destruct (namespace_info i) as [n|]; [|done]. by destruct (mnt n). Qed.

(** A new server: it does not know its child. *)
Lemma new_child_id p patch : child_id (RASPServerProcess_new p patch) = 0%Z.
Proof. unfold RASPServerProcess_new, update_patch_field. by destruct (patch !! _). Qed.
Lemma update_child_id patch s : child_id (update_patch_field patch s) = child_id s.
Proof. unfold update_patch_field. by destruct (patch !! _). Qed.

Definition mnt_ns_of (i : ProcessInfo) : option bytes := namespace_info i ≫= mnt.
Lemma get_mnt_ns_eq {S} i (s : S) :
  match mnt_ns_of i with
  | Some ns => get_mnt_ns i s = (Ret ns, s)
  | None => exists e, get_mnt_ns i s = (Fail e, s)
  end.
Proof.
  unfold get_mnt_ns, mnt_ns_of. destruct (namespace_info i) as [n|]; simpl; [|by eexists].
  destruct (mnt n); simpl; [done|by eexists].
Qed.

Lemma server_on_add ns p tr :
  tr !! ns = None -> tracer.server_state_on ns (tracer.add ns p tr) = <[ns := ([p], true)]> tr.
Proof.
  intros E. unfold tracer.add. rewrite E. unfold tracer.server_state_on. rewrite lookup_insert_eq. by rewrite insert_insert_eq.
Qed.

Lemma set_tracer_same m : set_tracer (namespace_tracer m) m = m.
Proof. by destruct m. Qed.

Section Comm_ok.
Context `{!Host} `{!Regex} (base : bytes).

Lemma process_start_inv comm p ns patch h r h' :
  process_start_comm comm p ns patch h = (r, h') ->
  match r with
  | Ret comm' => exists server, child_id server = 0%Z
      /\ mnt_namesapce_server_map comm' = <[ns := server]> (mnt_namesapce_server_map comm)
  | _ => True
  end.
Proof.
  intros E. destruct r as [comm'| |]; [|done..]. unfold process_start_comm, spawn_server in E. sm_inv.
  eexists. split; [|done]. apply new_child_id.
Qed.

Lemma start_comm_ok i m r m' :
  manager_ok m -> start_comm base i m = (r, m') ->
  manager_ok m' /\ (r = Ret tt -> exists ns, mnt_ns_of i = Some ns
    /\ namespace_tracer m' = match namespace_tracer m !! ns with Some _ => namespace_tracer m | None => <[ns := ([pid i], true)]> (namespace_tracer m) end).
Proof.
  intros Hok. unfold start_comm, mbind at 1, SM_bind at 1. pose proof (get_mnt_ns_eq i m) as Hns.
  destruct (mnt_ns_of i) as [ns|]; [rewrite Hns|destruct Hns as [e ->]; by intros [= <- <-]]. clear Hns.
  unfold mbind at 1, SM_bind at 1. destruct (io (read_nspid (pid i)) m) as [ro m1] eqn:Eio.
  apply io_keeps in Eio as (Ht & Hth & Hp & _). pose proof (manager_ok_same m m1 Ht Hth Hp Hok) as Hok1.
  destruct ro as [o| |]; [|by intros [= <- <-]..]. rewrite <- Ht. clear m Ht Hth Hp Hok. rename m1 into m.
  unfold mbind at 1, SM_bind at 1, sm_gets, id. pose proof Hok1 as (Hth & comm & Hpc & Hdom & Hone & Hid).
  rewrite Hth, Hpc. unfold tracer.server_state. destruct (namespace_tracer m !! ns) as [[pids on]|] eqn:Etr; simpl.
  - destruct (Hone ns _ Etr) as [q [= -> ->]]. destruct (proj2 (Hdom ns)) as [server Es]; [by rewrite Etr|].
    rewrite Es. intros [= <- <-]. split; [|intros _; exists ns; by rewrite Etr]. split; [done|]. eexists. split; [done|].
    cbn [mnt_namesapce_server_map namespace_tracer set_process]. split_and!; [|done|].
    + intros ns'. destruct (decide (ns' = ns)) as [->|Hne]; [rewrite lookup_insert_eq, Etr; by split|].
      rewrite lookup_insert_ne by done. apply Hdom.
    + apply map_Forall_insert_2; [|done]. rewrite update_child_id. by apply (Hid ns).
  - unfold mbind, SM_bind. destruct (io _ m) as [rc m2] eqn:Eio. apply io_keeps in Eio as (Ht & Hth2 & Hp & Hc).
    pose proof (manager_ok_same m m2 Ht Hth2 Hp Hok1) as Hok2.
    destruct rc as [comm'| |]; [|by intros [= <- <-]..]. apply process_start_inv in Hc as (server & Hci & Hm').
    unfold sm_modify, track. intros [= <- <-].
    cbn [namespace_tracer set_process set_tracer]. rewrite Ht, server_on_add by done.
    split; [|intros _; exists ns; by rewrite Etr]. split; [cbn; by rewrite Hth2|]. exists comm'. split; [done|].
    cbn [namespace_tracer set_tracer]. rewrite Hm'. split_and!.
    + intros ns'. destruct (decide (ns' = ns)) as [->|Hne]; [by rewrite !lookup_insert_eq|].
      rewrite !lookup_insert_ne by done. apply Hdom.
    + apply map_Forall_insert_2; [by exists (pid i)|done].
    + by apply map_Forall_insert_2.
Qed.

(** Stopping: the process a name space is traced for takes the server with it, any
    other changes nothing. *)
Lemma stop_comm_ok i m r m' :
  manager_ok m -> stop_comm i m = (r, m') ->
  manager_ok m' /\ forall ns p, mnt_ns_of i = Some ns -> namespace_tracer m !! ns = Some ([p], true) ->
    if bool_decide (p = pid i)
    then r = Ret tt /\ namespace_tracer m' = delete ns (namespace_tracer m)
         /\ host_calls m' = host_calls m ++ [KillPg 0 SIGKILL; Kill 0 SIGKILL]
    else r = Ret tt /\ m' = m.
Proof.
  intros Hok. unfold stop_comm, mbind at 1, SM_bind at 1. pose proof (get_mnt_ns_eq i m) as Hns.
  destruct (mnt_ns_of i) as [ns|]; [rewrite Hns|destruct Hns as [e ->]; by intros [= <- <-]]. clear Hns.
  pose proof Hok as (Hth & comm & Hpc & Hdom & Hone & Hid).
  unfold mbind at 1, SM_bind at 1, sm_call, tracer.server_state_off.
  destruct (namespace_tracer m !! ns) as [[pids on]|] eqn:Etr.
  2:{ intros [= <- <-]. rewrite set_tracer_same. split; [done|]. intros ns' p [= <-]. by rewrite Etr. }
  destruct (Hone ns _ Etr) as [q [= -> ->]]. destruct (decide (q = pid i)) as [->|Hne].
  - rewrite (bool_decide_eq_true_2 (pid i ∈ [pid i])) by apply list_elem_of_here. cbn [tracer.remove_first].
    rewrite (bool_decide_eq_true_2 (pid i = pid i)), (bool_decide_eq_true_2 (@nil Z = [])) by done.
    unfold mbind at 1, SM_bind at 1, sm_gets, id. cbn [thread_comm process_comm set_tracer].
    rewrite Hth, Hpc. unfold mbind, SM_bind, mret, SM_ret, process_stop_comm.
    destruct (proj2 (Hdom ns)) as [server Es]; [by rewrite Etr|]. rewrite Es. unfold mbind, SM_bind, kill_server, sm_modify, ask; cbn. rewrite (Hid ns server Es).
    intros [= <- <-]. split.
    + split; [done|]. eexists. split; [done|]. cbn. split_and!.
      * intros ns'. destruct (decide (ns' = ns)) as [->|Hne]; [by rewrite !lookup_delete_eq|].
        rewrite !lookup_delete_ne by done. apply Hdom.
      * by apply map_Forall_delete.
      * by apply map_Forall_delete.
    + intros ns' p [= <-]. rewrite Etr. intros [= <-]. rewrite bool_decide_eq_true_2 by done. cbn. by rewrite <- app_assoc.
  - rewrite (bool_decide_eq_false_2 (pid i ∈ [q])) by set_solver. rewrite (bool_decide_eq_false_2 ([q] = [])) by done.
    rewrite insert_id by done. rewrite set_tracer_same. intros [= <- <-]. split; [done|]. intros ns' p [= <-]. rewrite Etr.
    intros [= <-]. by rewrite bool_decide_eq_false_2.
Qed.
End Comm_ok.

(** ** Theorems *)

Lemma init_server_ok `{!Host} bind link use_mount h m h' :
  init (bs "server") bind link use_mount h = (Ret m, h') -> manager_ok m.
Proof.
  unfold init. destruct (clean_prev_lib h) as [[u|e|] h1]; [|done..].
  rewrite bool_decide_eq_false_2 by discriminate. rewrite bool_decide_eq_true_2 by done. intros [= <- _].
  split; [done|]. exists ProcessMode_new. split; [done|]. split_and!; [|by apply map_Forall_empty..].
  intros ns. cbn [mnt_namesapce_server_map ProcessMode_new namespace_tracer]. unfold tracer.new. rewrite !lookup_empty. done.
Qed.

Section Reachable.
Context `{!Host} `{!Regex} `{!Json} (base : bytes).

(** What the plugin does with its manager: start and stop the communication of a
    process, send it a message, or anything that only calls the host, such as an
    inspection or an attachment; whether it succeeds or not. *)
Inductive mstep : RASPManager -> RASPManager -> Prop :=
  | MStart i r m m' : start_comm base i m = (r, m') -> mstep m m'
  | MStop i r m m' : stop_comm i m = (r, m') -> mstep m m'
  | MSend p ns message r m m' : send_message_to_probe base p ns message m = (r, m') -> mstep m m'
  | MIo A (c : SM (list call) A) r m m' : io c m = (r, m') -> mstep m m'.

Lemma io_ok {A} (c : SM (list call) A) m r m' : manager_ok m -> io c m = (r, m') -> manager_ok m'.
Proof. intros Hok (Ht & Hth & Hp & _)%io_keeps. by eapply manager_ok_same. Qed.

Lemma send_one_ok p ns v m r m' : manager_ok m -> send_one p ns v m = (r, m') -> manager_ok m'.
Proof.
  intros (Hth & comm & Hpc & Hdom & Hone & Hid). unfold send_one, mbind, SM_bind, sm_gets, id. rewrite Hth, Hpc.
  intros [= <- <-]. split; [done|]. eexists. split; [done|]. cbn. unfold process_send_message.
  by destruct (mnt_namespace_comm_pair comm !! ns).
Qed.
Lemma send_all_ok p ns vs m r m' : manager_ok m -> for_each (send_one p ns) vs m = (r, m') -> manager_ok m'.
Proof.
  revert m. induction vs as [|v vs IH]; intros m Hok; cbn [for_each]; [by intros [= <- <-]|].
  unfold mbind, SM_bind. destruct (send_one p ns v m) as [[u|e|] m1] eqn:E;
    pose proof (send_one_ok _ _ _ _ _ _ Hok E) as Hok1; [by apply IH|by intros [= <- <-]..].
Qed.
Lemma send_message_ok p ns message m r m' :
  manager_ok m -> send_message_to_probe base p ns message m = (r, m') -> manager_ok m'.
Proof.
  intros Hok. unfold send_message_to_probe, mbind at 1, SM_bind at 1.
  destruct (io (read_nspid p) m) as [ro m1] eqn:E. apply io_ok in E; [|done]. destruct ro as [o| |]; [|by intros [= <- <-]..].
  unfold mbind at 1, SM_bind at 1. destruct o as [n|]; [|by intros [= <- <-]]. cbn [ok_or mret SM_ret].
  unfold mbind at 1, SM_bind at 1. destruct (json_parse message ≫= of_arr PidMissing_of_json) as [ms|]; [|by intros [= <- <-]]. cbn [ok_or mret SM_ret].
  unfold mbind at 1, SM_bind at 1, sm_lift. destruct (valid_messages ms) as [valid| |]; [|by intros [= <- <-]..].
  unfold mbind, SM_bind. destruct (for_each _ valid m1) as [[u|e|] m2] eqn:E2;
    pose proof (send_all_ok _ _ _ _ _ _ E E2); [by apply io_ok|by intros [= <- <-]..].
Qed.

Lemma mstep_ok m m' : manager_ok m -> mstep m m' -> manager_ok m'.
Proof.
  intros Hok Hm. destruct Hm as [i r m m' E|i r m m' E|p ns msg r m m' E|A c r m m' E].
  - by apply (start_comm_ok base i m r m').
  - by apply (stop_comm_ok i m r m').
  - by eapply send_message_ok.
  - by eapply io_ok.
Qed.
Lemma reachable_ok m m' : manager_ok m -> rtc mstep m m' -> manager_ok m'.
Proof. intros Hok. induction 1; [done|]. eauto using mstep_ok. Qed.

(** C5: in every state a manager in server mode can reach, a mount name space is
    traced exactly when a server was started for it, the server is marked as
    started, and exactly one process is traced there, however many use it; no
    server knows the pid of its child. *)
Theorem manager_invariant bind link use_mount h m0 h0 m :
  init (bs "server") bind link use_mount h = (Ret m0, h0) -> rtc mstep m0 m ->
  exists comm, process_comm m = Some comm
    /\ (forall ns, is_Some (mnt_namesapce_server_map comm !! ns) <-> exists p, namespace_tracer m !! ns = Some ([p], true))
    /\ map_Forall (fun _ server => child_id server = 0%Z) (mnt_namesapce_server_map comm).
Proof.
  intros Hinit Hm. apply init_server_ok in Hinit. pose proof (reachable_ok _ _ Hinit Hm) as (_ & comm & Hp & Hdom & Hone & Hid).
  exists comm. split; [done|]. split; [|done]. intros ns. rewrite Hdom. split; [|intros [p ->]; by eexists].
  intros [v Hv]. destruct (Hone ns v Hv) as [p ->]. by exists p.
Qed.

(** When two processes share a mount name space, the server started for the
    first serves both, and the end of the first stops it under the second: no
    server is left for the name space, and, since the server's pid was never
    kept, the signals go to process group 0, the plugin's own, and to pid 0. *)
Theorem shared_server_killed m i1 i2 ns m1 m2 r m3 :
  manager_ok m -> namespace_tracer m !! ns = None -> mnt_ns_of i1 = Some ns -> mnt_ns_of i2 = Some ns ->
  start_comm base i1 m = (Ret tt, m1) -> start_comm base i2 m1 = (Ret tt, m2) -> stop_comm i1 m2 = (r, m3) ->
  r = Ret tt /\ namespace_tracer m3 !! ns = None
  /\ (forall comm, process_comm m3 = Some comm -> mnt_namesapce_server_map comm !! ns = None)
  /\ host_calls m3 = host_calls m2 ++ [KillPg 0 SIGKILL; Kill 0 SIGKILL].
Proof.
  intros Hok Hns Hi1 Hi2 E1 E2 E3.
  destruct (start_comm_ok base i1 m _ m1 Hok E1) as [Hok1 Ht1]. destruct (Ht1 eq_refl) as (n1 & Hn1 & Hm1).
  destruct (start_comm_ok base i2 m1 _ m2 Hok1 E2) as [Hok2 Ht2]. destruct (Ht2 eq_refl) as (n2 & Hn2 & Hm2).
  rewrite Hi1 in Hn1; injection Hn1 as <-. rewrite Hi2 in Hn2; injection Hn2 as <-. rewrite Hns in Hm1.
  assert (Hl : namespace_tracer m1 !! ns = Some ([pid i1], true)) by (by rewrite Hm1, lookup_insert_eq).
  rewrite Hl in Hm2. destruct (stop_comm_ok i1 m2 r m3 Hok2 E3) as [Hok3 Hstop].
  specialize (Hstop ns (pid i1) Hi1 ltac:(by rewrite Hm2)). rewrite bool_decide_eq_true_2 in Hstop by done.
  destruct Hstop as (-> & Ht3 & Hc). split; [done|].
  assert (Hd : namespace_tracer m3 !! ns = None) by (by rewrite Ht3, lookup_delete_eq). split; [done|]. split; [|done].
  destruct Hok3 as (_ & comm & Hp & Hdom & _). intros comm' Hcomm. rewrite Hp in Hcomm. injection Hcomm as <-.
  destruct (mnt_namesapce_server_map comm !! ns) eqn:E; [|done]. destruct (proj1 (Hdom ns)) as [v Hv]; [by rewrite E|].
  by rewrite Hd in Hv.
Qed.
End Reachable.

(** *** The contract the manager meets when name spaces are not shared

    Abstractly, a server lives as long as someone uses its name space. *)
Module users.
Abbreviation t := (gmap bytes (gset Z)).
Definition start (ns : bytes) (p : Z) (s : t) : t := <[ns := {[p]} ∪ default ∅ (s !! ns)]> s.
Definition stop (ns : bytes) (p : Z) (s : t) : t :=
  let rest := default ∅ (s !! ns) ∖ {[p]} in
  if bool_decide (rest = ∅) then delete ns s else <[ns := rest]> s.
End users.

Section Refinement.
Context `{!Host} `{!Regex} (base : bytes).

(** The manager and the users it should serve, step by step; a process is only
    started in a name space no other process uses. *)
Inductive cstep : RASPManager * users.t -> RASPManager * users.t -> Prop :=
  | CStart i ns m m' s : start_comm base i m = (Ret tt, m') -> mnt_ns_of i = Some ns ->
      default ∅ (s !! ns) ⊆ {[pid i]} -> cstep (m, s) (m', users.start ns (pid i) s)
  | CStartFails i r m m' s : start_comm base i m = (r, m') -> r <> Ret tt -> cstep (m, s) (m', s)
  | CStop i ns r m m' s : stop_comm i m = (r, m') -> mnt_ns_of i = Some ns ->
      cstep (m, s) (m', users.stop ns (pid i) s).

(** The traced processes are the users. *)
Definition traces (m : RASPManager) (s : users.t) : Prop :=
  manager_ok m /\ forall ns, s !! ns = (fun v => list_to_set v.1) <$> namespace_tracer m !! ns.

Lemma start_comm_fails i r m m' :
  manager_ok m -> start_comm base i m = (r, m') -> r <> Ret tt -> namespace_tracer m' = namespace_tracer m.
Proof.
  intros (Hth & comm & Hpc & Hdom & Hone & Hid). unfold start_comm, mbind at 1, SM_bind at 1. pose proof (get_mnt_ns_eq i m) as Hns.
  destruct (mnt_ns_of i) as [ns|]; [rewrite Hns|destruct Hns as [e ->]; by intros [= <- <-]].
  unfold mbind at 1, SM_bind at 1. destruct (io (read_nspid (pid i)) m) as [ro m1] eqn:Eio. apply io_keeps in Eio as (Ht & Hth1 & Hp & _).
  destruct ro as [o| |]; [|by intros [= <- <-]..]. unfold mbind at 1, SM_bind at 1, sm_gets, id. rewrite Hth1, Hth, Hp, Hpc, Ht.
  unfold tracer.server_state. destruct (namespace_tracer m !! ns) as [[pids on]|] eqn:Etr; simpl.
  - destruct (Hone ns _ Etr) as [q [= -> ->]]. destruct (proj2 (Hdom ns)) as [server Es]; [by rewrite Etr|]. rewrite Es.
    intros [= <- <-] Hr. by destruct Hr.
  - unfold mbind, SM_bind. destruct (io _ m1) as [rc m2] eqn:Eio. apply io_keeps in Eio as (Ht2 & _ & _ & _).
    destruct rc as [comm'| |]; [intros [= <- <-] Hr; by destruct Hr|intros [= <- <-] _; by rewrite Ht2..].
Qed.

Lemma cstep_traces m s m' s' : traces m s -> cstep (m, s) (m', s') -> traces m' s'.
Proof.
  intros [Hok Hs] Hc. pose proof Hok as (Hth & comm & Hpc & Hdom & Hone & Hid).
  inversion Hc as [i ns m0 m1 s0 E Hns Hun|i r m0 m1 s0 E Hr|i ns r m0 m1 s0 E Hns]; simplify_eq.
  - destruct (start_comm_ok base i m _ m' Hok E) as [Hok' Ht]. split; [done|]. destruct (Ht eq_refl) as (ns' & Hns' & Ht').
    rewrite Hns in Hns'. injection Hns' as <-. unfold users.start. intros ns'. rewrite Ht'.
    destruct (namespace_tracer m !! ns) as [v|] eqn:Etr.
    + destruct (Hone ns v Etr) as [q ->]. rewrite Hs, Etr in Hun. cbn in Hun. assert (q = pid i) as -> by set_solver.
      destruct (decide (ns' = ns)) as [->|Hne]; [|by rewrite lookup_insert_ne].
      rewrite lookup_insert_eq, Etr, Hs, Etr. cbn. f_equal. set_solver.
    + destruct (decide (ns' = ns)) as [->|Hne]; [|by rewrite !lookup_insert_ne].
      rewrite !lookup_insert_eq, Hs, Etr. done.
  - destruct (start_comm_ok base i m r m' Hok E) as [Hok' _]. split; [done|]. by rewrite (start_comm_fails i r m m' Hok E Hr).
  - destruct (stop_comm_ok i m r m' Hok E) as [Hok' Hst]. split; [done|]. unfold users.stop. intros ns'.
    destruct (namespace_tracer m !! ns) as [v|] eqn:Etr.
    + destruct (Hone ns v Etr) as [q ->]. specialize (Hst ns q Hns Etr). rewrite Hs, Etr. cbn [default fmap option_fmap option_map from_option fst].
      case_bool_decide as Hq.
      * destruct Hst as (_ & -> & _). subst q. rewrite bool_decide_eq_true_2 by set_solver.
        destruct (decide (ns' = ns)) as [->|Hne]; [by rewrite !lookup_delete_eq|by rewrite !lookup_delete_ne].
      * destruct Hst as [_ ->]. rewrite bool_decide_eq_false_2 by set_solver.
        destruct (decide (ns' = ns)) as [->|Hne]; [|by rewrite lookup_insert_ne].
        rewrite lookup_insert_eq, Etr. cbn. f_equal. set_solver.
    + assert (Hm' : namespace_tracer m' = namespace_tracer m).
      { revert E. unfold stop_comm, mbind at 1, SM_bind at 1. pose proof (get_mnt_ns_eq i m) as Hg. rewrite Hns in Hg. rewrite Hg.
        unfold mbind, SM_bind, sm_call, tracer.server_state_off. rewrite Etr. by intros [= <- <-]. }
      rewrite Hm', Hs, Etr. cbn. rewrite bool_decide_eq_true_2 by set_solver.
      destruct (decide (ns' = ns)) as [->|Hne]; [rewrite lookup_delete_eq, Etr; done|by rewrite lookup_delete_ne].
Qed.

End Refinement.

(** *** Configurations *)

Lemma outcome_map_spec {A B} (f : A -> outcome B) l :
  match outcome_map f l with
  | Ret l' => Forall2 (fun a b => f a = Ret b) l l'
  | Fail e => exists a, a ∈ l /\ f a = Fail e
  | Panic => exists a, a ∈ l /\ f a = Panic
  end.
Proof.
  induction l as [|a l IH]; [constructor|]. cbn [outcome_map]. unfold mbind, outcome_bind.
  destruct (f a) as [b|e|] eqn:E; [|exists a; split; [apply list_elem_of_here|done]..].
  destruct (outcome_map f l) as [l'|e|]; [by constructor|destruct IH as (a' & Ha & Hf)..].
  all: exists a'; (split; [by apply list_elem_of_further|done]).
Qed.

(** The configuration sent for one received. *)
Definition sent_for (m v : PidMissingProbeConfig) : Prop :=
  message_type v = message_type m
  /\ (uuid (config_data m) <> [] -> v = m)
  /\ (uuid (config_data m) = [] -> ProbeConfigData_empty (message_type m) = Some (config_data v)).
Lemma valid_message_sent m v : valid_message m = Ret v -> sent_for m v.
Proof.
  unfold valid_message, empty_config, sent_for. case_bool_decide; [|by intros [= ->]].
  destruct (ProbeConfigData_empty (message_type m)) as [d|]; [|done]. by intros [= <-].
Qed.
Lemma empty_config_cases t :
  (exists d, ProbeConfigData_empty t = Some d /\ uuid d = [] /\ config_ok (mkPidMissing t d)) /\ (6 <= t <= 9)%Z
  \/ ProbeConfigData_empty t = None /\ ~ (6 <= t <= 9)%Z.
Proof.
  destruct (decide (6 <= t <= 9)%Z) as [Ht|Ht].
  - left. split; [|done]. assert (t = 6 \/ t = 7 \/ t = 8 \/ t = 9)%Z as [-> | [-> | [-> | -> ]]] by lia; eexists; (split; [reflexivity|]); (split; [done|]);
      (split; [unfold i32_ok; cbn; lia|]; split; [|done]); unfold data_ok; cbn; naive_solver.
  - right. split; [|done]. unfold ProbeConfigData_empty. repeat case_match; try done; lia.
Qed.

Definition default_configs : list PidMissingProbeConfig :=
  [mkPidMissing 6 (mkConfigData [] None (Some []) None None); mkPidMissing 7 (mkConfigData [] (Some []) None None None);
   mkPidMissing 8 (mkConfigData [] None None (Some []) None); mkPidMissing 9 (mkConfigData [] None None None (Some []))].

Lemma valid_messages_spec ms :
  match valid_messages ms with
  | Ret vs => Forall2 sent_for (match ms with [] => default_configs | _ => ms end) vs
  | Fail _ => exists m, m ∈ ms /\ uuid (config_data m) = [] /\ ~ (6 <= message_type m <= 9)%Z
  | Panic => False
  end.
Proof.
  unfold valid_messages. destruct ms as [|m ms].
  { cbn. repeat constructor; done. }
  unfold mbind at 1, outcome_bind at 1. pose proof (outcome_map_spec valid_message (m :: ms)) as Hm.
  destruct (outcome_map valid_message (m :: ms)) as [vs|e|].
  - eapply Forall2_impl; [exact Hm|]. apply valid_message_sent.
  - destruct Hm as (a & Ha & Hf). exists a. split; [done|]. revert Hf. unfold valid_message, empty_config.
    case_bool_decide; [|done]. destruct (empty_config_cases (message_type a)) as [[(d & Ed & _) _]|[Ed Hr]]; by rewrite Ed.
  - destruct Hm as (a & Ha & Hf). revert Hf. unfold valid_message, empty_config. case_bool_decide; [|done].
    by destruct (ProbeConfigData_empty (message_type a)).
Qed.

Lemma default_configs_ok : Forall config_ok default_configs.
Proof. repeat constructor; cbn; try (unfold i32_ok; lia); intros ? [= <-]; constructor. Qed.
Lemma sent_configs_ok ms vs : Forall config_ok ms -> Forall2 sent_for ms vs -> Forall config_ok vs.
Proof.
  intros Hms Hv. induction Hv as [|m v l l' (Ht & Hu & He) Hl IH]; [constructor|].
  apply Forall_cons in Hms as [Hm Hms]. constructor; [|by apply IH].
  destruct (decide (uuid (config_data m) = [])) as [E|E]; [|by rewrite (Hu E)]. specialize (He E).
  destruct (empty_config_cases (message_type m)) as [[(d & Hd & _ & Hdd) _]|[Hd _]]; [|by rewrite He in Hd].
  rewrite He in Hd. injection Hd as <-. rewrite <- Ht in Hdd. by destruct v.
Qed.

(** What a shell given [-c] runs is the argument after it; what follows only names
    the shell. *)
Fixpoint sh_command (args : list bytes) : option bytes :=
  match args with
  | a :: rest => if bool_decide (a = bs "-c") then head rest else sh_command rest
  | [] => None
  end.

Section Configs.
Context `{!Host} `{!Regex} `{!Json} `{!JsonLaws} (base : bytes).

Definition message_of (p : Z) (v : PidMissingProbeConfig) : Z * bytes := (p, json_print (PidMissing_to_json v)).

Lemma send_all_thread p ns vs m c :
  thread_comm m = Some c -> receiving c = true ->
  exists c' m', for_each (send_one p ns) vs m = (Ret tt, m') /\ thread_comm m' = Some c' /\ receiving c' = true
    /\ agent_to_probe c' = agent_to_probe c ++ map (message_of p) vs.
Proof.
  revert m c. induction vs as [|v vs IH]; intros m c Hc Hr; cbn [for_each map].
  { exists c, m. by rewrite app_nil_r. }
  unfold mbind, SM_bind. unfold send_one at 1, mbind, SM_bind, sm_gets, id. rewrite Hc. unfold thread_send_message. rewrite Hr.
  unfold sm_modify, sm_lift. edestruct IH as (c' & m' & -> & Hc' & Hr' & Ha); [reflexivity|reflexivity|].
  exists c', m'. split; [done|]. split; [done|]. split; [done|]. rewrite Ha. cbn. by rewrite <- app_assoc.
Qed.

(** In thread mode a task's configurations reach the channel of the probes as
    they were given: one message for each, in order, for the process's pid, which
    reads back as the configuration itself, or as the empty one of its type when
    it has no uuid; a task without any sends the empty ones of all four types. *)
Theorem configs_delivered p ns message ms m c n h :
  json_parse message ≫= of_arr PidMissing_of_json = Some ms -> Forall config_ok ms ->
  thread_comm m = Some c -> receiving c = true -> read_nspid p (host_calls m) = (Ret (Some n), h) ->
  (forall x, x ∈ ms -> uuid (config_data x) = [] -> (6 <= message_type x <= 9)%Z) ->
  exists vs c', Forall2 sent_for (match ms with [] => default_configs | _ => ms end) vs
  /\ thread_comm (snd (send_message_to_probe base p ns message m)) = Some c'
  /\ agent_to_probe c' = agent_to_probe c ++ map (message_of p) vs
  /\ Forall (fun v => json_parse (message_of p v).2 ≫= PidMissing_of_json = Some v) vs.
Proof.
  intros Hms Hok Hc Hr Hn Hval. pose proof (valid_messages_spec ms) as Hv.
  unfold send_message_to_probe, mbind at 1, SM_bind at 1. unfold io at 1. rewrite Hn.
  unfold mbind at 1, SM_bind at 1. cbn [ok_or mret SM_ret]. unfold mbind at 1, SM_bind at 1. rewrite Hms. cbn [ok_or mret SM_ret].
  unfold mbind at 1, SM_bind at 1, sm_lift. destruct (valid_messages ms) as [vs|e|]; [|destruct Hv as (x & Hx & Hu & Ht); by destruct Ht; auto|done].
  destruct (send_all_thread p ns vs (set_calls h m) c) as (c' & m' & Es & Hc' & Hr' & Ha); [done|done|].
  exists vs, c'. split; [done|]. split.
  { unfold mbind, SM_bind. rewrite Es. destruct (io _ m') as [r m2] eqn:Eio. apply io_keeps in Eio as (_ & Hth & _). by rewrite <- Hc', <- Hth. }
  split; [done|]. assert (Hvs : Forall config_ok vs) by (eapply sent_configs_ok; [|exact Hv]; destruct ms; [apply default_configs_ok|done]).
  eapply Forall_impl; [exact Hvs|]. intros v Hvok. apply config_decodes, Hvok.
Qed.

(** The command that should write a configuration into the container of a
    process runs [PATH=/bin:/usr/bin:/sbin] and nothing else: the script that
    writes the file is passed after it, as the shell's name.  The plugin takes the
    call for a success. *)
Theorem config_file_never_written p nspid message h child
    (spawned : reply h (Spawn (settings.RASP_NS_ENTER_BIN base) (write_config_args p nspid message)) = Some child) :
  sh_command (drop 3 (write_config_args p nspid message)) = Some (bs "PATH=/bin:/usr/bin:/sbin")
  /\ (S (c_turn child) < KILL_TURN -> is_Some (c_exit child) -> fst (write_message_to_config_file base p nspid message h) = Ret tt).
Proof.
  split.
  - unfold write_config_args. cbn [drop sh_command]. rewrite bool_decide_eq_false_2 by discriminate. by rewrite bool_decide_eq_true_2.
  - intros Hlt [st He]. unfold write_message_to_config_file, mbind, SM_bind.
    rewrite (run_async_eq (S := list call) _ _ child h spawned). unfold await, wait_loop. rewrite wait_turns_early by lia. by rewrite He.
Qed.
End Configs.

(** ** Concrete runs *)

Section Runs.
#[local] Existing Instance test_host.
#[local] Existing Instance test_regex.
#[local] Existing Instance test_json.
#[local] Existing Instance test_json_laws.
#[local] Abbreviation base := (bs "/opt").

(** A new manager in server mode, with two processes of the same name space started
    and the first stopped. *)
Definition test_manager : RASPManager := mkManager tracer.new None (Some ProcessMode_new) [ReadDir (bs "./")].
Definition first_up : RASPManager := snd (start_comm base (test_process 7) test_manager).
Definition both_up : RASPManager := snd (start_comm base (test_process 8) first_up).
Definition first_down : RASPManager := snd (stop_comm (test_process 7) both_up).

Lemma manager_invariant_witness :
  exists comm, process_comm first_up = Some comm
    /\ (forall ns, is_Some (mnt_namesapce_server_map comm !! ns) <-> exists p, namespace_tracer first_up !! ns = Some ([p], true))
    /\ map_Forall (fun _ server => child_id server = 0%Z) (mnt_namesapce_server_map comm).
Proof.
  refine (manager_invariant base [] None false [] test_manager [ReadDir (bs "./")] first_up _ _); [reflexivity|].
  eapply rtc_once, MStart, surjective_pairing.
Defined.

Lemma shared_server_killed_witness :
  fst (stop_comm (test_process 7) both_up) = Ret tt /\ namespace_tracer first_down !! bs "mnt:[1]" = None
  /\ (forall comm, process_comm first_down = Some comm -> mnt_namesapce_server_map comm !! bs "mnt:[1]" = None)
  /\ host_calls first_down = host_calls both_up ++ [KillPg 0 SIGKILL; Kill 0 SIGKILL].
Proof.
  refine (shared_server_killed base test_manager (test_process 7) (test_process 8) (bs "mnt:[1]") first_up both_up _ first_down _ _ _ _ _ _ _);
    [|reflexivity..].
  split; [done|]. eexists. split; [done|]. split; [|split; apply map_Forall_empty].
  intros ns. cbn. unfold tracer.new. by rewrite !lookup_empty.
Defined.


Definition test_threads : RASPManager := mkManager tracer.new (Some (mkThreadMode (bs "/a/s") None false [] true Control_new)) None [].
Definition test_task : bytes := json_print (JArr [PidMissing_to_json test_config]).
Lemma configs_delivered_witness :
  exists vs c', Forall2 sent_for [test_config] vs
  /\ thread_comm (snd (send_message_to_probe base 7 (bs "mnt:[1]") test_task test_threads)) = Some c'
  /\ agent_to_probe c' = map (message_of 7) vs
  /\ Forall (fun v => json_parse (message_of 7 v).2 ≫= PidMissing_of_json = Some v) vs.
Proof.
  refine (configs_delivered base 7 (bs "mnt:[1]") test_task [test_config] test_threads
    (mkThreadMode (bs "/a/s") None false [] true Control_new) 7 _ _ _ _ _ _ _).
  - unfold test_task. rewrite json_roundtrip by done. done.
  - constructor; [apply test_config_ok|constructor].
  - done.
  - done.
  - reflexivity.
  - intros x Hx. apply list_elem_of_singleton in Hx as ->. done.
Defined.

Lemma config_file_never_written_witness :
  sh_command (drop 3 (write_config_args 7 7 (bs "{}"))) = Some (bs "PATH=/bin:/usr/bin:/sbin")
  /\ fst (write_message_to_config_file base 7 7 (bs "{}") []) = Ret tt.
Proof.
  destruct (config_file_never_written base 7 7 (bs "{}") [] test_child eq_refl) as [E1 E2]. split; [exact E1|].
  apply E2; [unfold KILL_TURN; cbn; lia|by eexists].
Defined.
End Runs.
