(* ===== verification/RaspThread.v ===== *)
(** * From the agent to the probes in thread mode

    In thread mode the server is a thread of the plugin: [ThreadMode] of
    [rasp/librasp/src/comm.rs] gives its messages to a channel of fifty, whose other
    end is the dispatcher of [RaspHub].  [RaspManager] takes a message that would have
    to wait for room as sent; here the thread that sends waits, and manager, channel
    and server are put together: what the agent's tasks ask for on one side, what is
    written to the probes on the other. *)

From S2P Require Import Prelude Bytes RustStd Json Bridge RaspOs RaspProcess RaspRuntime RaspServer RaspHub RaspManager.

(** [bounded(50)] *)
Definition THREAD_CHANNEL : nat := 50.
#[local] Instance thread_channel : RxCap := THREAD_CHANNEL.

(** ** Sender and server *)

(** The messages the plugin has still to send, in order, and the server. *)
Record Thread := mkThread { to_send : list (Z * bytes); hub : Hub }.

(** [agent_to_probe_sender.send]: the next message, once there is room. *)
Definition send_turn (s : Thread) : option Thread :=
  match to_send s with
  | m :: ms => h ← put_turn m (hub s); Some (mkThread ms h)
  | [] => None
  end.

(** A step of the sender, or of the server's own tasks; the channel stays open as long
    as the manager is there. *)
Inductive tstep : Thread -> Thread -> Prop :=
  | TSend s s' : send_turn s = Some s' -> tstep s s'
  | TAccept cred ms h h' : accept_turn cred h = Some h' -> tstep (mkThread ms h) (mkThread ms h')
  | TClean ms h h' : cleaner_turn h = Some h' -> tstep (mkThread ms h) (mkThread ms h')
  | TDispatch ms h h' : dispatcher_turn h = Some h' -> tstep (mkThread ms h) (mkThread ms h')
  | TLink i ev ms h h' : link_turn i ev h = Some h' -> tstep (mkThread ms h) (mkThread ms h')
  | TCheck exists_ ms h : tstep (mkThread ms h) (mkThread ms (checking_turn exists_ h))
  | TStop ms h : tstep (mkThread ms h) (mkThread ms (stop_hub h)).

(** The tasks of the agent for processes, one after the other, as [operation_config]
    passes them on; one that fails is only logged. *)
Section tasks.
Context `{!Host} `{!Regex} (base : bytes) `{!Json}.

Definition task : Type := Z * bytes * bytes.
Definition run_task (t : task) (m : RASPManager) : RASPManager :=
  let '(p, ns, message) := t in snd (send_message_to_probe base p ns message m).
Definition run_tasks (ts : list task) (m : RASPManager) : RASPManager := foldl (fun m t => run_task t m) m ts.

(** The configurations a task sends, none if it is not valid. *)
Definition configs_of (message : bytes) : list PidMissingProbeConfig :=
  match json_parse message ≫= of_arr PidMissing_of_json with
  | Some ms => match valid_messages ms with Ret vs => vs | _ => [] end
  | None => []
  end.
End tasks.

(** ** What a task sends *)

Section sending.
Context `{!Host} `{!Regex} (base : bytes) `{!Json}.

(** The manager is in thread mode, and its channel holds [ms] of what it ever sent. *)
Definition sent_so_far (ms : list (Z * bytes)) (m : RASPManager) : Prop :=
  exists c, thread_comm m = Some c /\ receiving c = true /\ agent_to_probe c = ms.

Lemma io_sent {A} (c : SM (list call) A) m r m' ms : io c m = (r, m') -> sent_so_far ms m -> sent_so_far ms m'.
Proof. intros (_ & Ht & _)%io_keeps (c0 & Hc & Hr & Ha). exists c0. by rewrite Ht. Qed.

Lemma run_task_sends p ns message m ms :
  sent_so_far ms m ->
  exists vs, (vs = [] \/ vs = configs_of message) /\ sent_so_far (ms ++ map (message_of p) vs) (run_task base (p, ns, message) m).
Proof.
  intros Hm. unfold run_task.
  assert (Hno : forall m', sent_so_far ms m' -> exists vs, (vs = [] \/ vs = configs_of message) /\ sent_so_far (ms ++ map (message_of p) vs) m')
    by (intros m' Hm'; exists []; rewrite app_nil_r; auto).
  set (Q := fun m' => exists vs, (vs = [] \/ vs = configs_of message) /\ sent_so_far (ms ++ map (message_of p) vs) m') in *.
  change (Q (send_message_to_probe base p ns message m).2).
  unfold send_message_to_probe, mbind at 1, SM_bind at 1. destruct (io (read_nspid p) m) as [o m1] eqn:E1.
  pose proof (io_sent _ _ _ _ _ E1 Hm) as Hs1. destruct o as [[n|]|e|]; [|apply Hno; exact Hs1..]. cbn [ok_or].
  unfold mbind at 1, SM_bind at 1, mret, SM_ret. unfold mbind at 1, SM_bind at 1.
  destruct (json_parse message ≫= of_arr PidMissing_of_json) as [l|] eqn:El; [|apply Hno; exact Hs1]. cbn [ok_or].
  unfold mret, SM_ret, mbind at 1, SM_bind at 1, sm_lift. destruct (valid_messages l) as [vs|e|] eqn:Ev; [|apply Hno; exact Hs1..].
  destruct Hs1 as (c & Hc & Hr & Ha). destruct (send_all_thread p ns vs m1 c Hc Hr) as (c' & m' & Es & Hc' & Hr' & Ha').
  exists vs. split; [right; unfold configs_of; by rewrite El, Ev|]. unfold mbind, SM_bind. rewrite Es. destruct (io _ m') as [r m2] eqn:E2. cbn [snd].
  eapply io_sent; [exact E2|]. exists c'. by rewrite Ha', Ha.
Qed.

(** The texts the tasks ask to be sent to a process. *)
Definition texts_for (p : Z) (ts : list task) : list bytes :=
  concat (map (fun t : task => if decide (t.1.1 = p) then map (fun v => json_print (PidMissing_to_json v)) (configs_of t.2) else []) ts).

Lemma msgs_message_of p q vs : msgs p (map (message_of q) vs) = if decide (q = p) then map (fun v => json_print (PidMissing_to_json v)) vs else [].
Proof.
  induction vs as [|v vs IH]; [by case_decide|]. cbn [map]. change (message_of q v :: map (message_of q) vs) with ([message_of q v] ++ map (message_of q) vs).
  rewrite msgs_app, IH. unfold message_of at 1, msgs. rewrite filter_cons, filter_nil. cbn. by case_decide.
Qed.

Lemma run_tasks_send ts m ms :
  sent_so_far ms m ->
  exists ms', sent_so_far (ms ++ ms') (run_tasks base ts m) /\ forall p, msgs p ms' `sublist_of` texts_for p ts.
Proof.
  revert m ms. induction ts as [|[[q ns] message] ts IH]; intros m ms Hm.
  { exists []. rewrite app_nil_r. split; [done|]. intros p. apply sublist_nil_l. }
  destruct (run_task_sends q ns message m ms Hm) as (vs & Hvs & Hs1). destruct (IH _ _ Hs1) as (ms' & Hs2 & Hp).
  exists (map (message_of q) vs ++ ms'). rewrite app_assoc. split; [exact Hs2|]. intros p. rewrite msgs_app, msgs_message_of.
  unfold texts_for. cbn [map concat fst snd]. apply sublist_app; [|apply Hp].
  destruct Hvs as [-> | ->]; [case_decide; apply sublist_nil_l|done].
Qed.
End sending.

(** ** The server under the sender *)

Lemma send_turn_put s s' : send_turn s = Some s' -> exists m, to_send s = m :: to_send s' /\ put_turn m (hub s) = Some (hub s').
Proof. unfold send_turn. destruct (to_send s) as [|m ms]; [done|]. intros (h & E & [= <-])%bind_Some. by exists m. Qed.

Lemma put_given m h h' : put_turn m h = Some h' -> given h' = given h ++ [m].
Proof. unfold put_turn. destruct (_ && _); [|done]. by intros [= <-]. Qed.

Lemma dispatcher_given h h' : dispatcher_turn h = Some h' -> given h' = given h.
Proof. unfold dispatcher_turn, finish. intros E. repeat case_match; simplify_eq; done. Qed.
Lemma cleaner_given h h' : cleaner_turn h = Some h' -> given h' = given h.
Proof. unfold cleaner_turn. intros E. repeat case_match; simplify_eq; done. Qed.
Lemma accept_given cred h h' : accept_turn cred h = Some h' -> given h' = given h.
Proof. unfold accept_turn. destruct (locked h); [done|]. by intros [= <-]. Qed.
Lemma link_given i ev h h' : link_turn i ev h = Some h' -> given h' = given h.
Proof.
  unfold link_turn. intros (l & _ & E)%bind_Some. destruct (negb _); [done|]. by apply bind_Some in E as ([e q] & _ & [= <-]).
Qed.

(** A step is a step of the server; what was given to it and what waits to be sent
    make up the same messages. *)
Lemma tstep_hub s s' : tstep s s' -> hstep (hub s) (hub s') /\ given (hub s') ++ to_send s' = given (hub s) ++ to_send s.
Proof.
  intros Hs. destruct Hs as [s s' E|cred ms h h' E|ms h h' E|ms h h' E|i ev ms h h' E|e ms h|ms h]; cbn.
  - apply send_turn_put in E as (m & Em & E). split; [by eapply HPut|]. by rewrite Em, (put_given _ _ _ E), <- app_assoc.
  - split; [by eapply HAccept|]. by rewrite (accept_given _ _ _ E).
  - split; [by apply HClean|]. by rewrite (cleaner_given _ _ E).
  - split; [by apply HDispatch|]. by rewrite (dispatcher_given _ _ E).
  - split; [by eapply HLink|]. by rewrite (link_given _ _ _ _ E).
  - split; [by apply HCheck|]. by destruct e.
  - split; [by apply HStop|done].
Qed.

Lemma tsteps_hub s s' : rtc tstep s s' -> rtc hstep (hub s) (hub s') /\ given (hub s') ++ to_send s' = given (hub s) ++ to_send s.
Proof.
  induction 1 as [s|s1 s2 s3 H12 _ [IH1 IH2]]; [split; [apply rtc_refl|done]|]. apply tstep_hub in H12 as [Hh Hg].
  split; [by eapply rtc_l|]. by rewrite IH2.
Qed.

Lemma sublist_prefix_of p l k : msgs p l `sublist_of` msgs p (l ++ k).
Proof. rewrite msgs_app. by apply sublist_inserts_r. Qed.

(** ** From the tasks to the probes *)

Section end_to_end.
Context `{!Host} `{!Regex} (base : bytes) `{!Json}.

(** C15: whatever tasks the agent gives, and however probes connect, disconnect and
    reconnect while sender, dispatcher, cleaner and connections interleave, what was
    written to the probe of a process, over all its connections, is in order and
    without repetition a part of the configurations the tasks ask to be sent to that
    process; nothing meant for another process is among it. *)
Theorem probes_get_their_configs ts m0 c0 c s p :
  thread_comm m0 = Some c0 -> receiving c0 = true -> agent_to_probe c0 = [] ->
  thread_comm (run_tasks base ts m0) = Some c -> rtc tstep (mkThread (agent_to_probe c) Hub_new) s ->
  concat (map (fun l => frames (l_conn l)) (filter (fun l => l_pid l = p) (links (hub s)))) `sublist_of` texts_for p ts.
Proof.
  intros Hc Hr Ha Hcm Hrun. destruct (run_tasks_send base ts m0 []) as (ms & (c' & Hcm' & _ & Hms) & Hp); [by exists c0|].
  rewrite Hcm in Hcm'. injection Hcm' as <-. apply tsteps_hub in Hrun as [Hh Hg]. cbn [hub to_send given Hub_new app] in *. rewrite Hms in Hg.
  pose proof (hub_runs_ok _ Hh) as [_ _ _ Hout Hgiv]. specialize (Hout p).
  assert (Hf : concat (map (fun l => frames (l_conn l)) (filter (fun l => l_pid l = p) (links (hub s)))) `sublist_of` out_of p (links (hub s))).
  { unfold out_of. induction (filter _ _) as [|l ls IH]; [done|]. cbn [map concat]. apply sublist_app; [|done].
    unfold out. by apply sublist_inserts_r. }
  etrans; [exact Hf|]. etrans; [exact Hout|]. etrans; [|apply (Hp p)]. rewrite <- Hg, Hgiv, <- !app_assoc. apply sublist_prefix_of.
Qed.
End end_to_end.

(** ** A probe that does not read hangs the plugin *)

(** The dispatcher waits for room on connection [i], the channel is full, and the
    plugin waits for room on it. *)
Definition hung (i : nat) (s : Thread) : Prop :=
  stalled i (hub s) /\ length (rx (hub s)) = THREAD_CHANNEL /\ to_send s <> [].

(** A step of anyone but connection [i]. *)
Definition other_step (i : nat) (s s' : Thread) : Prop := tstep s s' /\ forall ev, link_turn i ev (hub s) <> Some (hub s').

Lemma cleaner_rx h h' : cleaner_turn h = Some h' -> rx h' = rx h.
Proof. unfold cleaner_turn. intros E. repeat case_match; simplify_eq; done. Qed.
Lemma link_rx i ev h h' : link_turn i ev h = Some h' -> rx h' = rx h.
Proof.
  unfold link_turn. intros (l & _ & E)%bind_Some. destruct (negb _); [done|]. by apply bind_Some in E as ([e q] & _ & [= <-]).
Qed.

Lemma hung_steps i s s' : hung i s -> other_step i s s' -> hung i s' /\ to_send s' = to_send s.
Proof.
  intros (Hst & Hf & Hn) [Hs Hi].
  assert (Hst' : stalled i (hub s')) by (apply tstep_hub in Hs as [Hs _]; by destruct (stalled_probe_blocks i _ _ Hst Hs Hi)).
  enough (rx (hub s') = rx (hub s) /\ to_send s' = to_send s) as [Er Et] by (unfold hung; by rewrite Er, Et).
  destruct Hs as [s s' E|cred ms h h' E|ms h h' E|ms h h' E|j ev ms h h' E|e ms h|ms h]; cbn in *.
  - apply send_turn_put in E as (m & _ & E). unfold put_turn in E.
    rewrite Hf, (proj2 (Nat.ltb_ge _ _)), andb_false_r in E by (unfold rx_cap, thread_channel; lia). done.
  - unfold accept_turn in E. destruct (locked h); [done|]. by injection E as <-.
  - by rewrite (cleaner_rx _ _ E).
  - destruct Hst as (p & m & l & Hd & Hl & Hr & Hlen). unfold dispatcher_turn in E. rewrite Hd, Hl, Hr in E.
    cbn [negb] in E. rewrite (proj2 (Nat.ltb_ge _ _)) in E by lia. done.
  - by rewrite (link_rx _ _ _ _ E).
  - by destruct e.
  - done.
Qed.

(** Steps given as functions, one after the other. *)
Definition hub_step (t : Hub -> option Hub) (s : Thread) : option Thread := h ← t (hub s); Some (mkThread (to_send s) h).
Fixpoint thread_run (ts : list (Thread -> option Thread)) (s : Thread) : option Thread :=
  match ts with [] => Some s | t :: ts => s ← t s; thread_run ts s end.
Definition a_step (t : Thread -> option Thread) : Prop := forall s s', t s = Some s' -> tstep s s'.

Lemma a_step_send : a_step send_turn.
Proof. intros s s'. apply TSend. Qed.
Lemma a_step_accept cred : a_step (hub_step (accept_turn cred)).
Proof. intros [ms h] s' (h' & E & [= <-])%bind_Some. by eapply TAccept. Qed.
Lemma a_step_dispatch : a_step (hub_step dispatcher_turn).
Proof. intros [ms h] s' (h' & E & [= <-])%bind_Some. by apply TDispatch. Qed.
Lemma a_step_link i ev : a_step (hub_step (link_turn i ev)).
Proof. intros [ms h] s' (h' & E & [= <-])%bind_Some. by eapply TLink. Qed.
#[local] Hint Resolve a_step_send a_step_accept a_step_dispatch a_step_link : elkeid.

Lemma thread_run_steps ts s s' : Forall a_step ts -> thread_run ts s = Some s' -> rtc tstep s s'.
Proof.
  intros Ht. revert s. induction Ht as [|t ts Ht _ IH]; intros s; cbn [thread_run]; [intros [= <-]; apply rtc_refl|].
  intros (s1 & E & E1)%bind_Some. eapply rtc_l; [by apply Ht|by apply IH].
Qed.

(** Fifty-seven messages to a probe that reads none: five wait in its own channel, the
    dispatcher has one, fifty fill the channel, and the plugin waits with the last. *)
Definition handed_over : list (Thread -> option Thread) := [send_turn; hub_step dispatcher_turn; hub_step dispatcher_turn; hub_step dispatcher_turn; hub_step dispatcher_turn].
Definition hanging : list (Thread -> option Thread) :=
  hub_step (accept_turn (Some (Some 7%Z))) :: concat (replicate 5 handed_over)
  ++ [send_turn; hub_step dispatcher_turn; hub_step dispatcher_turn] ++ replicate 50 send_turn.
Definition flood : Thread := mkThread (replicate 57 (7%Z, bs "a")) Hub_new.

Lemma hanging_steps : Forall a_step hanging.
Proof.
  apply Forall_cons. split; [auto with elkeid|]. apply Forall_app. split.
  - apply Forall_concat, Forall_replicate. repeat (apply Forall_cons; split; [auto with elkeid|]). apply Forall_nil_2.
  - apply Forall_app. split; [repeat (apply Forall_cons; split; [auto with elkeid|]); apply Forall_nil_2|].
    apply Forall_replicate, a_step_send.
Qed.

(** One probe that stops reading hangs the plugin: after enough messages for it the
    sending thread waits for room, and however the other threads, connections and
    tasks go on, it keeps waiting until that probe's own connection moves. *)
Theorem one_probe_hangs_plugin :
  exists s, rtc tstep flood s /\ hung 0 s /\ forall s', rtc (other_step 0) s s' -> hung 0 s' /\ to_send s' = to_send s.
Proof.
  destruct (thread_run hanging flood) as [s|] eqn:E; [|by vm_compute in E]. exists s.
  split; [by eapply thread_run_steps; [apply hanging_steps|]|].
  assert (Hh : hung 0 s).
  { vm_compute in E. injection E as <-. unfold hung, stalled. split; [|done].
    eexists 7%Z, _, _. split; [reflexivity|]. split; [reflexivity|]. split; [reflexivity|]. by vm_compute; repeat constructor. }
  split; [done|]. clear E. induction 1 as [s|s1 s2 s3 H12 _ IH]; [done|].
  destruct (hung_steps 0 _ _ Hh H12) as [H2 E2]. destruct (IH H2) as [H3 E3]. split; [done|]. by rewrite E3.
Qed.

(** ** A probe that reads gets everything *)

(** The server with one connection, at rest. *)
Definition at_rest (p : Z) (cn : Conn) (d g : list (Z * bytes)) : Hub :=
  mkHub [mkLink p [] cn true] (<[p := 0]> ∅) Control_new [] true CTop DTop d g.
Definition write_frame (m : bytes) (cn : Conn) : Conn := mkConn (patch_r cn) (final_patch cn) (records cn) (frames cn ++ [m]) (ctrl cn).

Lemma one_arrives p cn d g m ms :
  rtc tstep (mkThread ((p, m) :: ms) (at_rest p cn d g)) (mkThread ms (at_rest p (write_frame m cn) (d ++ [(p, m)]) (g ++ [(p, m)]))).
Proof.
  eapply rtc_l; [by apply TSend|]. cbn. eapply rtc_l; [by apply TDispatch|]. cbn.
  eapply rtc_l; [apply TDispatch; unfold dispatcher_turn; cbn; by rewrite lookup_insert_eq|]. cbn.
  eapply rtc_l; [by apply TDispatch|]. cbn. eapply rtc_l; [by apply TDispatch|]. cbn.
  eapply rtc_l; [by apply (TLink 0 (LRecv true))|]. apply rtc_refl.
Qed.

Lemma all_arrive p cn d g ms :
  exists d' g', rtc tstep (mkThread (map (pair p) ms) (at_rest p cn d g)) (mkThread [] (at_rest p (foldl (fun c m => write_frame m c) cn ms) d' g')).
Proof.
  revert cn d g. induction ms as [|m ms IH]; intros cn d g; [exists d, g; apply rtc_refl|]. cbn [map foldl].
  destruct (IH (write_frame m cn) (d ++ [(p, m)]) (g ++ [(p, m)])) as (d' & g' & Hr). exists d', g'. etrans; [apply one_arrives|exact Hr].
Qed.

Lemma frames_written ms cn : frames (foldl (fun c m => write_frame m c) cn ms) = frames cn ++ ms.
Proof. revert cn. induction ms as [|m ms IH]; intros cn; [by rewrite app_nil_r|]. cbn. rewrite IH. cbn. by rewrite <- app_assoc. Qed.

Section arrival.
Context `{!Host} `{!Regex} (base : bytes) `{!Json} `{!JsonLaws}.

End arrival.

(** ** A run *)

Section Runs.
#[local] Existing Instance test_host.
#[local] Existing Instance test_regex.
#[local] Existing Instance test_json.
#[local] Existing Instance test_json_laws.
#[local] Abbreviation base := (bs "/opt").

Definition a_manager : ThreadMode := mkThreadMode (bs "/a/s") None false [] true Control_new.


(** The same task with nobody connected: the text is dropped. *)
Lemma probes_get_their_configs_witness :
  exists c s, thread_comm (run_tasks base [(7%Z, bs "mnt:[1]", test_task)] test_threads) = Some c
  /\ rtc tstep (mkThread (agent_to_probe c) Hub_new) s
  /\ concat (map (fun l => frames (l_conn l)) (filter (fun l => l_pid l = 7%Z) (links (hub s)))) `sublist_of` texts_for 7 [(7%Z, bs "mnt:[1]", test_task)].
Proof.
  destruct (run_tasks_send base [(7%Z, bs "mnt:[1]", test_task)] test_threads []) as (ms & (c & Hc & _ & _) & _); [by exists a_manager|].
  exists c, (mkThread (agent_to_probe c) (stop_hub Hub_new)).
  assert (Hr : rtc tstep (mkThread (agent_to_probe c) Hub_new) (mkThread (agent_to_probe c) (stop_hub Hub_new))) by apply rtc_once, TStop.
  split; [exact Hc|]. split; [exact Hr|]. by apply (probes_get_their_configs base _ test_threads a_manager c).
Defined.
End Runs.
