(* ===== verification/RaspPlugin.v ===== *)
(** * The rasp plugin ([rasp/plugin/src]: message.rs, filter.rs, process.rs,
    utils.rs, report.rs, operation.rs)

    The commands the plugin receives, the information it collects of a process, the
    reports and heartbeats it sends, and the operator, which carries a command out
    with the manager of [RaspManager]. *)

From S2P Require Import Prelude Bytes RustStd Json Encoder Bridge ScanEvents RaspOs RaspProcess RaspRuntime RaspServer RaspManager.
From Stdlib Require Import Floats.SpecFloat.

(** ** Commands (message.rs) *)

Record RASPCommand := mkCommand {
  cmd_pid : bytes; cmd_state : bytes; cmd_runtime : bytes; cmd_probe_message : option bytes }.
Record RASPMessage := mkRASPMessage { msg_name : bytes; msg_commands : option (list RASPCommand) }.

Definition get_pid_i32 (c : RASPCommand) : option Z := parse_i32 (cmd_pid c).
Definition get_state (c : RASPCommand) : bytes := cmd_state c.
Definition get_probe_message (c : RASPCommand) : option bytes := cmd_probe_message c.

Definition Command_of_json (j : json) : option RASPCommand :=
  o ← of_struct ["pid"; "state"; "runtime"; "probe_message"]%string j;
  p ← required "pid" of_str o; s ← required "state" of_str o; r ← required "runtime" of_str o;
  m ← optional "probe_message" of_str o; Some (mkCommand p s r m).
Definition RASPMessage_of_json (j : json) : option RASPMessage :=
  o ← of_struct ["name"; "commands"]%string j;
  n ← required "name" of_str o; c ← optional "commands" (of_arr Command_of_json) o; Some (mkRASPMessage n c).

(** [make_record]: [now] is the clock; a [data_type] that is no number becomes
    2459, none 2439. *)
Definition parse_i64 : bytes -> option Z := parse_signed 64.
Definition make_record (now : Z) (message : gmap bytes bytes) : Record_ :=
  let dt := match message !! bs "data_type" with
            | Some d => match parse_i32 d with Some dt => dt | None => 2459%Z end
            | None => 2439%Z end in
  let ts := match message !! bs "rasp_timestamp" with
            | Some t => match parse_i64 t with Some ts => ts | None => now end
            | None => now end in
  mkRecord dt ts (Some (mkPayload (delete (bs "rasp_timestamp") (delete (bs "data_type") message)) [])) [].

Section Messages.
Context `{!Host} `{!Json}.
#[local] Abbreviation IO := (SM (list call)).

(** The file is created before the body of the answer is read. *)
Definition download_patch_to_file (path url : bytes) : IO unit :=
  r ← ask (Download url); response ← try_ r;
  r ← ask (WriteAll path []); _ ← try_ r;
  body ← try_ response;
  r ← ask (WriteAll path body); try_ r.
(** The urls are tried until one succeeds. *)
Fixpoint download_first (path : bytes) (urls : list bytes) : IO unit :=
  match urls with
  | [] => mret tt
  | url :: urls =>
      o ← attempt (download_patch_to_file path url);
      match o with Some _ => mret tt | None => download_first path urls end
  end.
Definition apply_patch (p : bytes) (patch : ProbeConfigPatch) : IO unit :=
  (match p_file_download_url patch with Some urls => download_first (p_path patch) urls | None => mret tt end);;
  match parse_i32 p with
  | Some ipid => r ← ask (CopyFile (p_path patch) (root_dir ipid ++ bs "/" ++ p_path patch)); try_ r
  | None => sm_fail ParseIntError
  end.
Definition parse_patch_message (p : bytes) (ps : list ProbeConfigPatch) : IO unit := for_each (apply_patch p) ps.

(** [file_check_sum]: [digest] is [sha256::digest_bytes].  No caller. *)
Definition file_check_sum (digest : bytes -> bytes) (path sum : bytes) : IO unit :=
  r ← ask (ReadFile path); content ← try_ r;
  if bool_decide (sum = digest content) then mret tt else sm_fail (Anyhow "check sum not match").

Definition command_patches (c : RASPCommand) : option (list ProbeConfigPatch) :=
  s ← cmd_probe_message c; d ← json_parse s ≫= Data_of_json; patches d.
Definition parse_message (task : Task) : IO RASPMessage :=
  let data := task_data task in
  m ← ok_or "serde" (json_parse data ≫= RASPMessage_of_json);
  (if contains data (bs "file_download_url") || contains data (bs "file_content") then
     for_each (fun c =>
       match command_patches c with
       | Some ps => _ ← attempt (parse_patch_message (cmd_pid c) ps); mret tt
       | None => mret tt
       end) (default [] (msg_commands m))
   else mret tt);;
  mret m.
End Messages.

(** ** Filters and processes (filter.rs, process.rs) *)

Record Filters := mkFilters {
  ignore_exe_path : list bytes;
  ignore_exe_name : list bytes;
  ignore_argv_regex : list string;
  collect_env : list bytes;
  collect_all_env : bool;
  auto_attach_runtime : list bytes;
}.

Section Collect.
Context `{!Host} `{!Regex}.

Definition collect_info (fs : Filters) (process : Process) : SM IS unit :=
  '(name, path) ← update_exe process;
  (if existsb (starts_with path) (ignore_exe_path fs) then sm_fail (Anyhow "hit global exe_path filter") else mret tt);;
  (if existsb (fun n => bool_decide (name = n)) (ignore_exe_name fs) then sm_fail (Anyhow "hit global exe_path filter") else mret tt);;
  (if collect_all_env fs then update_all_env process else _ ← update_env process (collect_env fs); mret tt);;
  _ ← update_cmdline process;
  o ← self cmdline;
  (match o with
   | Some c => if existsb (fun re => is_match re c) (ignore_argv_regex fs) then sm_fail (Anyhow "hit global cmdline filter") else mret tt
   | None => mret tt
   end);;
  _ ← update_ns_info process;
  _ ← update_ppid process;
  _ ← update_tgid process;
  _ ← update_sid process;
  _ ← update_start_time process;
  update_id process.
Definition collect {S} `{!HasCalls S} (p : Z) (fs : Filters) : SM S ProcessInfo :=
  process ← Process_new p;
  '(_, i) ← on_info (ProcessInfo_new p) (collect_info fs process);
  mret i.

(** [traverse_proc] of process.rs: the numbers under /proc. *)
Definition traverse_host {S} `{!HasCalls S} : SM S (list Z) :=
  r ← ask (ReadDir (bs "/proc")); names ← try_ r; mret (numeric names).
Definition poll_pid_func {S} `{!HasCalls S} (tracking : list Z) : SM S (list Z * list Z) :=
  all ← traverse_host; mret (all, filter (fun p => p ∉ tracking) all).

(** A process that can no longer be opened, or whose status cannot be read, is
    missing; [order] is the order in which the map is walked. *)
Definition process_gone {S} `{!HasCalls S} (p : Z) : SM S bool :=
  o ← attempt (Process_new p);
  match o with
  | Some _ => r ← ask (ProcStatus_ p); mret (match r with Some _ => false | None => true end)
  | None => mret true
  end.
Fixpoint process_health {S} `{!HasCalls S} (order : list Z) : SM S (list Z) :=
  match order with
  | [] => mret []
  | p :: order => gone ← process_gone p; rest ← process_health order; mret (if gone : bool then p :: rest else rest)
  end.
End Collect.

(** ** Reports (utils.rs, report.rs) *)

(** [f32] division and the conversion to an integer, which truncates and
    saturates. *)
Definition f32_div (x y : f32) : f32 := SFdiv 24 128 x y.
Definition saturate (n : Z) : Z := (- 2 ^ 63) `max` (n `min` (2 ^ 63 - 1)).
Definition f32_to_i64 (x : f32) : Z :=
  match x with
  | S754_zero _ | S754_nan => 0
  | S754_infinity s => saturate (if s then - 2 ^ 64 else 2 ^ 64)
  | S754_finite s m e =>
      let n := (if (0 <=? e)%Z then Z.pos m * 2 ^ e else Z.pos m / 2 ^ (- e))%Z in saturate (if s then - n else n)
  end.

Section Report.
Context `{!Host} (envs_json environ_json : gmap bytes bytes -> bytes).
#[local] Abbreviation IO := (SM (list call)).

(** [u64] subtraction wraps in a release build. *)
Definition count_uptime (start_time : f32) : IO Z :=
  r ← ask TicksPerSecond; ticks ← try_ r;
  r ← ask BootTime; boottime ← try_ r;
  let seconds_since_boot := wrap_u64 (f32_to_i64 (f32_div start_time (f32_of_u64 ticks))) in
  timestamp ← ask Now;
  mret (wrap_u64 ((timestamp : Z) - seconds_since_boot - boottime)).
Definition uptime_text (i : ProcessInfo) : IO bytes :=
  o ← attempt (count_uptime (default (f32_of_u64 0) (start_time i)));
  mret (match o with Some t => show_u64 t | None => bs "0" end).

(** The counters and times both reports carry. *)
Definition times (i : ProcessInfo) : list (string * bytes) :=
  [("attach_start_time", default [] (attach_start_time i)); ("attach_end_time", default [] (attach_end_time i));
   ("failed_time", default [] (failed_time i)); ("missing_time", default [] (missing_time i));
   ("try_attach_count", show_u64 (try_attach_count i)); ("attached_count", show_u64 (attached_count i))]%string.

(** [envs_json] is [to_string(&h2j).unwrap_or(String::new())]. *)
Definition make_report (i : ProcessInfo) (action reason : bytes) : IO (gmap bytes bytes) :=
  up ← uptime_text i;
  mret (insert_strs
    ([("action", action); ("reason", reason); ("pid", show_i32 (pid i)); ("cmdline", default [] (cmdline i))]%string
     ++ (match environ i with Some e => [("envs"%string, envs_json e)] | None => [] end)
     ++ [("tracing_state", match tracing_state i with Some st => show_state st | None => [] end);
         ("runtime", match runtime i with Some rt => show_runtime rt | None => [] end)]%string
     ++ times i ++ [("uptime"%string, up)]) ∅).

(** [environ_json] is the JSON of the environment as text. *)
Definition generate_heartbeat (i : ProcessInfo) : IO (gmap bytes bytes) :=
  up ← uptime_text i;
  let rt := default (mkRuntime (bs "unknown") (bs "unknown")) (runtime i) in
  mret (insert_strs
    ([("pid", show_i32 (pid i)); ("cmdline", default [] (cmdline i)); ("exe_name", default [] (exe_name i));
      ("current_config_hash", current_config_hash i); ("environ", environ_json (default ∅ (environ i)));
      ("trace_state", show_state (default INSPECTED (tracing_state i)));
      ("runtime", rt_name rt); ("runtime_version", rt_version rt)]%string
     ++ times i ++ [("uptime"%string, up)]) ∅).

Definition generate_seq_id : IO bytes := n ← ask Now; mret (show_u64 n ++ bs "-rand").

(** [hashmap_to_record], and the type and time set on it afterwards. *)
Definition hashmap_to_record (m : gmap bytes bytes) : Record_ := mkRecord 0 0 (Some (mkPayload m [])) [].
Definition typed (dt now : Z) (m : gmap bytes bytes) : Record_ := set_timestamp now (set_data_type dt (hashmap_to_record m)).
End Report.

Lemma count_uptime_no_panic `{!Host} x : no_panic (count_uptime x).
Proof. unfold count_uptime. no_panic. Qed.

(** ** The operator (operation.rs) *)

(** The process an operation works on, a copy of the traced one, and the manager. *)
Definition PS : Type := ProcessInfo * RASPManager.
#[global] Instance PS_calls : HasCalls PS :=
  {| calls s := host_calls s.2; set_calls h s := (s.1, set_calls h s.2) |}.

Section Operator.
Context `{!Host} `{!Regex} `{!Json} (base : bytes).

Definition on_manager {A} (f : ProcessInfo -> SM RASPManager A) : SM PS A := fun s =>
  let '(r, m) := f s.1 s.2 in (r, (s.1, m)).
Definition on_process {A} (f : SM IS A) : SM PS A := fun s =>
  let '(r, (i, h)) := f (s.1, host_calls s.2) in (r, (i, set_calls h s.2)).

Definition attach_process : SM PS unit :=
  on_manager (start_comm base);;
  o ← sm_gets (fun s => runtime s.1);
  match o with
  | None => sm_fail (Anyhow "runtime not detected")
  | Some _ =>
      on_process update_try_attach_count;;
      on_process update_attach_start_time;;
      o ← attempt (on_manager (fun i => io (attach base i)));
      match o with
      | Some _ => on_process update_attached_count;; on_process update_attach_end_time
      | None => on_process update_failed_time;; on_manager stop_comm;; sm_fail (Anyhow "attach failed")
      end
  end.

Definition handle_missing : SM PS unit :=
  o ← sm_gets (fun s => tracing_state s.1);
  st ← ok_or "empty state found during handle missing" o;
  (if bool_decide (show_state st = bs "ATTACHED") then on_process update_missing_time else mret tt);;
  on_manager stop_comm.

Definition send_probe_message (message : bytes) : SM PS unit :=
  o ← sm_gets (fun s => mnt_ns_of s.1);
  ns ← ok_or "unable fetch namespace" o;
  on_manager (fun i => send_message_to_probe base (pid i) ns message).

Definition op (state probe_message : bytes) : SM PS unit :=
  if bool_decide (state = bs "MISSING") then handle_missing
  else if bool_decide (state = bs "WAIT_ATTACH") then
    o ← sm_gets (fun s => tracing_state s.1);
    match o with
    | Some st =>
        (if bool_decide (show_state st = bs "ATTACHED") then mret tt else attach_process);;
        if bool_decide (probe_message = []) then mret tt
        else o ← attempt (send_probe_message probe_message);
             match o with Some _ => mret tt | None => sm_fail (Anyhow "send probe message failed") end
    | None => mret tt
    end
  else mret tt.

(** [Operator::new]: the settings it reads; [link] and [use_mount] have defaults. *)
Definition Operator_new (mode log_level bind : option bytes) (link : option bytes) (use_mount : option bool) :
    SM (list call) RASPManager :=
  mode ← ok_or "missing key" mode; _ ← ok_or "missing key" log_level; bind ← ok_or "missing key" bind;
  init mode bind link (default false use_mount).
Definition host_rasp_server : SM RASPManager unit := i ← io (from_pid 1); start_comm base i.
End Operator.

(** ** Theorems *)

(** *** What is collected *)

(** A process just collected: nothing has been done to it yet. *)
Definition untouched (p : Z) (i : ProcessInfo) : Prop :=
  pid i = p /\ failed_time i = None /\ missing_time i = None /\ try_attach_count i = 0%Z /\ attached_count i = 0%Z
  /\ tracing_state i = None /\ runtime i = None.

Section Collect_lemmas.
Context `{!Host} `{!Regex}.

Lemma update_env_ok P process keys :
  (forall i e, P i -> P (set_environ (Some e) i)) ->
  establishes (fun i => P i /\ environ i = None) (fun i => P i /\ is_Some (environ i)) (update_env process keys).
Proof.
  intros HP [i h] [Hi He]. simpl in Hi, He. unfold update_env, mbind, SM_bind, self, update, sm_gets, sm_modify, ask; simpl.
  rewrite He; simpl. destruct (reply h _) as [envs|]; simpl; [|done]. destruct (read_keys _ _ _ _) as [env result]; simpl. eauto.
Qed.
Lemma establishes_pre {A} (P P' Q : ProcessInfo -> Prop) (m : SM IS A) :
  (forall i, P' i -> P i) -> establishes P Q m -> establishes P' Q m.
Proof. intros HP Hm s Hs. by apply Hm, HP. Qed.
(** A test that may only fail. *)
Lemma establishes_guard (P : ProcessInfo -> Prop) (b : bool) e :
  establishes P P (if b then sm_fail e else mret tt).
Proof. intros s Hs. by destruct b. Qed.

Lemma establishes_guard_opt {A} (P : ProcessInfo -> Prop) (o : option A) (f : A -> bool) e :
  establishes P P (match o with Some a => if f a then sm_fail e else mret tt | None => mret tt end).
Proof. intros s Hs. destruct o as [a|]; [|done]. by destruct (f a). Qed.
Lemma establishes_ret {A} (P : ProcessInfo -> Prop) (a : A) : establishes P P (mret a).
Proof. intros s Hs. exact Hs. Qed.
Lemma establishes_self {A} (P : ProcessInfo -> Prop) (f : ProcessInfo -> A) : establishes P P (self f).
Proof. intros s Hs. exact Hs. Qed.

Lemma collect_info_ready p fs process :
  establishes (fun i => untouched p i /\ environ i = None) (fun i => untouched p i /\ info_ready i) (collect_info fs process).
Proof.
  unfold collect_info. chain; [apply (update_exe_ok (fun i => untouched p i /\ environ i = None)); naive_solver|].
  destruct a as [name path]. chain; [apply establishes_guard|]. chain; [apply establishes_guard|].
  eapply (establishes_bind _ (fun i => (untouched p i /\ is_Some (exe_name i) /\ is_Some (exe_path i)) /\ is_Some (environ i))).
  { destruct (collect_all_env fs).
    - eapply establishes_pre; [|apply update_all_env_ok; naive_solver]. naive_solver.
    - chain; [eapply establishes_pre; [|apply (update_env_ok (fun i => untouched p i /\ is_Some (exe_name i) /\ is_Some (exe_path i))); naive_solver]; naive_solver|].
      apply establishes_ret. }
  intros _. chain; [apply update_cmdline_ok; naive_solver|].
  eapply establishes_bind; [apply establishes_self|intros o].
  chain; [apply establishes_guard_opt|].
  chain; [apply update_ns_info_ok; naive_solver|]. chain; [apply update_ppid_ok; naive_solver|].
  chain; [apply update_tgid_ok; naive_solver|]. chain; [apply update_sid_ok; naive_solver|].
  chain; [apply update_start_time_ok; naive_solver|].
  eapply establishes_post; [|apply update_id_ok; naive_solver]. unfold info_ready. naive_solver.
Qed.

Lemma collect_ready {S} `{!HasCalls S} p fs (s : S) :
  match collect p fs s with
  | (Ret i, _) => untouched p i /\ info_ready i
  | (Fail _, _) => True
  | (Panic, _) => False
  end.
Proof.
  unfold collect, Process_new, mbind, SM_bind, ask. simpl.
  destruct (reply _ (ProcNew p)) as [st|]; [|done]. simpl.
  pose proof (on_info_ready (ProcessInfo_new p) (collect_info fs (mkProcess p st)) _ _
    (set_calls (calls s ++ [ProcNew p]) s) (collect_info_ready p fs (mkProcess p st))) as Hr.
  destruct (on_info _ _ _) as [[[_ i']|e|] s']; [|done|]; apply Hr; done.
Qed.

(** A poll of /proc names for inspection exactly the pids that were not there at
    the poll before, and remembers exactly those that are there now: a pid is
    inspected once while it stays, and again only when it was seen to be gone. *)
Theorem poll_pids_new {S} `{!HasCalls S} tracking (s : S) :
  match poll_pid_func tracking s with
  | (Ret (all, need), _) =>
      (exists names, reply (calls s) (ReadDir (bs "/proc")) = Some names /\ all = numeric names)
      /\ (forall p, p ∈ need <-> p ∈ all /\ ~ (p ∈ tracking))
  | (Fail _, _) => reply (calls s) (ReadDir (bs "/proc")) = None
  | (Panic, _) => False
  end.
Proof.
  unfold poll_pid_func, traverse_host, mbind, SM_bind, ask, try_. destruct (reply (calls s) (ReadDir (bs "/proc"))) as [names|]; [|done].
  split; [by exists names|]. intros p. rewrite list_elem_of_filter. tauto.
Qed.
End Collect_lemmas.

(** *** Reports *)

(** The time a process has been up is wrong, and can wrap: its start is kept in
    an [f32].  On a host up for 497 days a process that has just started is
    reported as up for 2^64 - 5 seconds. *)
Theorem uptime_wraps `{!Host} h b :
  reply h TicksPerSecond = Some 100%Z -> reply (h ++ [TicksPerSecond]) BootTime = Some b ->
  reply (h ++ [TicksPerSecond; BootTime]) Now = (b + (2 ^ 32 + 300) / 100)%Z ->
  fst (count_uptime (f32_of_u64 (2 ^ 32 + 300)) h) = Ret (2 ^ 64 - 5)%Z.
Proof.
  intros E1 E2 E3. unfold count_uptime, mbind, SM_bind, ask, try_. cbn [calls calls_self set_calls]. rewrite E1.
  unfold mret, SM_ret. rewrite E2. rewrite <- app_assoc. cbn [app]. rewrite E3. cbn [fst]. f_equal.
  replace (wrap_u64 (f32_to_i64 (f32_div (f32_of_u64 (2 ^ 32 + 300)) (f32_of_u64 100)))) with 42949680%Z by (by vm_compute).
  replace (b + (2 ^ 32 + 300) / 100 - 42949680 - b)%Z with (-5)%Z by (change ((2 ^ 32 + 300) / 100)%Z with 42949675%Z; lia).
  done.
Qed.

(** *** Patches *)

Definition without_sum (p : ProbeConfigPatch) : ProbeConfigPatch :=
  mkPatch (p_class_name p) (p_path p) (p_file_download_url p) None.

(** The checksum a patch comes with makes no difference: it is downloaded and
    copied into the container of the process as if it had none. *)
Theorem patch_sum_ignored `{!Host} p ps h : parse_patch_message p (map without_sum ps) h = parse_patch_message p ps h.
Proof.
  unfold parse_patch_message. revert h. induction ps as [|x ps IH]; intros h; [done|]. cbn [map for_each].
  change (apply_patch p (without_sum x)) with (apply_patch p x). unfold mbind, SM_bind.
  destruct (apply_patch p x h) as [[u|e|] h1]; [apply IH|done|done].
Qed.

Section Usable.
Context `{!Host} `{!Json}.

(** A text that is an array of configurations is no single one. *)
Lemma usable_not_data s ms : (json_parse s ≫= of_arr PidMissing_of_json) = Some ms -> (json_parse s ≫= Data_of_json) = None.
Proof.
  destruct (json_parse s) as [j|]; [|done]. cbn [mbind option_bind]. destruct j as [| | | |l|]; cbn [of_arr]; try done.
  intros Hm. unfold Data_of_json. cbn [of_struct]. match goal with |- context [if ?b then _ else _] => destruct b eqn:Hl end; [|done]. apply Nat.eqb_eq in Hl.
  destruct l as [|j1 [|j2 [|j3 [|j4 [|j5 [|]]]]]]; try done. cbn [mapM] in Hm.
  unfold mbind at 1 in Hm. destruct (PidMissing_of_json j1) as [c1|] eqn:E1; [|done].
  assert (Hj : of_str j1 = None) by (destruct j1; done).
  cbn [mbind option_bind map zip zip_with bs]. unfold required at 1. rewrite member_here by (repeat (constructor; [discriminate|]); constructor).
  cbn [mbind option_bind]. by rewrite Hj.
Qed.

(** The two readers of a command's message disagree on its form: one that can
    be sent to a probe never has its patches downloaded, so that a task whose
    messages can all be sent is parsed without a single call to the host. *)
Theorem usable_message_has_no_patches task h m :
  json_parse (task_data task) ≫= RASPMessage_of_json = Some m ->
  (forall c s, c ∈ default [] (msg_commands m) -> cmd_probe_message c = Some s ->
     is_Some (json_parse s ≫= of_arr PidMissing_of_json)) ->
  parse_message task h = (Ret m, h).
Proof.
  intros Hm Hs. unfold parse_message. rewrite Hm. unfold mbind at 1, SM_bind at 1. cbn [ok_or mret SM_ret].
  unfold mbind at 1, SM_bind at 1. destruct (contains _ _ || contains _ _); [|done].
  assert (Hl : forall l, (forall c, c ∈ l -> c ∈ default [] (msg_commands m)) ->
    for_each (fun c => match command_patches c with Some ps => _ ← attempt (parse_patch_message (cmd_pid c) ps); mret tt | None => mret tt end) l h
    = (Ret tt, h)).
  { induction l as [|c l IH]; intros Hin; [done|]. cbn [for_each]. unfold mbind at 1, SM_bind at 1.
    assert (Hc : command_patches c = None).
    { unfold command_patches. destruct (cmd_probe_message c) as [s|] eqn:Es; [|done]. cbn [mbind option_bind].
      destruct (Hs c s (Hin c (list_elem_of_here _ _)) Es) as [ms Hms]. by rewrite (usable_not_data s ms Hms). }
    rewrite Hc. apply IH. intros c' Hc'. by apply Hin, list_elem_of_further. }
  by rewrite Hl.
Qed.
End Usable.

(** *** What an operation leaves of the process *)

Section Operator_lemmas.
Context `{!Host} `{!Regex} `{!Json} (base : bytes).

Lemma on_manager_keeps {A} (f : ProcessInfo -> SM RASPManager A) s r s' :
  on_manager f s = (r, s') -> s'.1 = s.1 /\ f s.1 s.2 = (r, s'.2).
Proof. unfold on_manager. destruct (f s.1 s.2) as [r0 m]. by intros [= <- <-]. Qed.
Lemma on_process_keeps {A} (f : SM IS A) s r s' :
  on_process f s = (r, s') -> exists h, f (s.1, host_calls s.2) = (r, (s'.1, h)) /\ s'.2 = set_calls h s.2.
Proof. unfold on_process. destruct (f (s.1, host_calls s.2)) as [r0 [i h]]. intros [= <- <-]. by exists h. Qed.
Lemma sm_gets_inv {S A} (f : S -> A) s a s' : sm_gets f s = (Ret a, s') -> a = f s /\ s' = s.
Proof. by intros [= <- <-]. Qed.
Lemma attempt_ret {S A} (m : SM S A) s o s' : attempt m s = (Ret o, s') -> snd (m s) = s'.
Proof. unfold attempt. by destruct (m s) as [[] s0]; intros [= <- <-]. Qed.

Lemma timed (f : bytes -> ProcessInfo -> ProcessInfo) i h u i' h' :
  (t ← current_time; update (f t)) (i, h) = (Ret u, (i', h')) -> exists t, i' = f t i.
Proof. intros E. apply sm_bind_inv in E as (t & [i1 h1] & E1 & E). exists t.
  unfold current_time, ask, mbind, SM_bind, mret, SM_ret in E1. apply (f_equal (fun x => x.2.1)) in E1. cbn [snd fst set_calls calls IS_calls] in E1.
  apply (f_equal (fun x => x.2.1)) in E. cbn in E. by subst.
Qed.

(** The process after a successful attachment: both counters go up, both times are
    set, and nothing else changes. *)
Definition attached_info (t1 t2 : bytes) (i : ProcessInfo) : ProcessInfo :=
  set_attach_end_time (Some t2) (set_attached_count (wrap_u16 (attached_count i + 1))
    (set_attach_start_time (Some t1) (set_try_attach_count (wrap_u16 (try_attach_count i + 1)) i))).

Lemma attach_process_ok s s' : attach_process base s = (Ret tt, s') -> exists t1 t2, s'.1 = attached_info t1 t2 s.1.
Proof.
  intros E. unfold attach_process in E. apply sm_bind_inv in E as (u & s1 & E1 & E). apply on_manager_keeps in E1 as [Hi1 _].
  apply sm_bind_inv in E as (o & s2 & E2 & E). apply sm_gets_inv in E2 as [-> ->].
  destruct (runtime s1.1) as [rt|]; [|done].
  apply sm_bind_inv in E as (u2 & s3 & E3 & E). apply on_process_keeps in E3 as (h3 & E3 & _).
  assert (Hi3 : s3.1 = set_try_attach_count (wrap_u16 (try_attach_count s1.1 + 1)) s1.1) by (by apply (f_equal (fun x => x.2.1)) in E3).
  apply sm_bind_inv in E as (u4 & s4 & E4 & E). apply on_process_keeps in E4 as (h4 & E4 & _).
  apply timed in E4 as [t1 Hi4].
  apply sm_bind_inv in E as (o5 & s5 & E5 & E). apply attempt_ret in E5.
  destruct (on_manager (fun i => io (attach base i)) s4) as [r5 s5'] eqn:Em. apply on_manager_keeps in Em as [Hi5 _]. simpl in E5. subst s5'.
  destruct o5 as [u5|].
  - apply sm_bind_inv in E as (u6 & s6 & E6 & E). apply on_process_keeps in E6 as (h6 & E6 & _).
    assert (Hi6 : s6.1 = set_attached_count (wrap_u16 (attached_count s5.1 + 1)) s5.1) by (by apply (f_equal (fun x => x.2.1)) in E6).
    apply on_process_keeps in E as (h7 & E7 & _). apply timed in E7 as [t2 Hi7].
    exists t1, t2. rewrite Hi7, Hi6, Hi5, Hi4, Hi3, Hi1. reflexivity.
  - apply sm_bind_inv in E as (u6 & s6 & E6 & E). apply sm_bind_inv in E as (u7 & s7 & E7 & E). done.
Qed.

(** A command to attach that succeeds leaves an attached process as it is, and any
    other as its attachment left it. *)
Lemma op_wait_attach_ok message s s' :
  op base (bs "WAIT_ATTACH") message s = (Ret tt, s') ->
  (tracing_state s.1 = Some ATTACHED \/ tracing_state s.1 = None) /\ s'.1 = s.1
  \/ exists t1 t2, s'.1 = attached_info t1 t2 s.1.
Proof.
  unfold op. rewrite bool_decide_eq_false_2 by discriminate. rewrite bool_decide_eq_true_2 by done. intros E.
  apply sm_bind_inv in E as (o & s1 & E1 & E). apply sm_gets_inv in E1 as [-> ->].
  destruct (tracing_state s.1) as [st|]; [|injection E as <-; auto].
  apply sm_bind_inv in E as (u & s2 & E2 & E).
  assert (Hs : s'.1 = s2.1).
  { case_bool_decide; [by injection E as <-|]. apply sm_bind_inv in E as (o & s3 & E3 & E). apply attempt_ret in E3.
    destruct o; [|done]. injection E as <-. subst s3. unfold send_probe_message, mbind, SM_bind, sm_gets.
    destruct (mnt_ns_of s2.1) as [ns|]; simpl; [|done]. unfold mret, SM_ret.
    destruct (on_manager _ s2) as [r3 s4] eqn:Em. by apply on_manager_keeps in Em as [Hi _]. }
  rewrite Hs. clear E. case_bool_decide as Hst.
  - left. assert (Hs2 : s2 = s) by (by apply (f_equal snd) in E2). rewrite Hs2. split; [|reflexivity]. left. destruct st; try discriminate Hst. done.
  - right. destruct u. by apply attach_process_ok in E2.
Qed.

(** The manager keeps its invariant through every operation. *)

Definition keeps_ok {A} (c : SM PS A) : Prop := forall s, manager_ok s.2 -> manager_ok (snd (c s)).2.
Lemma keeps_ok_bind {A B} (c : SM PS A) (k : A -> SM PS B) : keeps_ok c -> (forall a, keeps_ok (k a)) -> keeps_ok (c ≫= k).
Proof.
  intros Hc Hk s Hs. unfold mbind, SM_bind. specialize (Hc s Hs). destruct (c s) as [[a|e|] s1]; [by apply Hk|done|done].
Qed.
Lemma keeps_ok_pure {A} (c : SM PS A) : (forall s, snd (c s) = s) -> keeps_ok c.
Proof. intros Hc s Hs. by rewrite Hc. Qed.
Lemma keeps_ok_attempt {A} (c : SM PS A) : keeps_ok c -> keeps_ok (attempt c).
Proof. intros Hc s Hs. rewrite attempt_snd. by apply Hc. Qed.
Lemma keeps_ok_process {A} (f : SM IS A) : keeps_ok (on_process f).
Proof.
  intros s Hs. destruct (on_process f s) as [r s'] eqn:E. apply on_process_keeps in E as (h & _ & Hm). simpl. rewrite Hm.
  by eapply manager_ok_same; [..|exact Hs].
Qed.
Lemma keeps_ok_manager {A} (f : ProcessInfo -> SM RASPManager A) :
  (forall i m r m', manager_ok m -> f i m = (r, m') -> manager_ok m') -> keeps_ok (on_manager f).
Proof.
  intros Hf s Hs. destruct (on_manager f s) as [r s'] eqn:E. apply on_manager_keeps in E as [_ E]. by eapply Hf.
Qed.

Lemma op_keeps_ok state message : keeps_ok (op base state message).
Proof.
  assert (Hstart : keeps_ok (on_manager (start_comm base))) by (apply keeps_ok_manager; intros; by eapply start_comm_ok).
  assert (Hstop : keeps_ok (on_manager stop_comm)) by (apply keeps_ok_manager; intros; by eapply stop_comm_ok).
  assert (Hio : keeps_ok (on_manager (fun i => io (attach base i)))) by (apply keeps_ok_manager; intros; by eapply io_ok).
  assert (Hsend : forall ns, keeps_ok (on_manager (fun i => send_message_to_probe base (pid i) ns message)))
    by (intros ns; apply keeps_ok_manager; intros; by eapply send_message_ok).
  unfold op, handle_missing, attach_process, send_probe_message.
  repeat first [ done | apply keeps_ok_process | apply keeps_ok_attempt | apply keeps_ok_bind; [|intros ?]
    | apply keeps_ok_pure; by intros ?; repeat case_match | apply keeps_ok_pure; unfold ok_or; case_match; done | case_match | apply Hsend ].
Qed.
End Operator_lemmas.

(** ** Concrete runs *)

Section Runs.
#[local] Existing Instance test_host.
#[local] Existing Instance test_json.
#[local] Existing Instance test_json_laws.

Lemma uptime_wraps_witness : fst (count_uptime (f32_of_u64 (2 ^ 32 + 300)) []) = Ret (2 ^ 64 - 5)%Z.
Proof. refine (uptime_wraps [] 1000 _ _ _); reflexivity. Defined.

Definition test_rasp_message : RASPMessage :=
  mkRASPMessage (bs "m") (Some [mkCommand (bs "7") (bs "WAIT_ATTACH") (bs "JVM")
                                  (Some (json_print (JArr [PidMissing_to_json test_config])))]).
Definition test_message_task : Task :=
  mkTask 0 [] (json_print (JObj [(bs "name", JStr (bs "m")); (bs "commands", JArr [JObj
    [(bs "pid", JStr (bs "7")); (bs "state", JStr (bs "WAIT_ATTACH")); (bs "runtime", JStr (bs "JVM"));
     (bs "probe_message", JStr (json_print (JArr [PidMissing_to_json test_config])))]])])) [] [].
Lemma usable_message_has_no_patches_witness : parse_message test_message_task [] = (Ret test_rasp_message, []).
Proof.
  refine (usable_message_has_no_patches test_message_task [] test_rasp_message _ _).
  - unfold test_message_task. cbn [task_data]. rewrite json_roundtrip by done. reflexivity.
  - intros c s Hc. apply list_elem_of_singleton in Hc as ->. cbn [cmd_probe_message].
    intros Es. apply (f_equal (default [])) in Es. cbn [default] in Es. unfold id in Es. rewrite <- Es, json_roundtrip by done. by eexists.
Defined.
End Runs.
