(* ===== verification/RaspMonitor.v ===== *)
(** * The threads of the rasp plugin ([rasp/plugin/src]: monitor.rs)

    The plugin's threads share the traced processes, a channel of pids to inspect, a
    channel of commands and a channel of records.  Each turn of a thread is a
    function on that state; a step of the system is a turn of any thread, so that
    what is proved holds for every interleaving of turns.  The threads [inspect] and
    [operation] let go of the traced processes in the middle of their loops, so
    that each of them has two turns, with what it holds in between as part of the
    state.  A channel that is full makes its sender wait; here the message counts
    as sent.  Most loops first look at the stop flag and end when it is down; a
    thread that has ended takes no more turns, and steps leave open which threads
    still do. *)

From S2P Require Import Prelude Bytes RustStd Json Encoder Bridge Client ScanEvents RaspOs RaspProcess RaspRuntime RaspServer RaspManager RaspPlugin.

Record Monitor := mkMonitor {
  tracking_pids : list Z;                 (** of the thread [pid_recv] *)
  pid_queue : list Z;
  commands : list RASPCommand;
  tracing_process : gmap Z ProcessInfo;
  outbox : list Record_;                  (** sent to [internal_message_sender] *)
  rasp_manager : RASPManager;
  working : Control;
  announced : option (Z * ProcessInfo);   (** [inspect]: found, not yet traced *)
  in_operation : option (RASPCommand * ProcessInfo);  (** [operation]: the command and its copy of the process *)
}.
Definition set_manager v s := mkMonitor (tracking_pids s) (pid_queue s) (commands s) (tracing_process s) (outbox s) v (working s) (announced s) (in_operation s).
#[global] Instance monitor_calls : HasCalls Monitor := {|
  calls s := host_calls (rasp_manager s);
  set_calls h s := set_manager (set_calls h (rasp_manager s)) s |}.

Definition set_tracking v s := mkMonitor v (pid_queue s) (commands s) (tracing_process s) (outbox s) (rasp_manager s) (working s) (announced s) (in_operation s).
Definition set_pid_queue v s := mkMonitor (tracking_pids s) v (commands s) (tracing_process s) (outbox s) (rasp_manager s) (working s) (announced s) (in_operation s).
Definition set_commands v s := mkMonitor (tracking_pids s) (pid_queue s) v (tracing_process s) (outbox s) (rasp_manager s) (working s) (announced s) (in_operation s).
Definition set_traced v s := mkMonitor (tracking_pids s) (pid_queue s) (commands s) v (outbox s) (rasp_manager s) (working s) (announced s) (in_operation s).
Definition set_outbox v s := mkMonitor (tracking_pids s) (pid_queue s) (commands s) (tracing_process s) v (rasp_manager s) (working s) (announced s) (in_operation s).
Definition set_announced v s := mkMonitor (tracking_pids s) (pid_queue s) (commands s) (tracing_process s) (outbox s) (rasp_manager s) (working s) v (in_operation s).
Definition set_in_operation v s := mkMonitor (tracking_pids s) (pid_queue s) (commands s) (tracing_process s) (outbox s) (rasp_manager s) (working s) (announced s) v.
Definition stop_world s := mkMonitor (tracking_pids s) (pid_queue s) (commands s) (tracing_process s) (outbox s) (rasp_manager s) (stop (working s)) (announced s) (in_operation s).

(** Code that only calls the host. *)
Definition host_io {A} (c : SM (list call) A) : SM Monitor A := fun s =>
  let '(r, h) := c (host_calls (rasp_manager s)) in (r, set_calls h s).

Section Threads.
Context `{!Host} `{!Regex} `{!Json} (base : bytes) (envs_json environ_json : gmap bytes bytes -> bytes) (md5 : bytes -> bytes).
Context (fs : Filters) (report_action report_heartbeat : Z) (command_capability : nat).
#[local] Abbreviation M := (SM Monitor).

Definition report_ (dt : Z) (m : gmap bytes bytes) : M unit :=
  now ← host_io (ask Now); sm_modify (fun s => set_outbox (outbox s ++ [typed dt now m]) s).

(** ** pid_recv *)

(** [sent] says how many of the pids the channel takes before its other end is
    gone, if it goes. *)
Definition pid_recv_turn (sent : option nat) : M unit :=
  tracking ← sm_gets tracking_pids;
  o ← attempt (host_io (poll_pid_func tracking));
  match o with
  | None => mret tt
  | Some (all, need) =>
      sm_modify (set_tracking all);;
      match sent with
      | Some n => sm_modify (fun s => set_pid_queue (pid_queue s ++ take n need) s);; sm_modify stop_world
      | None => sm_modify (fun s => set_pid_queue (pid_queue s ++ need) s)
      end
  end.

(** ** inspect *)

(** The runtime of a process is found; one that is to be attached at once gets its
    command, before the process is traced. *)
Definition announce (p : Z) (i : ProcessInfo) (r : Runtime) : M unit :=
  let i := set_runtime (Some r) (set_tracing_state (Some INSPECTED) i) in
  (if existsb (fun rt => bool_decide (rt_name r = rt)) (auto_attach_runtime fs)
   then sm_modify (fun s => set_commands (commands s ++ [mkCommand (show_i32 (pid i)) (bs "WAIT_ATTACH") (show_runtime r) None]) s)
   else mret tt);;
  sm_modify (set_announced (Some (p, i))).
(** A turn does not look at [working]: the test of the flag only logs. *)
Definition inspect_turn : M unit :=
  a ← sm_gets announced;
  q ← sm_gets pid_queue;
  match a, q with
  | Some _, _ | None, [] => mret tt
  | None, p :: q =>
      sm_modify (set_pid_queue q);;
      o ← attempt (host_io (collect p fs));
      match o with
      | None => mret tt
      | Some i =>
          o ← attempt (host_io (inspect_from_process_info base i));
          match o with
          | Some (Some r) => announce p i r
          | _ => mret tt
          end
      end
  end.
(** The process found is reported and traced. *)
Definition inspect_insert_turn : M unit :=
  a ← sm_gets announced;
  match a with
  | None => mret tt
  | Some (p, i) =>
      rep ← host_io (make_report envs_json i (bs "inspected") []);
      report_ report_action rep;;
      sm_modify (fun s => set_announced None (set_traced (<[p := i]> (tracing_process s)) s))
  end.

(** ** reporter and cleaner; [order] is the order of the map's walk *)

Fixpoint heartbeats (seq_id : bytes) (order : list Z) (watched : gmap Z ProcessInfo) : M unit :=
  match order with
  | [] => mret tt
  | p :: order =>
      (match watched !! p with
       | Some i => m ← host_io (generate_heartbeat environ_json i); report_ report_heartbeat (<[bs "package_seq" := seq_id]> m)
       | None => mret tt
       end);;
      heartbeats seq_id order watched
  end.
Definition reporter_turn (order : list Z) : M unit :=
  watched ← sm_gets tracing_process;
  seq_id ← host_io generate_seq_id;
  heartbeats seq_id order watched.

Definition cleaner_turn (order : list Z) : M unit :=
  missing ← host_io (process_health order);
  sm_modify (fun s => set_commands (commands s ++ map (fun p => mkCommand (show_i32 p) (bs "MISSING") [] None) missing) s).

(** ** operation *)

(** [to_string] of an error; the text of an error of the system is left empty. *)
Definition text_of (e : error) : bytes := match e with Anyhow m => bs m | _ => [] end.

(** A command is taken with a copy of its process; one for a process that is not
    traced is dropped. *)
Definition operation_turn : M unit :=
  o ← sm_gets in_operation;
  q ← sm_gets commands;
  match o, q with
  | Some _, _ | None, [] => mret tt
  | None, c :: q =>
      sm_modify (set_commands q);;
      traced ← sm_gets tracing_process;
      match get_pid_i32 c ≫= (traced !!.) with
      | None => mret tt
      | Some i => sm_modify (set_in_operation (Some (c, i)))
      end
  end.
(** It is carried out on the copy, which replaces the traced process if that
    succeeded. *)
Definition operation_run_turn : M unit :=
  o ← sm_gets in_operation;
  match o with
  | None => mret tt
  | Some (c, i) =>
      let state := get_state c in
      let probe_message := default [] (get_probe_message c) in
      s ← sm_gets id;
      let '(r, (i', m')) := op base state probe_message (i, rasp_manager s) in
      sm_modify (set_manager m');;
      sm_modify (set_in_operation None);;
      match r with
      | Panic => sm_panic
      | Fail e =>
          rep ← host_io (make_report envs_json i' (state ++ bs "_failed") (text_of e)); report_ report_action rep
      | Ret _ =>
          rep ← host_io (make_report envs_json i' (state ++ bs "_success") []); report_ report_action rep;;
          if bool_decide (state = bs "WAIT_ATTACH") then
            let i'' := set_current_config_hash (if bool_decide (probe_message = []) then [] else md5 probe_message)
                         (set_tracing_state (Some ATTACHED) i') in
            sm_modify (fun s => set_traced (<[pid i'' := i'']> (tracing_process s)) s)
          else if bool_decide (state = bs "MISSING") then
            sm_modify (fun s => set_traced (delete (pid i') (tracing_process s)) s)
          else mret tt
      end
  end.

(** ** external and collect *)

(** The commands of a task are put on the channel; one that finds no room is dropped,
    and a channel whose other end is gone ([connected]) stops the plugin. *)
Fixpoint put_commands (connected : bool) (cs : list RASPCommand) : M unit :=
  match cs with
  | [] => mret tt
  | c :: cs =>
      if connected then
        sm_modify (fun s => if length (commands s) <? command_capability then set_commands (commands s ++ [c]) s else s);;
        put_commands connected cs
      else sm_modify stop_world
  end.
(** [task] is what [receive] gave; an error stops the plugin. *)
Definition external_turn (connected : bool) (task : option Task) : M unit :=
  match task with
  | None => sm_modify stop_world
  | Some t =>
      o ← attempt (host_io (parse_message t));
      match o with
      | Some m => put_commands connected (default [] (msg_commands m))
      | None => mret tt
      end
  end.
(** A collector takes all records there are and hands them to the client: it returns
    them with whether the client took them. *)
Definition collect_turn (taken : bool) : M (list Record_) :=
  rs ← sm_gets outbox;
  match rs with
  | [] => mret []
  | _ => sm_modify (set_outbox []);; (if taken then mret tt else sm_modify stop_world);; mret rs
  end.

(** ** Steps *)

Inductive turn : M unit -> Prop :=
  | TPid sent : turn (pid_recv_turn sent)
  | TInspect : turn inspect_turn
  | TInsert : turn inspect_insert_turn
  | TReport order : turn (reporter_turn order)
  | TClean order : turn (cleaner_turn order)
  | TOperation : turn operation_turn
  | TRun : turn operation_run_turn
  | TExternal connected task : turn (external_turn connected task)
  | TCollect taken : turn (_ ← collect_turn taken; mret tt).

(** A turn that panics ends its thread; what it had written stays. *)
Inductive step : Monitor -> Monitor -> Prop :=
  | Step t r s s' : turn t -> t s = (r, s') -> step s s'.

Definition Monitor_new (m : RASPManager) : Monitor := mkMonitor [] [] [] ∅ [] m Control_new None None.
End Threads.

(** [parse] inverts [to_string] on the pids of commands. *)
Lemma parse_show_i32 n : (0 <= n < 2 ^ 31)%Z -> parse_i32 (show_i32 n) = Some n.
Proof.
  intros Hn. assert (E : parse_unsigned 31 (show_u64 n) = Some n) by (by apply parse_show_u64).
  unfold show_i32. rewrite (proj2 (Z.ltb_ge _ _)) by lia. unfold parse_i32, parse_signed.
  replace (strip_char "-" (show_u64 n)) with (@None bytes).
  - unfold parse_unsigned in E. destruct (default _ _) as [|c l]; [done|].
    apply bind_Some in E as (v & Ev & Eb). rewrite Ev. cbn [mbind option_bind]. unfold in_bounds in *.
    destruct ((0 <=? v)%Z && _) eqn:Hv; [|done]. injection Eb as ->.
    rewrite Z.mul_1_l, (proj2 (andb_true_iff _ _)); [done|]. change (2 ^ (32 - 1))%Z with (2 ^ 31)%Z. lia.
  - pose proof (show_u64_digits n) as Hd. destruct (show_u64 n) as [|c l]; [done|]. cbn in *.
    rewrite bool_decide_false; [done|]. intros ->. done.
Qed.

(** ** The traced processes *)

(** What is known of a process once it is traced. *)
Definition traced_ok (p : Z) (i : ProcessInfo) : Prop :=
  pid i = p /\ info_ready i /\ is_Some (runtime i)
  /\ (tracing_state i = Some INSPECTED \/ tracing_state i = Some ATTACHED)
  /\ failed_time i = None /\ missing_time i = None /\ try_attach_count i = attached_count i.

Definition monitor_ok (s : Monitor) : Prop :=
  map_Forall traced_ok (tracing_process s)
  /\ (forall p i, announced s = Some (p, i) -> traced_ok p i)
  /\ (forall c i, in_operation s = Some (c, i) -> traced_ok (pid i) i).

Definition keeps_traced {A} (c : SM Monitor A) : Prop := forall s, monitor_ok s -> monitor_ok (snd (c s)).

Lemma keeps_traced_bind {A B} (c : SM Monitor A) (k : A -> SM Monitor B) :
  keeps_traced c -> (forall a, keeps_traced (k a)) -> keeps_traced (c ≫= k).
Proof.
  intros Hc Hk s Hs. unfold mbind, SM_bind. specialize (Hc s Hs). destruct (c s) as [[a|e|] s1]; [by apply Hk|done|done].
Qed.
Lemma keeps_traced_gets {A B} (f : Monitor -> A) (k : A -> SM Monitor B) :
  (forall s, monitor_ok s -> monitor_ok (snd (k (f s) s))) -> keeps_traced (sm_gets f ≫= k).
Proof. intros Hk s Hs. by apply Hk. Qed.
Lemma keeps_traced_pure {A} (c : SM Monitor A) : (forall s, snd (c s) = s) -> keeps_traced c.
Proof. intros Hc s Hs. by rewrite Hc. Qed.
Lemma keeps_traced_attempt {A} (c : SM Monitor A) : keeps_traced c -> keeps_traced (attempt c).
Proof. intros Hc s Hs. rewrite attempt_snd. by apply Hc. Qed.
(** Turns that leave the traced processes alone. *)
Definition same_traced (s s' : Monitor) : Prop :=
  tracing_process s' = tracing_process s /\ announced s' = announced s /\ in_operation s' = in_operation s.
Lemma same_traced_ok s s' : same_traced s s' -> monitor_ok s -> monitor_ok s'.
Proof. intros (H1 & H2 & H3). unfold monitor_ok. by rewrite H1, H2, H3. Qed.
Lemma keeps_traced_modify f : (forall s, same_traced s (f s)) -> keeps_traced (sm_modify f).
Proof. intros Hf s Hs. exact (same_traced_ok s (f s) (Hf s) Hs). Qed.
Lemma keeps_traced_io {A} (c : SM (list call) A) : keeps_traced (host_io c).
Proof. intros s Hs. unfold host_io. destruct (c _) as [r h]. by eapply same_traced_ok; [|exact Hs]. Qed.

Section Turns_ok.
Context `{!Host} `{!Regex} `{!Json} (base : bytes) (envs_json environ_json : gmap bytes bytes -> bytes) (md5 : bytes -> bytes).
Context (fs : Filters) (report_action report_heartbeat : Z) (command_capability : nat).

Ltac keeps := repeat first
  [ apply keeps_traced_io | apply keeps_traced_modify; intros ?; try case_match; by repeat split
  | apply keeps_traced_attempt
  | match goal with |- keeps_traced (_ ≫= _) => apply keeps_traced_bind; [|intros ?] end
  | apply keeps_traced_pure; by intros ? | case_match ].

Lemma report_keeps dt m : keeps_traced (report_ dt m).
Proof. unfold report_. keeps. Qed.
Lemma pid_recv_keeps sent : keeps_traced (pid_recv_turn sent).
Proof. unfold pid_recv_turn. keeps. Qed.
Lemma reporter_keeps order : keeps_traced (reporter_turn environ_json report_heartbeat order).
Proof.
  unfold reporter_turn. keeps. revert a0. induction order as [|p order IH]; intros seq; cbn [heartbeats]; keeps; try apply report_keeps. apply IH.
Qed.
Lemma cleaner_keeps order : keeps_traced (cleaner_turn order).
Proof. unfold cleaner_turn. keeps. Qed.
Lemma external_keeps connected task : keeps_traced (external_turn command_capability connected task).
Proof.
  unfold external_turn. destruct task as [t|]; keeps. generalize (default [] (msg_commands r)). intros cs.
  induction cs as [|c cs IH]; cbn [put_commands]; keeps. apply IH.
Qed.
Lemma collect_keeps taken : keeps_traced (_ ← collect_turn taken; mret tt).
Proof. unfold collect_turn. keeps. Qed.

Lemma keeps_traced_collect {B} p (k : option ProcessInfo -> SM Monitor B) :
  (forall i, untouched p i -> info_ready i -> keeps_traced (k (Some i))) -> keeps_traced (k None) ->
  keeps_traced (attempt (host_io (collect p fs)) ≫= k).
Proof.
  intros Hk Hn s Hs. pose proof (collect_ready p fs (host_calls (rasp_manager s))) as Hc.
  pose proof (keeps_traced_io (collect p fs) s Hs) as Hio.
  unfold mbind, SM_bind, attempt, host_io in *. destruct (collect p fs _) as [[i|e|] h]; [|by apply Hn|done].
  destruct Hc as [Hu Hr]. by apply Hk.
Qed.

Lemma announce_keeps p i r : untouched p i -> info_ready i -> keeps_traced (announce fs p i r).
Proof.
  intros (Hp & Hf & Hm & Ht & Ha & _ & _) Hr. unfold announce. apply keeps_traced_bind; [keeps|]. intros _ s (Hm1 & Hm2 & Hm3).
  split; [done|]. split; [|done]. intros p' i' [= <- <-]. split; [done|]. split; [exact Hr|]. split; [by eexists|].
  split; [by left|]. split; [done|]. split; [done|]. cbn. congruence.
Qed.
Lemma inspect_keeps : keeps_traced (inspect_turn base fs).
Proof.
  unfold inspect_turn. apply keeps_traced_bind; [keeps|]. intros a. apply keeps_traced_bind; [keeps|]. intros q.
  destruct a; [keeps|]. destruct q as [|p q]; [keeps|]. apply keeps_traced_bind; [keeps|]. intros _.
  apply keeps_traced_collect; [|keeps]. intros i Hu Hr. apply keeps_traced_bind; [keeps|]. intros [[r|]|]; [|keeps..].
  by apply announce_keeps.
Qed.
Lemma insert_keeps : keeps_traced (inspect_insert_turn envs_json report_action).
Proof.
  unfold inspect_insert_turn. apply keeps_traced_gets. intros s Hs. destruct (announced s) as [[p i]|] eqn:Ea; [|done].
  pose proof Hs as (_ & Ha & _). specialize (Ha p i Ea). revert s Hs Ea. 
  match goal with |- forall s, _ -> _ -> monitor_ok (snd (?m s)) => enough (Hk : keeps_traced m) by (intros s Hs _; by apply Hk) end.
  apply keeps_traced_bind; [keeps|]. intros rep. apply keeps_traced_bind; [apply report_keeps|]. intros _ s (Hm1 & Hm2 & Hm3).
  split; [|split; [done|done]]. by apply map_Forall_insert_2.
Qed.
Lemma operation_keeps : keeps_traced operation_turn.
Proof.
  unfold operation_turn. apply keeps_traced_bind; [keeps|]. intros o. apply keeps_traced_bind; [keeps|]. intros q.
  destruct o; [keeps|]. destruct q as [|c q]; [keeps|]. apply keeps_traced_bind; [keeps|]. intros _.
  apply keeps_traced_gets. intros s Hs. destruct (get_pid_i32 c) as [p|]; [|done]. cbn [mbind option_bind].
  destruct (tracing_process s !! p) as [i|] eqn:Ei; [|done]. destruct Hs as (Hm1 & Hm2 & Hm3). split; [done|]. split; [done|].
  intros c' i' [= <- <-]. pose proof (Hm1 p i Ei) as Hi. by rewrite (proj1 Hi).
Qed.

(** A process stays as it should be when it is attached. *)
Lemma attached_info_ok t1 t2 i : traced_ok (pid i) i -> traced_ok (pid i) (attached_info t1 t2 i).
Proof. intros (Hp & Hr & Hrt & Hst & Hf & Hm & Hc). repeat split; try done; try apply Hr. cbn. by rewrite Hc. Qed.
Lemma op_ok_traced message i m i' m' :
  op base (bs "WAIT_ATTACH") message (i, m) = (Ret tt, (i', m')) -> traced_ok (pid i) i -> traced_ok (pid i) i'.
Proof.
  intros E Hi. apply op_wait_attach_ok in E as [[_ E]|(t1 & t2 & E)]; cbn in E; subst i'; [done|]. by apply attached_info_ok.
Qed.

Lemma run_keeps : keeps_traced (operation_run_turn base envs_json md5 report_action).
Proof.
  unfold operation_run_turn. apply keeps_traced_gets. intros s Hs. destruct (in_operation s) as [[c i]|] eqn:Eo; [|done].
  pose proof Hs as (_ & _ & Ho). specialize (Ho c i Eo). unfold mbind at 1, SM_bind at 1, sm_gets, id.
  destruct (op base (get_state c) _ (i, rasp_manager s)) as [r [i' m']] eqn:Eop.
  revert s Hs Eo Eop. match goal with |- forall s, _ -> _ -> _ -> monitor_ok (snd (?m s)) => intros s Hs _ Eop; enough (Hk : keeps_traced m) by (by apply Hk) end.
  apply keeps_traced_bind; [keeps|]. intros _. apply keeps_traced_bind; [intros s1 (Hm1 & Hm2 & Hm3); split; [done|]; split; [done|]; by intros ? ? [=]|]. intros _.
  destruct r as [[]|e|]; [|keeps; apply report_keeps|keeps].
  apply keeps_traced_bind; [keeps|]. intros rep. apply keeps_traced_bind; [apply report_keeps|]. intros _.
  case_bool_decide as Hst; [|case_bool_decide; [|keeps]].
  - rewrite Hst in Eop. apply op_ok_traced in Eop; [|done]. intros s1 (Hm1 & Hm2 & Hm3). split; [|done].
    apply map_Forall_insert_2; [|done]. destruct Eop as (Hp & Hr & Hrt & _ & Hf & Hm & Hc).
    split; [done|]. split; [exact Hr|]. split; [done|]. split; [by right|]. done.
  - intros s1 (Hm1 & Hm2 & Hm3). split; [|done]. by apply map_Forall_delete.
Qed.

(** C4: whatever the host answers and however the threads take turns, every traced
    process is filed under its own pid, has been collected in full, has a runtime
    and is inspected or attached, so that no [unwrap] of the code that inspects or
    reports it can fail.  It has no time of failure and none of disappearance,
    and has been attached as often as it was tried: a failed attempt is forgotten
    with the copy it was made on, so that no heartbeat ever tells of one. *)
Theorem traced_well_formed m s :
  rtc (step base envs_json environ_json md5 fs report_action report_heartbeat command_capability) (Monitor_new m) s ->
  map_Forall traced_ok (tracing_process s).
Proof.
  intros Hs. assert (Hok : monitor_ok (Monitor_new m)).
  { split; [apply map_Forall_empty|]. split; by intros ? ? [=]. }
  enough (monitor_ok s) as [Hm1 _] by exact Hm1. revert Hok. induction Hs as [s|s1 s2 s3 Hstep Hs IH]; [done|]. intros Hok. apply IH.
  destruct Hstep as [t r s1 s2 Ht E]. assert (Hk : keeps_traced t).
  { destruct Ht; [apply pid_recv_keeps|apply inspect_keeps|apply insert_keeps|apply reporter_keeps|apply cleaner_keeps
      |apply operation_keeps|apply run_keeps|apply external_keeps|apply collect_keeps]. }
  specialize (Hk s1 Hok). by rewrite E in Hk.
Qed.

(** ** The order of announcing and tracing *)

Lemma report_ok_run dt i action reason s :
  exists s', (rep ← host_io (make_report envs_json i action reason); report_ dt rep) s = (Ret tt, s')
    /\ same_traced s s' /\ commands s' = commands s.
Proof.
  unfold make_report, uptime_text, report_, mbind, SM_bind, host_io, attempt.
  pose proof (count_uptime_no_panic (default (f32_of_u64 0) (start_time i)) (host_calls (rasp_manager s))) as Hs.
  destruct (count_uptime _ _) as [[t|e|] h]; [| |done]; cbn; by eexists.
Qed.

Lemma operation_drops c q s :
  in_operation s = None -> commands s = c :: q -> get_pid_i32 c ≫= (tracing_process s !!.) = None ->
  operation_turn s = (Ret tt, set_commands q s).
Proof.
  intros Ho Hc Ht. unfold operation_turn, mbind, SM_bind, sm_gets, sm_modify. rewrite Ho, Hc.
  change (tracing_process (set_commands q s)) with (tracing_process s). unfold mbind in Ht. by rewrite Ht.
Qed.
Lemma insert_traces p i s :
  announced s = Some (p, i) ->
  exists s', inspect_insert_turn envs_json report_action s = (Ret tt, s')
    /\ tracing_process s' = <[p := i]> (tracing_process s) /\ commands s' = commands s /\ in_operation s' = in_operation s.
Proof.
  intros Ha. unfold inspect_insert_turn, mbind at 1, SM_bind at 1, sm_gets at 1. rewrite Ha.
  destruct (report_ok_run report_action i (bs "inspected") [] s) as (s1 & E & (Ht1 & Hc1 & Ho1) & Hq1).
  unfold mbind, SM_bind in *. destruct (host_io _ s) as [[m|e|] s0]; [|done..]. rewrite E. cbn.
  eexists. split; [done|]. cbn. by rewrite Ht1, Ho1.
Qed.
Lemma announce_sends p i r s :
  rt_name r ∈ auto_attach_runtime fs ->
  announce fs p i r s = (Ret tt, set_announced (Some (p, set_runtime (Some r) (set_tracing_state (Some INSPECTED) i)))
    (set_commands (commands s ++ [mkCommand (show_i32 (pid i)) (bs "WAIT_ATTACH") (show_runtime r) None]) s)).
Proof.
  intros Hr. unfold announce. replace (existsb _ _) with true; [done|].
  symmetry. apply existsb_exists. exists (rt_name r). split; [by apply list_elem_of_In|]. by apply bool_decide_eq_true_2.
Qed.

(** A process that is to be attached at once can be left unattached for good.  Its
    command is sent before it is traced; when [operation] takes the command in
    between, it finds no such process and drops the command, and the process
    is traced as inspected with no command left for it. *)
Theorem auto_attach_lost p i r s :
  (0 <= p < 2 ^ 31)%Z -> pid i = p -> rt_name r ∈ auto_attach_runtime fs ->
  commands s = [] -> in_operation s = None -> tracing_process s !! p = None ->
  exists s' i', (announce fs p i r;; operation_turn;; inspect_insert_turn envs_json report_action) s = (Ret tt, s')
    /\ tracing_process s' !! p = Some i' /\ tracing_state i' = Some INSPECTED
    /\ commands s' = [] /\ in_operation s' = None.
Proof.
  intros Hp Hi Hr Hc Ho Ht. unfold mbind at 1, SM_bind at 1. rewrite announce_sends by done. rewrite Hc, Hi. cbn [app].
  unfold mbind, SM_bind. erewrite operation_drops; [|done..|unfold get_pid_i32; cbn [cmd_pid]; rewrite parse_show_i32 by done; exact Ht].
  edestruct insert_traces as (s' & E & Ht1 & Hc1 & Ho1); [|rewrite E]; [done|].
  eexists s', _. split; [done|]. rewrite Ht1, lookup_insert_eq. split; [done|]. by rewrite Hc1, Ho1.
Qed.
End Turns_ok.

(** ** Concrete runs *)

Section Runs.
#[local] Existing Instance test_host.
#[local] Existing Instance test_regex.
#[local] Existing Instance test_json.
#[local] Abbreviation no_text := (fun _ => []).

(** Java processes are attached as soon as they are found. *)
Definition test_filters : Filters := mkFilters [] [] [] [] false [bs "JVM"].
Definition fresh : Monitor := Monitor_new test_manager.
(** A poll finds pid 7, [inspect] its runtime, and it is traced. *)
Definition polled : Monitor := snd (pid_recv_turn None fresh).
Definition found : Monitor := snd (inspect_turn (bs "/opt") test_filters polled).
Definition traced : Monitor := snd (inspect_insert_turn no_text 1 found).

Lemma traced_well_formed_witness :
  is_Some (tracing_process traced !! 7%Z) /\ map_Forall traced_ok (tracing_process traced).
Proof.
  split; [vm_compute; by eexists|].
  refine (traced_well_formed (bs "/opt") no_text no_text no_text test_filters 1 2 8 test_manager traced _).
  apply (rtc_l _ _ polled); [eapply Step; [apply (TPid _ _ _ _ _ _ _ _ None)|apply surjective_pairing]|].
  apply (rtc_l _ _ found); [eapply Step; [apply TInspect|apply surjective_pairing]|].
  apply (rtc_l _ _ traced); [eapply Step; [apply TInsert|apply surjective_pairing]|]. apply rtc_refl.
Defined.

Lemma auto_attach_lost_witness :
  exists s' i', (announce test_filters 7 (test_process 7) (mkRuntime (bs "JVM") (bs "8"));; operation_turn;; inspect_insert_turn no_text 1) fresh = (Ret tt, s')
    /\ tracing_process s' !! 7%Z = Some i' /\ tracing_state i' = Some INSPECTED
    /\ commands s' = [] /\ in_operation s' = None.
Proof.
  refine (auto_attach_lost no_text test_filters 1 7 (test_process 7) (mkRuntime (bs "JVM") (bs "8")) fresh _ _ _ _ _ _);
    [lia|done|apply list_elem_of_here|done..].
Defined.
End Runs.
