(* ===== verification/RaspLife.v ===== *)
(** * The life of the rasp plugin's threads ([rasp/plugin/src/monitor.rs])

    [RaspMonitor] says what a turn of a thread does to the plugin's data; here is
    where the threads wait for each other.  They share three bounded channels
    (records, commands, pids), the lock of the traced processes and the stop flag,
    and at the end they are joined in a fixed order.  The state of a thread is the
    place it waits at; what a turn decides (how many processes there are, whether a
    process is found) is left open.  A turn that has to wait is [None].

    The threads [inspect] and [operation] are where they block: [inspect] sends its
    report while it holds the write lock.  The commands' sender is kept by
    [rasp_monitor_start], the records' receiver too: neither channel is ever seen
    disconnected by its other end, but a command sent after [operation] has ended
    is an error, which its senders ignore. *)

From S2P Require Import Prelude.

Inductive PidRecv := PTop | PSend (n : nat) | PEnd.
#[global] Instance PidRecv_eq_dec : EqDecision PidRecv.
Proof. solve_decision. Defined.
Inductive Inspect := ITop | ICommand | IRecord | IEnd.
#[global] Instance Inspect_eq_dec : EqDecision Inspect.
Proof. solve_decision. Defined.
Inductive Reporter := RTop | RRead | RSend (n : nat) | REnd.
Inductive Cleaner := CTop | CRead | CSend (n : nat) | CEnd.
Inductive Operation := OTop | ORead | ORun | ORecord (ok : bool) | OWrite | OEnd.
Inductive External := ETop | EReceive | EEnd.
(** [internal_main] joins its threads in order; [rasp_monitor_start] waits for all. *)
Inductive Internal := NWait | NJoin (k : nat) | NEnd.
Inductive Main := MWait | MJoin | MEnd.

(** The settings: the capacities of the channels. *)
Class Settings := { rec_cap : nat; cmd_cap : nat; pid_cap : nat }.

Record Life := mkLife {
  working : bool;
  recs : nat; cmds : nat; pids : nat;   (** what waits in the channels *)
  collectors : list bool;               (** whether each collector still runs *)
  external : External; pid_recv : PidRecv; inspect : Inspect; reporter : Reporter;
  cleaner : Cleaner; operation : Operation;
  panicked : bool;                      (** [operation] ended by a panic *)
  internal : Internal; main : Main;
}.

Definition set_working b s := mkLife b (recs s) (cmds s) (pids s) (collectors s) (external s) (pid_recv s) (inspect s) (reporter s) (cleaner s) (operation s) (panicked s) (internal s) (main s).
Definition set_recs n s := mkLife (working s) n (cmds s) (pids s) (collectors s) (external s) (pid_recv s) (inspect s) (reporter s) (cleaner s) (operation s) (panicked s) (internal s) (main s).
Definition set_cmds n s := mkLife (working s) (recs s) n (pids s) (collectors s) (external s) (pid_recv s) (inspect s) (reporter s) (cleaner s) (operation s) (panicked s) (internal s) (main s).
Definition set_pids n s := mkLife (working s) (recs s) (cmds s) n (collectors s) (external s) (pid_recv s) (inspect s) (reporter s) (cleaner s) (operation s) (panicked s) (internal s) (main s).
Definition set_collectors l s := mkLife (working s) (recs s) (cmds s) (pids s) l (external s) (pid_recv s) (inspect s) (reporter s) (cleaner s) (operation s) (panicked s) (internal s) (main s).
Definition set_external e s := mkLife (working s) (recs s) (cmds s) (pids s) (collectors s) e (pid_recv s) (inspect s) (reporter s) (cleaner s) (operation s) (panicked s) (internal s) (main s).
Definition set_pid_recv p s := mkLife (working s) (recs s) (cmds s) (pids s) (collectors s) (external s) p (inspect s) (reporter s) (cleaner s) (operation s) (panicked s) (internal s) (main s).
Definition set_inspect i s := mkLife (working s) (recs s) (cmds s) (pids s) (collectors s) (external s) (pid_recv s) i (reporter s) (cleaner s) (operation s) (panicked s) (internal s) (main s).
Definition set_reporter r s := mkLife (working s) (recs s) (cmds s) (pids s) (collectors s) (external s) (pid_recv s) (inspect s) r (cleaner s) (operation s) (panicked s) (internal s) (main s).
Definition set_cleaner c s := mkLife (working s) (recs s) (cmds s) (pids s) (collectors s) (external s) (pid_recv s) (inspect s) (reporter s) c (operation s) (panicked s) (internal s) (main s).
Definition set_operation o s := mkLife (working s) (recs s) (cmds s) (pids s) (collectors s) (external s) (pid_recv s) (inspect s) (reporter s) (cleaner s) o (panicked s) (internal s) (main s).
Definition panic_operation s := mkLife (working s) (recs s) (cmds s) (pids s) (collectors s) (external s) (pid_recv s) (inspect s) (reporter s) (cleaner s) OEnd true (internal s) (main s).
Definition set_internal n s := mkLife (working s) (recs s) (cmds s) (pids s) (collectors s) (external s) (pid_recv s) (inspect s) (reporter s) (cleaner s) (operation s) (panicked s) n (main s).
Definition set_main m s := mkLife (working s) (recs s) (cmds s) (pids s) (collectors s) (external s) (pid_recv s) (inspect s) (reporter s) (cleaner s) (operation s) (panicked s) (internal s) m.

Definition Life_new (collect_threads : nat) : Life :=
  mkLife true 0 0 0 (replicate collect_threads true) ETop PTop ITop RTop CTop OTop false NWait MWait.

Section turns.
Context `{!Settings}.

(** The write lock of the traced processes. *)
Definition locked (s : Life) : bool := match inspect s with IRecord => true | _ => false end.

(** [send] on the channel of records, whose receiver outlives its senders, and on
    the channel of commands. *)
Definition send_rec (s : Life) : option Life := if recs s <? rec_cap then Some (set_recs (S (recs s)) s) else None.
Definition send_cmd (s : Life) : option Life :=
  match operation s with
  | OEnd => Some s
  | _ => if cmds s <? cmd_cap then Some (set_cmds (S (cmds s)) s) else None
  end.

(** A collector takes every record there is; [taken]: the client took them. *)
Definition collect_turn (i : nat) (taken : bool) (s : Life) : option Life :=
  match collectors s !! i with
  | Some true =>
      if negb (working s) then Some (set_collectors (<[i := false]> (collectors s)) (set_working false s))
      else if recs s <? 1 then Some s
      else if taken then Some (set_recs 0 s)
      else Some (set_collectors (<[i := false]> (collectors s)) (set_working false (set_recs 0 s)))
  | _ => None
  end.

(** [task]: what [receive] gives when it returns, the number of commands or an error. *)
Definition external_turn (task : option nat) (s : Life) : option Life :=
  match external s with
  | ETop => Some (set_external (if working s then EReceive else EEnd) s)
  | EReceive =>
      match task with
      | None => Some (set_external EEnd (set_working false s))
      | Some n =>
          match operation s, n with
          | OEnd, S _ => Some (set_external ETop (set_working false s))
          | OEnd, 0 => Some (set_external ETop s)
          | _, _ => Some (set_external ETop (set_cmds (Nat.min cmd_cap (cmds s + n)) s))
          end
      end
  | EEnd => None
  end.

(** [n]: the pids that are new. *)
Definition pid_turn (n : nat) (s : Life) : option Life :=
  match pid_recv s with
  | PTop => Some (set_pid_recv (if working s then PSend n else PEnd) s)
  | PSend 0 => Some (set_pid_recv PTop s)
  | PSend (S k) =>
      match inspect s with
      | IEnd => Some (set_pid_recv PTop (set_working false s))
      | _ => if pids s <? pid_cap then Some (set_pid_recv (PSend k) (set_pids (S (pids s)) s)) else None
      end
  | PEnd => None
  end.

(** [found]: a process to be reported, and whether it is to be attached at once.  The
    thread does not end with the flag, but when its channel is disconnected. *)
Definition inspect_turn (found : option bool) (s : Life) : option Life :=
  match inspect s with
  | ITop =>
      match pids s with
      | S n => Some (set_inspect (match found with None => ITop | Some true => ICommand | Some false => IRecord end) (set_pids n s))
      | 0 => match pid_recv s with PEnd => Some (set_inspect IEnd (set_working false s)) | _ => Some s end
      end
  | ICommand => s ← send_cmd s; Some (set_inspect IRecord s)
  | IRecord => s ← send_rec s; Some (set_inspect ITop s)
  | IEnd => None
  end.

(** [n]: the traced processes. *)
Definition reporter_turn (n : nat) (s : Life) : option Life :=
  match reporter s with
  | RTop => Some (set_reporter (if working s then RRead else REnd) s)
  | RRead => if locked s then None else Some (set_reporter (RSend n) s)
  | RSend 0 => Some (set_reporter RTop s)
  | RSend (S k) => s ← send_rec s; Some (set_reporter (RSend k) s)
  | REnd => None
  end.

(** [n]: the processes that are gone. *)
Definition cleaner_turn (n : nat) (s : Life) : option Life :=
  match cleaner s with
  | CTop => Some (set_cleaner (if working s then CRead else CEnd) s)
  | CRead => if locked s then None else Some (set_cleaner (CSend n) s)
  | CSend 0 => Some (set_cleaner CTop s)
  | CSend (S k) => s ← send_cmd s; Some (set_cleaner (CSend k) s)
  | CEnd => None
  end.

(** [traced]: the process of the command is there; [op]: how the operation ends. *)
Definition operation_turn (traced : bool) (op : outcome unit) (s : Life) : option Life :=
  match operation s with
  | OTop =>
      if negb (working s) then Some (set_operation OEnd s)
      else match cmds s with S n => Some (set_operation ORead (set_cmds n s)) | 0 => Some s end
  | ORead => if locked s then None else Some (set_operation (if traced then ORun else OTop) s)
  | ORun => match op with Ret _ => Some (set_operation (ORecord true) s) | Fail _ => Some (set_operation (ORecord false) s) | Panic => Some (panic_operation s) end
  | ORecord ok => s ← send_rec s; Some (set_operation (if ok : bool then OWrite else OTop) s)
  | OWrite => if locked s then None else Some (set_operation OTop s)
  | OEnd => None
  end.

(** [join] of [pid_recv], [inspect], [cleaner], [operation] and [reporter], in this
    order; the error of a thread that panicked is unwrapped. *)
Definition internal_turn (s : Life) : option Life :=
  match internal s with
  | NWait => Some (if working s then s else set_internal (NJoin 0) s)
  | NJoin 0 => match pid_recv s with PEnd => Some (set_internal (NJoin 1) s) | _ => None end
  | NJoin 1 => match inspect s with IEnd => Some (set_internal (NJoin 2) s) | _ => None end
  | NJoin 2 => match cleaner s with CEnd => Some (set_internal (NJoin 3) s) | _ => None end
  | NJoin 3 => match operation s with OEnd => Some (set_internal (if panicked s then NEnd else NJoin 4) s) | _ => None end
  | NJoin _ => match reporter s with REnd => Some (set_internal NEnd s) | _ => None end
  | NEnd => None
  end.
Definition main_turn (s : Life) : option Life :=
  match main s with
  | MWait => Some (if working s then s else set_main MJoin s)
  | MJoin =>
      match external s, internal s with
      | EEnd, NEnd => if forallb negb (collectors s) then Some (set_main MEnd s) else None
      | _, _ => None
      end
  | MEnd => None
  end.

Inductive turn : Life -> Life -> Prop :=
  | LCollect i taken s s' : collect_turn i taken s = Some s' -> turn s s'
  | LExternal task s s' : external_turn task s = Some s' -> turn s s'
  | LPid n s s' : pid_turn n s = Some s' -> turn s s'
  | LInspect found s s' : inspect_turn found s = Some s' -> turn s s'
  | LReporter n s s' : reporter_turn n s = Some s' -> turn s s'
  | LCleaner n s s' : cleaner_turn n s = Some s' -> turn s s'
  | LOperation traced op s s' : operation_turn traced op s = Some s' -> turn s s'
  | LInternal s s' : internal_turn s = Some s' -> turn s s'
  | LMain s s' : main_turn s = Some s' -> turn s s'.
End turns.

(** ** While the plugin works *)

(** A turn, field by field. *)
Ltac turn_cases E :=
  unfold collect_turn, external_turn, pid_turn, inspect_turn, reporter_turn, cleaner_turn, operation_turn, internal_turn, main_turn,
    send_rec, send_cmd, locked, mbind, option_bind in E; cbn in E;
  repeat (match type of E with context [match ?x with _ => _ end] => lazymatch x with context [match _ with _ => _ end] => fail | _ => destruct x eqn:? end end; cbn in E);
  simplify_eq/=.

Section working.
Context `{!Settings}.

(** No thread has ended, and all collectors run. *)
Definition alive (s : Life) : Prop :=
  Forall (fun b => b = true) (collectors s) /\ external s <> EEnd /\ pid_recv s <> PEnd /\ inspect s <> IEnd
  /\ reporter s <> REnd /\ cleaner s <> CEnd.

Lemma send_rec_eq s s' : send_rec s = Some s' -> s' = set_recs (S (recs s)) s /\ recs s < rec_cap.
Proof. unfold send_rec. destruct (Nat.ltb_spec (recs s) rec_cap); [by intros [= <-]|done]. Qed.
Lemma send_cmd_eq s s' : send_cmd s = Some s' -> exists n, s' = set_cmds n s.
Proof.
  unfold send_cmd. assert (Hs : s = set_cmds (cmds s) s) by (by destruct s).
  destruct (operation s); try (destruct (_ <? _); [intros [= <-]; eauto|done]). intros [= <-]. eauto.
Qed.

Lemma turn_alive s s' : turn s s' -> (working s = true -> alive s) -> working s' = true -> alive s'.
Proof.
  intros Ht Ha Hw. destruct Ht as [i taken s s' E|task s s' E|n s s' E|found s s' E|n s s' E|n s s' E|traced op s s' E|s s' E|s s' E];
    destruct s as [w r c p cs ex pr ins rp cl op' pa int mn]; cbn in Ha; turn_cases E; try (cbn in Hw; discriminate);
    (specialize (Ha eq_refl); unfold alive in *; cbn in *; naive_solver).
Qed.

(** *** Each thread can get back to the head of its loop *)

Definition live (s : Life) : Prop := working s = true /\ collectors s !! 0 = Some true.

Lemma drain s : live s -> rtc turn s (set_recs 0 s).
Proof.
  intros [Hw Hc]. apply rtc_once, (LCollect 0 true). unfold collect_turn. rewrite Hc, Hw. cbn [negb].
  destruct (Nat.ltb_spec (recs s) 1) as [Hr|_]; [|done]. f_equal. destruct s; cbn in *. unfold set_recs. cbn. f_equal. lia.
Qed.
Lemma send_drained s : 0 < rec_cap -> send_rec (set_recs 0 s) = Some (set_recs 1 s).
Proof. intros Hc. unfold send_rec. cbn [recs set_recs]. by destruct (Nat.ltb_spec 0 rec_cap); [|lia]. Qed.

Lemma unlock s : live s -> 0 < rec_cap -> inspect s = IRecord -> rtc turn s (set_inspect ITop (set_recs 1 s)).
Proof.
  intros Hl Hc Hi. etransitivity; [by apply drain|]. apply rtc_once, (LInspect None). unfold inspect_turn. cbn [inspect set_recs].
  rewrite Hi, send_drained by done. done.
Qed.

Lemma operation_rests s :
  live s -> 0 < rec_cap -> locked s = false ->
  exists o r, rtc turn s (set_operation o (set_recs r s)) /\ (o = OTop \/ o = OEnd).
Proof.
  intros Hl Hc Hk.
  assert (Hwrite : forall r, rtc turn (set_operation OWrite (set_recs r s)) (set_operation OTop (set_recs r s))).
  { intros r. apply rtc_once, (LOperation false (Ret tt)). unfold operation_turn. cbn [operation set_operation].
    change (locked (set_operation OWrite (set_recs r s))) with (locked s). by rewrite Hk. }
  assert (Hrec : forall ok, operation s = ORecord ok -> exists o r, rtc turn s (set_operation o (set_recs r s)) /\ (o = OTop \/ o = OEnd)).
  { intros ok Ho. exists OTop, 1. split; [|by left]. etransitivity; [by apply drain|].
    assert (Hs : turn (set_recs 0 s) (set_operation (if ok then OWrite else OTop) (set_recs 1 s))).
    { apply (LOperation false (Ret tt)). unfold operation_turn. cbn [operation set_recs]. rewrite Ho, send_drained by done. done. }
    eapply rtc_l; [exact Hs|]. destruct ok; [apply Hwrite|apply rtc_refl]. }
  assert (Hs : s = set_operation (operation s) (set_recs (recs s) s)) by (by destruct s).
  destruct (operation s) as [| | |ok| |] eqn:Ho.
  - exists OTop, (recs s). split; [|by left]. rewrite <- Hs. apply rtc_refl.
  - exists OTop, (recs s). split; [|by left]. apply rtc_once, (LOperation false (Ret tt)). unfold operation_turn. rewrite Ho, Hk.
    by destruct s.
  - exists OTop, 1. split; [|by left]. etransitivity; [by apply drain|].
    eapply rtc_l; [apply (LOperation false (Fail IoError)); unfold operation_turn; cbn [operation set_recs]; rewrite Ho; reflexivity|].
    apply rtc_once, (LOperation false (Ret tt)). unfold operation_turn. cbn [operation set_operation].
    change (set_operation (ORecord false) (set_recs 0 s)) with (set_recs 0 (set_operation (ORecord false) s)). by rewrite send_drained.
  - by apply (Hrec ok).
  - exists OTop, (recs s). split; [|by left]. rewrite Hs at 1. apply Hwrite.
  - exists OEnd, (recs s). split; [|by right]. rewrite <- Hs. apply rtc_refl.
Qed.

(** Every command can be taken, or there is nobody left to take one. *)
Lemma commands_taken s :
  live s -> 0 < rec_cap -> locked s = false ->
  exists o r c, rtc turn s (set_cmds c (set_operation o (set_recs r s))) /\ ((o = OTop /\ c = 0) \/ o = OEnd).
Proof.
  intros Hl Hc Hk. destruct (operation_rests s Hl Hc Hk) as (o & r & Hr & Ho).
  assert (Hs : set_operation o (set_recs r s) = set_cmds (cmds s) (set_operation o (set_recs r s))) by done.
  destruct Ho as [-> | ->]; [|by exists OEnd, r, (cmds s); rewrite <- Hs; auto].
  exists OTop, r, 0. split; [|by left]. rewrite Hs in Hr. etransitivity; [exact Hr|]. clear Hr Hs.
  generalize (cmds s). intros n. induction n as [|n IH]; [apply rtc_refl|].
  eapply rtc_l.
  { apply (LOperation false (Ret tt)). unfold operation_turn. cbn. rewrite (proj1 Hl). cbn. reflexivity. }
  eapply rtc_l; [|exact IH]. apply (LOperation false (Ret tt)). unfold operation_turn. cbn [operation set_operation].
  match goal with |- context [locked ?x] => change (locked x) with (locked s) end. by rewrite Hk.
Qed.

(** With room or nobody listening a command is sent. *)
Lemma send_cmd_taken o r c s :
  0 < cmd_cap -> (o = OTop /\ c = 0) \/ o = OEnd ->
  exists c', send_cmd (set_cmds c (set_operation o (set_recs r s))) = Some (set_cmds c' (set_operation o (set_recs r s))).
Proof.
  intros Hc [[-> ->]| ->]; [|by exists c]. exists 1. unfold send_cmd. cbn [operation set_cmds set_operation cmds].
  by destruct (Nat.ltb_spec 0 cmd_cap); [|lia].
Qed.

Lemma pid_recv_rests s :
  0 < pid_cap -> inspect s = ITop -> pid_recv s <> PEnd -> exists n, rtc turn s (set_pid_recv PTop (set_pids n s)).
Proof.
  intros Hpid Hi Hp.
  assert (Hsend : forall k n, exists n', rtc turn (set_pid_recv (PSend k) (set_pids n s)) (set_pid_recv PTop (set_pids n' s))).
  { intros k. induction k as [|k IH]; intros n; [exists n; apply rtc_once; by apply (LPid 0)|].
    assert (Hput : forall n, n < pid_cap -> turn (set_pid_recv (PSend (S k)) (set_pids n s)) (set_pid_recv (PSend k) (set_pids (S n) s))).
    { intros m Hm. apply (LPid 0). unfold pid_turn. cbn [pid_recv set_pid_recv inspect set_pids pids]. rewrite Hi. by destruct (Nat.ltb_spec m pid_cap); [|lia]. }
    destruct (decide (n < pid_cap)) as [Hn|Hn].
    - destruct (IH (S n)) as [n' Hr]. exists n'. eapply rtc_l; [by apply Hput|exact Hr].
    - clear Hn. assert (Htake : rtc turn (set_pid_recv (PSend (S k)) (set_pids n s)) (set_pid_recv (PSend (S k)) (set_pids 0 s))).
      { induction n as [|n IHn]; [apply rtc_refl|]. eapply rtc_l; [|exact IHn]. apply (LInspect None). unfold inspect_turn.
        cbn [inspect set_pid_recv set_pids pids]. rewrite Hi. by destruct s; cbn in *; subst. }
      destruct (IH 1) as [n' Hr]. exists n'. etransitivity; [exact Htake|]. eapply rtc_l; [by apply Hput|exact Hr]. }
  assert (Hs : s = set_pid_recv (pid_recv s) (set_pids (pids s) s)) by (by destruct s).
  destruct (pid_recv s) as [|k|] eqn:Ep; [| |done].
  - exists (pids s). rewrite <- Hs. apply rtc_refl.
  - destruct (Hsend k (pids s)) as [n' Hr']. exists n'. by rewrite <- Hs in Hr'.
Qed.

Lemma external_rests s : external s <> EEnd -> exists c, rtc turn s (set_external ETop (set_cmds c s)).
Proof.
  intros He. assert (Hs : s = set_external (external s) (set_cmds (cmds s) s)) by (by destruct s).
  destruct (external s) eqn:Ee; [| |done].
  - exists (cmds s). rewrite <- Hs. apply rtc_refl.
  - assert (Hx : exists c, external_turn (Some 0) s = Some (set_external ETop (set_cmds c s))).
    { unfold external_turn. rewrite Ee. destruct (operation s); eauto. }
    destruct Hx as [c Hx]. exists c. apply rtc_once. by apply (LExternal (Some 0)).
Qed.

Section caps.
Context (Hrec : 0 < rec_cap) (Hcmd : 0 < cmd_cap) (Hpid : 0 < pid_cap).

Lemma inspect_rests s :
  live s -> inspect s <> IEnd ->
  exists o r c, rtc turn s (set_inspect ITop (set_cmds c (set_operation o (set_recs r s)))).
Proof.
  intros Hl Hi. assert (Hs : s = set_inspect (inspect s) (set_cmds (cmds s) (set_operation (operation s) (set_recs (recs s) s)))) by (by destruct s).
  destruct (inspect s) eqn:Ei; [|clear Hs| |done].
  - exists (operation s), (recs s), (cmds s). rewrite <- Hs. apply rtc_refl.
  - destruct (commands_taken s) as (o & r & c & Hr & Ho); [done|done|by unfold locked; rewrite Ei|].
    destruct (send_cmd_taken o r c s Hcmd Ho) as [c' Es]. exists o, 1, c'. etransitivity; [exact Hr|].
    eapply rtc_l; [apply (LInspect None); unfold inspect_turn; cbn [inspect set_cmds set_operation set_recs]; rewrite Ei, Es; reflexivity|].
    apply (unlock (set_inspect IRecord (set_cmds c' (set_operation o (set_recs r s))))); done.
  - exists (operation s), 1, (cmds s). rewrite Hs at 1.
    apply (unlock (set_inspect IRecord (set_cmds (cmds s) (set_operation (operation s) (set_recs (recs s) s))))); done.
Qed.

Lemma reporter_rests s :
  live s -> inspect s = ITop -> reporter s <> REnd -> exists r, rtc turn s (set_reporter RTop (set_recs r s)).
Proof.
  intros Hl Hi Hr. assert (Hk : locked s = false) by (unfold locked; by rewrite Hi).
  assert (Hsend : forall k r, exists r', rtc turn (set_reporter (RSend k) (set_recs r s)) (set_reporter RTop (set_recs r' s))).
  { intros k. induction k as [|k IH]; intros r; [exists r; apply rtc_once; by apply (LReporter 0)|].
    destruct (IH 1) as [r' Hr']. exists r'. etransitivity; [|exact Hr'].
    etransitivity; [apply drain; exact Hl|]. apply rtc_once, (LReporter 0). unfold reporter_turn. cbn [reporter set_recs set_reporter].
    change (set_recs 0 (set_reporter (RSend (S k)) (set_recs r s))) with (set_recs 0 (set_reporter (RSend (S k)) s)). by rewrite send_drained. }
  assert (Hs : s = set_reporter (reporter s) (set_recs (recs s) s)) by (by destruct s).
  destruct (reporter s) as [| |k|] eqn:Er; [|clear Hs| |done].
  - exists (recs s). rewrite <- Hs. apply rtc_refl.
  - destruct (Hsend 0 (recs s)) as [r' Hr']. exists r'. eapply rtc_l; [|exact Hr']. apply (LReporter 0).
    unfold reporter_turn. rewrite Er, Hk. by destruct s.
  - destruct (Hsend k (recs s)) as [r' Hr']. exists r'. by rewrite <- Hs in Hr'.
Qed.

Lemma cleaner_rests s :
  live s -> inspect s = ITop -> cleaner s <> CEnd ->
  exists o r c, rtc turn s (set_cleaner CTop (set_cmds c (set_operation o (set_recs r s)))).
Proof.
  intros Hl Hi Hc. assert (Hk : locked s = false) by (unfold locked; by rewrite Hi).
  assert (Hsend : forall k o r c, exists o' r' c',
    rtc turn (set_cleaner (CSend k) (set_cmds c (set_operation o (set_recs r s)))) (set_cleaner CTop (set_cmds c' (set_operation o' (set_recs r' s))))).
  { intros k. induction k as [|k IH]; intros o r c; [exists o, r, c; apply rtc_once; by apply (LCleaner 0)|].
    set (s1 := set_cleaner (CSend (S k)) (set_cmds c (set_operation o (set_recs r s)))).
    destruct (commands_taken s1 Hl Hrec Hk) as (o1 & r1 & c1 & Hr1 & Ho1).
    destruct (send_cmd_taken o1 r1 c1 s1 Hcmd Ho1) as [c2 Es]. destruct (IH o1 r1 c2) as (o' & r' & c' & Hr'). exists o', r', c'.
    etransitivity; [exact Hr1|]. eapply rtc_l; [|exact Hr']. apply (LCleaner 0). unfold cleaner_turn.
    cbn [cleaner set_cmds set_operation set_recs set_cleaner s1]. by rewrite Es. }
  assert (Hs : s = set_cleaner (cleaner s) (set_cmds (cmds s) (set_operation (operation s) (set_recs (recs s) s)))) by (by destruct s).
  destruct (cleaner s) as [| |k|] eqn:Er; [|clear Hs| |done].
  - exists (operation s), (recs s), (cmds s). rewrite <- Hs. apply rtc_refl.
  - destruct (Hsend 0 (operation s) (recs s) (cmds s)) as (o' & r' & c' & Hr'). exists o', r', c'. eapply rtc_l; [|exact Hr']. apply (LCleaner 0).
    unfold cleaner_turn. rewrite Er, Hk. by destruct s.
  - destruct (Hsend k (operation s) (recs s) (cmds s)) as (o' & r' & c' & Hr'). exists o', r', c'. by rewrite <- Hs in Hr'.
Qed.

(** Every thread is at the head of its loop. *)
Definition resting (s : Life) : Prop :=
  external s = ETop /\ pid_recv s = PTop /\ inspect s = ITop /\ reporter s = RTop /\ cleaner s = CTop
  /\ (operation s = OTop \/ operation s = OEnd) /\ working s = true.

Lemma alive_rests s : working s = true -> alive s -> 0 < length (collectors s) -> exists s', rtc turn s s' /\ resting s'.
Proof.
  intros Hw (Hcs & He & Hp & Hi & Hr & Hc) Hn. assert (Hl : live s).
  { split; [done|]. destruct (collectors s) as [|b cs]; [cbn in Hn; lia|]. by apply Forall_cons in Hcs as [-> _]. }
  destruct (inspect_rests s Hl Hi) as (o1 & r1 & c1 & H1). set (s1 := set_inspect _ _) in H1.
  destruct (cleaner_rests s1 Hl eq_refl Hc) as (o2 & r2 & c2 & H2). set (s2 := set_cleaner _ _) in H2.
  destruct (reporter_rests s2 Hl eq_refl Hr) as (r3 & H3). set (s3 := set_reporter _ _) in H3.
  destruct (pid_recv_rests s3 Hpid eq_refl Hp) as (n4 & H4). set (s4 := set_pid_recv _ _) in H4.
  destruct (external_rests s4 He) as (c5 & H5). set (s5 := set_external _ _) in H5.
  destruct (operation_rests s5 Hl Hrec eq_refl) as (o6 & r6 & H6 & Ho6). eexists. split.
  - do 5 (etransitivity; [eassumption|]). exact H6.
  - by repeat split.
Qed.
End caps.
End working.

Lemma reachable_alive `{!Settings} n s : rtc turn (Life_new n) s -> length (collectors s) = n /\ (working s = true -> alive s).
Proof.
  intros Hr. assert (H0 : length (collectors (Life_new n)) = n /\ (working (Life_new n) = true -> alive (Life_new n))).
  { cbn. split; [apply length_replicate|]. intros _. split; [|done]. by apply Forall_replicate. }
  revert H0. induction Hr as [s|s1 s2 s3 Ht _ IH]; [done|]. intros [Hl Ha]. apply IH. split; [|intros Hw; by eapply turn_alive].
  rewrite <- Hl. clear -Ht. destruct Ht as [i taken s s' E|task s s' E|m s s' E|found s s' E|m s s' E|m s s' E|traced op s s' E|s s' E|s s' E];
    destruct s as [w r c p cs ex pr ins rp cl op' pa int mn]; turn_cases E; cbn; rewrite ?length_insert; done.
Qed.


(** ** When the plugin stops *)

Section stopping.
Context `{!Settings}.

(** The records the threads still have to send before they look at the flag. *)
Definition wanted (s : Life) : nat :=
  match inspect s with ICommand | IRecord => 1 | _ => 0 end
  + match operation s with ORun | ORecord _ => 1 | _ => 0 end
  + match reporter s with RSend k => k | _ => 0 end.

Lemma send_rec_room s : recs s < rec_cap -> send_rec s = Some (set_recs (S (recs s)) s).
Proof. intros Hr. unfold send_rec. by destruct (Nat.ltb_spec (recs s) rec_cap); [|lia]. Qed.
Lemma still_stopped s : working s = false -> set_working false s = s.
Proof. destruct s. cbn. by intros ->. Qed.

Lemma operation_ends s :
  working s = false -> locked s = false -> recs s + match operation s with ORun | ORecord _ => 1 | _ => 0 end <= rec_cap ->
  exists r, rtc turn s (set_operation OEnd (set_recs r s)) /\ r <= recs s + match operation s with ORun | ORecord _ => 1 | _ => 0 end.
Proof.
  intros Hw Hk Hr.
  assert (Htop : forall r, rtc turn (set_operation OTop (set_recs r s)) (set_operation OEnd (set_recs r s))).
  { intros r. apply rtc_once, (LOperation false (Ret tt)). unfold operation_turn. cbn. by rewrite Hw. }
  assert (Hwrite : forall o r, o = ORead \/ o = OWrite -> rtc turn (set_operation o (set_recs r s)) (set_operation OEnd (set_recs r s))).
  { intros o r Ho. eapply rtc_l; [|apply Htop]. apply (LOperation false (Ret tt)). unfold operation_turn.
    destruct Ho as [-> | ->]; cbn [operation set_operation]; match goal with |- context [locked ?x] => change (locked x) with (locked s) end; by rewrite Hk. }
  assert (Hs : s = set_operation (operation s) (set_recs (recs s) s)) by (by destruct s).
  assert (Hrec : forall ok, recs s < rec_cap -> rtc turn (set_operation (ORecord ok) (set_recs (recs s) s)) (set_operation OEnd (set_recs (S (recs s)) s))).
  { intros ok Hlt. apply (rtc_l _ _ (set_operation (if ok then OWrite else OTop) (set_recs (S (recs s)) s)));
      [|destruct ok; [apply Hwrite; by right|apply Htop]].
    apply (LOperation false (Ret tt)). unfold operation_turn. cbn [operation set_operation].
    rewrite send_rec_room by done. done. }
  destruct (operation s) as [| | |ok| |] eqn:Ho; [exists (recs s)|exists (recs s)|exists (S (recs s))|exists (S (recs s))|exists (recs s)|exists (recs s)]; (split; [|lia]).
  - rewrite Hs at 1. apply Htop.
  - rewrite Hs at 1. apply Hwrite. by left.
  - rewrite Hs at 1. eapply rtc_l; [apply (LOperation false (Fail IoError)); reflexivity|]. apply (Hrec false). lia.
  - rewrite Hs at 1. apply Hrec. lia.
  - rewrite Hs at 1. apply Hwrite. by right.
  - rewrite <- Hs. apply rtc_refl.
Qed.

Lemma reporter_ends s :
  working s = false -> locked s = false -> recs s + match reporter s with RSend k => k | _ => 0 end <= rec_cap ->
  exists r, rtc turn s (set_reporter REnd (set_recs r s)).
Proof.
  intros Hw Hk Hr.
  assert (Hsend : forall k r, r + k <= rec_cap -> exists r', rtc turn (set_reporter (RSend k) (set_recs r s)) (set_reporter REnd (set_recs r' s))).
  { intros k. induction k as [|k IH]; intros r Hc.
    - exists r. eapply rtc_l; [by apply (LReporter 0)|]. apply rtc_once, (LReporter 0). unfold reporter_turn. cbn. by rewrite Hw.
    - destruct (IH (S r)) as [r' Hr']; [lia|]. exists r'. eapply rtc_l; [|exact Hr']. apply (LReporter 0). unfold reporter_turn. cbn [reporter set_reporter].
      rewrite send_rec_room by (cbn; lia). done. }
  assert (Hs : s = set_reporter (reporter s) (set_recs (recs s) s)) by (by destruct s).
  destruct (reporter s) as [| |k|] eqn:Er.
  - exists (recs s). apply rtc_once, (LReporter 0). unfold reporter_turn. rewrite Er, Hw. by destruct s.
  - destruct (Hsend 0 (recs s)) as [r' Hr']; [done|]. exists r'. eapply rtc_l; [|exact Hr']. apply (LReporter 0). unfold reporter_turn. rewrite Er, Hk. by destruct s.
  - destruct (Hsend k (recs s)) as [r' Hr']; [lia|]. exists r'. by rewrite <- Hs in Hr'.
  - exists (recs s). rewrite <- Hs. apply rtc_refl.
Qed.

Lemma cleaner_ends s : working s = false -> locked s = false -> operation s = OEnd -> rtc turn s (set_cleaner CEnd s).
Proof.
  intros Hw Hk Ho.
  assert (Hsend : forall k, rtc turn (set_cleaner (CSend k) s) (set_cleaner CEnd s)).
  { intros k. induction k as [|k IH].
    - eapply rtc_l; [by apply (LCleaner 0)|]. apply rtc_once, (LCleaner 0). unfold cleaner_turn. cbn. by rewrite Hw.
    - eapply rtc_l; [|exact IH]. apply (LCleaner 0). unfold cleaner_turn, send_cmd. cbn. by rewrite Ho. }
  assert (Hs : s = set_cleaner (cleaner s) s) by (by destruct s).
  destruct (cleaner s) as [| |k|] eqn:Er.
  - apply rtc_once, (LCleaner 0). unfold cleaner_turn. by rewrite Er, Hw.
  - eapply rtc_l; [|apply (Hsend 0)]. apply (LCleaner 0). unfold cleaner_turn. by rewrite Er, Hk.
  - rewrite Hs at 1. apply Hsend.
  - rewrite <- Hs. apply rtc_refl.
Qed.

Lemma pid_recv_ends s :
  0 < pid_cap -> working s = false -> inspect s = ITop \/ inspect s = IEnd -> exists n, rtc turn s (set_pid_recv PEnd (set_pids n s)).
Proof.
  intros Hp Hw Hi.
  assert (Htop : forall n, rtc turn (set_pid_recv PTop (set_pids n s)) (set_pid_recv PEnd (set_pids n s))).
  { intros n. apply rtc_once, (LPid 0). unfold pid_turn. cbn. by rewrite Hw. }
  assert (Hs : s = set_pid_recv (pid_recv s) (set_pids (pids s) s)) by (by destruct s).
  destruct (decide (pid_recv s = PEnd)) as [He|He]; [exists (pids s); rewrite <- He, <- Hs; apply rtc_refl|].
  destruct Hi as [Hi|Hi].
  - destruct (pid_recv_rests s Hp Hi He) as [n Hr]. exists n. etransitivity; [exact Hr|apply Htop].
  - exists (pids s). destruct (pid_recv s) as [|[|k]|] eqn:Ep; [|..|done].
    + rewrite Hs at 1. apply Htop.
    + eapply rtc_l; [|apply Htop]. apply (LPid 0). unfold pid_turn. rewrite Ep. by destruct s.
    + eapply rtc_l; [|apply Htop]. apply (LPid 0). unfold pid_turn. rewrite Ep, Hi, still_stopped by done. by destruct s.
Qed.

Lemma inspect_ends s : working s = false -> pid_recv s = PEnd -> inspect s = ITop -> rtc turn s (set_inspect IEnd (set_pids 0 s)).
Proof.
  intros Hw Hp Hi. assert (Htake : forall n, rtc turn (set_pids n s) (set_inspect IEnd (set_pids 0 s))).
  { intros n. induction n as [|n IH].
    - apply rtc_once, (LInspect None). unfold inspect_turn. cbn. rewrite Hi, Hp. by destruct s; cbn in *; subst.
    - eapply rtc_l; [|exact IH]. apply (LInspect None). unfold inspect_turn. cbn. rewrite Hi. by destruct s; cbn in *; subst. }
  assert (Hs : s = set_pids (pids s) s) by (by destruct s). rewrite Hs at 1. apply Htake.
Qed.

Lemma external_ends s : working s = false -> rtc turn s (set_external EEnd s).
Proof.
  intros Hw. assert (Hs : s = set_external (external s) s) by (by destruct s).
  destruct (external s) eqn:Ee; [|..|rewrite <- Hs; apply rtc_refl]; apply rtc_once, (LExternal None); unfold external_turn; rewrite Ee.
  - by rewrite Hw.
  - by rewrite still_stopped.
Qed.

Lemma collectors_end s : working s = false -> rtc turn s (set_collectors (map (fun _ => false) (collectors s)) s).
Proof.
  intros Hw. assert (Hall : forall post pre, rtc turn (set_collectors (pre ++ post) s) (set_collectors (pre ++ map (fun _ => false) post) s)).
  { intros post. induction post as [|b post IH]; intros pre; [apply rtc_refl|]. specialize (IH (pre ++ [false])). rewrite <- !app_assoc in IH. cbn in *.
    etransitivity; [|exact IH]. destruct b; [|apply rtc_refl]. apply rtc_once, (LCollect (length pre) true). unfold collect_turn. cbn.
    rewrite list_lookup_middle by done. rewrite Hw. cbn. rewrite insert_app_r_alt, Nat.sub_diag by done. by destruct s; cbn in *; subst. }
  assert (Hs : s = set_collectors ([] ++ collectors s) s) by (by destruct s). rewrite Hs at 1. apply Hall.
Qed.

Lemma internal_ends s :
  working s = false -> pid_recv s = PEnd -> inspect s = IEnd -> cleaner s = CEnd -> operation s = OEnd -> reporter s = REnd ->
  rtc turn s (set_internal NEnd s).
Proof.
  intros Hw Hp Hi Hc Ho Hr. assert (Hs : s = set_internal (internal s) s) by (by destruct s).
  assert (Hn : forall k, 4 <= k -> rtc turn (set_internal (NJoin k) s) (set_internal NEnd s)).
  { intros k Hk. apply rtc_once, LInternal. unfold internal_turn. cbn. do 4 (destruct k as [|k]; [lia|]). by rewrite Hr. }
  assert (H3 : rtc turn (set_internal (NJoin 3) s) (set_internal NEnd s)).
  { destruct (panicked s) eqn:Ep.
    - apply rtc_once, LInternal. unfold internal_turn. cbn. by rewrite Ho, Ep.
    - eapply rtc_l; [|by apply (Hn 4)]. apply LInternal. unfold internal_turn. cbn. by rewrite Ho, Ep. }
  assert (H2 : rtc turn (set_internal (NJoin 2) s) (set_internal NEnd s)).
  { eapply rtc_l; [|exact H3]. apply LInternal. unfold internal_turn. cbn. by rewrite Hc. }
  assert (H1 : rtc turn (set_internal (NJoin 1) s) (set_internal NEnd s)).
  { eapply rtc_l; [|exact H2]. apply LInternal. unfold internal_turn. cbn. by rewrite Hi. }
  assert (H0 : rtc turn (set_internal (NJoin 0) s) (set_internal NEnd s)).
  { eapply rtc_l; [|exact H1]. apply LInternal. unfold internal_turn. cbn. by rewrite Hp. }
  destruct (internal s) as [|[|[|[|[|k]]]]|] eqn:En; rewrite Hs at 1; try done; [|apply Hn; lia].
  eapply rtc_l; [|exact H0]. apply LInternal. unfold internal_turn. cbn. by rewrite Hw.
Qed.

(** The write lock is given back. *)
Lemma stop_unlocks s :
  working s = false -> recs s + wanted s <= rec_cap ->
  exists s', rtc turn s s' /\ working s' = false /\ locked s' = false /\ recs s' + wanted s' <= rec_cap.
Proof.
  intros Hw Hr. unfold locked. destruct (inspect s) eqn:Ei; [by exists s; rewrite Ei|by exists s; rewrite Ei| |by exists s; rewrite Ei].
  exists (set_inspect ITop (set_recs (S (recs s)) s)). unfold wanted in *. rewrite Ei in Hr. cbn. split; [|by split_and!; [| |lia]].
  apply rtc_once, (LInspect None). unfold inspect_turn. rewrite Ei, send_rec_room by lia. done.
Qed.

(** Without the operation no command is waited for. *)
Lemma inspect_lets_go s :
  operation s = OEnd -> recs s + match inspect s with ICommand | IRecord => 1 | _ => 0 end <= rec_cap -> inspect s <> IEnd ->
  exists r, rtc turn s (set_inspect ITop (set_recs r s)) /\ r <= recs s + match inspect s with ICommand | IRecord => 1 | _ => 0 end.
Proof.
  intros Ho Hr Hi. assert (Hs : s = set_inspect (inspect s) (set_recs (recs s) s)) by (by destruct s).
  assert (Hrec : recs s < rec_cap -> rtc turn (set_inspect IRecord (set_recs (recs s) s)) (set_inspect ITop (set_recs (S (recs s)) s))).
  { intros Hc. apply rtc_once, (LInspect None). unfold inspect_turn. cbn [inspect set_inspect]. by rewrite send_rec_room. }
  destruct (inspect s) eqn:Ei; [exists (recs s)|exists (S (recs s))|exists (S (recs s))|done]; (split; [|lia]).
  - rewrite <- Hs. apply rtc_refl.
  - eapply rtc_l; [|apply Hrec; lia]. apply (LInspect None). unfold inspect_turn, send_cmd. rewrite Ei, Ho. by destruct s.
  - rewrite Hs at 1. apply Hrec. lia.
Qed.

(** Once the threads are back at the heads of their loops everything ends. *)
Lemma all_end s :
  0 < pid_cap -> working s = false -> inspect s = ITop \/ inspect s = IEnd -> operation s = OEnd -> reporter s = REnd ->
  exists s', rtc turn s s' /\ main s' = MEnd.
Proof.
  intros Hp Hw Hi Ho Hr. assert (Hk : locked s = false) by (unfold locked; by destruct Hi as [-> | ->]).
  pose proof (cleaner_ends s Hw Hk Ho) as H1. set (s1 := set_cleaner CEnd s) in H1.
  destruct (pid_recv_ends s1 Hp Hw Hi) as [n H2]. set (s2 := set_pid_recv PEnd (set_pids n s1)) in H2.
  assert (H3 : exists s3, rtc turn s2 s3 /\ s3 = set_inspect IEnd (set_pids (pids s3) s2)).
  { destruct Hi as [Hi|Hi]; [exists (set_inspect IEnd (set_pids 0 s2)); split; [by apply inspect_ends|done]|].
    exists s2. split; [apply rtc_refl|]. subst s1 s2. by destruct s; cbn in *; subst. }
  destruct H3 as (s3 & H3 & E3).
  assert (Hs3 : working s3 = false /\ pid_recv s3 = PEnd /\ inspect s3 = IEnd /\ cleaner s3 = CEnd /\ operation s3 = OEnd /\ reporter s3 = REnd)
    by (by rewrite E3). clearbody s1 s2. clear E3. destruct Hs3 as (Hw3 & Hp3 & Hi3 & Hc3 & Ho3 & Hr3).
  pose proof (external_ends s3 Hw3) as H4. pose proof (collectors_end (set_external EEnd s3) Hw3) as H5.
  set (s5 := set_collectors _ _) in H5. pose proof (internal_ends s5 Hw3 Hp3 Hi3 Hc3 Ho3 Hr3) as H6.
  set (s6 := set_internal NEnd s5) in H6. assert (Hneg : forallb negb (collectors s6) = true) by (cbn; by induction (collectors s3)).
  assert (H7 : exists s7, rtc turn s6 s7 /\ main s7 = MEnd).
  { destruct (main s6) eqn:Em; [| |by exists s6; split; [apply rtc_refl|]].
    - exists (set_main MEnd (set_main MJoin s6)). split; [|done]. eapply rtc_l; [apply LMain; unfold main_turn; rewrite Em; cbn; by rewrite Hw3|].
      apply rtc_once, LMain. unfold main_turn. cbn [main set_main external internal collectors s6 s5 set_internal set_collectors set_external] in *. by rewrite Hneg.
    - exists (set_main MEnd s6). split; [|done]. apply rtc_once, LMain. unfold main_turn. rewrite Em.
      cbn [external internal collectors s6 s5 set_internal set_collectors set_external] in *. by rewrite Hneg. }
  destruct H7 as (s7 & H7 & Hm). exists s7. split; [|done]. do 6 (etransitivity; [eassumption|]). exact H7.
Qed.
End stopping.


(** ** The hang *)

Section hanging.
Context `{!Settings}.

(** [inspect] waits for room that nobody will make, with the lock; it is not joined. *)
Definition hung (s : Life) : Prop :=
  recs s = rec_cap /\ Forall (fun b => b = false) (collectors s) /\ inspect s = IRecord /\ working s = false
  /\ (internal s = NWait \/ internal s = NJoin 0 \/ internal s = NJoin 1) /\ main s <> MEnd.

Lemma send_rec_full s : recs s = rec_cap -> send_rec s = None.
Proof. intros Hr. unfold send_rec. by rewrite Hr, Nat.ltb_irrefl. Qed.

Lemma hung_turn s s' : turn s s' -> hung s -> hung s'.
Proof.
  intros Ht (Hr & Hc & Hi & Hw & Hn & Hm).
  destruct Ht as [i taken s s' E|task s s' E|n s s' E|found s s' E|n s s' E|n s s' E|traced op s s' E|s s' E|s s' E];
    destruct s as [w r c p cs ex pr ins rp cl op' pa int mn]; cbn in *; subst.
  - exfalso. unfold collect_turn in E. cbn in E. destruct (cs !! i) as [[]|] eqn:Ei; [|done..].
    by apply (proj1 (Forall_lookup _ _) Hc) in Ei.
  - unfold hung. turn_cases E; cbn; by split_and!.
  - unfold hung. turn_cases E; cbn; by split_and!.
  - unfold inspect_turn in E. cbn [inspect] in E. by rewrite send_rec_full in E.
  - unfold reporter_turn in E. cbn [reporter working] in E. rewrite send_rec_full in E by done.
    destruct rp as [| |[|k]|]; cbn in E; simplify_eq; unfold hung; cbn; by split_and!.
  - unfold hung. turn_cases E; cbn; by split_and!.
  - unfold operation_turn in E. cbn [operation working] in E. rewrite send_rec_full in E by done.
    destruct op', op; cbn in E; simplify_eq; unfold hung; cbn; by split_and!.
  - unfold hung. destruct Hn as [-> |[-> | ->]]; cbn in E; turn_cases E; cbn; split_and!; auto.
  - unfold hung. destruct Hn as [-> |[-> | ->]]; turn_cases E; cbn; split_and!; auto.
Qed.

(** The state of the hang: the channel full, the agent gone, the collectors ended. *)
Definition hang (n : nat) : Life :=
  mkLife false rec_cap 0 0 (replicate n false) EEnd (PSend 0) IRecord (RSend 0) CTop OTop false NWait MWait.

Lemma hang_reached n : 0 < pid_cap -> rtc turn (Life_new n) (hang n).
Proof.
  intros Hp.
  assert (Hfill : forall k s, reporter s = RSend k -> recs s + k = rec_cap -> rtc turn s (set_reporter (RSend 0) (set_recs rec_cap s))).
  { intros k. induction k as [|k IH]; intros s Hs Hr.
    - replace rec_cap with (recs s) by lia. rewrite <- Hs. destruct s; apply rtc_refl.
    - eapply rtc_l; [|apply (IH (set_reporter (RSend k) (set_recs (S (recs s)) s))); [done|cbn; lia]].
      apply (LReporter 0). unfold reporter_turn. rewrite Hs, send_rec_room by lia. done. }
  pose (at_ w r p e pr i rp cs := mkLife w r 0 p cs e pr i rp CTop OTop false NWait MWait).
  transitivity (at_ true rec_cap 0 ETop PTop ITop (RSend 0) (replicate n true)).
  { eapply rtc_l; [by apply (LReporter 0)|]. eapply rtc_l; [by apply (LReporter rec_cap)|]. by apply (Hfill rec_cap). }
  apply (rtc_l _ _ (at_ true rec_cap 0 ETop (PSend 1) ITop (RSend 0) (replicate n true))); [by apply (LPid 1)|].
  apply (rtc_l _ _ (at_ true rec_cap 1 ETop (PSend 0) ITop (RSend 0) (replicate n true))).
  { apply (LPid 0). unfold pid_turn. cbn [pid_recv inspect pids at_]. by destruct (Nat.ltb_spec 0 pid_cap); [|lia]. }
  apply (rtc_l _ _ (at_ true rec_cap 0 ETop (PSend 0) IRecord (RSend 0) (replicate n true))); [by apply (LInspect (Some false))|].
  apply (rtc_l _ _ (at_ true rec_cap 0 EReceive (PSend 0) IRecord (RSend 0) (replicate n true))); [by apply (LExternal None)|].
  apply (rtc_l _ _ (at_ false rec_cap 0 EEnd (PSend 0) IRecord (RSend 0) (replicate n true))); [by apply (LExternal None)|].
  etransitivity; [by apply collectors_end|]. unfold set_collectors, hang, at_. cbn.
  replace (map (fun _ => false) (replicate n true)) with (replicate n false); [apply rtc_refl|]. by induction n; cbn; f_equal.
Qed.
End hanging.

(** Whatever the capacity of the channel of records, the plugin can hang when it
    stops: the agent goes away while the channel is full, the collectors end
    without emptying it, and [inspect] waits for room with the write lock; from
    there no run ever comes to the end of [rasp_monitor_start]. *)
Theorem stop_can_hang `{!Settings} n :
  0 < pid_cap ->
  exists s, rtc turn (Life_new n) s /\ working s = false /\ external s = EEnd /\ forall s', rtc turn s s' -> main s' <> MEnd.
Proof.
  intros Hp. exists (hang n). split; [by apply hang_reached|]. do 2 (split; [done|]). intros s' Hr.
  assert (Hh : hung (hang n)) by (split_and!; [done|by apply Forall_replicate|done|done|by left|done]).
  revert Hh. induction Hr as [s|s1 s2 s3 Ht _ IH]; [by intros (_ & _ & _ & _ & _ & ?)|]. intros Hh. apply IH. by eapply hung_turn.
Qed.

(** ** An operation that does not return

    The turns above take for granted that an operation comes to an end.  One that does
    not, as when a message waits for a probe that does not read (see [RaspThread]), keeps
    the plugin from ending. *)

(** A turn of any other thread. *)
Definition others_turn `{!Settings} (s s' : Life) : Prop := turn s s' /\ forall traced op, operation_turn traced op s <> Some s'.

(** Threads are joined in order, and [main] comes last. *)
Record joins_ok (s : Life) : Prop := {
  jo_late : (exists k, internal s = NJoin (4 + k)) \/ internal s = NEnd -> operation s = OEnd;
  jo_main : main s = MEnd -> internal s = NEnd;
}.

Lemma joins_turn `{!Settings} s s' : turn s s' -> joins_ok s -> joins_ok s'.
Proof.
  intros Ht [Hl Hm].
  destruct Ht as [i taken s s' E|task s s' E|n s s' E|found s s' E|n s s' E|n s s' E|traced op s s' E|s s' E|s s' E];
    destruct s as [w r c p cs ex pr ins rp cl op' pa int mn]; cbn in *; turn_cases E; split; cbn in *; try done; try naive_solver.
  all: try (intros [[k Hk]|Hk]; simplify_eq; naive_solver).
Qed.

Lemma reachable_joins `{!Settings} n s : rtc turn (Life_new n) s -> joins_ok s.
Proof.
  intros Hr. assert (H0 : joins_ok (Life_new n)) by (split; cbn; [intros [[k Hk]|Hk]; done|done]).
  revert H0. induction Hr as [s|s1 s2 s3 Ht _ IH]; [done|]. intros H1. apply IH. by eapply joins_turn.
Qed.

Lemma others_keep_operation `{!Settings} s s' : others_turn s s' -> operation s' = operation s.
Proof.
  intros [Ht Ho]. destruct Ht as [i taken s s' E|task s s' E|n s s' E|found s s' E|n s s' E|n s s' E|traced op s s' E|s s' E|s s' E];
    [..|by destruct (Ho traced op)| |]; destruct s as [w r c p cs ex pr ins rp cl op' pa int mn]; cbn in *; turn_cases E; done.
Qed.

(** While an operation is not done, no run of the other threads ends the plugin. *)
Theorem stuck_operation_never_ends `{!Settings} n s s' :
  rtc turn (Life_new n) s -> operation s = ORun -> rtc others_turn s s' -> main s' <> MEnd.
Proof.
  intros Hr Ho Hs. enough (joins_ok s' /\ operation s' = ORun) as [[Hl Hm] Ho'].
  { intros Em. specialize (Hl (or_intror (Hm Em))). congruence. }
  apply reachable_joins in Hr. induction Hs as [s|s1 s2 s3 Ht _ IH]; [done|].
  apply IH; [by eapply joins_turn; [apply Ht|]|]. by rewrite (others_keep_operation _ _ Ht).
Qed.

(** ** The settings of the plugin ([rasp/plugin/settings.toml]) *)

#[global] Instance settings_toml : Settings := {| rec_cap := 1000; cmd_cap := 50; pid_cap := 1000 |}.
Definition collect_thread_limit : nat := 10.



Lemma stop_can_hang_witness :
  exists s, rtc turn (Life_new collect_thread_limit) s /\ working s = false /\ external s = EEnd /\ forall s', rtc turn s s' -> main s' <> MEnd.
Proof. refine (stop_can_hang collect_thread_limit _). cbn. lia. Defined.
