(* ===== verification/RaspEntry.v ===== *)
(** * How the rasp programs start

    The entry points of the rasp programs: the settings of the plugin
    ([rasp/plugin/src]: config.rs, main.rs and the settings [monitor.rs] reads), the
    server binary ([rasp/rasp_server/src]: main.rs, ns.rs, the set-up of
    comm::start_bind, RASPServer::start and thread_mode.rs), and the tool that
    attaches to one process ([rasp/librasp/src/main.rs]).  The lock, the cgroup and the
    logger of the plugin are in [RaspStart]; the tokio runtime is left out; [clap] gives the text of an option, and
    the [config] crate is an interface. *)

From S2P Require Import Prelude Bytes RustStd Encoder Bridge ScanEvents RaspOs RaspProcess RaspRuntime RaspServer RaspManager RaspPlugin RaspLife.

(** ** The settings of the plugin *)

(** The values of the [config] crate and their conversions. *)
Class ConfigCrate := {
  Value : Type;
  value_to_string : Value -> bytes;
  into_int : Value -> option Z;
  into_bool : Value -> option bool;
  into_array : Value -> option (list Value);
  into_str : Value -> option bytes;
}.

Section settings.
Context `{!ConfigCrate}.

(** The file, a table of tables. *)
Definition Config : Type := gmap bytes (gmap bytes Value).

(** [SETTINGS.get_table(table)?] and [service.get(key)]. *)
Definition settings_get (c : Config) (table key : string) : outcome Value :=
  match c !! bs table with
  | None => Fail IoError
  | Some service => match service !! bs key with Some v => Ret v | None => Fail (Anyhow "missing key") end
  end.
Definition convert {A} (o : option A) : outcome A := match o with Some a => Ret a | None => Fail IoError end.

Definition settings_string (c : Config) (table key : string) : outcome bytes := v ← settings_get c table key; Ret (value_to_string v).
Definition settings_int (c : Config) (table key : string) : outcome Z := v ← settings_get c table key; convert (into_int v).
Definition settings_bool (c : Config) (table key : string) : outcome bool := v ← settings_get c table key; convert (into_bool v).
Fixpoint strings (vs : list Value) : outcome (list bytes) :=
  match vs with
  | [] => Ret []
  | v :: vs => s ← convert (into_str v); ss ← strings vs; Ret (s :: ss)
  end.
Definition settings_vec_string (c : Config) (table key : string) : outcome (list bytes) :=
  v ← settings_get c table key; vs ← convert (into_array v); strings vs.

(** [load_local_filter]; [regex_ok] says whether the [regex] crate takes a pattern. *)
Definition load_local_filter (regex_ok : bytes -> bool) (c : Config) : outcome Filters :=
  patterns ← settings_vec_string c "filter" "ignore_argv_regex";
  if forallb regex_ok patterns then
    paths ← settings_vec_string c "filter" "ignore_exe_path";
    names ← settings_vec_string c "filter" "ignore_exe_name";
    env ← settings_vec_string c "filter" "collect_env";
    all ← settings_bool c "filter" "collect_all_env";
    auto ← settings_vec_string c "filter" "auto_attach_runtime";
    Ret (mkFilters paths names (map String.string_of_list_byte patterns) env all auto)
  else Fail IoError.

(** [as usize] of an [i64]. *)
Definition as_usize (n : Z) : Z := wrap_u64 n.

(** What [rasp_monitor_start] reads before its threads run: the capacities of its
    channels and the number of collectors; a missing one is the error it returns. *)
Record MonitorSettings := mkMonitorSettings { internal_message_capability : Z; collect_threads : Z; wait_message : Z; external_message_capability : Z }.
Definition monitor_settings (c : Config) : outcome MonitorSettings :=
  a ← settings_int c "internal" "internal_message_capability";
  b ← settings_int c "internal" "collect_thread_limit";
  d ← settings_int c "internal" "collect_thread_wait_message_duration";
  e ← settings_int c "internal" "external_message_capability";
  Ret (mkMonitorSettings (as_usize a) (as_usize b) (wrap_u64 d) (as_usize e)).

(** What [internal_main] reads, in the order of its threads. *)
Record InternalSettings := mkInternalSettings { pid_queue_length : Z; report_heartbeat : Z; report_action : Z }.
Definition internal_settings (c : Config) : outcome InternalSettings :=
  a ← settings_int c "internal" "pid_queue_length";
  b ← settings_int c "data_type" "report_heartbeat";
  d ← settings_int c "data_type" "report_action";
  Ret (mkInternalSettings (as_usize a) b d).

(** [ok()] *)
Definition ok_ {A} (o : outcome A) : option A := match o with Ret a => Some a | _ => None end.
(** The settings of [Operator::new], as [RaspPlugin.Operator_new] takes them. *)
Definition operator_new `{!Host} (c : Config) : SM (list call) RASPManager :=
  Operator_new (ok_ (settings_string c "server" "mode")) (ok_ (settings_string c "service" "log_level"))
    (ok_ (settings_string c "server" "bind_path")) (ok_ (settings_string c "server" "linking_to")) (ok_ (settings_bool c "server" "using_mount")).

(** The channels as [RaspLife] has them. *)
Definition life_settings (m : MonitorSettings) (i : InternalSettings) : RaspLife.Settings :=
  {| rec_cap := Z.to_nat (internal_message_capability m); cmd_cap := Z.to_nat (external_message_capability m);
     pid_cap := Z.to_nat (pid_queue_length i) |}.
End settings.

(** ** The server binary *)

Definition CLONE_NEWIPC : Z := 0x08000000.
Definition CLONE_NEWNET : Z := 0x40000000.
Definition CLONE_NEWNS : Z := 0x00020000.
Definition NAMESPACES : list (bytes * Z) := [(bs "ipc", CLONE_NEWIPC); (bs "net", CLONE_NEWNET); (bs "mnt", CLONE_NEWNS)].

Record RASPServerConfig := mkServerConfig { sock_path : bytes; target_pid : option Z; max_thread : Z }.
(** The options as given. *)
Record Matches := mkMatches { arg_pid : option bytes; arg_max_thread : option bytes; arg_path : option bytes }.

Section server.
Context {S : Type} `{!HasCalls S} `{!Host}.
#[local] Abbreviation M := (SM S).

Definition ns_path (p : Z) (ns : bytes) : bytes := bs "/proc/" ++ show_i32 p ++ bs "/ns/" ++ ns.
Definition switch_namespace (p : Z) : M unit :=
  for_each (fun n => o ← ask (OpenFile (ns_path p n.1)); fd ← try_ o; r ← ask (SetNs fd n.2); try_ r) NAMESPACES.

(** An option that its validator refuses makes [clap] exit. *)
Definition validated {A} (parse : bytes -> option A) (o : option bytes) : M (option A) :=
  match o with None => mret None | Some v => a ← try_ (parse v); mret (Some a) end.
Definition args (m : Matches) : M RASPServerConfig :=
  p ← validated parse_i32 (arg_pid m);
  n ← validated parse_usize (arg_max_thread m);
  let path := default (bs "/var/run/smith_agent.sock") (arg_path m) in
  d ← ask (IsDir path);
  if d : bool then sm_fail (Anyhow "<PATH> need to be file not dir")
  else if starts_with path (bs "/") then mret (mkServerConfig path p (default 6%Z n))
  else sm_fail (Anyhow "<PATH> need to be absolute").

(** [listen] and the set-up of [start_bind]. *)
Definition listen (addr : bytes) : M unit :=
  r ← ask (Bind addr);
  match r with
  | Some _ => r ← ask (Chmod addr 0x1ff); ok_or "chmod failed" r
  | None => sm_fail (Anyhow "bind socket failed")
  end.
Definition start_bind_setup (addr : bytes) : M unit := clean_bind_addr addr;; listen addr.

(** [unwrap] of a result. *)
Definition unwrapped {A} (m : M A) : M A := fun s =>
  match m s with (Ret a, s) => (Ret a, s) | (Fail _, s) => (Panic, s) | (Panic, s) => (Panic, s) end.

(** [main] up to the accept loop; [core_loop] unwraps the error of [start_bind]. *)
Definition server_main (m : Matches) : M RASPServerConfig :=
  cfg ← unwrapped (args m);
  (match target_pid cfg with Some p => unwrapped (switch_namespace p) | None => mret tt end);;
  cfg ← args m;
  unwrapped (start_bind_setup (sock_path cfg));;
  mret cfg.

(** [thread_mode::start]: the same set-up in a thread of its own; its panic ends the
    thread, and [start] has returned. *)
Definition thread_start (path : bytes) : M unit := fun s =>
  let '(_, s) := unwrapped (start_bind_setup path) s in (Ret tt, s).
End server.

(** [RASPServer::start]: the thread [global_rx] prints the records of the probes; the
    thread [global_tx] is [RaspServer.listen_stdin], after which the process exits. *)
Record ServerOut := mkServerOut { out_working : Control; out_rx : list Record_; out_open : bool; out_printed : list Record_ }.
(** A turn, and whether the loop goes on; [flushed]: stdout could be flushed. *)
Definition global_rx_turn (flushed : bool) (s : ServerOut) : ServerOut * bool :=
  if negb (check (out_working s)) then (s, false)
  else match out_rx s with
       | m :: rx =>
           let s' := mkServerOut (out_working s) rx (out_open s) (out_printed s ++ [m]) in
           if flushed then (s', true) else (mkServerOut (stop (out_working s)) rx (out_open s) (out_printed s ++ [m]), false)
       | [] => if out_open s then (s, true) else (mkServerOut (stop (out_working s)) [] false (out_printed s), false)
       end.

(** ** The tool for one process *)

Section tool.
Context `{!Host} `{!Regex} (base : bytes).

(** [parse_arg]: exits unless the text is a number other than -1. *)
Definition parse_arg (p : option bytes) : option Z :=
  match p with
  | None => None
  | Some t => if bool_decide (t = []) then None
              else let n := default (-1)%Z (parse_i32 t) in if (n =? -1)%Z then None else Some n
  end.

(** The end of [main], before the loop that prints what the probes report. *)
Definition tool_attach (m : RASPManager) (i : ProcessInfo) : SM (list call) (RASPManager * ProcessInfo) := fun h =>
  match (start_comm base i ;; io (attach base i)) (set_calls h m) with
  | (Ret _, m) => (Ret (m, i), host_calls m)
  | (Fail e, m) => (Fail e, host_calls m)
  | (Panic, m) => (Panic, host_calls m)
  end.
(** [main]: an error of [inspect] is only logged. *)
Definition tool_main (process_id : Z) : SM (list call) (RASPManager * ProcessInfo) :=
  m ← init (bs "thread") (base ++ bs "/smith_agent.sock") (Some (bs "/var/run/smith_agent.sock")) false;
  i ← from_pid process_id;
  _ ← attempt (RaspManager.inspect i);
  '(_, i) ← runtime_inspect base i;
  _ ← ok_or "can not inspect process runtime" (runtime i);
  tool_attach m i.
End tool.

(** ** The name spaces of the server *)

Lemma bind_ask `{!Host} {B} c (k : answer c -> SM (list call) B) (h h' : list call) b :
  (ask c ≫= k) h = (Ret b, h') -> exists a, k a (h ++ [c]) = (Ret b, h').
Proof. intros E. by exists (reply h c). Qed.
(** The next step of a run is a call with some answer [a]. *)
Ltac take_ask E a := lazymatch type of E with mbind _ (ask ?c) _ = _ => apply (bind_ask c) in E as [a E] end.

Section entering.
Context `{!Host}.
#[local] Abbreviation M := (SM (list call)).

Definition enter_calls (p : Z) (fds : list Z) : list call :=
  concat (zip_with (fun n fd => [OpenFile (ns_path p n.1); SetNs fd n.2]) NAMESPACES fds).

Lemma try_ret {A} (o : option A) (h h' : list call) a : try_ o h = (Ret a, h') -> o = Some a /\ h' = h.
Proof. destruct o; [|done]. by intros [= <- <-]. Qed.

Lemma enter_one p n (h h' : list call) :
  (o ← ask (OpenFile (ns_path p n.1)); fd ← try_ o; r ← ask (SetNs fd n.2); try_ r) h = (Ret tt, h') ->
  exists fd : Z, h' = h ++ [OpenFile (ns_path p n.1); SetNs fd n.2].
Proof.
  intros Hx. take_ask Hx o. apply sm_bind_inv in Hx as (fd & h2 & [_ ->]%try_ret & Hx).
  take_ask Hx r; apply try_ret in Hx as [_ ->]. exists fd. by rewrite <- app_assoc.
Qed.

Lemma switch_trace p (h h' : list call) : switch_namespace p h = (Ret tt, h') -> exists fds, length fds = 3 /\ h' = h ++ enter_calls p fds.
Proof.
  unfold switch_namespace, NAMESPACES. cbn [for_each]. intros Hx.
  apply sm_bind_inv in Hx as ([] & h1 & (f1 & ->)%enter_one & Hx). apply sm_bind_inv in Hx as ([] & h2 & (f2 & ->)%enter_one & Hx).
  apply sm_bind_inv in Hx as ([] & h3 & (f3 & ->)%enter_one & [= <-]). exists [f1; f2; f3]. split; [done|]. by rewrite <- !app_assoc.
Qed.

Lemma unwrapped_ret {A} (m : M A) h a h' : unwrapped m h = (Ret a, h') -> m h = (Ret a, h').
Proof. unfold unwrapped. by destruct (m h) as [[| |] ?]. Qed.

Lemma args_ret m (h h' : list call) cfg :
  args m h = (Ret cfg, h') -> h' = h ++ [IsDir (sock_path cfg)] /\ starts_with (sock_path cfg) (bs "/") = true
  /\ target_pid cfg = (arg_pid m ≫= parse_i32) /\ sock_path cfg = default (bs "/var/run/smith_agent.sock") (arg_path m).
Proof.
  assert (Hv : forall {A} (parse : bytes -> option A) o (h h' : list call) a, validated parse o h = (Ret a, h') -> h' = h /\ a = o ≫= parse).
  { intros A parse [v|] h0 h1 a; cbn [validated]; [|by intros [= <- <-]].
    intros (x & h2 & [Hx ->]%try_ret & [= <- <-])%sm_bind_inv. by rewrite <- Hx. }
  unfold args. intros Hx. apply sm_bind_inv in Hx as (p & h1 & [-> ->]%Hv & Hx). apply sm_bind_inv in Hx as (n & h2 & [-> _]%Hv & Hx).
  take_ask Hx d. destruct d; [done|].
  destruct (starts_with _ _) eqn:Es; [|done]. injection Hx as <- <-. done.
Qed.

(** A call that only makes room for the socket. *)
Definition makes_room (c : call) : Prop := match c with Exists _ | RemoveFile _ | CreateDir _ => True | _ => False end.

Lemma clean_trace addr (h h' : list call) : clean_bind_addr addr h = (Ret tt, h') -> exists t, h' = h ++ t /\ Forall makes_room t.
Proof.
  unfold clean_bind_addr. intros Hx. take_ask Hx b. apply sm_bind_inv in Hx as ([] & h2 & H1 & Hx).
  assert (Ht : exists t, h2 = (h ++ [Exists addr]) ++ t /\ Forall makes_room t).
  { destruct b; [|injection H1 as <-; exists []; by rewrite app_nil_r].
    take_ask H1 r; apply try_ret in H1 as [_ ->]. eexists [_]. split; [done|]. by apply Forall_singleton. }
  destruct Ht as (t & -> & Ht). assert (Ht' : Forall makes_room (Exists addr :: t)) by (by constructor).
  destruct (parent addr) as [d|]; [|injection Hx as <-; exists (Exists addr :: t); by rewrite <- app_assoc].
  take_ask Hx b'. destruct b'.
  - injection Hx as <-. exists (Exists addr :: t ++ [Exists d]). split; [by rewrite <- !app_assoc|]. rewrite app_comm_cons.
    apply Forall_app. split; [done|by apply Forall_singleton].
  - take_ask Hx r; apply try_ret in Hx as [_ ->]. exists (Exists addr :: t ++ [Exists d; CreateDir d]).
    split; [by rewrite <- !app_assoc|]. rewrite app_comm_cons. apply Forall_app. split; [done|]. by repeat constructor.
Qed.

(** A server that comes to its accept loop has entered the name spaces of its
    target first: the calls it made are the check of its path, the opening and
    entering of ipc, net and mnt in this order, the check again inside, what makes
    room for the socket, and then the binding and the mode of the socket; the path
    is absolute. *)
Theorem server_enters_first m (h h' : list call) cfg :
  server_main m h = (Ret cfg, h') ->
  exists entered room,
    h' = h ++ [IsDir (sock_path cfg)] ++ entered ++ [IsDir (sock_path cfg)] ++ room ++ [Bind (sock_path cfg); Chmod (sock_path cfg) 0x1ff]
    /\ match arg_pid m ≫= parse_i32 with
       | Some p => exists fds, length fds = 3 /\ entered = enter_calls p fds
       | None => entered = []
       end
    /\ Forall makes_room room /\ starts_with (sock_path cfg) (bs "/") = true.
Proof.
  unfold server_main. intros Hx. apply sm_bind_inv in Hx as (c1 & h1 & E1%unwrapped_ret & Hx). apply args_ret in E1 as (-> & Hs & Hp & Hpath).
  apply sm_bind_inv in Hx as ([] & h2 & E2 & Hx). apply sm_bind_inv in Hx as (c2 & h3 & E3 & Hx). apply args_ret in E3 as (-> & _ & Hp2 & Hpath2).
  apply sm_bind_inv in Hx as ([] & h4 & E4%unwrapped_ret & [= <- <-]). rewrite Hpath2, <- Hpath in *.
  apply sm_bind_inv in E4 as ([] & h5 & (room & -> & Hroom)%clean_trace & E5).
  unfold listen in E5. take_ask E5 r; rename E5 into E6. destruct r; [|done].
  take_ask E6 r; rename E6 into E7. assert (h4 = ((((h2 ++ [IsDir (sock_path c1)]) ++ room) ++ [Bind (sock_path c1)]) ++ [Chmod (sock_path c1) 0x1ff])) as ->
    by (destruct r; [by injection E7|done]).
  rewrite Hp in E2. destruct (arg_pid m ≫= parse_i32) as [p|] eqn:Ep.
  - apply unwrapped_ret, switch_trace in E2 as (fds & Hf & ->). exists (enter_calls p fds), room.
    split; [by rewrite <- !app_assoc|]. split; [eauto|]. done.
  - injection E2 as <-. exists [], room. split; [by rewrite <- !app_assoc|]. done.
Qed.
End entering.

(** ** What the settings have to hold *)

Section modes.
Context `{!ConfigCrate} `{!Host}.

(** An operator starts only in one of the two modes the manager knows. *)
Theorem mode_known (c : Config) h m h' :
  operator_new c h = (Ret m, h') ->
  exists mode, settings_string c "server" "mode" = Ret mode
  /\ ((mode = bs "thread" /\ is_Some (thread_comm m)) \/ (mode = bs "server" /\ is_Some (process_comm m) /\ thread_comm m = None)).
Proof.
  unfold operator_new, Operator_new. destruct (settings_string c "server" "mode") as [mode| |]; [|done..].
  intros E. exists mode. split; [done|]. cbn [ok_ ok_or] in E. apply sm_bind_inv in E as (mode' & h1 & [= <- <-] & E).
  apply sm_bind_inv in E as (l & h2 & _ & E). apply sm_bind_inv in E as (b & h3 & _ & E). unfold init in E.
  destruct (clean_prev_lib h3) as [[[]| |] h4]; [|done..].
  case_bool_decide as E1; [injection E as <- <-; left; split; [done|by eexists]|].
  case_bool_decide as E2; [|done]. injection E as <- <-. right. split; [done|]. split; [by eexists|done].
Qed.
End modes.

(** ** The output of the server *)

(** The records of the probes are printed in the order they came, none twice, however
    often the thread has its turn. *)
Theorem printed_in_order flushes s :
  let s' := foldl (fun s f => fst (global_rx_turn f s)) s flushes in
  out_printed s' ++ out_rx s' = out_printed s ++ out_rx s.
Proof.
  revert s. induction flushes as [|f flushes IH]; intros s; [done|]. cbn. rewrite IH. unfold global_rx_turn.
  destruct (negb _); [done|]. destruct (out_rx s) as [|m rx] eqn:E; [by destruct (out_open s); cbn; rewrite ?E|].
  destruct f; cbn; by rewrite <- app_assoc.
Qed.

(** ** The tool *)

Section tool_facts.
Context `{!Host} `{!Regex} (base : bytes).

(** The tool attaches only to a process whose runtime it found. *)
Theorem tool_attaches_known p h m i h' : tool_main base p h = (Ret (m, i), h') -> is_Some (runtime i).
Proof.
  unfold tool_main. intros E. apply sm_bind_inv in E as (m0 & h1 & _ & E). apply sm_bind_inv in E as (i0 & h2 & _ & E).
  apply sm_bind_inv in E as (o & h3 & _ & E). apply sm_bind_inv in E as ([b i1] & h4 & _ & E).
  apply sm_bind_inv in E as (r & h5 & Er & E). unfold tool_attach in E.
  destruct ((start_comm base i1 ;; _) _) as [[[]| |] m1]; [|done..]. injection E as _ <- _. destruct (runtime i1); [by eexists|done].
Qed.
End tool_facts.

(** ** The settings the plugin comes with ([rasp/plugin/settings.toml]) *)

Inductive TomlValue := TString (s : bytes) | TInt (n : Z) | TBool (b : bool) | TArray (l : list bytes).
#[local] Instance toml_crate : ConfigCrate := {|
  Value := TomlValue;
  value_to_string v := match v with TString s => s | _ => [] end;
  into_int v := match v with TInt n => Some n | _ => None end;
  into_bool v := match v with TBool b => Some b | _ => None end;
  into_array v := match v with TArray l => Some (map TString l) | _ => None end;
  into_str v := match v with TString s => Some s | _ => None end;
|}.
Definition table (l : list (string * TomlValue)) : gmap bytes TomlValue := list_to_map (map (fun kv => (bs kv.1, kv.2)) l).
Definition plugin_settings : Config :=
  list_to_map [(bs "filter", table
      [("ignore_exe_path", TArray (map bs ["/opt/trash/"; "/opt/tiger"; "/etc/sysop"; "/etc/elkeid"; "/opt/elkeid"; "/opt/hids"; "/opt/bytedance"; "/elkeid"]));
       ("ignore_exe_name", TArray (map bs ["mongoosev3-agent"; "mongoosev3-agen"; "elkeid"; "elkeid-agent"; "journal_watcher"; "scanner_clamav"; "rasp";
                                           "rasp_server"; "etrace"; "collector"]));
       ("ignore_argv_regex", TArray []); ("collect_env", TArray [bs "PROCESS_ENV_KEY"]); ("collect_all_env", TBool true);
       ("auto_attach_runtime", TArray [])]%string);
    (bs "data_type", table [("report_heartbeat", TInt 2997); ("report_action", TInt 2995)]%string);
    (bs "server", table [("mode", TString (bs "thread")); ("bind_path", TString (bs "/tmp/elkeid_rasp/smith_agent.sock"));
                         ("linking_to", TString (bs "/var/run/smith_agent.sock")); ("using_mount", TBool true)]%string);
    (bs "service", table [("flock_path", TString (bs "elkeid_rasp.lock")); ("cgroup_name", TString (bs "elkeid_rasp"));
                          ("cgroup_mem_limit", TInt 300); ("cgroup_cpu_limit", TInt 10); ("log_level", TString (bs "info"));
                          ("log_path", TString (bs ".")); ("remote_log_level", TString (bs "error")); ("max_backups", TInt 20)]%string);
    (bs "internal", table [("internal_message_capability", TInt 1000); ("collect_thread_limit", TInt 10);
                           ("collect_thread_wait_message_duration", TInt 400); ("external_message_capability", TInt 50);
                           ("pid_queue_length", TInt 1000)]%string)].

(** They give the channels of [RaspLife.settings_toml]. *)
Lemma settings_toml_read :
  exists m i, monitor_settings plugin_settings = Ret m /\ internal_settings plugin_settings = Ret i
  /\ collect_threads m = 10%Z /\ life_settings m i = settings_toml.
Proof. eexists _, _. split; [reflexivity|]. split; [reflexivity|]. split; reflexivity. Qed.

(** The filter of the file: nothing is attached unasked, and the plugin's own programs
    are left alone by name. *)
Lemma settings_toml_filter :
  exists f, load_local_filter (fun _ => true) plugin_settings = Ret f
  /\ auto_attach_runtime f = [] /\ bs "rasp" ∈ ignore_exe_name f /\ bs "rasp_server" ∈ ignore_exe_name f /\ collect_all_env f = true.
Proof.
  eexists. split; [reflexivity|]. split; [reflexivity|]. split; [by apply (bool_decide_unpack _); vm_compute|].
  split; [by apply (bool_decide_unpack _); vm_compute|reflexivity].
Qed.

#[local] Existing Instance test_host.
Lemma server_enters_first_witness :
  exists cfg h' entered room,
    server_main (S := list call) (mkMatches (Some (bs "42")) None None) [] = (Ret cfg, h')
    /\ h' = [] ++ [IsDir (sock_path cfg)] ++ entered ++ [IsDir (sock_path cfg)] ++ room ++ [Bind (sock_path cfg); Chmod (sock_path cfg) 0x1ff]
    /\ (exists fds, length fds = 3 /\ entered = enter_calls 42 fds)
    /\ Forall makes_room room /\ starts_with (sock_path cfg) (bs "/") = true.
Proof.
  destruct (server_main (S := list call) (mkMatches (Some (bs "42")) None None) []) as [[cfg| |] h'] eqn:E; [|by vm_compute in E..].
  destruct (server_enters_first (mkMatches (Some (bs "42")) None None) [] h' cfg E) as (entered & room & H1 & H2 & H3).
  by exists cfg, h', entered, room.
Defined.
