(* ===== verification/RaspStart.v ===== *)
(** * Starting once ([rasp/plugin/src/main.rs] and [scanner_plugin.rs])

    Both plugins lock a file so that a second copy does not start.  The scanner binds
    the open file to a variable of [main]; the rasp plugin locks a temporary, which is
    closed at the end of the statement, and a lock goes when its file is closed.  The
    host is a table of open files and of the locks on them; the copies of a program
    take their steps in any order.  The second part is the set-up of the rasp plugin:
    its cgroup and its logger from the settings. *)

From S2P Require Import Prelude Bytes RustStd Encoder Bridge ScanEvents RaspOs RaspProcess RaspRuntime RaspServer RaspManager RaspPlugin RaspLife RaspEntry.

(** ** Files and their locks *)

(** Open files by number, and for a locked path the open file that has its lock. *)
Record OS := mkOS { os_files : gmap nat bytes; os_locks : gmap bytes nat }.

(** [File::create] *)
Definition file_create (path : bytes) (os : OS) : nat * OS :=
  let f := fresh (dom (os_files os)) in (f, mkOS (<[f := path]> (os_files os)) (os_locks os)).
(** [try_lock_exclusive] *)
Definition try_lock_exclusive (f : nat) (os : OS) : bool * OS :=
  match os_files os !! f with
  | None => (false, os)
  | Some path =>
      match os_locks os !! path with
      | Some g => (bool_decide (f = g), os)
      | None => (true, mkOS (os_files os) (<[path := f]> (os_locks os)))
      end
  end.
(** The [File] is dropped: it is closed, and its lock goes. *)
Definition file_drop (f : nat) (os : OS) : OS :=
  mkOS (delete f (os_files os)) (filter (fun kv => kv.2 <> f) (os_locks os)).

(** ** The two starts *)

(** A copy of a program: not started, with the file open, with its lock, past the
    statement that locks (with the file, when it is kept), ended. *)
Inductive Phase := Start | Opened (f : nat) | Locked (f : nat) | Running (kept : option nat) | Ended.

Definition held (p : Phase) : option nat :=
  match p with Opened f | Locked f => Some f | Running k => k | _ => None end.

(** What a step meets: the call or what follows goes well, or not. *)
Definition drop_held (p : Phase) (os : OS) : OS := match held p with Some f => file_drop f os | None => os end.

(** [scanner_plugin.rs]: [process_lock] lives until [main] returns; without the lock
    [main] returns. *)
Definition SCANNER_PID_FILE : bytes := bs "/var/run/elkeid_scanners_plugin.pid".
Definition scanner_step (ok : bool) (p : Phase) (os : OS) : Phase * OS :=
  match p with
  | Start => if ok then let '(f, os) := file_create SCANNER_PID_FILE os in (Opened f, os) else (Ended, os)
  | Opened f => let '(b, os) := try_lock_exclusive f os in if b then (Locked f, os) else (Ended, file_drop f os)
  | Locked f => (Running (Some f), os)
  | Running k => if ok then (p, os) else (Ended, drop_held p os)
  | Ended => (p, os)
  end.

(** [main] of the rasp plugin: the file is a temporary of the first statement, dropped
    at its end; then [init] and the monitor, either of which may fail. *)
Definition rasp_step (path : outcome bytes) (ok : bool) (p : Phase) (os : OS) : Phase * OS :=
  match p with
  | Start =>
      match path with
      | Ret path => if ok then let '(f, os) := file_create path os in (Opened f, os) else (Ended, os)
      | _ => (Ended, os)
      end
  | Opened f => let '(b, os) := try_lock_exclusive f os in if b then (Locked f, os) else (Ended, file_drop f os)
  | Locked f => (Running None, file_drop f os)
  | Running k => if ok then (p, os) else (Ended, drop_held p os)
  | Ended => (p, os)
  end.

(** Copies of a program, one step of one of them at a time, or one is killed. *)
Section copies.
Context (step : bool -> Phase -> OS -> Phase * OS).

Inductive copies_step : OS * list Phase -> OS * list Phase -> Prop :=
  | copy_steps os ps i p ok : ps !! i = Some p ->
      copies_step (os, ps) ((step ok p os).2, <[i := (step ok p os).1]> ps)
  | copy_killed os ps i p : ps !! i = Some p ->
      copies_step (os, ps) (drop_held p os, <[i := Ended]> ps).
End copies.

Definition running (p : Phase) : Prop := exists k, p = Running k.

(** ** One scanner *)

(** The file whose lock a copy relies on. *)
Definition locked (p : Phase) : option nat := match p with Locked f | Running (Some f) => Some f | _ => None end.

Lemma locked_held p f : locked p = Some f -> held p = Some f.
Proof. by destruct p as [| | |[]|]. Qed.

Record one_lock (s : OS * list Phase) : Prop := {
  ol_open i p f : s.2 !! i = Some p -> held p = Some f -> os_files s.1 !! f = Some SCANNER_PID_FILE;
  ol_own i j p q f : s.2 !! i = Some p -> s.2 !! j = Some q -> held p = Some f -> held q = Some f -> i = j;
  ol_lock i p f : s.2 !! i = Some p -> locked p = Some f -> os_locks s.1 !! SCANNER_PID_FILE = Some f;
  ol_kept i : s.2 !! i <> Some (Running None);
}.

(** Replacing the phase of one copy: the facts about the others stay. *)
Ltac at_copy H := apply list_lookup_insert_Some in H as [(<- & ? & _)|[? H]]; [subst|].

Lemma one_lock_keep os ps i p p' :
  one_lock (os, ps) -> ps !! i = Some p -> held p' = held p -> p' <> Running None ->
  (forall f, locked p' = Some f -> os_locks os !! SCANNER_PID_FILE = Some f) -> one_lock (os, <[i := p']> ps).
Proof.
  intros [HA HB HC HD] Hi Hh Hn Hl. split; cbn in *.
  - intros j q f Hj Hq. at_copy Hj; [rewrite Hh in Hq|]; eauto.
  - intros j k q q' f Hj Hk Hq Hq'. at_copy Hj; at_copy Hk; rewrite ?Hh in *; eauto.
  - intros j q f Hj Hq. at_copy Hj; eauto.
  - intros j Hj. at_copy Hj; [done|]. by eapply HD.
Qed.

Lemma one_lock_drop os ps i p p' :
  one_lock (os, ps) -> ps !! i = Some p -> held p' = None -> p' <> Running None -> one_lock (drop_held p os, <[i := p']> ps).
Proof.
  intros [HA HB HC HD] Hi Hh Hn.
  assert (Hne : forall j q f g, j <> i -> ps !! j = Some q -> held q = Some f -> held p = Some g -> f <> g) by (intros; intros ->; eauto).
  split; cbn in *.
  - intros j q f Hj Hq. at_copy Hj; [congruence|]. unfold drop_held. destruct (held p) as [g|] eqn:Ep; [|eauto].
    cbn. rewrite lookup_delete_ne by (intros ->; by eapply Hne). eauto.
  - intros j k q q' f Hj Hk Hq Hq'. at_copy Hj; at_copy Hk; [congruence..|]. eauto.
  - intros j q f Hj Hq. at_copy Hj; [apply locked_held in Hq; congruence|]. unfold drop_held. destruct (held p) as [g|] eqn:Ep; [|eauto].
    cbn. apply map_lookup_filter_Some. split; [eauto|]. eapply Hne; eauto using locked_held.
  - intros j Hj. at_copy Hj; [done|]. by eapply HD.
Qed.

Lemma one_lock_create os ps i :
  one_lock (os, ps) -> ps !! i = Some Start ->
  one_lock ((file_create SCANNER_PID_FILE os).2, <[i := Opened (file_create SCANNER_PID_FILE os).1]> ps).
Proof.
  intros [HA HB HC HD] Hi. cbn. set (f := fresh _).
  assert (Hf : os_files os !! f = None) by apply not_elem_of_dom, is_fresh.
  assert (Hne : forall j q g, ps !! j = Some q -> held q = Some g -> g <> f) by (intros j q g Hj Hq ->; naive_solver).
  split; cbn in *.
  - intros j q g Hj Hq. at_copy Hj; [injection Hq as <-; apply lookup_insert_eq|]. rewrite lookup_insert_ne by (symmetry; eauto). eauto.
  - intros j k q q' g Hj Hk Hq Hq'. at_copy Hj; at_copy Hk; [done|..].
    + injection Hq as <-. by destruct (Hne k q' f).
    + injection Hq' as <-. by destruct (Hne j q f).
    + eauto.
  - intros j q g Hj Hq. at_copy Hj; [done|]. eauto.
  - intros j Hj. at_copy Hj; [done|]. by eapply HD.
Qed.

(** The first lock. *)
Lemma one_lock_lock os ps f :
  one_lock (os, ps) -> os_locks os !! SCANNER_PID_FILE = None ->
  one_lock (mkOS (os_files os) (<[SCANNER_PID_FILE := f]> (os_locks os)), ps).
Proof. intros [HA HB HC HD] Hn. split; cbn in *; eauto. intros j q g Hj Hq. specialize (HC j q g Hj Hq). congruence. Qed.

Lemma one_lock_step os ps i p ok :
  one_lock (os, ps) -> ps !! i = Some p -> one_lock ((scanner_step ok p os).2, <[i := (scanner_step ok p os).1]> ps).
Proof.
  intros Hinv Hi. destruct p as [|f|f|k|]; cbn.
  - destruct ok; [by apply one_lock_create|]. by apply (one_lock_drop os ps i Start).
  - assert (Hf : os_files os !! f = Some SCANNER_PID_FILE) by (by eapply (ol_open _ Hinv)).
    unfold try_lock_exclusive. rewrite Hf. destruct (os_locks os !! SCANNER_PID_FILE) as [g|] eqn:El.
    + case_bool_decide as Eg; cbn.
      * subst g. eapply one_lock_keep; [done..|]. by intros ? [= <-].
      * by apply (one_lock_drop os ps i (Opened f)).
    + cbn. eapply one_lock_keep; [by apply one_lock_lock|done..|]. intros g [= <-]. apply lookup_insert_eq.
  - eapply one_lock_keep; [done..|]. intros g [= <-]. by eapply (ol_lock _ Hinv).
  - destruct ok; cbn; [by rewrite list_insert_id|]. by apply (one_lock_drop os ps i (Running k)).
  - by rewrite list_insert_id.
Qed.

Lemma one_lock_steps s s' : one_lock s -> copies_step scanner_step s s' -> one_lock s'.
Proof. intros Hinv Hs. destruct Hs; [by apply one_lock_step|by eapply one_lock_drop]. Qed.

Definition not_started (os : OS) (n : nat) : OS * list Phase := (os, replicate n Start).

Lemma one_lock_start os n : one_lock (not_started os n).
Proof.
  split; cbn.
  1: intros i p f Hi Hh. 2: intros i j p q f Hi _ Hh. 3: intros i p f Hi Hh. 4: intros i Hi.
  all: apply lookup_replicate in Hi as [Hi _]; by subst.
Qed.

(** C32: however many copies of the scanner are started, killed or end, in whatever order
    their steps come, at most one is past the lock, and it has the lock. *)
Theorem one_scanner os n os' ps i j p q :
  rtc (copies_step scanner_step) (not_started os n) (os', ps) ->
  ps !! i = Some p -> ps !! j = Some q -> running p -> running q ->
  i = j /\ exists f, p = Running (Some f) /\ os_locks os' !! SCANNER_PID_FILE = Some f.
Proof.
  intros Hr Hi Hj [k ->] [k' ->].
  assert (Hinv : one_lock (os', ps)).
  { remember (not_started os n) as s eqn:Es. pose proof (one_lock_start os n) as H0. rewrite <- Es in H0. clear Es.
    remember (os', ps) as s' eqn:Es'. clear Es' Hi Hj. induction Hr; eauto using one_lock_steps. }
  destruct k as [f|]; [|by destruct (ol_kept _ Hinv i)]. destruct k' as [g|]; [|by destruct (ol_kept _ Hinv j)].
  assert (Ef := ol_lock _ Hinv i _ f Hi eq_refl). assert (Eg := ol_lock _ Hinv j _ g Hj eq_refl).
  assert (f = g) as <- by congruence. split; [by eapply (ol_own _ Hinv i j)|by exists f].
Qed.

(** ** Any number of rasp plugins *)

Section plugins.
Context (path : bytes).
#[local] Abbreviation rstep := (copies_step (rasp_step (Ret path))).

(** One copy that starts while nobody is in the statement: it opens, locks and closes
    the file, and the host is as before. *)
Lemma copy_starts os ps i :
  os_locks os !! path = None -> map_Forall (fun _ f => is_Some (os_files os !! f)) (os_locks os) ->
  ps !! i = Some Start -> rtc rstep (os, ps) (os, <[i := Running None]> ps).
Proof.
  intros Hl Hok Hi. set (f := fresh (dom (os_files os))).
  assert (Hf : os_files os !! f = None) by apply not_elem_of_dom, is_fresh.
  assert (Hi' : i < length ps) by (by eapply lookup_lt_Some).
  set (os1 := mkOS (<[f := path]> (os_files os)) (os_locks os)).
  set (os2 := mkOS (<[f := path]> (os_files os)) (<[path := f]> (os_locks os))).
  assert (E2 : try_lock_exclusive f os1 = (true, os2)).
  { unfold try_lock_exclusive, os1. cbn. rewrite lookup_insert_eq. by rewrite Hl. }
  assert (E3 : file_drop f os2 = os).
  { unfold file_drop, os2. destruct os as [fs ls]. cbn in *. f_equal; [by rewrite delete_insert_id|].
    rewrite map_filter_insert_False by naive_solver. rewrite delete_id by done. apply map_filter_id.
    intros k g Hk E. cbn in E. subst g. destruct (Hok k f Hk). congruence. }
  eapply rtc_l; [by apply (copy_steps _ os ps i Start true)|]. cbn [rasp_step file_create fst snd]. fold f os1.
  eapply rtc_l; [apply (copy_steps _ os1 _ i (Opened f) true); by apply list_lookup_insert_eq|]. cbn [rasp_step]. rewrite E2. cbn [fst snd].
  rewrite list_insert_insert_eq.
  eapply rtc_l; [apply (copy_steps _ os2 _ i (Locked f) true); by apply list_lookup_insert_eq|]. cbn [rasp_step fst snd].
  rewrite E3, list_insert_insert_eq. apply rtc_refl.
Qed.

(** The lock of the rasp plugin does not keep a second copy away: any number of
    copies can all be past it at once, and none of them has the lock. *)
Theorem plugins_not_excluded os n :
  os_locks os !! path = None -> map_Forall (fun _ f => is_Some (os_files os !! f)) (os_locks os) ->
  rtc rstep (not_started os n) (os, replicate n (Running None)).
Proof.
  intros Hl Hok. unfold not_started.
  assert (H : forall a b, rtc rstep (os, replicate a (Running None) ++ replicate b Start) (os, replicate (a + b) (Running None))).
  { intros a b. revert a. induction b as [|b IH]; intros a; [rewrite app_nil_r, Nat.add_0_r; apply rtc_refl|].
    etrans; [apply (copy_starts os _ a); [done..|]; by rewrite lookup_app_r, length_replicate, Nat.sub_diag by (by rewrite length_replicate)|].
    rewrite insert_app_r_alt by (by rewrite length_replicate). rewrite length_replicate, Nat.sub_diag. cbn [replicate insert list_insert].
    replace (a + S b) with (S a + b) by lia. change (Running None :: replicate b Start) with (replicate 1 (Running None) ++ replicate b Start).
    rewrite app_assoc, <- replicate_add. replace (a + 1) with (S a) by lia. apply IH. }
  apply (H 0).
Qed.
End plugins.

(** ** The set-up of the rasp plugin *)

(** [i64] products wrap around in a release build. *)
Definition mul_i64 (a b : Z) : Z := ((a * b + 2 ^ 63) mod 2 ^ 64 - 2 ^ 63)%Z.

Record CgroupSpec := mkCgroup { cg_name : bytes; memory_hard_limit : Z; cpu_quota : Z }.
(** What the host answers: the controllers of the new group, and whether the process
    could be added to each ([None]: there is no such controller). *)
Record CgroupHost := mkCgroupHost { add_mem : option bool; add_cpu : option bool }.
Record LoggerConfig := mkLoggerConfig {
  lc_max_size : Z; lc_path : bytes; lc_file_level : nat; lc_remote_level : nat; lc_max_backups : Z; lc_compress : bool;
}.

Lemma outcome_bind_inv {A B} (m : outcome A) (k : A -> outcome B) b : m ≫= k = Ret b -> exists a, m = Ret a /\ k a = Ret b.
Proof. destruct m as [a| |]; [|done..]. intros E. by exists a. Qed.

Section init.
Context `{!ConfigCrate} (level_from_str : bytes -> option nat).

(** [controller_of().unwrap()] and [add_task(pid)?] *)
Definition add_task (o : option bool) : outcome unit :=
  match o with None => Panic | Some true => Ret tt | Some false => Fail IoError end.

Definition setup_cgroup (c : Config) (h : CgroupHost) : outcome CgroupSpec :=
  name ← settings_string c "service" "cgroup_name";
  mem ← settings_int c "service" "cgroup_mem_limit";
  cpu ← settings_int c "service" "cgroup_cpu_limit";
  add_task (add_mem h);; add_task (add_cpu h);;
  Ret (mkCgroup name (mul_i64 (1024 * 1024) mem) (mul_i64 1000 cpu)).

(** [set_free]: no logger is installed yet. *)
Definition plugin_init (c : Config) (h : CgroupHost) (set_free : bool) : outcome (CgroupSpec * LoggerConfig) :=
  cg ← setup_cgroup c h;
  log_level ← settings_string c "service" "log_level";
  log_path ← settings_string c "service" "log_path";
  remote_log_level ← settings_string c "service" "remote_log_level";
  max_backups ← settings_int c "service" "max_backups";
  file_level ← convert (level_from_str log_level);
  remote_level ← convert (level_from_str remote_log_level);
  if set_free then
    Ret (cg, mkLoggerConfig (1024 * 1024 * 5) (log_path ++ bs "/rasp.log") file_level remote_level (as_usize max_backups) true)
  else Fail IoError.

(** [main] up to the monitor: the lock, then [init]; the monitor starts only after
    both. *)
Definition plugin_main (c : Config) (lock_ok : bool) (h : CgroupHost) (set_free : bool) : outcome (bytes * CgroupSpec * LoggerConfig) :=
  path ← settings_string c "service" "flock_path";
  if lock_ok then '(cg, lg) ← plugin_init c h set_free; Ret (path, cg, lg) else Fail IoError.

(** A plugin whose monitor starts is inside its cgroup, with both limits. *)
Theorem plugin_limited c lock_ok h set_free path cg lg :
  plugin_main c lock_ok h set_free = Ret (path, cg, lg) ->
  lock_ok = true /\ add_mem h = Some true /\ add_cpu h = Some true
  /\ exists mem cpu, settings_int c "service" "cgroup_mem_limit" = Ret mem /\ settings_int c "service" "cgroup_cpu_limit" = Ret cpu
     /\ memory_hard_limit cg = mul_i64 (1024 * 1024) mem /\ cpu_quota cg = mul_i64 1000 cpu.
Proof.
  unfold plugin_main. intros (p & _ & E)%outcome_bind_inv. destruct lock_ok; [|done]. apply outcome_bind_inv in E as ([cg' lg'] & E & [= -> -> ->]).
  unfold plugin_init in E. apply outcome_bind_inv in E as (cg0 & Ec & E). unfold setup_cgroup in Ec.
  apply outcome_bind_inv in Ec as (name & _ & Ec). apply outcome_bind_inv in Ec as (mem & Hm & Ec). apply outcome_bind_inv in Ec as (cpu & Hc & Ec).
  apply outcome_bind_inv in Ec as ([] & Ha & Ec). apply outcome_bind_inv in Ec as ([] & Hb & [= <-]).
  do 6 apply outcome_bind_inv in E as (? & _ & E). destruct set_free; [|done]. injection E as <- _.
  split_and!; [done|by destruct (add_mem h) as [[]|]|by destruct (add_cpu h) as [[]|]|]. by exists mem, cpu.
Qed.
End init.

(** ** With the settings the plugin comes with *)

(** [LevelFilter::from_str] on the two levels of the file. *)
Definition sample_levels (s : bytes) : option nat :=
  if bool_decide (s = bs "error") then Some 1 else if bool_decide (s = bs "info") then Some 3 else None.

(** 300 MiB and 10 ms of every period, a log of 5 MiB beside the plugin with 20 backups. *)
Lemma settings_toml_init :
  plugin_main (H := toml_crate) sample_levels plugin_settings true (mkCgroupHost (Some true) (Some true)) true
  = Ret (bs "elkeid_rasp.lock", mkCgroup (bs "elkeid_rasp") 314572800 10000, mkLoggerConfig 5242880 (bs "./rasp.log") 3 1 20 true).
Proof. by vm_compute. Qed.

Lemma plugin_limited_witness :
  exists mem cpu, settings_int (H := toml_crate) plugin_settings "service" "cgroup_mem_limit" = Ret mem
  /\ settings_int (H := toml_crate) plugin_settings "service" "cgroup_cpu_limit" = Ret cpu
  /\ 314572800%Z = mul_i64 (1024 * 1024) mem /\ 10000%Z = mul_i64 1000 cpu.
Proof. exact (proj2 (proj2 (proj2 (plugin_limited sample_levels _ _ _ _ _ _ _ settings_toml_init)))). Defined.

Definition no_files : OS := mkOS ∅ ∅.

(** Two copies of each: the second scanner has ended, both plugins run. *)
Definition one_runs : list Phase := [Running (Some 0); Ended].
Lemma second_scanner_ends : rtc (copies_step scanner_step) (not_started no_files 2) (mkOS {[0 := SCANNER_PID_FILE]} {[SCANNER_PID_FILE := 0]}, one_runs).
Proof.
  eapply rtc_l; [by apply (copy_steps _ no_files _ 0 Start true)|]. eapply rtc_l; [by eapply (copy_steps _ _ _ 0 (Opened 0) true)|].
  eapply rtc_l; [by eapply (copy_steps _ _ _ 0 (Locked 0) true)|]. eapply rtc_l; [by eapply (copy_steps _ _ _ 1 Start true)|].
  eapply rtc_l; [by eapply (copy_steps _ _ _ 1 (Opened 1) true)|]. apply reflexive_eq. by vm_compute.
Qed.

Lemma one_scanner_witness :
  0 = 0 /\ exists f, Running (Some 0) = Running (Some f)
  /\ (os_locks (mkOS {[0 := SCANNER_PID_FILE]} {[SCANNER_PID_FILE := 0]}) : gmap bytes nat) !! SCANNER_PID_FILE = Some f.
Proof. eapply (one_scanner no_files 2 _ one_runs 0 0); [exact second_scanner_ends|reflexivity|reflexivity|by eexists|by eexists]. Defined.

Lemma plugins_not_excluded_witness :
  rtc (copies_step (rasp_step (Ret (bs "elkeid_rasp.lock")))) (not_started no_files 2) (no_files, [Running None; Running None]).
Proof. apply (plugins_not_excluded (bs "elkeid_rasp.lock") no_files 2); [by vm_compute|apply map_Forall_empty]. Defined.
