(* ===== verification/Honeypot.v ===== *)
(** * The honeypots of the scanner ([plugins/scanner/src/model/functional]:
    anti_ransom.rs, fmonitor.rs)

    Files that nobody should touch are put into the home directories, and fanotify
    tells of every process that does.  [FileMonitor] turns each event into a task
    of the detector; [HoneyPot] reads the users, plants the files and marks them.
    The set-up calls the host of [RaspOs]; an event carries what the links and files
    it needs answer while it is handled. *)

From S2P Require Import Prelude Bytes RustStd ScanEvents Updater Detector ScanJobs RaspOs.

(** ** Flags (fmonitor.rs) *)

Definition FAN_CLASS_NOTIF : Z := 0.
Definition FAN_MARK_ADD : Z := 0x1.
Definition FAN_MARK_FLUSH : Z := 0x80.
Definition FAN_REPORT_FID : Z := 0x200.
Definition FAN_MODIFY : Z := 0x2.
Definition FAN_CLOSE_WRITE : Z := 0x8.
Definition FAN_ONDIR : Z := 0x40000000.
Definition FAN_EVENT_ON_CHILD : Z := 0x08000000.
Definition FAN_MOVED_FROM : Z := 0x40.
Definition FAN_MOVED_TO : Z := 0x80.
Definition FAN_MOVED : Z := Z.lor FAN_MOVED_FROM FAN_MOVED_TO.
Definition FAN_CREATE : Z := 0x100.
Definition FAN_DELETE : Z := 0x200.
Definition FAN_DELETE_SELF : Z := 0x400.
Definition FAN_MOVE_SELF : Z := 0x800.
Definition or_all (l : list Z) : Z := foldl Z.lor 0%Z l.
Definition LOW_FILE_MATCH_MASK : Z := or_all [FAN_MODIFY; FAN_CLOSE_WRITE].
Definition H51_FILE_MATCH_MASK : Z := or_all [FAN_MODIFY; FAN_CLOSE_WRITE; FAN_DELETE_SELF; FAN_MOVE_SELF].
Definition H51_DIRS_MATCH_MASK : Z :=
  or_all [FAN_ONDIR; FAN_EVENT_ON_CHILD; FAN_CREATE; FAN_DELETE; FAN_DELETE_SELF; FAN_MOVE_SELF; FAN_MOVED_FROM; FAN_MOVED_TO].

(** [procfs::sys::kernel::Version] and its order. *)
Definition Version : Type := Z * Z * Z.
Definition version_le (a b : Version) : bool :=
  let '(a1, a2, a3) := a in let '(b1, b2, b3) := b in
  (a1 <? b1)%Z || ((a1 =? b1)%Z && ((a2 <? b2)%Z || ((a2 =? b2)%Z && (a3 <=? b3)%Z))).
Definition H51_KERNEL_VERSION : Version := (5, 1, 0)%Z.
Definition H26_KERNEL_VERSION : Version := (2, 6, 37)%Z.

(** ** Events (fmonitor.rs) *)

Definition match_event_mask (event mask : Z) : bool := negb (Z.land event mask =? 0)%Z.

(** The names of the honeypots and the sums of their contents (anti_ransom.rs). *)
Definition HONEYPOTSSHA256 : list (bytes * bytes) := map (fun kv => (bs kv.1, bs kv.2))
  [("0_elkeid_hids_anti_ransom.csv", "668f23ce53e38f964564ecdc3e5f1a646169ed779d774fda1009d23f9e52bce0");
   ("0_elkeid_hids_anti_ransom.doc", "4974f533cbc6bb6df5d5a99c3ef94240d9e3076a227fde44fc00a240d70bc71b");
   ("0_elkeid_hids_anti_ransom.pdf", "20b3b1d7d0440fbe57f9f5e6998d660890892c9c7703de787c9de66fc2368636");
   ("0_elkeid_hids_anti_ransom.png", "86dbc28537142e8fba1bb58b801889cb6a61d50ba60f1e6ca9ba879cb297cfa7");
   ("0_elkeid_hids_anti_ransom.txt", "55ccb1e3b83ca0bfbccd9c2cc1cd1b8ac3d04c21853a6209f23e2592e63f9f65");
   ("0_elkeid_hids_anti_ransom.xls", "5d9d6e5ed89989c44e50a1bd8d3722869d4ffb8b7e9b0dbb1a30a242dfb727b4")]%string.
Definition honeypot_sum (name : bytes) : option bytes :=
  snd <$> List.find (fun kv => bool_decide (kv.1 = name)) HONEYPOTSSHA256.
Definition HONEYPOTS : list bytes := map bs
  ["0_elkeid_hids_anti_ransom.csv"; "0_elkeid_hids_anti_ransom.png"; "0_elkeid_hids_anti_ransom.txt";
   "0_elkeid_hids_anti_ransom.xls"; "0_elkeid_hids_anti_ransom.doc"; "0_elkeid_hids_anti_ransom.pdf"]%string.

(** An event of the kernel, and what is answered while it is handled: the links, read
    one after the other, the metadata of the program, the sums of files, and whether
    the queue takes a task. *)
Record FanEvent := mkFanEvent {
  ev_mask : Z; ev_fd : Z; ev_pid : Z;
  ev_link : nat -> bytes -> option bytes;
  ev_meta : option Meta;
  ev_sha256 : bytes -> bytes;
  ev_taken : bool;
}.

Definition fd_link (own fd : Z) : bytes := bs "/proc/" ++ show_u64 own ++ bs "/fd/" ++ show_i32 fd.
(** [get_real_path_from_fd_link] *)
Definition get_real_path_from_fd_link (e : FanEvent) (own : Z) : bytes :=
  match ev_link e 0 (fd_link own (ev_fd e)) with
  | Some p => if utf8_valid p then p else bs "-1"
  | None => bs "-3"
  end.
(** Files an editor or a package manager leaves behind. *)
Definition temporary (path : bytes) : bool :=
  existsb (fun suffix => ends_with path (bs suffix))
    [".swp"; "(deleted)"; ".swa"; ".svz"; ".swn"; ".swo"; ".tmp"; ".bash_history"; ".dpkg-new"]%string.

Definition default_mask_set (v : Version) : Z :=
  if version_le H51_KERNEL_VERSION v then Z.lor H51_DIRS_MATCH_MASK H51_FILE_MATCH_MASK else LOW_FILE_MATCH_MASK.

(** What handling an event does. *)
Inductive FanAct := Close (fd : Z) | SendTask (t : DetectTask) | LockMain.

Section Events.
Context (own : Z) (v : Version).

(** The link read for the file is the one of the program.  The result says whether
    the loop over the events goes on. *)
Definition handle_event (e : FanEvent) : list FanAct * bool :=
  let path := get_real_path_from_fd_link e own in
  if temporary path then ([Close (ev_fd e)], true)
  else
    let pstr := exe_link (ev_pid e) in
    match ev_link e 1 pstr with
    | None => ([Close (ev_fd e)], true)
    | Some pf =>
        let exe_real := from_utf8_lossy pf in
        let fpath_real := match ev_link e 2 pstr with Some pf => from_utf8_lossy pf | None => [] end in
        let fpath_real_sha256 := ev_sha256 e fpath_real in
        if bool_decide (honeypot_sum fpath_real = Some fpath_real_sha256) then ([Close (ev_fd e)], true)
        else
          match ev_meta e with
          | None => ([Close (ev_fd e)], true)
          | Some p =>
              if is_dir p then ([Close (ev_fd e)], true)
              else if (m_len p <=? 0)%Z || (CLAMAV_MAX_FILESIZE <? m_len p)%Z then ([Close (ev_fd e)], true)
              else if match_event_mask (ev_mask e) (default_mask_set v) then
                let bt := get_file_btime p in
                let task := mkDetectTask (bs "6054") own exe_real fpath_real (m_len p) bt.1 bt.2 fpath_real_sha256 None in
                if ev_taken e then ([SendTask task], true) else ([Close (ev_fd e); LockMain], false)
              else ([], true)
          end
    end.

(** The events of one read. *)
Fixpoint handle_batch (es : list FanEvent) : list FanAct :=
  match es with
  | [] => []
  | e :: es => let '(acts, go) := handle_event e in acts ++ (if go then handle_batch es else [])
  end.
End Events.

(** ** The monitor (fmonitor.rs) *)

Record FileMonitor := mkFileMonitor { fm_fd : Z; fm_pid : Z; current_kernel_version : Version }.

Section Monitor.
Context {S : Type} `{!HasCalls S} `{!RaspOs.Host}.
#[local] Abbreviation M := (SM S).

Definition FileMonitor_new (own : Z) : M FileMonitor :=
  o ← ask KernelVersion; v ← unwrap o;
  fd ← ask (FanotifyInit (if version_le H51_KERNEL_VERSION v then Z.lor FAN_CLASS_NOTIF FAN_REPORT_FID else FAN_CLASS_NOTIF));
  if ((fd : Z) <? 0)%Z then sm_fail IoError else mret (mkFileMonitor fd own v).
Definition flush (fm : FileMonitor) : M unit := _ ← ask (FanotifyMark FAN_MARK_FLUSH 0 None); mret tt.

(** The events asked for a path. *)
Definition mask_for (v : Version) (dir : bool) : Z :=
  if version_le H51_KERNEL_VERSION v then (if dir then H51_DIRS_MATCH_MASK else H51_FILE_MATCH_MASK) else LOW_FILE_MATCH_MASK.
(** [CString::new(path).unwrap()] panics on a zero byte; the kind of the path is
    asked for on new kernels only. *)
Definition add (fm : FileMonitor) (path : bytes) : M unit :=
  b ← ask (Exists path);
  if negb b then mret tt
  else if bool_decide (x00 ∈ path) then sm_panic
  else
    dir ← (if version_le H51_KERNEL_VERSION (current_kernel_version fm) then ask (IsDir path) : M bool else mret false);
    rc ← ask (FanotifyMark FAN_MARK_ADD (mask_for (current_kernel_version fm) dir) (Some path));
    if ((rc : Z) =? 0)%Z then mret tt else sm_fail IoError.

(** ** The honeypots (anti_ransom.rs) *)

#[local] Abbreviation user_homes := (list (bytes * (Z * Z * bytes))).
Record HoneyPot := mkHoneyPot { homes : user_homes; moniter : FileMonitor }.

(** A line of /etc/passwd; indexing a field that is not there panics. *)
Definition passwd_line (line : bytes) : outcome (option (bytes * (Z * Z * bytes))) :=
  let lvec := split_on ":" line in
  match lvec !! 2, lvec !! 3 with
  | Some u, Some g =>
      let uid := default 0%Z (parse_u32 u) in
      let gid := default 0%Z (parse_u32 g) in
      match lvec !! 6 with
      | None => Panic
      | Some shell =>
          if ends_with shell (bs "sh") then
            match lvec !! 5, lvec !! 0 with
            | Some home, Some name =>
                if starts_with home (bs "/root") || starts_with home (bs "/home") then Ret (Some (name, (uid, gid, home))) else Ret None
            | _, _ => Panic
            end
          else Ret None
      end
  | _, _ => Panic
  end.
(** [HashMap::insert]: the last line of a name counts. The order of the list is that
    of the lines; [HoneyPot_new] takes the map's own order. *)
Definition insert_user (u : bytes * (Z * Z * bytes)) (us : user_homes) : user_homes :=
  filter (fun v => v.1 <> u.1) us ++ [u].
(** Lines that are not text are passed over. *)
Fixpoint passwd_users (lines : list bytes) (us : user_homes) : outcome user_homes :=
  match lines with
  | [] => Ret us
  | l :: lines =>
      if utf8_valid l then
        match passwd_line l with
        | Ret (Some u) => passwd_users lines (insert_user u us)
        | Ret None => passwd_users lines us
        | _ => Panic
        end
      else passwd_users lines us
  end.

Definition targets (home : bytes) : bytes := home ++ bs "/elkeid_targets".

Definition copy_target (dst : bytes) (uid gid : Z) (entry : option (bytes * option bool)) : M unit :=
  e ← try_ entry; ty ← try_ (snd e);
  if ty : bool then mret tt
  else
    let dest_full := push dst (fst e) in
    r ← ask (CopyFile (push (bs "./elkeid_targets") (fst e)) dest_full); _ ← try_ r;
    r ← ask (Chown dest_full uid gid); try_ r.
Definition copy_elkeid_targets (dst : bytes) (ruid rgid : Z) : M unit :=
  b ← ask (Exists dst);
  (if b : bool then mret tt else r ← ask (CreateAll dst); try_ r);;
  r ← ask (Chown dst ruid rgid); _ ← try_ r;
  r ← ask (DirEntries (bs "./elkeid_targets")); entries ← try_ r;
  for_each (copy_target dst ruid rgid) entries.

(** The files are planted in a home and marked; a mark that fails is logged. *)
Definition plant (fm : FileMonitor) (u : bytes * (Z * Z * bytes)) : M unit :=
  let '(_, (uid, gid, home)) := u in
  copy_elkeid_targets (targets home) uid gid;;
  for_each (fun pot => _ ← attempt (add fm (targets home ++ bs "/" ++ pot)); mret tt) HONEYPOTS.

(** The users are walked in the order of the map, which is left open: [passwd_users]
    keeps that of the file. *)
(** [order] is the order in which the map of the users is iterated. *)
Definition HoneyPot_new (own : Z) (order : user_homes -> user_homes) : M HoneyPot :=
  o ← ask KernelVersion; v ← unwrap o;
  if negb (version_le H26_KERNEL_VERSION v) then sm_fail (Anyhow "kernel version unsupported")
  else
    o ← ask (ReadFile (bs "/etc/passwd")); content ← try_ o;
    us ← sm_lift (passwd_users (lines content) []);
    fm ← FileMonitor_new own;
    for_each (plant fm) (order us);;
    mret (mkHoneyPot (order us) fm).
Definition reset (hp : HoneyPot) : M unit := flush (moniter hp);; for_each (plant (moniter hp)) (homes hp).
(** [Drop] *)
Definition HoneyPot_drop (hp : HoneyPot) : M unit :=
  flush (moniter hp);; for_each (fun u => _ ← ask (RemoveDir (targets u.2.2)); mret tt) (homes hp).
End Monitor.

(** ** Events *)

(** No event that was asked for is dropped for its mask: whatever bit an event has
    of the mask a path was marked with, it has one of those the monitor looks for. *)
Theorem mask_covered v dir event :
  match_event_mask event (mask_for v dir) = true -> match_event_mask event (default_mask_set v) = true.
Proof.
  unfold match_event_mask, mask_for, default_mask_set. destruct (version_le H51_KERNEL_VERSION v); [|done].
  rewrite Z.land_lor_distr_r. rewrite !negb_true_iff, !Z.eqb_neq. intros Hm Hor. apply Z.lor_eq_0_iff in Hor as [H1 H2]. by destruct dir.
Qed.

Section Event_lemmas.
Context (own : Z) (v : Version).

(** An event is handled in one of four ways. *)
Inductive handled (e : FanEvent) : list FanAct -> bool -> Prop :=
  | Closed : handled e [Close (ev_fd e)] true
  | Ignored : handled e [] true
  | Refused : handled e [Close (ev_fd e); LockMain] false
  | Reported pf m : ev_link e 1 (exe_link (ev_pid e)) = Some pf -> ev_meta e = Some m ->
      handled e [SendTask (mkDetectTask (bs "6054") own (from_utf8_lossy pf)
        (match ev_link e 2 (exe_link (ev_pid e)) with Some pf => from_utf8_lossy pf | None => [] end) (m_len m)
        (get_file_btime m).1 (get_file_btime m).2
        (ev_sha256 e (match ev_link e 2 (exe_link (ev_pid e)) with Some pf => from_utf8_lossy pf | None => [] end)) None)] true.
Lemma handle_event_cases e : handled e (handle_event own v e).1 (handle_event own v e).2.
Proof.
  unfold handle_event. destruct (temporary _); [constructor|]. destruct (ev_link e 1 _) as [pf|] eqn:E1; [|constructor].
  case_bool_decide; [constructor|]. destruct (ev_meta e) as [m|] eqn:Em; [|constructor]. destruct (is_dir m); [constructor|].
  destruct (_ || _); [constructor|]. destruct (match_event_mask _ _); [|constructor]. destruct (ev_taken e); [|constructor].
  by constructor.
Qed.

(** A report of the monitor names neither the process nor the file of its event:
    the pid is the scanner's own, and the file is the program once more, since the
    link read for it is the program's.  What the detector makes of the task
    describes the scanner. *)
Theorem monitor_reports_itself e t {Engine} (h : Detector.Host Engine) s :
  (forall n n' p, ev_link e n p = ev_link e n' p) -> SendTask t ∈ (handle_event own v e).1 ->
  t_pid t = own /\ rpath t = path t /\ t_token t = ev_sha256 e (path t)
  /\ (proc h own <> None ->
      AntiRansomEvent.pid (ransom_event h t s) = show_i32 own
      /\ AntiRansomEvent.file_path (ransom_event h t s) = AntiRansomEvent.exe (ransom_event h t s)).
Proof.
  intros Hst Ht. destruct (handle_event_cases e) as [| | |pf m E1 Em].
  1-3: exfalso; set_solver. apply list_elem_of_singleton in Ht. injection Ht as ->.
  rewrite (Hst 2 1), E1. cbn [t_pid rpath path t_token]. split; [done|]. split; [done|]. split; [done|]. intros Hp. unfold ransom_event, AntiRansomEvent.new. cbn [t_pid].
  destruct (proc h own) as [p|]; [|done]. done.
Qed.

Definition closes (acts : list FanAct) : nat := length (List.filter (fun a => match a with Close _ => true | _ => false end) acts).
Definition sends (acts : list FanAct) : nat := length (List.filter (fun a => match a with SendTask _ => true | _ => false end) acts).

(** The descriptor of an event that is reported is never closed.  A batch of
    events that are all reported leaves every one of its descriptors open, and no
    batch closes more descriptors than it has events that are not reported. *)
Theorem reported_descriptor_leaks es :
  (forall e t, SendTask t ∈ (handle_event own v e).1 -> (handle_event own v e).1 = [SendTask t])
  /\ closes (handle_batch own v es) + sends (handle_batch own v es) <= length es
  /\ (Forall (fun e => exists t, SendTask t ∈ (handle_event own v e).1) es ->
      closes (handle_batch own v es) = 0 /\ sends (handle_batch own v es) = length es).
Proof.
  assert (H1 : forall e t, SendTask t ∈ (handle_event own v e).1 -> (handle_event own v e).1 = [SendTask t]).
  { intros e t Ht. destruct (handle_event_cases e); [exfalso; set_solver..|]. by apply list_elem_of_singleton in Ht as ->. }
  split; [done|]. split.
  - induction es as [|e es IH]; [done|]. cbn [handle_batch length]. pose proof (handle_event_cases e) as Hc.
    destruct (handle_event own v e) as [acts go]. cbn [fst snd] in Hc. unfold closes, sends in *. rewrite !List.filter_app, !length_app.
    destruct Hc; cbn; lia.
  - intros Hall. induction Hall as [|e es [t Ht] Hall IH]; [done|]. cbn [handle_batch length]. pose proof (handle_event_cases e) as Hc.
    specialize (H1 e t Ht). destruct (handle_event own v e) as [acts go]. cbn [fst snd] in *. subst acts.
    assert (go = true) as -> by (by inversion Hc). unfold closes, sends in *. rewrite !List.filter_app, !length_app. cbn. lia.
Qed.

(** A path is no name of a honeypot. *)
Lemma honeypot_sum_path p : starts_with p (bs "/") = true -> honeypot_sum p = None.
Proof.
  intros [r Hr]%starts_with_spec. unfold honeypot_sum, HONEYPOTSSHA256. cbn [map List.find fst snd].
  repeat (rewrite bool_decide_eq_false_2 by (subst; discriminate)). done.
Qed.

(** An event on a honeypot whose content is intact is reported like any other:
    the sums are kept by name, the path looked up is absolute, and no sum is ever
    found. *)
Theorem intact_honeypot_reported e pf m :
  (forall n n' p, ev_link e n p = ev_link e n' p) ->
  ev_link e 1 (exe_link (ev_pid e)) = Some pf -> starts_with (from_utf8_lossy pf) (bs "/") = true ->
  temporary (get_real_path_from_fd_link e own) = false -> ev_meta e = Some m -> is_dir m = false ->
  (0 < m_len m <= CLAMAV_MAX_FILESIZE)%Z -> match_event_mask (ev_mask e) (default_mask_set v) = true -> ev_taken e = true ->
  exists t, (handle_event own v e).1 = [SendTask t].
Proof.
  intros Hst E1 Hs Ht Em Hd Hl Hm Hq. unfold handle_event. rewrite Ht, E1, (Hst 2 1), E1, Em, Hd, Hm, Hq.
  rewrite bool_decide_eq_false_2 by (by rewrite honeypot_sum_path).
  replace (_ || _) with false; [by eexists|]. symmetry. apply orb_false_iff. lia.
Qed.
End Event_lemmas.

(** ** Users *)

Lemma passwd_line_panics l : passwd_line l = Panic <-> length (split_on ":" l) < 7.
Proof.
  unfold passwd_line. set (f := split_on ":" l). destruct (decide (length f < 7)) as [Hl|Hl].
  - split; [done|]. intros _. rewrite (lookup_ge_None_2 f 6) by lia. by destruct (f !! 2), (f !! 3).
  - split; [|done]. intros E. exfalso. revert E.
    destruct (lookup_lt_is_Some_2 f 0) as [x0 ->]; [lia|]. destruct (lookup_lt_is_Some_2 f 2) as [x2 ->]; [lia|].
    destruct (lookup_lt_is_Some_2 f 3) as [x3 ->]; [lia|]. destruct (lookup_lt_is_Some_2 f 5) as [x5 ->]; [lia|].
    destruct (lookup_lt_is_Some_2 f 6) as [x6 ->]; [lia|]. by repeat case_match.
Qed.
Lemma passwd_line_user l u : passwd_line l = Ret (Some u) ->
  exists shell, split_on ":" l !! 6 = Some shell /\ ends_with shell (bs "sh") = true
  /\ split_on ":" l !! 0 = Some u.1 /\ split_on ":" l !! 5 = Some u.2.2
  /\ (starts_with u.2.2 (bs "/root") || starts_with u.2.2 (bs "/home")) = true.
Proof.
  unfold passwd_line. intros E. repeat case_match; simplify_eq. eexists. naive_solver.
Qed.

(** A line that ends the reading: readable, with too few fields. *)
Definition short_line (l : bytes) : Prop := utf8_valid l = true /\ length (split_on ":" l) < 7.
#[global] Instance short_line_dec l : Decision (short_line l).
Proof. unfold short_line. apply _. Defined.

Lemma passwd_users_step l ls us :
  passwd_users (l :: ls) us =
    if decide (short_line l) then Panic
    else passwd_users ls (match (if utf8_valid l then passwd_line l else Ret None) with Ret (Some u) => insert_user u us | _ => us end).
Proof.
  cbn [passwd_users]. pose proof (passwd_line_panics l) as Hp. case_decide as Hs.
  - destruct Hs as [-> Hl%Hp]. by rewrite Hl.
  - destruct (utf8_valid l) eqn:Hv; [|done]. destruct (passwd_line l) as [[u|]|e|] eqn:El; [done|done| |].
    + exfalso. unfold passwd_line in El. by repeat case_match.
    + exfalso. apply Hs. split; [done|]. by apply Hp.
Qed.

Lemma insert_user_names u us : NoDup (map fst us) -> NoDup (map fst (insert_user u us)).
Proof.
  intros Hnd. unfold insert_user. rewrite map_app. apply NoDup_app. split; [|split; [|cbn; apply NoDup_singleton]].
  - clear -Hnd. induction us as [|v us IH]; [done|]. cbn [map] in Hnd. apply NoDup_cons in Hnd as [Hv Hnd]. rewrite filter_cons.
    case_decide; [|by apply IH]. cbn. constructor; [|by apply IH]. intros Hin. apply Hv.
    apply list_elem_of_fmap in Hin as (w & -> & Hw%list_elem_of_filter). apply list_elem_of_fmap. exists w. naive_solver.
  - intros n Hn Hu. cbn in Hu. apply list_elem_of_singleton in Hu as ->. apply list_elem_of_fmap in Hn as (w & Hw & [Hne _]%list_elem_of_filter). congruence.
Qed.

Lemma passwd_users_spec_acc ls us :
  (passwd_users ls us = Panic <-> List.Exists short_line ls)
  /\ forall us', passwd_users ls us = Ret us' -> NoDup (map fst us) ->
       NoDup (map fst us') /\ forall u, u ∈ us' -> u ∈ us \/ exists l, l ∈ ls /\ passwd_line l = Ret (Some u).
Proof.
  revert us. induction ls as [|l ls IH]; intros us.
  { split; [split; [done|by intros []%Exists_nil]|]. intros us' [= <-]. auto. }
  rewrite passwd_users_step, Exists_cons. case_decide as Hl; [split; [tauto|done]|].
  set (us1 := match _ with Ret _ => _ | _ => _ end). destruct (IH us1) as [IH1 IH2]. split; [rewrite IH1; tauto|].
  intros us' E Hnd. assert (Hnd1 : NoDup (map fst us1)).
  { unfold us1. destruct (utf8_valid l); [|done]. destruct (passwd_line l) as [[u|]|e|]; [by apply insert_user_names|done..]. }
  destruct (IH2 us' E Hnd1) as [Hnd' Hin]. split; [done|]. intros u Hu. destruct (Hin u Hu) as [Hu1|(k & Hk & Ek)]; [|right; exists k; set_solver].
  unfold us1 in Hu1. destruct (utf8_valid l); [|by left]. destruct (passwd_line l) as [[w|]|e|] eqn:El; [|by left..].
  unfold insert_user in Hu1. apply elem_of_app in Hu1 as [[_ Hu1]%list_elem_of_filter|Hu1]; [by left|].
  apply list_elem_of_singleton in Hu1 as ->. right. exists l. set_solver.
Qed.

(** Reading the users panics exactly when a line of /etc/passwd that is text has
    fewer than seven fields, an empty line or a comment for instance; otherwise the
    homes are those of users with a shell that ends in "sh", under /root or /home,
    each name once. *)
Theorem passwd_users_spec ls :
  (passwd_users ls [] = Panic <-> List.Exists short_line ls)
  /\ forall us, passwd_users ls [] = Ret us ->
       NoDup (map fst us)
       /\ forall u, u ∈ us -> exists l shell, l ∈ ls /\ split_on ":" l !! 0 = Some u.1 /\ split_on ":" l !! 5 = Some u.2.2
            /\ split_on ":" l !! 6 = Some shell /\ ends_with shell (bs "sh") = true
            /\ (starts_with u.2.2 (bs "/root") || starts_with u.2.2 (bs "/home")) = true.
Proof.
  destruct (passwd_users_spec_acc ls []) as [H1 H2]. split; [done|]. intros us E. destruct (H2 us E) as [Hnd Hin]; [constructor|].
  split; [done|]. intros u Hu. destruct (Hin u Hu) as [Hn|(l & Hl & El)]; [by apply not_elem_of_nil in Hn|].
  apply passwd_line_user in El as (shell & E1 & E2 & E3 & E4 & E5). by exists l, shell.
Qed.

(** ** What a set of honeypots has marked *)

Section Marks.
Context `{!RaspOs.Host}.
#[local] Abbreviation M := (SM (list call)).

(** The path was looked for and, if it was there, marked afterwards. *)
Definition marked (p : bytes) (h : list call) : Prop :=
  exists h1 h2, h = h1 ++ Exists p :: h2
  /\ (reply h1 (Exists p) = true -> exists mask, FanotifyMark FAN_MARK_ADD mask (Some p) ∈ h2).
Lemma marked_app p h t : marked p h -> marked p (h ++ t).
Proof.
  intros (h1 & h2 & -> & Hm). exists h1, (h2 ++ t). split; [by rewrite <- app_assoc|].
  intros [mask Hin]%Hm. exists mask. set_solver.
Qed.

(** Code that only adds to the calls made. *)
Definition extends {A} (m : M A) : Prop := forall h, exists t, snd (m h) = h ++ t.
Lemma extends_ret {A} (a : A) : extends (mret a).
Proof. intros h. exists []. by rewrite app_nil_r. Qed.
Lemma extends_ask c : extends (ask c).
Proof. intros h. by exists [c]. Qed.
Lemma extends_lift {A} (m : M A) : (forall h, snd (m h) = h) -> extends m.
Proof. intros Hm h. exists []. by rewrite Hm, app_nil_r. Qed.
Lemma extends_bind {A B} (m : M A) (k : A -> M B) : extends m -> (forall a, extends (k a)) -> extends (m ≫= k).
Proof.
  intros Hm Hk h. destruct (Hm h) as [t Ht]. unfold mbind, SM_bind. destruct (m h) as [[a|e|] h'] eqn:E; cbn in Ht; subst; [|by eexists..].
  destruct (Hk a (h ++ t)) as [t' Ht']. exists (t ++ t'). by rewrite Ht', app_assoc.
Qed.
Lemma extends_attempt {A} (m : M A) : extends m -> extends (attempt m).
Proof. intros Hm h. rewrite attempt_snd. apply Hm. Qed.
Lemma extends_for_each {A} (f : A -> M unit) xs : (forall x, extends (f x)) -> extends (for_each f xs).
Proof. intros Hf. induction xs as [|x xs IH]; [apply extends_ret|]. cbn [for_each]. apply extends_bind; [apply Hf|done]. Qed.

Ltac extends := repeat first
  [ apply extends_ret | match goal with |- extends (ask ?c) => exact (extends_ask c) end | apply extends_attempt
  | apply extends_for_each; intros ?
  | match goal with |- extends (_ ≫= _) => apply extends_bind; [|intros ?] end | apply extends_lift; by intros ? | case_match ].

Lemma extends_try {A} (o : option A) : extends (try_ o).
Proof. destruct o; apply extends_lift; done. Qed.
Lemma extends_add fm p : extends (add fm p).
Proof. unfold add. extends. Qed.
Lemma extends_copy dst uid gid : extends (copy_elkeid_targets dst uid gid).
Proof. unfold copy_elkeid_targets, copy_target. extends; apply extends_try. Qed.
Lemma extends_plant fm u : extends (plant fm u).
Proof. destruct u as [n [[uid gid] home]]. unfold plant. apply extends_bind; [apply extends_copy|intros _]. extends. apply extends_add. Qed.

Lemma add_marks fm p h : fst (add fm p h) <> Panic -> marked p (snd (add fm p h)).
Proof.
  unfold add, mbind, SM_bind, ask. cbn [calls calls_self set_calls].
  destruct (reply h (Exists p)) eqn:E; cbn [negb].
  - case_bool_decide; [done|]. intros _. exists h.
    destruct (version_le _ _); cbn; eexists; (split; [by destruct (_ =? 0)%Z; cbn; rewrite <- ?app_assoc|]); intros _; eexists; cbn [app]; rewrite ?elem_of_cons; eauto.
  - intros _. cbn. exists h, []. split; [done|]. congruence.
Qed.

(** After a loop that ends well, what each turn establishes and the calls keep holds
    for every turn. *)
Lemma for_each_all {A} (f : A -> M unit) (Q : A -> list call -> Prop) xs h h' :
  (forall x, extends (f x)) -> (forall x h t, Q x h -> Q x (h ++ t)) ->
  (forall x h h', f x h = (Ret tt, h') -> Q x h') ->
  for_each f xs h = (Ret tt, h') -> forall x, x ∈ xs -> Q x h'.
Proof.
  intros Hf Hmono Hq. revert h. induction xs as [|y xs IH]; intros h E x Hx; [by apply not_elem_of_nil in Hx|].
  cbn [for_each] in E. apply sm_bind_inv in E as ([] & h1 & E1 & E2). apply elem_of_cons in Hx as [->|Hx]; [|by eapply IH].
  destruct (extends_for_each f xs Hf h1) as [t Ht]. rewrite E2 in Ht. cbn in Ht. subst. by eapply Hmono, Hq.
Qed.

Definition planted (u : bytes * (Z * Z * bytes)) (h : list call) : Prop :=
  forall pot, pot ∈ HONEYPOTS -> marked (targets u.2.2 ++ bs "/" ++ pot) h.
Lemma plant_marks fm u h h' : plant fm u h = (Ret tt, h') -> planted u h'.
Proof.
  destruct u as [n [[uid gid] home]]. unfold plant. intros E. apply sm_bind_inv in E as ([] & h1 & _ & E). revert E.
  refine (for_each_all _ (fun pot h => marked (targets home ++ bs "/" ++ pot) h) HONEYPOTS h1 h' _ _ _).
  - intros x. extends. apply extends_add.
  - intros x h0 t. apply marked_app.
  - intros x h0 h2 E. apply sm_bind_inv in E as (o & h3 & Ea & E). injection E as <-.
    pose proof (add_marks fm (targets home ++ bs "/" ++ x) h0) as Hm. unfold attempt in Ea. destruct (add fm _ h0) as [[]]; injection Ea; intros; subst; by apply Hm.
Qed.

Lemma drop_removes hp h u : u ∈ homes hp -> RemoveDir (targets u.2.2) ∈ snd (HoneyPot_drop hp h).
Proof.
  intros Hu. assert (E : exists h', for_each (fun u => _ ← ask (RemoveDir (targets u.2.2)); mret tt) (homes hp)
    (h ++ [FanotifyMark FAN_MARK_FLUSH 0 None]) = (Ret tt, h')).
  { generalize (h ++ [FanotifyMark FAN_MARK_FLUSH 0 None]). clear Hu. induction (homes hp) as [|v us IH]; intros h0; [by eexists|].
    cbn [for_each]. unfold mbind, SM_bind, ask in *. apply IH. }
  destruct E as [h' E]. change (snd (HoneyPot_drop hp h)) with
    (snd (for_each (fun u => _ ← ask (RemoveDir (targets u.2.2)); mret tt) (homes hp) (h ++ [FanotifyMark FAN_MARK_FLUSH 0 None]))).
  rewrite E. cbn. revert u Hu. refine (for_each_all _ (fun u h => RemoveDir (targets u.2.2) ∈ h) (homes hp) _ _ _ _ _ E).
  - intros x. extends.
  - intros x h0 t Hx. apply elem_of_app. by left.
  - intros x h0 h2 [= <-]. cbn. apply elem_of_app. right. apply list_elem_of_here.
Qed.

End Marks.

(** ** Concrete runs *)

Section Runs.
(** One user with a shell, one without; the honeypot of [RaspOs.test_host]. *)
Definition passwd_host : RaspOs.Host := fun h c =>
  match c return answer c with
  | ReadFile _ => Some (bs "root:x:0:0:root:/root:/bin/bash" ++ [x0a] ++ bs "bin:x:1:1:bin:/bin:/sbin/nologin" ++ [x0a])
  | c => test_host h c
  end.
#[local] Existing Instance passwd_host.
Definition test_pots : HoneyPot :=
  mkHoneyPot [(bs "root", (0, 0, bs "/root")%Z)] (mkFileMonitor 3 77 (4, 19, 0)%Z).


(** A program wrote to a honeypot. *)
Definition test_event : FanEvent :=
  mkFanEvent FAN_MODIFY 9 50 (fun _ p => if bool_decide (p = exe_link 50) then Some (bs "/bin/cat") else Some (bs "/root/elkeid_targets/a.txt"))
    (Some (mkMeta false true 100 None None)) (fun _ => bs "00") true.
Lemma test_event_stable n n' p : ev_link test_event n p = ev_link test_event n' p.
Proof. done. Qed.

Lemma monitor_reports_itself_witness :
  exists t, (handle_event 77 (4, 19, 0)%Z test_event).1 = [SendTask t] /\
  (t_pid t = 77%Z /\ rpath t = path t /\ t_token t = bs "00"
   /\ (proc sample_host 77 <> None ->
      AntiRansomEvent.pid (ransom_event sample_host t (mkScan [] [] [] [] [] None)) = show_i32 77
      /\ AntiRansomEvent.file_path (ransom_event sample_host t (mkScan [] [] [] [] [] None))
         = AntiRansomEvent.exe (ransom_event sample_host t (mkScan [] [] [] [] [] None)))).
Proof.
  eexists. split; [vm_compute; reflexivity|].
  refine (monitor_reports_itself 77 (4, 19, 0)%Z test_event _ sample_host (mkScan [] [] [] [] [] None) test_event_stable _).
  vm_compute. apply list_elem_of_here.
Defined.

Lemma mask_covered_witness : match_event_mask FAN_MODIFY (default_mask_set (5, 4, 0)%Z) = true.
Proof. refine (mask_covered (5, 4, 0)%Z false FAN_MODIFY _). reflexivity. Defined.

Lemma intact_honeypot_reported_witness : exists t, (handle_event 77 (4, 19, 0)%Z test_event).1 = [SendTask t].
Proof.
  refine (intact_honeypot_reported 77 (4, 19, 0)%Z test_event (bs "/bin/cat") (mkMeta false true 100 None None) test_event_stable _ _ _ _ _ _ _ _);
    try (vm_compute; reflexivity). unfold CLAMAV_MAX_FILESIZE; cbn; lia.
Defined.
End Runs.
