(* ===== verification/ScanPlugin.v ===== *)
(** * The scanner plugin ([plugins/scanner/src/bin/scanner_plugin.rs])

    The program that puts the parts of the scanner together: it takes the lock of the
    pid file, chooses and fetches the signature database and starts its threads.  The
    receiving thread ([Detector.handle_task]), the two periodic jobs ([ScanJobs]) and
    the file monitors of the honeypots ([Honeypot.handle_event]) put tasks on one
    queue; the worker ([Detector.work_step]) takes them, and the rule updates the
    receiver hands over, and reports to the agent.  A step is one turn of a thread. *)

From S2P Require Import Prelude Bytes RustStd Encoder Bridge WireInst Client ScanEvents Updater Detector ScanJobs Honeypot.

(** ** State *)

(** A periodic job: what is left of its round, and whether it has seen the queue short
    enough for its next task. *)
Record Cron := mkCron { c_acts : list Act; c_passed : bool }.

Definition DIR_GATE : nat := 2.
Definition PROC_GATE : nat := 8.

Record Plugin (Engine : Type) := mkPlugin {
  own_pid : Z;
  recv : Receiver;
  det : Detector Engine;
  rules_wait : option Task;      (** the receiver waits to hand a rule update over *)
  job_dir : Cron;
  job_proc : Cron;
  monitors : list bool;          (** the threads of the file monitors: whether their descriptor is open *)
  heard : list Task;             (** every task received *)
  accepted : list DetectTask;    (** every task put on the queue *)
  taken : list DetectTask;       (** every task the worker took *)
}.
Arguments mkPlugin {Engine}. Arguments own_pid {Engine}. Arguments recv {Engine}. Arguments det {Engine}.
Arguments rules_wait {Engine}. Arguments job_dir {Engine}. Arguments job_proc {Engine}.
Arguments monitors {Engine}. Arguments heard {Engine}. Arguments accepted {Engine}. Arguments taken {Engine}.

(** ** The start *)

(** What [main] meets: whether the pid file can be created and its lock is free, the
    variable DETAIL, the network, and whether [clamav_init] succeeds. *)
Record Start := mkStart { pid_file : bool; lock_free : bool; detail : option bytes; start_net : Net; init_ok : bool }.

Section main.
Context {Engine : Type} (C : Crates Engine).

Definition default_manager : outcome DBManager := DBManager_new ARCHIVE_DB_VERSION ARCHIVE_DB_HASH ARCHIVE_DB_PWD DB_URLS.

Definition choose_manager (detail : option bytes) : outcome DBManager :=
  match detail with
  | Some val => match parse_rules C val with Some t => Ret t | None => default_manager end
  | None => default_manager
  end.

Definition Plugin_new (pid : Z) (c : Client) (dm : DBManager) (s : Disk) : Plugin Engine :=
  mkPlugin pid (mkReceiver [] false [] [] false) (mkDetector c None dm s false [] false) None
    (mkCron [] false) (mkCron [] false) [] [] [] [].

(** [None] when [main] returns before it starts a thread. *)
Definition main (pid : Z) (c : Client) (e : Start) : SM Disk (option (Plugin Engine)) :=
  if negb (pid_file e) then sm_panic
  else if negb (lock_free e) then mret None
  else
    match choose_manager (detail e) with
    | Panic => sm_panic
    | Fail _ => mret None
    | Ret dm => fun s =>
        match get (sha256_digest C) (hex C) (hex_decode C) (unzip C) (start_net e) dm s with
        | (Ret _, s) => if init_ok e then (Ret (Some (Plugin_new pid c dm s)), s) else (Panic, s)
        | (_, s) => (Ret None, s)
        end
    end.
End main.

(** ** Turns *)

Section turns.
Context {Engine : Type} (C : Crates Engine) `{CodedOutputStream}.
#[local] Abbreviation P := (Plugin Engine).

(** The main thread was told to exit. *)
Definition exited (p : P) : bool := told_exit (recv p) || s_locker (det p).

Definition tell_exit (r : Receiver) : Receiver := mkReceiver (queue r) (honeypot r) (rules_out r) (r_cgroups r) true.

(** The queue after a thread other than the worker had its turn. *)
Definition set_recv (r : Receiver) (p : P) : P :=
  mkPlugin (own_pid p) r (det p) (rules_wait p) (job_dir p) (job_proc p) (monitors p) (heard p)
    (accepted p ++ drop (length (queue (recv p))) (queue r)) (taken p).
Definition set_jobs (d q : Cron) (p : P) : P :=
  mkPlugin (own_pid p) (recv p) (det p) (rules_wait p) d q (monitors p) (heard p) (accepted p) (taken p).
Definition set_monitors (ms : list bool) (p : P) : P :=
  mkPlugin (own_pid p) (recv p) (det p) (rules_wait p) (job_dir p) (job_proc p) ms (heard p) (accepted p) (taken p).
Definition hear (t : Task) (w : option Task) (p : P) : P :=
  mkPlugin (own_pid p) (recv p) (det p) w (job_dir p) (job_proc p) (monitors p) (heard p ++ [t]) (accepted p) (taken p).

(** Setting the honeypots up starts a monitor; dropping them closes its descriptor. *)
Definition monitors_after (before after : bool) (ms : list bool) : list bool :=
  match before, after with
  | false, true => ms ++ [true]
  | true, false => map (fun _ => false) ms
  | _, _ => ms
  end.

(** A task of the agent.  The channel of the rules has no room: the receiver waits
    until the worker takes the update. *)
Definition task_turn (hp : bool) (t : Task) (p : P) : option P :=
  match rules_wait p with
  | Some _ => None
  | None =>
      if bool_decide (task_data_type t = 6050%Z) then Some (hear t (Some t) p)
      else
        let r := snd (handle_task C (own_pid p) hp true t (recv p)) in
        Some (set_monitors (monitors_after (honeypot (recv p)) (honeypot r) (monitors p)) (set_recv r (hear t None p)))
  end.

(** The pipe of the agent fails. *)
Definition fail_turn (p : P) : option P :=
  match rules_wait p with Some _ => None | None => Some (set_recv (tell_exit (recv p)) p) end.

(** A periodic job waits until the queue is short, then for room, and rests. *)
Definition cron_turn (gate : nat) (c : Cron) (r : Receiver) : option (Cron * Receiver) :=
  match c_acts c with
  | [] => None
  | Send t :: acts =>
      if c_passed c then
        if decide (length (queue r) < QUEUE_CAP) then Some (mkCron acts false, set_queue (queue r ++ [t]) r) else None
      else if decide (gate < length (queue r)) then None else Some (mkCron (c_acts c) true, r)
  | Lock :: acts => Some (mkCron acts false, tell_exit r)
  | Sleep _ :: acts => Some (mkCron acts false, r)
  end.
Definition dir_turn (p : P) : option P :=
  '(c, r) ← cron_turn DIR_GATE (job_dir p) (recv p); Some (set_jobs c (job_proc p) (set_recv r p)).
Definition proc_turn (p : P) : option P :=
  '(c, r) ← cron_turn PROC_GATE (job_proc p) (recv p); Some (set_jobs (job_dir p) c (set_recv r p)).

(** A monitor handles an event; a read from a closed descriptor is an error, which
    is told to the main thread. *)
Definition fan_act (a : FanAct) (r : Receiver) : Receiver :=
  match a with
  | Close _ => r
  | SendTask t => set_queue (queue r ++ [t]) r
  | LockMain => tell_exit r
  end.
Definition monitor_turn (v : Version) (i : nat) (ev : FanEvent) (p : P) : option P :=
  if bool_decide (is_Some (monitors p !! i)) then
    if bool_decide (ev_taken ev = bool_decide (length (queue (recv p)) < QUEUE_CAP))
    then Some (set_recv (foldl (fun r a => fan_act a r) (recv p) (handle_event (own_pid p) v ev).1) p)
    else None
  else None.
Definition read_fails_turn (i : nat) (p : P) : option P :=
  if bool_decide (monitors p !! i = Some false) then Some (set_recv (tell_exit (recv p)) p) else None.

(** The worker: [select!] takes a rule update or a task that is there, and times out
    when there is neither. *)
Definition worked (m : Message) (h : Host Engine) (r : Receiver) (w : option Task) (ts : list DetectTask) (p : P) : P :=
  mkPlugin (own_pid p) r (snd (work_step C h m (det p))) w (job_dir p) (job_proc p) (monitors p) (heard p) (accepted p) (taken p ++ ts).
Definition rules_turn (h : Host Engine) (p : P) : option P :=
  t ← rules_wait p;
  Some (worked (Rules (Some (task_data t))) h (snd (handle_task C (own_pid p) true true t (recv p))) None [] p).
Definition job_turn (h : Host Engine) (p : P) : option P :=
  match queue (recv p) with
  | [] => None
  | t :: q => Some (worked (Detector.Job (Some t)) h (set_queue q (recv p)) (rules_wait p) [t] p)
  end.
Definition timeout_turn (h : Host Engine) (p : P) : option P :=
  match queue (recv p), rules_wait p with
  | [], None => Some (worked Timeout h (recv p) None [] p)
  | _, _ => None
  end.

(** The agent goes away: its end of the pipe is closed. *)
Definition close_turn (p : P) : P :=
  mkPlugin (own_pid p) (recv p) (set_client (mkClient (writer (d_client (det p))) false (reader (d_client (det p)))) (det p))
    (rules_wait p) (job_dir p) (job_proc p) (monitors p) (heard p) (accepted p) (taken p).
End turns.

(** ** Runs *)

Section runs.
Context {Engine : Type} (C : Crates Engine) `{CodedOutputStream} {W : Type} `{!WalkDir W}.
#[local] Abbreviation P := (Plugin Engine).

(** The records of a full scan are those its workers send ([ScanJobs.worker]). *)
Definition scanned (h : Host Engine) : Prop :=
  Forall (fun r => exists e h' t, worker_record C e h' t = Some r) (full_scan h).

(** A turn of a thread while the main thread waits. *)
Inductive turn (p : P) : P -> Prop :=
  | TTask hp t p' : task_turn C hp t p = Some p' -> turn p p'
  | TFail p' : fail_turn p = Some p' -> turn p p'
  | TDir p' : dir_turn p = Some p' -> turn p p'
  | TDirRound order fuel start (confs : list (W * Z)) acts :
      c_acts (job_dir p) = [] -> dir_round order fuel start confs = Some acts ->
      turn p (set_jobs (mkCron acts false) (job_proc p) p)
  | TProc p' : proc_turn p = Some p' -> turn p p'
  | TProcRound order start now es acts :
      c_acts (job_proc p) = [] -> proc_round order start now es = Ret acts ->
      turn p (set_jobs (job_dir p) (mkCron acts false) p)
  | TMonitor v i ev p' : monitor_turn v i ev p = Some p' -> turn p p'
  | TReadFails i p' : read_fails_turn i p = Some p' -> turn p p'
  | TRules h p' : scanned h -> rules_turn C h p = Some p' -> turn p p'
  | TJob h p' : scanned h -> job_turn C h p = Some p' -> turn p p'
  | TTimeout h p' : scanned h -> timeout_turn C h p = Some p' -> turn p p'
  | TClose : turn p (close_turn p).

Inductive pstep (p : P) : P -> Prop := step_turn p' : exited p = false -> turn p p' -> pstep p p'.
End runs.

(** ** What a message reports *)

Section reports.
Context {Engine : Type} (C : Crates Engine) `{CodedOutputLaws}.

Definition frames_of (rs : list Record_) : bytes := concat (map (fun r => framed (Record_write r)) rs).

(** The computation returns, having written the frames of records that satisfy [Q]. *)
Definition reports {A} (Q : list Record_ -> Prop) (m : SM (Detector Engine) A) : Prop :=
  forall d, exists rs a, Q rs /\ fst (m d) = Ret a /\ writer (d_client (snd (m d))) = writer (d_client d) ++ frames_of rs.

Lemma reports_none {A} (Q : list Record_ -> Prop) (m : SM (Detector Engine) A) :
  Q [] -> (forall d, exists a, fst (m d) = Ret a) -> (forall d, d_client (snd (m d)) = d_client d) -> reports Q m.
Proof. intros HQ Hr Hm d. destruct (Hr d) as [a Ha]. exists [], a. split; [done|]. rewrite Hm. by rewrite app_nil_r. Qed.

Lemma reports_ret {A} (Q : list Record_ -> Prop) (a : A) : Q [] -> reports Q (mret a).
Proof. intros HQ. apply reports_none; [done|eauto|done]. Qed.
Lemma reports_modify (Q : list Record_ -> Prop) f :
  Q [] -> (forall d, d_client (f d) = d_client d) -> reports Q (sm_modify f).
Proof. intros HQ Hf. apply reports_none; [done|eauto|done]. Qed.
Lemma reports_lock (Q : list Record_ -> Prop) : Q [] -> reports Q lock_and_return.
Proof. intros HQ. apply reports_none; [done|eauto|done]. Qed.

Lemma reports_bind {A B} (Q1 Q2 Q : list Record_ -> Prop) (m : SM (Detector Engine) A) (k : A -> SM (Detector Engine) B) :
  (forall r1 r2, Q1 r1 -> Q2 r2 -> Q (r1 ++ r2)) -> reports Q1 m -> (forall a, reports Q2 (k a)) -> reports Q (m ≫= k).
Proof.
  intros HQ Hm Hk d. destruct (Hm d) as (rs & a & Hrs & Ea & E). unfold mbind, SM_bind.
  destruct (m d) as [o d']. cbn in Ea, E |- *. subst o.
  destruct (Hk a d') as (rs' & b & Hrs' & Eb & E'). exists (rs ++ rs'), b. split; [by apply HQ|]. split; [done|].
  unfold frames_of. by rewrite E', E, map_app, concat_app, app_assoc.
Qed.

Lemma reports_weaken {A} (Q Q' : list Record_ -> Prop) (m : SM (Detector Engine) A) :
  (forall rs, Q rs -> Q' rs) -> reports Q m -> reports Q' m.
Proof. intros HQ Hm d. destruct (Hm d) as (rs & a & Hrs & E). exists rs, a. auto. Qed.

(** A record that cannot be sent leaves nothing in the pipe. *)
Lemma send_record_writes r c :
  exists rs, (rs = [] \/ rs = [r]) /\ writer (snd (send_record r c)) = writer c ++ frames_of rs.
Proof.
  destruct c as [w [] rd].
  - exists [r]. split; [by right|]. unfold send_record, write_all, mbind, SM_bind, frames_of, framed.
    cbn [writer_open writer reader snd map concat]. by rewrite app_nil_r, Record_size_write, <- app_assoc.
  - exists []. split; [by left|]. unfold send_record, write_all, mbind, SM_bind. cbn. by rewrite app_nil_r.
Qed.

Lemma reports_try_send r : reports (fun rs => rs = [] \/ rs = [r]) (try_send r).
Proof.
  intros d. destruct (send_record_writes r (d_client d)) as (rs & Hrs & E). unfold try_send.
  destruct (send_record r (d_client d)) as [o c]. by exists rs, (match o with Ret _ => true | _ => false end).
Qed.

Lemma reports_send_or_exit r : reports (fun rs => rs = [] \/ rs = [r]) (send_or_exit r).
Proof.
  apply (reports_bind (fun rs => rs = [] \/ rs = [r]) (fun rs => rs = [])); [|apply reports_try_send|].
  - intros r1 r2 H1 ->. by rewrite app_nil_r.
  - intros []; [by apply reports_ret|by apply reports_lock].
Qed.

Lemma reports_load (Q : list Record_ -> Prop) : Q [] -> reports Q (load_engine C).
Proof.
  intros HQ. apply reports_none; [done|intros d|intros d]; unfold load_engine;
    destruct (load _ _ _ _ _) as [[] s]; eauto; destruct (new_engine C (dat s)); eauto.
Qed.

(** The types of records other than answers: the end of a full scan, detections in
    files and processes, honeypots, rule updates. *)
Definition known (r : Record_) : Prop := data_type r ∈ [6000; 6001; 6002; 6005; 6010]%Z.

Lemma event_record_type dt n kvs : data_type (event_record dt n kvs) = dt.
Proof. unfold event_record. by rewrite (proj1 (insert_fields_stamp _ _)). Qed.
Lemma known_event dt n kvs : bool_decide (dt ∈ [6000; 6001; 6002; 6005; 6010]%Z) = true -> known (event_record dt n kvs).
Proof. intros Hd%bool_decide_eq_true. unfold known. by rewrite event_record_type. Qed.

Lemma worker_record_known e h t r : worker_record C e h t = Some r -> known r.
Proof.
  unfold worker_record, if_detected. intros Hw. case_bool_decide; [|case_bool_decide; [|done]];
    apply bind_Some in Hw as (s & _ & Hw); case_bool_decide; simplify_eq; by apply known_event.
Qed.

Section arms.
Context (h : Host Engine).

Lemma Forall_opt r rs : known r -> rs = [] \/ rs = [r] -> Forall known rs.
Proof. intros Hr [->| ->]; [apply Forall_nil_2|by apply Forall_singleton]. Qed.

Lemma reports_known_send r : known r -> reports (Forall known) (send_or_exit r).
Proof. intros Hr. eapply reports_weaken; [|apply reports_send_or_exit]. intros rs. by apply Forall_opt. Qed.

Lemma reports_known_bind {A B} (m : SM (Detector Engine) A) (k : A -> SM (Detector Engine) B) :
  reports (Forall known) m -> (forall a, reports (Forall known) (k a)) -> reports (Forall known) (m ≫= k).
Proof. apply reports_bind. intros. by apply Forall_app. Qed.

Lemma reports_renew : reports (Forall known) (renew_scanner C).
Proof.
  apply reports_known_bind; [by apply reports_modify|intros _]. apply reports_known_bind; [by apply reports_load|].
  intros []; [by apply reports_ret|by apply reports_lock].
Qed.

Lemma reports_rules rdata : reports (Forall known) (rules_arm C h rdata).
Proof.
  unfold rules_arm. destruct rdata as [rdata|]; [|apply reports_renew]. destruct (parse_rules C rdata) as [dm|]; [|by apply reports_ret].
  apply reports_known_bind.
  { apply reports_none; [done| |]; intros d; unfold update_db; destruct (update _ _ _ _ _ _ _ _ _ _) as [[? ?] ?]; eauto. }
  intros _. apply reports_known_bind; [apply reports_known_send; by apply known_event|].
  intros []; [apply reports_renew|by apply reports_ret].
Qed.

Lemma reports_scan_arm t report :
  (forall s r, report s = Some r -> known r) -> reports (Forall known) (scan_arm C h t report).
Proof.
  intros Hr d. unfold scan_arm. destruct (scanner d ≫= _) as [s|]; [|by apply reports_ret].
  destruct (report s) as [r|] eqn:E; [by apply reports_known_send, (Hr s)|by apply reports_ret].
Qed.

Lemma reports_full_scan t : Forall known (full_scan h) -> reports (Forall known) (full_scan_arm h t).
Proof.
  intros Hf d. unfold full_scan_arm. destruct (scanner d); [|by apply reports_ret]. revert d.
  apply reports_known_bind; [by apply reports_modify|intros _]. apply reports_known_bind.
  { induction Hf as [|r rs Hr _ IH]; [by apply reports_ret|]. apply reports_known_bind; [|done].
    eapply reports_weaken; [|apply reports_try_send]. intros rs'. by apply Forall_opt. }
  intros _. apply reports_known_bind; [by apply reports_modify|intros _]. apply reports_known_bind.
  { eapply reports_weaken; [|apply reports_try_send]. intros rs'. apply Forall_opt. by apply known_event. }
  intros _. apply reports_known_bind; [by apply reports_modify|]. intros _. by apply reports_ret.
Qed.

(** At most one answer, with the token of its task. *)
Definition at_most_one_answer (t : DetectTask) (rs : list Record_) : Prop :=
  rs = [] \/ exists r, rs = [r] /\ data_type r = 6003%Z /\ field r (bs "token") = Some (t_token t).

Lemma answers_one t r rs : answers h t r -> rs = [] \/ rs = [r] -> at_most_one_answer t rs.
Proof. intros (H1 & _ & H2) [->| ->]; [by left|right; eauto]. Qed.

Lemma reports_one_task t : reports (at_most_one_answer t) (one_task_arm C h t).
Proof.
  intros d. unfold one_task_arm. destruct (metadata h (path t)) as [[[len a] b]|err].
  - destruct (scanner d ≫= _) as [s|]; [|apply reports_ret; by left].
    destruct (one_task_answer C h (one_task_event t len a b s) t eq_refl) as [H1 H2].
    destruct (add_ons t) as [addons|]; (eapply reports_weaken; [|apply reports_send_or_exit]; intros rs; by apply answers_one).
  - destruct (one_task_answer C h (one_task_error t err) t eq_refl) as [H1 _]. revert d.
    apply (reports_bind (at_most_one_answer t) (fun rs => rs = [])); [| |].
    + intros r1 r2 Hr ->. by rewrite app_nil_r.
    + eapply reports_weaken; [|apply reports_send_or_exit]. intros rs. by apply answers_one.
    + intros _. by apply reports_ret.
Qed.

Definition message_reports (m : Message) (rs : list Record_) : Prop :=
  match m with
  | Detector.Job (Some t) => if bool_decide (task_type t = bs "6053") then at_most_one_answer t rs else Forall known rs
  | _ => Forall known rs
  end.

Lemma reports_task t : Forall known (full_scan h) -> reports (message_reports (Detector.Job (Some t))) (task_arm C h t).
Proof.
  intros Hf. unfold message_reports. destruct (bool_decide (task_type t = bs "6053")) eqn:E.
  - apply bool_decide_eq_true in E. unfold task_arm. rewrite E. apply reports_one_task.
  - unfold task_arm. rewrite E. clear E.
    case_bool_decide; [apply reports_scan_arm; intros s r; unfold if_detected; case_bool_decide; [done|]; intros [= <-]; by apply known_event|].
    case_bool_decide; [apply reports_scan_arm; intros s r; unfold if_detected; case_bool_decide; [done|]; intros [= <-]; by apply known_event|].
    case_bool_decide; [apply reports_scan_arm; intros s r [= <-]; by apply known_event|].
    case_bool_decide; [apply reports_known_bind; [by apply reports_modify|intros _; by apply reports_ret]|].
    case_bool_decide; [apply reports_known_bind; [by apply reports_modify|intros _; by apply reports_ret]|].
    case_bool_decide; [by apply reports_full_scan|by apply reports_ret].
Qed.

Lemma reports_step m : Forall known (full_scan h) -> m <> Detector.Job None -> reports (message_reports m) (work_step C h m).
Proof.
  intros Hf Hm. destruct m as [rdata|[t|]|]; [apply reports_rules| |done|apply reports_known_bind; [by apply reports_modify|intros _; by apply reports_ret]].
  assert (Hnil : message_reports (Detector.Job (Some t)) []) by (unfold message_reports; case_bool_decide; [by left|done]).
  unfold work_step, job_arm. apply (reports_bind (fun rs => rs = []) (message_reports (Detector.Job (Some t)))); [by intros ? ? ->|apply reports_none; eauto|intros loaded].
  apply (reports_bind (fun rs => rs = []) (message_reports (Detector.Job (Some t)))); [by intros ? ? ->|destruct loaded; [by apply reports_ret|by apply reports_load]|].
  intros []; [by apply reports_task|by apply reports_lock].
Qed.
End arms.
End reports.

(** ** The invariant of a run *)

(** The tokens of the scan tasks the agent sent, of the one-time jobs of a list, and
    of the answers among records. *)
Definition asked (ts : list Task) : list bytes := map token (filter (fun t => task_data_type t = 6053%Z) ts).
Definition one_time (ts : list DetectTask) : list bytes := map t_token (filter (fun t => task_type t = bs "6053") ts).
Definition answered (rs : list Record_) : list bytes :=
  map (fun r => default [] (field r (bs "token"))) (filter (fun r => data_type r = 6003%Z) rs).
#[local] Arguments asked : simpl never.
#[local] Arguments one_time : simpl never.
#[local] Arguments answered : simpl never.

Lemma asked_app ts us : asked (ts ++ us) = asked ts ++ asked us.
Proof. unfold asked. by rewrite filter_app, map_app. Qed.
Lemma one_time_app ts us : one_time (ts ++ us) = one_time ts ++ one_time us.
Proof. unfold one_time. by rewrite filter_app, map_app. Qed.
Lemma answered_app rs qs : answered (rs ++ qs) = answered rs ++ answered qs.
Proof. unfold answered. by rewrite filter_app, map_app. Qed.
Lemma one_time_none ts : Forall (fun t => task_type t <> bs "6053") ts -> one_time ts = [].
Proof. unfold one_time. induction 1 as [|t ts Ht _ IH]; [done|]. by rewrite filter_cons_False. Qed.
Lemma one_time_one t : one_time [t] `sublist_of` [t_token t].
Proof. unfold one_time. rewrite filter_cons, filter_nil. case_decide; [done|apply sublist_nil_l]. Qed.
Lemma asked_one t : task_data_type t = 6053%Z -> asked [t] = [token t].
Proof. intros Ht. unfold asked. by rewrite filter_cons_True. Qed.
Lemma answered_known rs : Forall known rs -> answered rs = [].
Proof.
  unfold answered. induction 1 as [|r rs Hr _ IH]; [done|]. rewrite filter_cons_False; [done|].
  unfold known in Hr. intros E. rewrite E in Hr. apply (bool_decide_eq_true_2 _) in Hr. by vm_compute in Hr.
Qed.

Section invariant.
Context {Engine : Type} (C : Crates Engine) `{CodedOutputLaws} {W : Type} `{!WalkDir W}.
#[local] Abbreviation P := (Plugin Engine).

(** A job sends tasks of its type only. *)
Definition sends_only (ty : bytes) (acts : list Act) : Prop :=
  Forall (fun a => match a with Send t => task_type t = ty | _ => True end) acts.

Lemma dir_sends order fuel start (confs : list (W * Z)) acts :
  dir_round order fuel start confs = Some acts -> sends_only (bs "6051") acts.
Proof.
  assert (Hw : forall fuel w acts, walk dir_job order fuel w = Some acts -> sends_only (bs "6051") acts).
  { intros n. induction n as [|n IH]; intros w a; cbn [walk]; [done|].
    destruct (next w) as [[[e|]|] w']; [|by intros [= <-]; constructor..].
    case_bool_decide; [apply IH|]. case_bool_decide; [apply IH|]. intros (a' & E & [= <-])%bind_Some.
    apply Forall_app. split; [|by apply (IH w')]. unfold visit. destruct (e_meta e) as [m|]; [|constructor].
    destruct (passes dir_job m); [|constructor]. destruct (fits dir_job (m_len m)); [|constructor].
    cbn. destruct (e_open e); by repeat constructor. }
  revert acts. induction confs as [|[w n] confs IH]; intros acts; cbn [dir_round]; [intros [= <-]; constructor|].
  intros (a & E & (b & E' & [= <-])%bind_Some)%bind_Some. apply Forall_app. split; [by apply (Hw fuel w)|]. apply Forall_cons. split; [done|by apply IH].
Qed.

Lemma proc_sends order start now es acts : proc_round order start now es = Ret acts -> sends_only (bs "6052") acts.
Proof.
  unfold proc_round. destruct es as [es|]; [|done]. intros [= <-]. apply Forall_app. split; [|by repeat constructor].
  unfold scan_processes. induction es as [|e es IH]; [constructor|]. cbn [map concat]. apply Forall_app. split; [|done].
  unfold visit_process. destruct (p_name e ≫= _); [|constructor]. destruct (p_exe e); [|constructor].
  case_bool_decide; [|constructor]. destruct (p_meta e) as [m|]; [|constructor]. destruct (is_dir m); [constructor|].
  case_match; [|constructor]. destruct (p_open e); by repeat constructor.
Qed.

(** What the receiver puts on the queue for a task. *)
Lemma handle_task_queue ppid hp alive t r :
  exists new, queue (snd (handle_task C ppid hp alive t r)) = queue r ++ new /\ one_time new `sublist_of` asked [t].
Proof.
  assert (Hp : forall t' r', queue r' = queue r -> task_type t' <> bs "6053" \/ (task_data_type t = 6053%Z /\ t_token t' = token t) ->
    exists new, queue (snd (try_push t' r')) = queue r ++ new /\ one_time new `sublist_of` asked [t]).
  { intros t' r' E Ht. unfold try_push. rewrite E. case_decide; [|exists []; cbn [snd]; rewrite E, app_nil_r; split; [done|apply sublist_nil_l]].
    exists [t']. split; [done|]. destruct Ht as [Hn|[Hd Ht]]; [rewrite one_time_none by (by apply Forall_singleton); apply sublist_nil_l|].
    rewrite (asked_one t Hd), <- Ht. apply one_time_one. }
  assert (Hn : forall r', queue r' = queue r -> exists new, queue r' = queue r ++ new /\ one_time new `sublist_of` asked [t])
    by (intros r' ->; exists []; rewrite app_nil_r; split; [done|apply sublist_nil_l]).
  unfold handle_task. case_bool_decide as E.
  { case_decide; [by apply Hn|]. destruct (parse_map C (task_data t)) as [m|]; [|by apply Hn].
    destruct (m !! bs "exe") as [exe|]; [|by apply Hn]. destruct (starts_with exe (bs "/")); [|by apply Hn]. apply Hp; [done|by right]. }
  case_bool_decide; [destruct alive; by apply Hn|]. case_bool_decide; [destruct (honeypot r); by apply Hn|].
  case_bool_decide; [by apply Hn|]. case_bool_decide; [by apply Hn|].
  case_bool_decide; [apply Hp; [done|by left]|]. case_bool_decide.
  { assert (Hm : task_type (mode_task (bs "6056")) <> bs "6053") by done. pose proof (Hp _ r eq_refl (or_introl Hm)) as Hq.
    by destruct (try_push (mode_task (bs "6056")) r) as [[] r']. }
  case_bool_decide; [|by apply Hn]. destruct (parse_map C (task_data t)); [apply Hp; [done|by left]|by apply Hn].
Qed.

(** A monitor queues at most one task, and only when there is room. *)
Lemma monitor_queue own v ev r :
  ev_taken ev = bool_decide (length (queue r) < QUEUE_CAP) -> queue_ok r ->
  exists new, queue (foldl (fun r a => fan_act a r) r (handle_event own v ev).1) = queue r ++ new /\ one_time new = []
  /\ queue_ok (foldl (fun r a => fan_act a r) r (handle_event own v ev).1).
Proof.
  intros Ht [Hl Hq]. assert (Hz : forall r', queue r' = queue r -> exists new, queue r' = queue r ++ new /\ one_time new = [] /\ queue_ok r').
  { intros r' E. exists []. rewrite app_nil_r. split; [done|]. split; [done|]. unfold queue_ok. by rewrite E. }
  assert (Hsend : forall t, task_type t = bs "6054" -> length (queue r) < QUEUE_CAP ->
    exists new, queue (fan_act (SendTask t) r) = queue r ++ new /\ one_time new = [] /\ queue_ok (fan_act (SendTask t) r)).
  { intros t E Hr. exists [t]. split; [done|]. split; [apply one_time_none, Forall_singleton; by rewrite E|].
    split; cbn [queue set_queue fan_act]; [rewrite length_app; cbn; lia|]. apply Forall_app. split; [done|].
    apply Forall_singleton. by split; rewrite E. }
  unfold handle_event. repeat case_match; try (by apply Hz); (apply Hsend; [done|]); symmetry in Ht; by apply bool_decide_eq_true in Ht.
Qed.

Lemma cron_queue gate ty c r c' r' :
  cron_turn gate c r = Some (c', r') -> ty <> bs "6053" -> ty <> bs "6057" -> sends_only ty (c_acts c) -> queue_ok r ->
  sends_only ty (c_acts c') /\ queue_ok r' /\ exists new, queue r' = queue r ++ new /\ one_time new = [].
Proof.
  intros E Ht1 Ht2 Hs [Hl Hq]. unfold cron_turn in E. unfold sends_only in *. destruct (c_acts c) as [|[t| |n] acts] eqn:Ea; [done| | |].
  - pose proof Hs as Hs0. apply Forall_cons in Hs as [Ht Hs]. destruct (c_passed c).
    + case_decide; [|done]. injection E as <- <-. split; [done|]. split.
      * split; cbn [queue set_queue]; [rewrite length_app; cbn; lia|]. apply Forall_app. split; [done|].
        apply Forall_singleton. by split; rewrite Ht.
      * exists [t]. split; [done|]. apply one_time_none, Forall_singleton. by rewrite Ht.
    + case_decide; [done|]. injection E as <- <-. rewrite <- Ea in Hs0. cbn [c_acts]. rewrite Ea in *. split; [done|]. split; [done|].
      exists []. by rewrite app_nil_r.
  - apply Forall_cons in Hs as [_ Hs]. injection E as <- <-. split; [done|]. split; [done|]. exists []. by rewrite app_nil_r.
  - apply Forall_cons in Hs as [_ Hs]. injection E as <- <-. split; [done|]. split; [done|]. exists []. by rewrite app_nil_r.
Qed.

Record plugin_ok (w0 : bytes) (p : P) : Prop := {
  ok_order : accepted p = taken p ++ queue (recv p);
  ok_queue : queue_ok (recv p);
  ok_engine : engine_ok C (det p);
  ok_dir : sends_only (bs "6051") (c_acts (job_dir p));
  ok_proc : sends_only (bs "6052") (c_acts (job_proc p));
  ok_rules : forall t, rules_wait p = Some t -> task_data_type t = 6050%Z;
  ok_asked : one_time (accepted p) `sublist_of` asked (heard p);
  ok_reports : exists rs, writer (d_client (det p)) = w0 ++ frames_of rs
    /\ Forall (fun r => known r \/ data_type r = 6003%Z) rs /\ answered rs `sublist_of` one_time (taken p);
}.

(** A turn that puts [new] on the queue, for the tasks [ts] of the agent. *)
Lemma ok_push w0 r new ts w d q ms p :
  plugin_ok w0 p -> queue r = queue (recv p) ++ new -> queue_ok r -> one_time new `sublist_of` asked ts ->
  sends_only (bs "6051") (c_acts d) -> sends_only (bs "6052") (c_acts q) ->
  (forall t, w = Some t -> task_data_type t = 6050%Z) ->
  plugin_ok w0 (mkPlugin (own_pid p) r (det p) w d q ms (heard p ++ ts) (accepted p ++ drop (length (queue (recv p))) (queue r)) (taken p)).
Proof.
  intros [Ho Hq He Hd Hp Hw Ha Hr] Eq Hq' Hn Hd' Hp' Hw'. rewrite Eq, drop_app_length. split; cbn; try done.
  - by rewrite Ho, Eq, app_assoc.
  - rewrite one_time_app, asked_app. by apply sublist_app.
Qed.

Lemma ok_set_recv w0 r new p :
  plugin_ok w0 p -> queue r = queue (recv p) ++ new -> queue_ok r -> one_time new = [] -> plugin_ok w0 (set_recv r p).
Proof.
  intros Hok Eq Hq Hn. unfold set_recv. rewrite <- (app_nil_r (heard p)). pose proof Hok as [].
  apply (ok_push w0 r new []); try done. by rewrite Hn.
Qed.
Lemma ok_tell_exit w0 p : plugin_ok w0 p -> plugin_ok w0 (set_recv (tell_exit (recv p)) p).
Proof. intros Hok. pose proof Hok as []. apply (ok_set_recv w0 _ []); try done. by rewrite app_nil_r. Qed.
Lemma ok_jobs w0 d q p :
  plugin_ok w0 p -> sends_only (bs "6051") (c_acts d) -> sends_only (bs "6052") (c_acts q) -> plugin_ok w0 (set_jobs d q p).
Proof. intros [] Hd Hp. by split. Qed.

(** A message of the worker. *)
Lemma ok_worked w0 m h r w ts p :
  scanned C h -> m <> Detector.Job None ->
  queue (recv p) = ts ++ queue r -> ts = (match m with Detector.Job (Some t) => [t] | _ => [] end) ->
  queue_ok r -> (forall t, w = Some t -> task_data_type t = 6050%Z) -> plugin_ok w0 p -> plugin_ok w0 (worked C m h r w ts p).
Proof.
  intros Hh Hm Eq Ets Hq' Hw' [Ho Hq He Hd Hp Hw Ha (rs & Ew & Hk & Hs)]. split; cbn; try done.
  - by rewrite Ho, Eq, app_assoc.
  - by apply engine_keeps_step.
  - assert (Hf : Forall known (full_scan h)) by (eapply Forall_impl; [exact Hh|]; intros r0 (e & h' & t & E); by eapply worker_record_known).
    destruct (reports_step C h m Hf Hm (det p)) as (rs' & _ & Hrs & _ & Ew').
    exists (rs ++ rs'). rewrite Ew', Ew. unfold frames_of. rewrite map_app, concat_app, app_assoc.
    split; [done|]. rewrite answered_app, one_time_app. subst ts.
    assert (Hk0 : Forall known rs' -> Forall (fun r => known r \/ data_type r = 6003%Z) rs')
      by (intros Hf'; eapply Forall_impl; [exact Hf'|by left]).
    destruct m as [rd|[t|]|]; cbn [message_reports] in Hrs.
    + split; [apply Forall_app; auto|]. rewrite (answered_known rs') by done. by apply sublist_app.
    + case_bool_decide as Ht.
      * destruct Hrs as [->|(r0 & -> & H1 & H2)].
        { split; [by rewrite app_nil_r|]. apply sublist_app; [done|apply sublist_nil_l]. }
        split; [apply Forall_app; split; [done|]; apply Forall_singleton; by right|]. apply sublist_app; [done|].
        unfold answered, one_time. rewrite !filter_cons_True by done. cbn [map]. by rewrite H2.
      * split; [apply Forall_app; auto|]. rewrite (answered_known rs') by done. apply sublist_app; [done|apply sublist_nil_l].
    + done.
    + split; [apply Forall_app; auto|]. rewrite (answered_known rs') by done. by apply sublist_app.
Qed.

Lemma turn_ok w0 p p' : turn (W := W) C p p' -> plugin_ok w0 p -> plugin_ok w0 p'.
Proof.
  intros Ht Hok. pose proof Hok as [Ho Hq He Hd Hp Hw Ha Hr].
  destruct Ht as [hp t p' E|p' E|p' E|order fuel start confs acts _ E|p' E|order start now es acts _ E|v i ev p' E|i p' E|h p' Hs E|h p' Hs E|h p' Hs E|].
  - unfold task_turn in E. destruct (rules_wait p); [done|]. case_bool_decide as Et; injection E as <-.
    + split; try done; cbn; [by intros ? [= <-]|]. rewrite asked_app. by apply sublist_inserts_r.
    + destruct (handle_task_queue (own_pid p) hp true t (recv p)) as (new & Eq & Hn).
      refine (ok_push w0 _ new [t] None _ _ _ p Hok Eq _ Hn _ _ _); try done. by apply handle_task_ok.
  - unfold fail_turn in E. destruct (rules_wait p); [done|]. injection E as <-.
    by apply ok_tell_exit.
  - unfold dir_turn in E. apply bind_Some in E as ([c r] & E & [= <-]).
    destruct (cron_queue _ (bs "6051") _ _ _ _ E) as (Hc & Hr' & new & Eq & Hn); try done.
    apply ok_jobs; try done. by apply (ok_set_recv w0 r new).
  - apply ok_jobs; try done. by eapply dir_sends.
  - unfold proc_turn in E. apply bind_Some in E as ([c r] & E & [= <-]).
    destruct (cron_queue _ (bs "6052") _ _ _ _ E) as (Hc & Hr' & new & Eq & Hn); try done.
    apply ok_jobs; try done. by apply (ok_set_recv w0 r new).
  - apply ok_jobs; try done. by eapply proc_sends.
  - unfold monitor_turn in E. case_bool_decide; [|done]. case_bool_decide as Et; [|done]. injection E as <-.
    destruct (monitor_queue (own_pid p) v ev (recv p) Et Hq) as (new & Eq & Hn & Hq'). by apply (ok_set_recv w0 _ new).
  - unfold read_fails_turn in E. case_bool_decide; [|done]. injection E as <-. by apply ok_tell_exit.
  - unfold rules_turn in E. destruct (rules_wait p) as [t|] eqn:Ew; [|done]. injection E as <-.
    assert (Eq : queue (recv p) = queue (snd (handle_task C (own_pid p) true true t (recv p)))).
    { unfold handle_task. by rewrite !(Hw t eq_refl). }
    apply ok_worked; try done. by apply handle_task_ok.
  - unfold job_turn in E. destruct (queue (recv p)) as [|t q] eqn:Eq; [done|]. injection E as <-.
    apply ok_worked; try done. destruct Hq as [Hl Hj]. rewrite Eq in Hl, Hj. apply Forall_cons in Hj as [_ Hj].
    split; cbn in *; [lia|done].
  - unfold timeout_turn in E. destruct (queue (recv p)); [|done]. destruct (rules_wait p); [done|]. injection E as <-.
    by apply ok_worked.
  - destruct Hr as (rs & Hr). split; try done. by exists rs.
Qed.
End invariant.

(** ** Properties *)

Section properties.
Context {Engine : Type} (C : Crates Engine) `{CodedOutputLaws} {W : Type} `{!WalkDir W}.

Lemma plugin_runs_ok w0 p p' : rtc (pstep (W := W) C) p p' -> plugin_ok C w0 p -> plugin_ok C w0 p'.
Proof. induction 1 as [p|p1 p2 p3 [p2' _ Ht] _ IH]; [done|]. intros Hok. apply IH. by eapply turn_ok. Qed.

Lemma main_new pid c e s p s' :
  main C pid c e s = (Ret (Some p), s') ->
  pid_file e = true /\ lock_free e = true /\ exists dm, choose_manager C (detail e) = Ret dm
  /\ get (sha256_digest C) (hex C) (hex_decode C) (unzip C) (start_net e) dm s = (Ret tt, s') /\ p = Plugin_new pid c dm s'.
Proof.
  unfold main. destruct (pid_file e); [|done]. destruct (lock_free e); [|done]. cbn [negb]. intros E. split; [done|]. split; [done|].
  destruct (choose_manager C (detail e)) as [dm| |]; [|done..]. exists dm. split; [done|].
  destruct (get _ _ _ _ _ dm s) as [[[]| |] s1]; [|done..]. destruct (init_ok e); [|done]. by injection E as <- <-.
Qed.

Lemma new_ok pid c dm s : plugin_ok C (writer c) (Plugin_new pid c dm s).
Proof.
  split; try done; [split; [cbn; lia|done]|by constructor|by constructor|]. exists []. cbn. split; [by rewrite app_nil_r|]. split; [done|apply sublist_nil_l].
Qed.



(** A plugin starts only with the lock of the pid file and with an archive that its
    password opens; without the lock it touches nothing. *)
Theorem starts_alone pid c e s o s' :
  main C pid c e s = (Ret o, s') ->
  match o with
  | Some p => lock_free e = true /\ exists archive es,
      tmp s' ≫= (.!! zip_name (dbname (db_manager (det p)))) = Some archive
      /\ unzip C archive (passwd (db_manager (det p))) = Some es /\ fst (extract_entries es None) = true
  | None => lock_free e = false -> s' = s
  end.
Proof.
  intros E. destruct o as [p|].
  - apply main_new in E as (_ & Hl & dm & _ & Hg & ->). split; [done|]. cbn [db_manager det Plugin_new]. unfold get in Hg.
    destruct (load _ _ _ dm s) as [[[]| |] s1] eqn:El.
    { injection Hg as <-. apply load_ok in El as (_ & db & _ & archive & es & v & H1 & _ & H2 & H3 & _).
      exists archive, es. by rewrite H3. }
    all: apply sm_bind_inv in Hg as (? & s2 & _ & Hg); apply sm_bind_inv in Hg as (? & s3 & _ & Hg); apply sm_bind_inv in Hg as (? & s4 & E4 & Hg);
      injection E4 as _ <-; unfold extract in Hg; cbn [tmp dat] in Hg; destruct (tmp s3 ≫= _) as [archive|] eqn:Ea; [|done];
      destruct (unzip C archive (passwd dm)) as [es|] eqn:Eu; [|done]; destruct (extract_entries es None) as [[] d] eqn:Ee; [|done];
      injection Hg as <-; exists archive, es; by rewrite Ee.
  - intros Hl. unfold main in E. rewrite Hl in E. destruct (pid_file e); [|done]. by injection E as <-.
Qed.

(** A task of the agent without data. *)
Definition switch (ty : Z) : Task := mkTask ty [] [] [] [].

(** Switching the honeypots off can end the plugin: from every state of a run in
    which they are off, the agent's two tasks to switch them on and off lead to a
    state in which the main thread is told to exit; the thread of the monitor reads
    from the descriptor that was closed under it. *)
Theorem switching_off_exits p :
  exited p = false -> rules_wait p = None -> honeypot (recv p) = false ->
  exists p', rtc (pstep (W := W) C) p p' /\ heard p' = heard p ++ [switch 6051] ++ [switch 6052]
  /\ queue (recv p') = queue (recv p) /\ exited p' = true.
Proof.
  intros Hx Hw Hh.
  assert (E1 : task_turn C true (switch 6051) p =
    Some (set_monitors (monitors p ++ [true]) (set_recv (set_honeypot true (recv p)) (hear (switch 6051) None p)))).
  { unfold task_turn. rewrite Hw. unfold handle_task. cbn [task_data_type switch]. rewrite Hh. done. }
  set (p1 := set_monitors _ _) in E1.
  assert (E2 : task_turn C true (switch 6052) p1 =
    Some (set_monitors (map (fun _ => false) (monitors p1)) (set_recv (set_honeypot false (recv p1)) (hear (switch 6052) None p1)))) by done.
  set (p2 := set_monitors _ _) in E2.
  assert (E3 : read_fails_turn (length (monitors p)) p2 = Some (set_recv (tell_exit (recv p2)) p2)).
  { unfold read_fails_turn. rewrite bool_decide_eq_true_2; [done|]. cbn. rewrite list_lookup_fmap, list_lookup_middle; done. }
  exists (set_recv (tell_exit (recv p2)) p2). split.
  - eapply rtc_l; [apply step_turn; [done|by eapply TTask]|]. eapply rtc_l; [apply step_turn; [done|by eapply TTask]|].
    apply rtc_once, step_turn; [done|by eapply TReadFails].
  - cbn. by rewrite <- app_assoc.
Qed.
End properties.

(** ** A run *)

Definition plugin_crates : Crates (gmap bytes bytes) :=
  mkCrates _ id (fun _ b => b) (fun l => join_space l) id id Some sample_unzip (fun _ => Some sample_manager)
    (fun b => Some (<[bs "exe" := b]> ∅)) id.
Definition alone : Start := mkStart true true (Some (bs "{}")) sample_net true.
Definition an_agent : Client := mkClient [] true [].
Definition plugin0 : Plugin (gmap bytes bytes) := Plugin_new 77 an_agent sample_manager (snd (load id id sample_unzip sample_manager sample_disk)).
Definition scan_task : Task := mkTask 6053 [] (bs "/bin/x") (bs "tok") [].
(** The agent asks for a scan; the worker answers it. *)
Definition plugin1 : Plugin (gmap bytes bytes) := default plugin0 (task_turn plugin_crates true scan_task plugin0).
Definition plugin2 : Plugin (gmap bytes bytes) := default plugin1 (job_turn plugin_crates sample_host plugin1).

Lemma plugin_starts : main plugin_crates 77 an_agent alone sample_disk = (Ret (Some plugin0), snd (load id id sample_unzip sample_manager sample_disk)).
Proof. reflexivity. Qed.
Lemma plugin_runs : rtc (pstep (W := Listing) plugin_crates) plugin0 plugin2.
Proof.
  eapply rtc_l; [apply step_turn; [reflexivity|apply (TTask _ _ true scan_task plugin1); reflexivity]|].
  apply rtc_once, step_turn; [reflexivity|]. apply (TJob _ _ sample_host); [by constructor|reflexivity].
Qed.



Lemma switching_off_exits_witness :
  exists p', rtc (pstep (W := Listing) plugin_crates) plugin2 p' /\ heard p' = heard plugin2 ++ [switch 6051] ++ [switch 6052]
  /\ queue (recv p') = queue (recv plugin2) /\ exited p' = true.
Proof. exact (switching_off_exits plugin_crates plugin2 eq_refl eq_refl eq_refl). Defined.
