(* ===== verification/ScanFull.v ===== *)
(** * The threads of a full scan ([model/functional/fulldiskscan.rs]: FullScan)

    One thread walks the processes and the disk ([ScanJobs.full_scan_job]) and puts a
    task per file on a channel of 64; [FullScan] starts the workers one after the
    other, two seconds apart, and returns, which drops its own end of the channel.
    A worker ([ScanJobs.worker]) takes tasks until the channel is closed and empty,
    until it has waited 30 seconds for a task, or until it cannot send.  The
    detector joins all of them and reports that the scan is finished. *)

From S2P Require Import Prelude Bytes RustStd Bridge Client ScanEvents Updater Detector ScanJobs Honeypot ScanPlugin.

Definition FULL_CHANNEL : nat := 64.

Record Full := mkFull {
  todo : list DetectTask;        (** what the producer still finds *)
  producing : bool;              (** the producer runs: it holds the sender *)
  chan : list DetectTask;
  unspawned : nat;
  receiver : bool;               (** [FullScan] has not returned *)
  workers : list bool;           (** whether each worker still runs *)
  looked_at : list DetectTask;   (** taken by a worker *)
  lost : list DetectTask;        (** sent to nobody: an error that is logged *)
  gave_up : nat;                 (** workers that timed out or could not send *)
}.

Definition Full_new (worker_count : nat) (tasks : list DetectTask) : Full :=
  mkFull tasks true [] worker_count true [] [] [] 0.

Definition listened (s : Full) : bool := receiver s || existsb (fun b : bool => b) (workers s).

(** [sender.send(task)] waits for room as long as there is a receiver. *)
Definition produce_turn (s : Full) : option Full :=
  if producing s then
    match todo s with
    | [] => Some (mkFull [] false (chan s) (unspawned s) (receiver s) (workers s) (looked_at s) (lost s) (gave_up s))
    | t :: ts =>
        if listened s then
          if length (chan s) <? FULL_CHANNEL
          then Some (mkFull ts true (chan s ++ [t]) (unspawned s) (receiver s) (workers s) (looked_at s) (lost s) (gave_up s))
          else None
        else Some (mkFull ts true (chan s) (unspawned s) (receiver s) (workers s) (looked_at s) (lost s ++ [t]) (gave_up s))
    end
  else None.

Definition spawn_turn (s : Full) : option Full :=
  match unspawned s with
  | S n => Some (mkFull (todo s) (producing s) (chan s) n (receiver s) (workers s ++ [true]) (looked_at s) (lost s) (gave_up s))
  | 0 => if receiver s then Some (mkFull (todo s) (producing s) (chan s) 0 false (workers s) (looked_at s) (lost s) (gave_up s)) else None
  end.

(** [sent]: the report of a detection went through, or there was none. *)
Definition worker_turn (i : nat) (sent : bool) (s : Full) : option Full :=
  match workers s !! i with
  | Some true =>
      match chan s with
      | t :: q =>
          if sent then Some (mkFull (todo s) (producing s) q (unspawned s) (receiver s) (workers s) (looked_at s ++ [t]) (lost s) (gave_up s))
          else Some (mkFull (todo s) (producing s) q (unspawned s) (receiver s) (<[i := false]> (workers s)) (looked_at s ++ [t]) (lost s) (S (gave_up s)))
      | [] =>
          Some (mkFull (todo s) (producing s) [] (unspawned s) (receiver s) (<[i := false]> (workers s)) (looked_at s) (lost s)
                  (if producing s then S (gave_up s) else gave_up s))
      end
  | _ => None
  end.

Inductive fstep : Full -> Full -> Prop :=
  | FProduce s s' : produce_turn s = Some s' -> fstep s s'
  | FSpawn s s' : spawn_turn s = Some s' -> fstep s s'
  | FWorker i sent s s' : worker_turn i sent s = Some s' -> fstep s s'.

(** The joins of the detector return. *)
Definition finished (s : Full) : Prop := producing s = false /\ unspawned s = 0 /\ receiver s = false /\ existsb (fun b : bool => b) (workers s) = false.

(** ** Each file at most once *)

Definition alive (s : Full) : nat := length (List.filter (fun b : bool => b) (workers s)).

Lemma alive_end ws i : ws !! i = Some true -> S (length (List.filter (fun b : bool => b) (<[i := false]> ws))) = length (List.filter (fun b : bool => b) ws).
Proof.
  revert i. induction ws as [|b ws IH]; intros [|i]; [done|done| |].
  - by intros [= ->].
  - intros Hi. specialize (IH i Hi). change (<[S i := false]> (b :: ws)) with (b :: <[i := false]> ws). destruct b; cbn [List.filter length]; lia.
Qed.
Lemma alive_existsb ws : existsb (fun b : bool => b) ws = false <-> length (List.filter (fun b : bool => b) ws) = 0.
Proof. induction ws as [|[] ws IH]; cbn; [done| |done]. split; [done|lia]. Qed.

(** What is known of a scan of [tasks] with [n] workers: a worker that did not give up
    still runs, is still to come, or has seen the end of the channel. *)
Record full_ok (n : nat) (tasks : list DetectTask) (s : Full) : Prop := {
  fo_tasks : tasks = looked_at s ++ chan s ++ lost s ++ todo s;
  fo_chan : length (chan s) <= FULL_CHANNEL;
  fo_receiver : unspawned s <> 0 -> receiver s = true;
  fo_lost : lost s <> [] -> gave_up s = n /\ listened s = false;
  fo_done : producing s = false -> todo s = [];
  fo_workers : unspawned s + alive s + gave_up s <= n;
  fo_closed : unspawned s + alive s + gave_up s = n \/ (producing s = false /\ chan s = []);
}.

Lemma full_new_ok n tasks : full_ok n tasks (Full_new n tasks).
Proof. split; cbn; try done; [lia|lia|left; lia]. Qed.

Lemma produce_ok n tasks s s' : produce_turn s = Some s' -> full_ok n tasks s -> full_ok n tasks s'.
Proof.
  intros E [H1 H2 H3 H4 H5 H6 H7]. unfold produce_turn in E. destruct (producing s) eqn:Ep; [|done].
  destruct (todo s) as [|t ts] eqn:Et; [injection E as <-; split; cbn; try done; by left; destruct H7 as [|[]]|].
  destruct (listened s) eqn:El.
  - assert (Hl : lost s = []) by (destruct (lost s); [done|]; by destruct (H4 ltac:(done)) as [_ [=]]).
    destruct (Nat.ltb_spec (length (chan s)) FULL_CHANNEL); [|done]. injection E as <-. split; cbn; try done.
    + rewrite H1, Hl. cbn. by rewrite <- !app_assoc.
    + rewrite length_app. cbn. lia.
    + left. by destruct H7 as [|[]].
  - injection E as <-. split; cbn; try done.
    + rewrite H1. by rewrite <- !app_assoc.
    + intros _. split; [|done]. unfold listened in El. apply orb_false_iff in El as [Hr Hw]. apply alive_existsb in Hw.
      destruct H7 as [H7|[]]; [|done]. unfold alive in *. destruct (unspawned s); [lia|]. by rewrite H3 in Hr.
Qed.

Lemma spawn_ok n tasks s s' : spawn_turn s = Some s' -> full_ok n tasks s -> full_ok n tasks s'.
Proof.
  intros E [H1 H2 H3 H4 H5 H6 H7]. unfold spawn_turn in E. destruct (unspawned s) as [|k] eqn:Eu.
  - destruct (receiver s) eqn:Er; [|done]. injection E as <-. split; cbn; try done.
    intros Hl. destruct (H4 Hl) as [_ Hn]. unfold listened in Hn. by rewrite Er in Hn.
  - injection E as <-. assert (Ea : length (List.filter (fun b : bool => b) (workers s ++ [true])) = S (alive s)).
    { unfold alive. rewrite List.filter_app, length_app. cbn. lia. }
    split; cbn; unfold alive in *; cbn; rewrite ?Ea; try done; [intros _; by apply H3| |lia|destruct H7; [left; lia|by right]].
    intros Hl. destruct (H4 Hl) as [_ Hn]. unfold listened in Hn. by rewrite H3 in Hn.
Qed.

Lemma worker_ok n tasks i sent s s' : worker_turn i sent s = Some s' -> full_ok n tasks s -> full_ok n tasks s'.
Proof.
  intros E [H1 H2 H3 H4 H5 H6 H7]. unfold worker_turn in E. destruct (workers s !! i) as [[]|] eqn:Ei; [|done..].
  assert (Hl : lost s = []).
  { destruct (lost s) as [|t l]; [done|]. destruct (H4 ltac:(done)) as [_ Hn]. unfold listened in Hn. apply orb_false_iff in Hn as [_ Hn].
    apply alive_existsb in Hn. pose proof (alive_end _ _ Ei). lia. }
  pose proof (alive_end _ _ Ei) as Ha. destruct (chan s) as [|t q] eqn:Ec.
  - injection E as <-. split; cbn; unfold alive in *; cbn; rewrite ?Hl in *; try done; [by destruct (producing s); lia|].
    destruct (producing s) eqn:Ep; [left; destruct H7 as [|[]]; [lia|done]|by right].
  - destruct sent; injection E as <-; split; cbn; unfold alive in *; cbn; rewrite ?Hl in *; try done; try (cbn in H2; lia).
    + rewrite H1. by rewrite <- !app_assoc.
    + destruct H7 as [|[_ [=]]]. by left.
    + rewrite H1. by rewrite <- !app_assoc.
    + destruct H7 as [|[_ [=]]]. left. lia.
Qed.

Lemma fstep_ok n tasks s s' : fstep s s' -> full_ok n tasks s -> full_ok n tasks s'.
Proof. intros [? ? E|? ? E|? ? ? ? E]; [by eapply produce_ok|by eapply spawn_ok|by eapply worker_ok]. Qed.
Lemma runs_full_ok n tasks s : rtc fstep (Full_new n tasks) s -> full_ok n tasks s.
Proof.
  intros Hr. pose proof (full_new_ok n tasks) as H0. revert H0. induction Hr as [|s1 s2 s3 Hs _ IH]; [done|]. intros Hok. apply IH. by eapply fstep_ok.
Qed.

(** C13: however its threads interleave, a full scan looks at every file at most once
    and in the order of the walk, with at most 64 waiting; and when it is finished
    and not all of its workers gave up, it has looked at every file. *)
Theorem full_scan_complete n tasks s :
  rtc fstep (Full_new n tasks) s ->
  tasks = looked_at s ++ chan s ++ lost s ++ todo s /\ length (chan s) <= FULL_CHANNEL
  /\ (finished s -> gave_up s < n -> looked_at s = tasks).
Proof.
  intros [H1 H2 H3 H4 H5 H6 H7]%runs_full_ok. split; [done|]. split; [done|]. intros (Hp & Hu & Hr & Hw) Hg.
  apply alive_existsb in Hw. unfold alive in *. destruct H7 as [H7|[_ Hc]]; [lia|].
  assert (Hl : lost s = []) by (destruct (lost s); [done|]; destruct (H4 ltac:(done)); lia).
  by rewrite H1, Hc, Hl, (H5 Hp), app_nil_r.
Qed.

(** ** It ends *)

(** The turns that are left at most. *)
Definition turns_left (s : Full) : nat :=
  2 * length (todo s) + length (chan s) + (if producing s then 1 else 0) + 2 * unspawned s + (if receiver s then 1 else 0) + alive s.

Lemma fstep_left s s' : fstep s s' -> turns_left s' < turns_left s.
Proof.
  unfold turns_left, alive. intros [? ? E|? ? E|i ? ? ? E]; clear s s'; rename s0 into s.
  - unfold produce_turn in E. destruct (producing s) eqn:Ep; [|done]. destruct (todo s) as [|t ts]; [injection E as <-; cbn; lia|].
    destruct (listened s); [destruct (_ <? _); [|done]|]; injection E as <-; cbn; rewrite ?length_app; cbn; lia.
  - unfold spawn_turn in E. destruct (unspawned s) as [|k]; [destruct (receiver s); [|done]; injection E as <-; cbn; lia|].
    injection E as <-. cbn. rewrite List.filter_app, length_app. cbn. lia.
  - unfold worker_turn in E. destruct (workers s !! i) as [[]|] eqn:Ei; [|done..]. pose proof (alive_end _ _ Ei).
    destruct (chan s) as [|t q]; [injection E as <-; cbn; lia|]. destruct sent; injection E as <-; cbn; lia.
Qed.

Lemma alive_worker ws : existsb (fun b : bool => b) ws = true -> exists i, ws !! i = Some true.
Proof.
  intros (b & Hb & ->)%existsb_exists. apply list_elem_of_In in Hb. by apply list_elem_of_lookup_1.
Qed.

Lemma not_finished s : ~ finished s -> exists s', fstep s s'.
Proof.
  intros Hf. destruct (spawn_turn s) as [s'|] eqn:Es; [exists s'; by apply FSpawn|]. unfold spawn_turn in Es.
  destruct (unspawned s) eqn:Eu; [|done]. destruct (receiver s) eqn:Er; [done|]. clear Es.
  assert (Hw : forall i, workers s !! i = Some true -> exists s', fstep s s').
  { intros i Hi. destruct (worker_turn i true s) as [s'|] eqn:E; [exists s'; by apply (FWorker i true)|].
    unfold worker_turn in E. rewrite Hi in E. by destruct (chan s). }
  destruct (produce_turn s) as [s'|] eqn:Ep; [exists s'; by apply FProduce|]. unfold produce_turn, listened in Ep. rewrite Er in Ep. cbn [orb] in Ep.
  destruct (existsb (fun b : bool => b) (workers s)) eqn:Ew; [apply alive_worker in Ew as [i Hi]; by apply (Hw i)|].
  destruct (producing s) eqn:Epr; [by destruct (todo s)|]. by destruct Hf.
Qed.

(** C14: a full scan ends: every run takes at most a number of turns that its start
    determines, and it can only come to a halt when the producer and all workers
    have ended, so that the detector's joins return. *)
Theorem full_scan_ends s :
  (forall k s', nsteps fstep k s s' -> k <= turns_left s)
  /\ (forall s', rtc fstep s s' -> (forall s'', ~ fstep s' s'') -> finished s').
Proof.
  split.
  - intros k. revert s. induction k as [|k IH]; intros s s' Hn; [lia|]. inversion Hn as [|? ? s1 ? Hs Hn']; subst.
    apply IH in Hn'. apply fstep_left in Hs. lia.
  - intros s' _ Hno. assert (Hd : Decision (finished s')) by (unfold finished; apply _).
    destruct Hd as [Hd|Hd]; [done|]. destruct (not_finished s' Hd) as [s'' Hs]. by destruct (Hno s'').
Qed.

(** A full scan can finish without having looked at anything: when the producer finds
    no file for 30 seconds the workers time out, and all that it finds afterwards is
    sent to nobody; the detector reports that the scan is finished all the same. *)
Theorem full_scan_can_skip n tasks :
  exists s, rtc fstep (Full_new n tasks) s /\ finished s /\ looked_at s = [] /\ lost s = tasks.
Proof.
  pose (at_ ts pr u r ws l g := mkFull ts pr [] u r ws [] l g).
  assert (Hspawn : forall u ws, rtc fstep (at_ tasks true u true ws [] 0) (at_ tasks true 0 false (ws ++ replicate u true) [] 0)).
  { intros u. induction u as [|u IH]; intros ws.
    - cbn. rewrite app_nil_r. apply rtc_once. by apply FSpawn.
    - eapply rtc_l; [by apply FSpawn|]. cbn. specialize (IH (ws ++ [true])). rewrite <- app_assoc in IH. exact IH. }
  assert (Htime : forall k pre g, rtc fstep (at_ tasks true 0 false (pre ++ replicate k true) [] g) (at_ tasks true 0 false (pre ++ replicate k false) [] (g + k))).
  { intros k. induction k as [|k IH]; intros pre g; [rewrite Nat.add_0_r; apply rtc_refl|].
    apply (rtc_l _ _ (at_ tasks true 0 false ((pre ++ [false]) ++ replicate k true) [] (S g))).
    - apply (FWorker (length pre) true). unfold worker_turn, at_. cbn [workers chan replicate]. rewrite list_lookup_middle by done. cbn.
      rewrite insert_app_r_alt, Nat.sub_diag by done. by rewrite <- app_assoc.
    - specialize (IH (pre ++ [false]) (S g)). rewrite <- (app_assoc pre [false] (replicate k false)) in IH. cbn in IH |- *. by rewrite Nat.add_succ_r. }
  assert (Hlose : forall ts l ws g, existsb (fun b : bool => b) ws = false -> rtc fstep (at_ ts true 0 false ws l g) (at_ [] false 0 false ws (l ++ ts) g)).
  { intros ts. induction ts as [|t ts IH]; intros l ws g Hw.
    - rewrite app_nil_r. apply rtc_once. by apply FProduce.
    - eapply rtc_l; [|specialize (IH (l ++ [t]) ws g Hw); rewrite <- app_assoc in IH; exact IH].
      apply FProduce. unfold produce_turn, listened, at_. cbn. by rewrite Hw. }
  assert (Hno : existsb (fun b : bool => b) (replicate n false) = false) by (by induction n).
  exists (at_ [] false 0 false (replicate n false) tasks n). split; [|done].
  etransitivity; [apply (Hspawn n [])|]. etransitivity; [apply (Htime n [] 0)|]. by apply (Hlose tasks []).
Qed.

(** ** What the plugin gets of it *)

(** The records of a scan that looked at the files of [s]; they are what
    [ScanPlugin.scanned] asks of a host. *)
Definition full_records {Engine} (C : Crates Engine) `{CodedOutputStream} (e : Engine) (h : Host Engine) (s : Full) : list Record_ :=
  omap (worker_record C e h) (looked_at s).

Lemma full_records_scanned {Engine} (C : Crates Engine) `{CodedOutputStream} (e : Engine) (h : Host Engine) (s : Full) :
  full_scan h = full_records C e h s -> scanned C h.
Proof.
  intros E. unfold scanned. rewrite E. apply Forall_forall. intros r Hr. apply list_elem_of_omap in Hr as (t & _ & Ht). by exists e, h, t.
Qed.

(** ** A scan of two files by one worker *)

Definition two_files : list DetectTask := [sample_job "6051" "/bin/a"; sample_job "6051" "/bin/x"].
Definition scanned_two : Full := mkFull [] false [] 0 false [false] two_files [] 0.
Lemma one_worker_run a b : rtc fstep (Full_new 1 [a; b]) (mkFull [] false [] 0 false [false] [a; b] [] 0).
Proof.
  apply (rtc_l _ _ (mkFull [b] true [a] 1 true [] [] [] 0)); [by apply FProduce|].
  apply (rtc_l _ _ (mkFull [b] true [a] 0 true [true] [] [] 0)); [by apply FSpawn|].
  apply (rtc_l _ _ (mkFull [b] true [] 0 true [true] [a] [] 0)); [by apply (FWorker 0 true)|].
  apply (rtc_l _ _ (mkFull [b] true [] 0 false [true] [a] [] 0)); [by apply FSpawn|].
  apply (rtc_l _ _ (mkFull [] true [b] 0 false [true] [a] [] 0)); [by apply FProduce|].
  apply (rtc_l _ _ (mkFull [] false [b] 0 false [true] [a] [] 0)); [by apply FProduce|].
  apply (rtc_l _ _ (mkFull [] false [] 0 false [true] [a; b] [] 0)); [by apply (FWorker 0 true)|].
  apply rtc_once. by apply (FWorker 0 true).
Qed.

Lemma full_scan_complete_witness :
  (finished scanned_two /\ gave_up scanned_two < 1)
  /\ two_files = looked_at scanned_two ++ chan scanned_two ++ lost scanned_two ++ todo scanned_two
  /\ length (chan scanned_two) <= FULL_CHANNEL
  /\ (finished scanned_two -> gave_up scanned_two < 1 -> looked_at scanned_two = two_files).
Proof.
  split; [repeat split; cbn; lia|]. exact (full_scan_complete 1 two_files scanned_two (one_worker_run _ _)).
Defined.
