(* ===== verification/ScanCli.v ===== *)
(** * The command line scanner ([plugins/scanner/src/bin/scanner_cli.rs])

    [scanner_cli <path>] fetches the signature database as the plugin does
    ([ScanPlugin.choose_manager], [Updater.get]), builds an engine from what was
    extracted and scans a file, or every file below a directory.  What it prints is
    the detections, in order; the logger is left out. *)

From S2P Require Import Prelude Bytes RustStd Bridge ScanEvents Updater Detector ScanJobs Honeypot ScanPlugin.

(** What the tool is asked to scan; the path is looked at when the scan begins. *)
Inductive Target (W : Type) := TFile | TDir (w : W) | TOther.
Arguments TFile {W}. Arguments TDir {W}. Arguments TOther {W}.

(** How a run ends: it returns or exits, or it panics; with what it printed. *)
Record Printed := mkPrinted { found : list (bytes * Scan); panicked : bool }.

Section cli.
Context {Engine : Type} (C : Crates Engine) (h : Host Engine) {W : Type} `{!WalkDir W}.

(** The result of one scan; an error is logged. *)
Definition print_scan (e : Engine) (fpath : bytes) : list (bytes * Scan) :=
  match scan C h e fpath with
  | Some s => if bool_decide (ftype s = not_detected) then [] else [(fpath, s)]
  | None => []
  end.

(** [entry.path().is_dir()] *)
Definition entry_is_dir (en : Entry) : bool := match e_meta en with Some m => is_dir m | None => false end.

(** The loop over a directory; [None] when the fuel is used up. *)
Fixpoint cli_walk (e : Engine) (fuel : nat) (it : W) : option Printed :=
  match fuel with
  | 0 => None
  | S fuel =>
      match next it with
      | (None, _) => Some (mkPrinted [] false)
      | (Some None, _) => Some (mkPrinted [] true)
      | (Some (Some en), it) =>
          p ← cli_walk e fuel it;
          Some (if entry_is_dir en then p else mkPrinted (print_scan e (from_utf8_lossy (e_path en)) ++ found p) (panicked p))
      end
  end.

Definition cli_scan (e : Engine) (fpath : bytes) (fuel : nat) (t : Target W) : option Printed :=
  match t with
  | TFile => Some (mkPrinted (print_scan e fpath) false)
  | TDir w => cli_walk e fuel w
  | TOther => Some (mkPrinted [] false)
  end.

(** The engine of the tool: the database as [get] leaves it in ./dat. *)
Definition cli_engine (detail : option bytes) : SM Disk (option Engine) :=
  match choose_manager C detail with
  | Panic => sm_panic
  | Fail _ => mret None
  | Ret dm => fun s =>
      match get (sha256_digest C) (hex C) (hex_decode C) (unzip C) (net h) dm s with
      | (Ret _, s) => (Ret (new_engine C (dat s)), s)
      | (_, s) => (Ret None, s)
      end
  end.

(** [main]; [args] without the name of the program, [there] whether the path exists. *)
Definition cli_main (args : list bytes) (there : bool) (detail : option bytes) (fuel : nat) (t : Target W) : SM Disk (option Printed) :=
  match args with
  | [fpath] =>
      if there then
        o ← cli_engine detail;
        mret (match o with Some e => cli_scan e fpath fuel t | None => Some (mkPrinted [] false) end)
      else mret (Some (mkPrinted [] false))
  | _ => mret (Some (mkPrinted [] false))
  end.
End cli.

(** ** What is scanned *)

Section scanned.
Context {Engine : Type} (C : Crates Engine) (h : Host Engine) {W : Type} `{!WalkDir W} `{!WalkLaws W}.

(** The detections among the entries up to the first error of the walk. *)
Fixpoint detections (e : Engine) (es : list (option Entry)) : list (bytes * Scan) :=
  match es with
  | Some en :: es => (if entry_is_dir en then [] else print_scan C h e (from_utf8_lossy (e_path en))) ++ detections e es
  | _ => []
  end.

End scanned.

(** ** The database it scans with *)

Section database.
Context {Engine : Type} (C : Crates Engine).

(** The archive a host of the manager served together with its digest. *)
Definition served (net : Net) (dm : DBManager) (db : gmap bytes bytes) : Prop :=
  exists host archive es, host ∈ url dm /\ fetch (sha256_digest C) (hex_decode C) net host = Some archive
  /\ unzip C archive (passwd dm) = Some es /\ extract_entries es None = (true, Some db).

Lemma refetched net dm s s' db :
  (remove_tmp ;; download (sha256_digest C) (hex_decode C) net (url dm) ;; remove_dat ;; extract (unzip C) (dbname dm) (passwd dm)) s = (Ret tt, s') ->
  dat s' = Some db -> served net dm db.
Proof.
  intros Hg Hd. apply sm_bind_inv in Hg as ([] & s2 & E2 & Hg). injection E2 as <-.
  apply sm_bind_inv in Hg as ([] & s3 & Ed & Hg). apply sm_bind_inv in Hg as ([] & s4 & E4 & Hg). injection E4 as <-.
  unfold served, download in *. destruct (url dm) as [|u us]; [done|]. cbn [tmp] in Ed. destruct (can_create net); [|done].
  apply (download_loop_fetched _ _ (unzip C)) in Ed as (host & content & Hin & Hf & ->).
  unfold extract in Hg. cbn [tmp dat default mbind option_bind from_option id] in Hg.
  destruct (<[zip_name (last_segment u) := content]> ∅ !! zip_name (dbname dm)) as [archive|] eqn:Ea; [|done].
  apply lookup_insert_Some in Ea as [[_ ->]|[_ Ea]]; [|by rewrite lookup_empty in Ea].
  destruct (unzip C archive (passwd dm)) as [es|] eqn:Ez; [|done]. destruct (extract_entries es None) as [[] d] eqn:Ee; [|done].
  injection Hg as <-. cbn in Hd. subst d. by exists host, archive, es.
Qed.

(** The command line scanner scans with the files of an archive that was there and
    has the version and the hash its manager expects, or with those of one that a
    host of the manager served together with its digest; its own version and hash
    are not asked for then. *)
Theorem cli_database h detail s e s' :
  cli_engine C h detail s = (Ret (Some e), s') ->
  exists dm, choose_manager C detail = Ret dm
  /\ ((exists db, verified (sha256_digest C) (hex C) (unzip C) dm s' db /\ new_engine C (Some db) = Some e)
      \/ (exists db, served (net h) dm db /\ new_engine C (Some db) = Some e)
      \/ new_engine C None = Some e).
Proof.
  unfold cli_engine. destruct (choose_manager C detail) as [dm| |]; [|done..]. intros E. exists dm. split; [done|]. unfold get in E.
  destruct (load _ _ _ dm s) as [[[]| |] s1] eqn:El.
  { injection E as He <-. apply load_ok in El as (_ & db & Hd & Hv). rewrite Hd in He. left. eauto. }
  all: destruct ((remove_tmp ;; _) s1) as [[[]| |] s2] eqn:Er; [|done..]; injection E as He <-; right;
    (destruct (dat s2) as [db|] eqn:Hd; [|by right]); left; exists db; split; [|done]; by eapply refetched.
Qed.
End database.

(** ** Runs *)

Definition tree : Listing :=
  (None, [Some (mkEntry (bs "/d") true (Some (mkMeta true false 0 None None)) true);
          Some (mkEntry (bs "/d/a") false (Some (mkMeta false true 9 None None)) true);
          Some (mkEntry (bs "/d/x") false (Some (mkMeta false true 9 None None)) true)]).


Lemma cli_database_witness :
  exists e s', cli_engine plugin_crates sample_host (Some (bs "{}")) sample_disk = (Ret (Some e), s')
  /\ exists dm, choose_manager plugin_crates (Some (bs "{}")) = Ret dm
  /\ ((exists db, verified id id sample_unzip dm s' db /\ new_engine plugin_crates (Some db) = Some e)
      \/ (exists db, served plugin_crates (net sample_host) dm db /\ new_engine plugin_crates (Some db) = Some e)
      \/ new_engine plugin_crates None = Some e).
Proof.
  eexists _, _. split; [reflexivity|].
  refine (cli_database plugin_crates sample_host (Some (bs "{}")) sample_disk _ _ _). reflexivity.
Defined.

(** The check of the manager is not made after a download: a host that serves another
    version than the manager's gives the tool an engine, where [load] refuses it. *)
Theorem cli_takes_other_version :
  exists e s', cli_engine sample_crates sample_host None (mkDisk None None) = (Ret (Some e), s')
  /\ forall dm, default_manager = Ret dm -> fst (load id id sample_unzip dm s') = Fail IoError.
Proof. eexists _, _. split; [reflexivity|]. intros dm [= <-]. reflexivity. Qed.
